(* ===== verification/_CoqProject ===== *)
-Q . S2P
Prelude.v
JsString.v
View.v
JsAsync.v
Numbers.v
Timers.v
Poll.v
Http.v
Api.v
Busy.v
Joined.v
PolicyModel.v
DeviceNames.v
Credentials.v
Uri.v
Navigation.v
Notifications.v
Layout.v
PlainPages.v
Certificates.v
Clipboard.v
CheckScript.v
DomainList.v
GroupForm.v
GroupFormView.v
PolicyGroups.v
PolicyGroupsView.v
Stats.v
StatsView.v
Logs.v
LogsView.v
DeviceActivity.v
DeviceDetail.v
App.v
AppView.v
SessionSpec.v
Setup.v
SetupView.v
DeviceList.v
DeviceListView.v
DeviceDetailView.v
Home.v
HomeView.v
FilterEditor.v
FilterEditorView.v
DnsRecords.v
DnsRecordsView.v
Users.v
UsersView.v
SettingInput.v
SettingInputView.v
Json.v
GeneralSettings.v
GeneralView.v
DnsLists.v
DnsListsView.v
DnsStatus.v
DnsView.v
Settings.v
SettingsView.v
Ai.v
AiView.v
Toggle.v
ToggleView.v
FilterPage.v
FilterPageView.v
