(* ===== verification/Prelude.v ===== *)
(** * GateSentry administration UI

    A verification of the single-page administration interface of GateSentry,
    [ui/src] of the repository (TypeScript and Svelte).  The paths below are
    relative to [ui/src].

    ** The program

    The UI is a set of pages over one HTTP API.  [App.svelte] decides from the
    setup status and the stored token whether to show the setup page, the
    sign-in page or the administration frame, whose menu ([menu.ts]) leads to
    the pages.  All pages share one API client ([lib/api.ts]) held by a store
    ([store/apistore.ts]): it adds the token to each call and ends the session
    when the server answers 401.  Pages keep their data in component
    variables; handlers are [async] functions that suspend at each call, so
    they interleave with one another, with timers and with what the user does.

    ** The model

    A component is a file: a [Record] of its variables, one definition per
    function of the source under the same name; its template is a second file,
    named with [View].  Three styles are used for the code.

    - Pure code ([PolicyModel], [DeviceNames], [DomainList], [Credentials],
      [Navigation], [Clipboard], [CheckScript], [GroupForm]) is functions.
    - [async] handlers are programs of the free monad [JsAsync.prog] over the
      component's state, statement by statement, with [try_catch] and
      [finally].  [run] executes one handler against a server that may answer
      as it likes and depend on all that was asked before; [step] and
      [reachable] are the event loop, in which handlers interleave at their
      suspensions, and [wp] is the calculus for its invariants
      ([wp_given], [reachable_given]: with the answers restricted to a set, so
      that what a page shows can be traced to an answer).
    - Components whose behaviour lies in timers, flags and answers out of order
      ([Stats], [Logs], [DeviceActivity], [DnsStatus]) are step machines
      [event -> state -> option state], where [None] is an event that cannot
      happen, with reachability by rule induction.

    A template is a function from the state to a tree ([View.node]): elements
    with their attributes and handlers, [{#if}] as [shown] and [alt], [{#each}]
    as [each].  [View.offers] reads off the tree which events a user can raise:
    the element is shown, it is not disabled, and it is not in a closed dialog.
    [Layout] has the components that pages are laid out with, as trees with
    holes.  A page in the event loop ([Busy.loop_from]) is its [onMount]
    followed by any interleaving of events that its template offers, answers
    and timers.  The device dialog is two such parts side by side
    ([DeviceDetailView.panel_loop]): its own handlers, and the feed of
    [DeviceActivity], a machine with its own requests and timer.

    JavaScript: a string is the list of its UTF-16 code units ([JsString]); a
    thrown value is a [jserr]; [Timers] is [setTimeout] and [clearTimeout];
    [Http] is [fetch], [Promise.all] and the error texts of a response.  A
    suspension names what is awaited: one answer, the answers of a [Promise.all]
    in some order, the next of several answers that are due ([NextOf]), or an
    answer within a time, which the timer may forestall ([Within]).
    Numbers that the source keeps below 2^53 are [Z] or [nat].  Objects the
    source shares and mutates are shared: the one [AppAPI] with its header
    object is the [Session] that every page state embeds (class
    [Api.HasSession]), and so is the notification store
    ([Notifications.HasNotifications]).

    ** The files

    - [Prelude], [JsString], [JsAsync], [Numbers], [Timers], [Http], [Json]: the
      language and the browser.
    - [View], [Layout]: templates, and [components/layout], the dialogs and the
      menus of [components].  What a layout offers is what its slots offer; both
      menus lead to the links of [menu.ts].
    - [Busy]: the flags that say "saving" or "loading".  [single_flight]: a flag
      that is set before a request, cleared in [finally] and keeps its controls
      disabled lets at most one such request be under way; [page_rests]: when no
      more events come, a page receives finitely many answers and its flags end
      up clear.  Every [*_at_rest] theorem is an instance.
    - [Joined]: a [Promise.all] of requests and of a chain of reads that never
      rejects, all under way at once, as the policy page loads.
    - [Poll]: the single-flight poll that [Stats] and [Logs] share, with its
      invariant proved once.
    - [Api]: [lib/api.ts], [store/apistore.ts].  When a call succeeds, what a
      401 does, what is sent.
    - [App]: [App.svelte], [routes/login/login.svelte],
      [components/headerrightnav.svelte], [components/globalheader.svelte],
      [components/sidenavmenu.svelte].  What is shown after start-up, sign-in,
      sign-out and a 401.  [AppView]: what the shell offers, and that its
      notifications are only shown in the administration frame.
    - [SessionSpec]: the abstract sign-in machine, and the proof that the event
      loop of the shell, with calls of any page in flight, implements it; what a
      late 401 does.
    - [Navigation]: [lib/navigate.ts], [menu.ts].  At most one menu entry is
      active.
    - [PolicyModel], [GroupForm], [DomainList], [PolicyGroups]:
      [routes/rules].  The policy data, what a save sends for a draft and what
      is sent when a record is opened and saved unedited; the form as a machine
      that never throws and keeps its keyed lists free of duplicates;
      rule order, bedtime and schedules; loading, saving, deleting and
      assigning on the page, errors included; devices are partitioned.
      [GroupFormView]: the form's template offers exactly the inputs of that
      machine.  [PolicyGroupsView]: the page as used through its template: one
      write at a time as long as no tag is removed, rest, and the default
      policy stays.
    - [DeviceList], [DeviceActivity], [DeviceDetail], [DeviceNames]:
      [routes/devices] and [lib/devicenames.ts].  The inventory under
      overlapping reloads; the live activity never shows another device's rows
      and neither stops nor doubles; links and assignments.  [DeviceListView],
      [DeviceDetailView]: what the list and the dialog offer; one removal, one
      change of labels, policy and links at a time, also while the feed polls;
      what a policy saved before it was read does.
    - [Logs], [Stats]: [routes/logs], [routes/stats].  Polling is live, and what
      is shown answers the filters or the window shown.  [LogsView],
      [StatsView]: their templates offer what the machines accept.
    - [Home], [Setup], [Users]: [routes/home], [routes/setup], [routes/users].
      [HomeView], [SetupView], [UsersView]: their templates, and the pages at
      rest; what a save that outlives its dialog does.
    - [FilterEditor], [DnsRecords], [DnsLists], [DnsStatus], [SettingInput],
      [GeneralSettings]: the editors of [components] and [routes/dns].
      [FilterEditorView], [DnsRecordsView], [DnsListsView], [SettingInputView],
      [GeneralView], [DnsView]: their templates, one save at a time, rest, and
      what a save does to a list that could not be read.
    - [Ai], [Settings], [Toggle], [FilterPage]: [routes/ai], [routes/settings],
      [components/toggle.svelte] with [components/httpsToggle.svelte],
      [routes/filter].  [AiView], [SettingsView], [ToggleView],
      [FilterPageView]: their templates, and the pages at rest.
    - [Certificates]: the certificate fields of [components]; [PlainPages]: the
      pages that are a heading around one component.
    - [Notifications], [Clipboard], [Credentials], [Uri], [CheckScript]:
      [store/notifications.ts], [lib/utils.ts], [lib/clipboard.ts],
      [lib/credentials.ts], [encodeURIComponent], [ui/scripts/check.mjs].

    A theorem about a handler is stated for every server ([reply], any function
    of the requests so far) and says which requests are sent, in order, and
    what the state is on every outcome.

    ** Bounds and fuel

    [run] is structural on the handler's program and needs no fuel: a handler
    ends once its requests are answered.  In the event loop that becomes
    [Busy.answers_terminate]: the answers that are due form a well-founded
    relation, however they are ordered.  [Stats.scale] has fuel 4, one less
    than the number of units, which the source's loop bound also is.  The
    other recursions are structural.

    ** Parameters

    Code outside [ui/src] is a parameter: the translator of svelte-i18n,
    svelte-routing's [navigate], the collation of [localeCompare], [Date]
    parsing and printing, [toLocaleString], the [isIPv4] of the package is-ip,
    the browser of [Clipboard] and the svelte-check run of [CheckScript]; and [Math.log] in
    [Notifications.bytesToSize], whose precision the language leaves open.

    ** Not modelled

    Styles, and the attributes that only style an element; the inside of the
    carbon components, of which a template only says what they are given and
    which events they raise (so the sorting and searching of a data table, and
    focus, are left out); logging to the console; [main.ts], the registration
    of translations and the build configuration; the Go backend, of which only
    HTTP answers are seen, of any kind (it trims, lowers and refuses some of what
    it is sent, so that a body accepted is not the record read back).  Keyboard events of an input are the event they
    lead to: a default action that is not prevented is not followed. *)

From stdpp Require Export base list gmap strings fin_maps.
From Stdlib Require Export ZArith Lia ZifyBool.

Declare Scope js_scope.
Delimit Scope js_scope with js.

#[export] Set Default Goal Selector "!".
Create HintDb js discriminated.
Create Rewrite HintDb js.

(** ** Record update

    The handlers of the UI assign one component variable after another.  A
    state record registers its eta expansion once, as an instance of
    [Settable]; [s <| f := v |>] then copies [s] with the field [f] replaced. *)

Class Settable (R : Type) := eta_of : R → R.

Class Updatable {R T : Type} (p : R → T) := update_field : (T → T) → R → R.
Arguments update_field {R T} p {_} _ _ /.

Ltac derive_update :=
  lazymatch goal with
  | |- @Updatable ?R ?T ?p =>
      let e := constr:(_ : Settable R) in
      let e := eval hnf in e in
      lazymatch eval pattern p in e with
      | ?abs _ => exact (fun (f : T → T) => abs (fun r => f (p r)))
      end
  end.

#[export] Hint Extern 0 (Updatable _) => derive_update : typeclass_instances.

Notation "s <| p := v |>" := (update_field p (fun _ => v) s)
  (at level 1, left associativity, p at next level, v at level 200) : js_scope.
Notation "s <| p ::= f |>" := (update_field p f s)
  (at level 1, left associativity, p at next level, f at level 200) : js_scope.

(** ** Tactics *)

(** Splits every [match] and [if] scrutinee of the goal, with equations. *)
Ltac split_matches :=
  repeat match goal with
  | |- context [match ?x with _ => _ end] =>
      lazymatch x with
      | context [match _ with _ => _ end] => fail
      | _ => destruct x eqn:?
      end
  end.

(** Splits a boolean connective hypothesis into its parts. *)
Ltac split_bools :=
  repeat match goal with
  | H : _ && _ = true |- _ => apply andb_true_iff in H as [? ?]
  | H : _ || _ = false |- _ => apply orb_false_iff in H as [? ?]
  | H : negb _ = true |- _ => apply negb_true_iff in H
  | H : negb _ = false |- _ => apply negb_false_iff in H
  | H : bool_decide _ = true |- _ => apply bool_decide_eq_true in H
  | H : bool_decide _ = false |- _ => apply bool_decide_eq_false in H
  end.

(** Equality of a record variable with updates of it. *)
Ltac record_eq s := destruct s; cbv; reflexivity.

(** ** JavaScript array methods on lists *)

(** [!l.length]. *)
Definition is_nil {A} (l : list A) : bool := match l with [] => true | _ => false end.

Section Arrays.
Context {A : Type}.
Implicit Types (f : A → bool) (l : list A).

(** [Array.prototype.findIndex], with [None] for [-1]. *)
Fixpoint findIndex f l : option nat :=
  match l with
  | [] => None
  | x :: l' => if f x then Some 0 else S <$> findIndex f l'
  end.

(** [l.filter((_, position) => position !== index)]. *)
Definition removeAt (i : nat) l : list A := take i l ++ drop (S i) l.

(** [new Set(l)] read in insertion order: the first of equal entries stays. *)
Fixpoint setOf `{EqDecision A} (l : list A) : list A :=
  match l with
  | [] => []
  | x :: l' => x :: List.filter (fun y => bool_decide (y ≠ x)) (setOf l')
  end.

(** [Array.prototype.includes] at a type whose [===] is equality. *)
Definition includes `{EqDecision A} (l : list A) (x : A) : bool :=
  existsb (fun y => bool_decide (y = x)) l.

Lemma findIndex_Some f l i :
  findIndex f l = Some i →
  ∃ x, l !! i = Some x ∧ f x = true ∧ ∀ j y, j < i → l !! j = Some y → f y = false.
Proof.
  revert i. induction l as [|x l IH]; intros i H; simpl in H; [done|].
  destruct (f x) eqn:Hx; simplify_eq.
  - exists x. split_and!; [done..|]. intros; lia.
  - destruct (findIndex f l) as [k|] eqn:Hk; simplify_eq/=.
    destruct (IH k eq_refl) as (y & Hy & Hfy & Hmin).
    exists y. split_and!; [done..|]. intros [|j] z Hj Hz; simplify_eq/=; [done|].
    apply (Hmin j); [lia|done].
Qed.

Lemma findIndex_None f l : findIndex f l = None → ∀ x, x ∈ l → f x = false.
Proof.
  induction l as [|x l IH]; intros H y Hy; simpl in H; [by apply elem_of_nil in Hy|].
  destruct (f x) eqn:Hx; [done|].
  destruct (findIndex f l); [done|].
  apply elem_of_cons in Hy as [->|Hy]; eauto.
Qed.

Lemma find_Some_elem f l x : find f l = Some x → x ∈ l ∧ f x = true.
Proof. intros H. apply find_some in H as [H1 H2]. by rewrite list_elem_of_In. Qed.

Lemma find_None_elem f l x : find f l = None → x ∈ l → f x = false.
Proof. rewrite list_elem_of_In. intros. by eapply find_none. Qed.

Lemma includes_spec `{EqDecision A} l x : includes l x = true ↔ x ∈ l.
Proof.
  unfold includes. rewrite existsb_exists. split.
  - intros (y & Hy & H). case_bool_decide; subst; [|done]. by apply list_elem_of_In.
  - intros H. exists x. rewrite bool_decide_true by done.
    split; [by apply list_elem_of_In|done].
Qed.

Lemma includes_false `{EqDecision A} l x : includes l x = false ↔ x ∉ l.
Proof. rewrite <-includes_spec. destruct (includes l x); split; congruence. Qed.

Lemma elem_of_filter_b f l x : x ∈ List.filter f l ↔ x ∈ l ∧ f x = true.
Proof. by rewrite !list_elem_of_In, filter_In. Qed.

Lemma NoDup_filter_b f l : NoDup l → NoDup (List.filter f l).
Proof. rewrite !NoDup_ListNoDup. apply List.NoDup_filter. Qed.

Lemma NoDup_fmap_filter_b {B} (g : A → B) f l : NoDup (g <$> l) → NoDup (g <$> List.filter f l).
Proof.
  intros H. eapply sublist_NoDup; [exact H|]. apply fmap_sublist. clear.
  induction l as [|x l IH]; simpl; [constructor|]. destruct (f x); by constructor.
Qed.

Lemma filter_b_all f l : (∀ x, x ∈ l → f x = true) → List.filter f l = l.
Proof.
  induction l as [|x l IH]; intros H; [done|]. simpl.
  rewrite (H x) by (by left). f_equal. apply IH. intros y Hy. apply H. by right.
Qed.

Lemma filter_b_filter f l : List.filter f (List.filter f l) = List.filter f l.
Proof. apply filter_b_all. intros x. rewrite elem_of_filter_b. tauto. Qed.

Lemma elem_of_setOf `{EqDecision A} l x : x ∈ setOf l ↔ x ∈ l.
Proof.
  induction l as [|y l IH]; [done|]. simpl.
  rewrite !elem_of_cons, elem_of_filter_b, IH, bool_decide_eq_true.
  destruct (decide (x = y)); intuition congruence.
Qed.

Lemma NoDup_setOf `{EqDecision A} l : NoDup (setOf l).
Proof.
  induction l as [|y l IH]; [constructor|]. simpl. constructor.
  - rewrite elem_of_filter_b, bool_decide_eq_true. tauto.
  - by apply NoDup_filter_b.
Qed.

Lemma setOf_NoDup `{EqDecision A} l : NoDup l → setOf l = l.
Proof.
  induction 1 as [|y l Hy Hl IH]; [done|]. simpl. rewrite IH. f_equal.
  apply filter_b_all. intros x Hx. rewrite bool_decide_eq_true. by intros ->.
Qed.

Lemma removeAt_middle l1 x l2 : removeAt (length l1) (l1 ++ x :: l2) = l1 ++ l2.
Proof. induction l1 as [|y l1 IH]; [done|]. unfold removeAt in *. simpl. by f_equal. Qed.

Lemma removeAt_subseteq i l x : x ∈ removeAt i l → x ∈ l.
Proof.
  unfold removeAt. rewrite elem_of_app.
  intros [H|H]; [by apply elem_of_take in H as (? & ? & _); eapply list_elem_of_lookup_2|].
  apply list_elem_of_lookup in H as [j Hj]. rewrite lookup_drop in Hj.
  by eapply list_elem_of_lookup_2.
Qed.
End Arrays.

#[export] Hint Resolve NoDup_setOf NoDup_filter_b : js.
#[export] Hint Rewrite @elem_of_setOf @elem_of_filter_b @includes_spec @includes_false : js.

(** The value of a field that may be [undefined]: [o || d] at a type whose
    values are all truthy except the ones [d] stands for. *)
Definition or_default {A} (d : A) (o : option A) : A := from_option id d o.

(** A relation whose steps are steps of a well-founded one, seen through [f],
    ends too. *)
Lemma Acc_simulation {A B} (R : relation A) (Q : relation B) (f : A → B) :
  (∀ x y, R x y → Q (f x) (f y)) → ∀ x, Acc (flip Q) (f x) → Acc (flip R) x.
Proof.
  intros HR x Hx. remember (f x) as y eqn:E. revert x E.
  induction Hx as [y _ IH]. intros x ->. constructor. intros z Hz. by eapply IH; [apply HR, Hz|].
Qed.
