(* ===== verification/JsString.v ===== *)
(** * JavaScript strings

    A JavaScript string is the list of its UTF-16 code units, so [length],
    [slice] and [===] are those of lists.  [js] turns a literal of this
    development, which the source file holds in UTF-8, into code units; a
    character outside the basic plane becomes a surrogate pair.

    [trim] removes the white space and line terminators of ECMAScript.
    [toLowerCase] maps the ASCII letters and leaves every other code unit
    alone, so what the development states about it is about ASCII input. *)

From S2P Require Import Prelude.
From stdpp Require Export pretty.

Abbreviation jstr := (list N).

(** ** Literals and numbers *)

Fixpoint utf16_of_utf8 (l : list N) : jstr :=
  match l with
  | [] => []
  | b0 :: l0 =>
      if (b0 <? 0x80)%N then b0 :: utf16_of_utf8 l0 else
      match l0 with
      | [] => []
      | b1 :: l1 =>
          if (b0 <? 0xE0)%N then
            ((b0 - 0xC0) * 0x40 + (b1 - 0x80))%N :: utf16_of_utf8 l1 else
          match l1 with
          | [] => []
          | b2 :: l2 =>
              if (b0 <? 0xF0)%N then
                ((b0 - 0xE0) * 0x1000 + (b1 - 0x80) * 0x40 + (b2 - 0x80))%N
                  :: utf16_of_utf8 l2 else
              match l2 with
              | [] => []
              | b3 :: l3 =>
                  let c := ((b0 - 0xF0) * 0x40000 + (b1 - 0x80) * 0x1000 +
                            (b2 - 0x80) * 0x40 + (b3 - 0x80) - 0x10000)%N in
                  (0xD800 + c / 0x400)%N :: (0xDC00 + c mod 0x400)%N :: utf16_of_utf8 l3
              end
          end
      end
  end.

Definition js (s : string) : jstr := utf16_of_utf8 (Ascii.N_of_ascii <$> String.list_ascii_of_string s).

#[global] Arguments js _ : simpl never.

(** [String(n)] for an integer [n]. *)
Definition of_Z (n : Z) : jstr := js (pretty n).
Definition of_nat (n : nat) : jstr := of_Z (Z.of_nat n).

(** ** Truthiness *)

(** A string is falsy exactly when it is empty. *)
Definition truthy (s : jstr) : bool := match s with [] => false | _ => true end.

(** [s || d]. *)
Definition str_or (s d : jstr) : jstr := if truthy s then s else d.

(** [o || d] for a string that may be [undefined]. *)
Definition opt_or (o : option jstr) (d : jstr) : jstr :=
  match o with Some s => str_or s d | None => d end.

(** ** Characters *)

(** WhiteSpace and LineTerminator of ECMA-262. *)
Definition is_space (c : N) : bool :=
  bool_decide (c ∈ [0x9; 0xA; 0xB; 0xC; 0xD; 0x20; 0xA0; 0x1680; 0x2000; 0x2001;
    0x2002; 0x2003; 0x2004; 0x2005; 0x2006; 0x2007; 0x2008; 0x2009; 0x200A;
    0x2028; 0x2029; 0x202F; 0x205F; 0x3000; 0xFEFF]%N).

(** Without the slashes at either end. *)
Fixpoint dropSlashes (s : jstr) : jstr :=
  match s with c :: s' => if (c =? 47)%N then dropSlashes s' else s | [] => [] end.
Definition strip_slashes (s : jstr) : jstr := rev (dropSlashes (rev (dropSlashes s))).

Definition is_digit (c : N) : bool := (48 <=? c)%N && (c <=? 57)%N.
Definition lower_unit (c : N) : N := if (65 <=? c)%N && (c <=? 90)%N then (c + 32)%N else c.

(** ** String methods *)

Definition toLowerCase (s : jstr) : jstr := lower_unit <$> s.

Fixpoint trimStart (s : jstr) : jstr :=
  match s with
  | [] => []
  | c :: s' => if is_space c then trimStart s' else s
  end.
Definition trimEnd (s : jstr) : jstr := rev (trimStart (rev s)).
Definition trim (s : jstr) : jstr := trimEnd (trimStart s).

Fixpoint startsWith (p s : jstr) : bool :=
  match p, s with
  | [], _ => true
  | c :: p', d :: s' => (c =? d)%N && startsWith p' s'
  | _ :: _, [] => false
  end.

(** [s.indexOf(p)], with [None] for [-1]. *)
Fixpoint indexOf (p s : jstr) : option nat :=
  if startsWith p s then Some 0 else
  match s with
  | [] => None
  | _ :: s' => S <$> indexOf p s'
  end.

(** [s.includes(p)]. *)
Definition contains (p s : jstr) : bool := match indexOf p s with Some _ => true | None => false end.

(** [s.replace(p, r)] for a string [p] and an [r] without [$]: the first
    occurrence. *)
Definition replace (p r s : jstr) : jstr :=
  match indexOf p s with
  | Some i => take i s ++ r ++ drop (i + length p) s
  | None => s
  end.

(** [s.replace(/c/g, r)] for one character [c]. *)
Definition replace_all (c : N) (r s : jstr) : jstr :=
  flat_map (fun x => if (x =? c)%N then r else [x]) s.

(** [l.join(sep)]. *)
Fixpoint joinStr (sep : jstr) (l : list jstr) : jstr :=
  match l with
  | [] => []
  | [s] => s
  | s :: l' => s ++ sep ++ joinStr sep l'
  end.

(** [s.split(/[class]/)]: one separator character at a time. *)
Fixpoint splitOn (sep : N → bool) (s : jstr) : list jstr :=
  match s with
  | [] => [[]]
  | c :: s' =>
      if sep c then [] :: splitOn sep s'
      else match splitOn sep s' with
           | [] => [[c]]
           | w :: ws => (c :: w) :: ws
           end
  end.

(** [s.split(/[class]+/)]: a run of separators separates once. *)
Fixpoint splitOnRuns (sep : N → bool) (in_run : bool) (s : jstr) : list jstr :=
  match s with
  | [] => [[]]
  | c :: s' =>
      if sep c then
        if in_run then splitOnRuns sep true s' else [] :: splitOnRuns sep true s'
      else match splitOnRuns sep false s' with
           | [] => [[c]]
           | w :: ws => (c :: w) :: ws
           end
  end.

(** ** Lemmas *)

Lemma truthy_true s : truthy s = true ↔ s ≠ [].
Proof. by destruct s. Qed.

Lemma truthy_false s : truthy s = false ↔ s = [].
Proof. by destruct s. Qed.

Lemma str_or_id s : str_or s [] = s.
Proof. by destruct s. Qed.

Lemma str_or_truthy s d : truthy d = true → truthy (str_or s d) = true.
Proof. by destruct s. Qed.

Lemma startsWith_spec p s : startsWith p s = true ↔ ∃ t, s = p ++ t.
Proof.
  revert s. induction p as [|c p IH]; intros s; simpl; [split; eauto|].
  destruct s as [|d s]; [split; [done|by intros [t ?]]|].
  rewrite andb_true_iff, N.eqb_eq, IH. split.
  - intros [-> [t ->]]. by exists t.
  - intros [t Ht]. simplify_eq. eauto.
Qed.

Lemma indexOf_Some p s i :
  indexOf p s = Some i → ∃ a b, s = a ++ p ++ b ∧ length a = i.
Proof.
  revert i. induction s as [|c s IH]; intros i H; simpl in H.
  - destruct (startsWith p []) eqn:E; simplify_eq.
    apply startsWith_spec in E as [t ->]. by exists [], t.
  - destruct (startsWith p (c :: s)) eqn:E; simplify_eq.
    { apply startsWith_spec in E as [t ->]. by exists [], t. }
    destruct (indexOf p s) as [k|] eqn:Hk; simplify_eq/=.
    destruct (IH k eq_refl) as (a & b & -> & <-). by exists (c :: a), b.
Qed.

Lemma indexOf_None p s a b : indexOf p s = None → s ≠ a ++ p ++ b.
Proof.
  revert a. induction s as [|c s IH]; intros a H Heq; simpl in H.
  - destruct (startsWith p []) eqn:E; [done|]. destruct a, p; simplify_eq/=.
  - destruct (startsWith p (c :: s)) eqn:E; [done|].
    destruct (indexOf p s) eqn:Hk; [done|].
    destruct a as [|d a]; simplify_eq/=; [|by eapply IH].
    rewrite Heq in E. assert (startsWith p (p ++ b) = true) by (apply startsWith_spec; eauto).
    congruence.
Qed.

Lemma trimStart_head s c t : trimStart s = c :: t → is_space c = false.
Proof.
  induction s as [|d s IH]; intros H; simpl in H; [done|].
  destruct (is_space d) eqn:E; [auto|]. by simplify_eq.
Qed.

Lemma trimStart_suffix s : ∃ w, s = w ++ trimStart s ∧ Forall (fun c => is_space c = true) w.
Proof.
  induction s as [|c s (w & Hw & Hs)]; [by exists []|]. simpl.
  destruct (is_space c) eqn:E; [|by exists []].
  exists (c :: w). split; [simpl; congruence|by constructor].
Qed.

Lemma trimStart_id s : (∀ c t, s = c :: t → is_space c = false) → trimStart s = s.
Proof. destruct s as [|c s]; intros H; [done|]. simpl. by rewrite (H c s eq_refl). Qed.

Lemma trimEnd_prefix s : ∃ w, s = trimEnd s ++ w ∧ Forall (fun c => is_space c = true) w.
Proof.
  destruct (trimStart_suffix (rev s)) as (w & Hw & Hs). exists (rev w). split.
  - unfold trimEnd. rewrite <-rev_app_distr, <-Hw. by rewrite rev_involutive.
  - by apply Forall_rev.
Qed.

(** [trim] removes only white space, and what is left neither starts nor ends
    with any. *)
Lemma trim_split s :
  ∃ a b, s = a ++ trim s ++ b ∧ Forall (fun c => is_space c = true) (a ++ b).
Proof.
  destruct (trimStart_suffix s) as (a & Ha & Fa).
  destruct (trimEnd_prefix (trimStart s)) as (b & Hb & Fb).
  exists a, b. unfold trim. rewrite <-Hb, <-Ha. split; [done|].
  by apply Forall_app.
Qed.

Lemma trimEnd_last s c t : trimEnd s = t ++ [c] → is_space c = false.
Proof.
  unfold trimEnd. intros H. apply (f_equal (@rev N)) in H.
  rewrite rev_involutive, rev_app_distr in H. by apply trimStart_head in H.
Qed.

Lemma trimEnd_id s : (∀ c t, s = t ++ [c] → is_space c = false) → trimEnd s = s.
Proof.
  intros H. unfold trimEnd. rewrite trimStart_id; [apply rev_involutive|].
  intros c t Ht. apply (H c (rev t)). rewrite <-(rev_involutive s), Ht. done.
Qed.

Lemma trim_head s c t : trim s = c :: t → is_space c = false.
Proof.
  unfold trim. intros H. destruct (trimEnd_prefix (trimStart s)) as (w & Hw & _).
  rewrite H in Hw. by eapply trimStart_head.
Qed.

Lemma trim_idem s : trim (trim s) = trim s.
Proof.
  unfold trim at 1. rewrite trimStart_id by apply trim_head.
  apply trimEnd_id. intros c t. apply trimEnd_last.
Qed.

Lemma joinStr_nil sep : joinStr sep [] = [].
Proof. done. Qed.

Lemma joinStr_one sep s : joinStr sep [s] = s.
Proof. done. Qed.

Lemma joinStr_cons sep s t l : joinStr sep (s :: t :: l) = s ++ sep ++ joinStr sep (t :: l).
Proof. done. Qed.

Lemma joinStr_last sep l s : ∃ p, joinStr sep (l ++ [s]) = p ++ s.
Proof.
  induction l as [|w l [p Hp]]; [by exists []|]. destruct l as [|v l]; cbn [app] in *.
  - exists (w ++ sep). by rewrite joinStr_cons, joinStr_one, app_assoc.
  - rewrite joinStr_cons, Hp. exists (w ++ sep ++ p). by rewrite !app_assoc.
Qed.

Lemma splitOn_no_sep sep s w c : w ∈ splitOn sep s → c ∈ w → sep c = false.
Proof.
  revert w. induction s as [|d s IH]; intros w Hw Hc; simpl in Hw.
  - apply list_elem_of_singleton in Hw as ->. by apply elem_of_nil in Hc.
  - destruct (sep d) eqn:E.
    + apply elem_of_cons in Hw as [->|Hw]; [by apply elem_of_nil in Hc|eauto].
    + destruct (splitOn sep s) as [|v ws] eqn:Hs.
      { apply list_elem_of_singleton in Hw as ->.
        by apply list_elem_of_singleton in Hc as ->. }
      apply elem_of_cons in Hw as [->|Hw]; [|by apply (IH w); [right|]].
      apply elem_of_cons in Hc as [->|Hc]; [done|]. by apply (IH v); [left|].
Qed.

(** Joining with a separator that no piece contains can be undone. *)
Lemma splitOn_cons_word sep w s :
  Forall (fun c => sep c = false) w →
  splitOn sep (w ++ s) =
    match splitOn sep s with [] => [w] | v :: vs => (w ++ v) :: vs end.
Proof.
  induction 1 as [|c w Hc _ IH]; simpl; [by destruct s as [|d s]; simpl; repeat case_match|].
  rewrite Hc, IH. by destruct (splitOn sep s).
Qed.

Lemma splitOn_nonempty sep s : splitOn sep s ≠ [].
Proof. destruct s as [|c s]; simpl; repeat case_match; done. Qed.

Lemma splitOn_joinStr sep c l :
  sep c = true → l ≠ [] → Forall (Forall (fun d => sep d = false)) l →
  splitOn sep (joinStr [c] l) = l.
Proof.
  intros Hc Hl HF. induction HF as [|w l Hw HF IH]; [done|].
  destruct l as [|v l].
  - rewrite joinStr_one, <-(app_nil_r w) at 1. rewrite splitOn_cons_word by done. simpl.
    by rewrite app_nil_r.
  - rewrite joinStr_cons, splitOn_cons_word by done. cbn [app splitOn]. rewrite Hc, IH by done.
    by rewrite app_nil_r.
Qed.

Lemma splitOnRuns_no_sep sep b s w c : w ∈ splitOnRuns sep b s → c ∈ w → sep c = false.
Proof.
  revert w b. induction s as [|d s IH]; intros w b Hw Hc; simpl in Hw.
  - apply list_elem_of_singleton in Hw as ->. by apply elem_of_nil in Hc.
  - destruct (sep d) eqn:E.
    + destruct b; [eauto|].
      apply elem_of_cons in Hw as [->|Hw]; [by apply elem_of_nil in Hc|eauto].
    + destruct (splitOnRuns sep false s) as [|v ws] eqn:Hs.
      { apply list_elem_of_singleton in Hw as ->.
        by apply list_elem_of_singleton in Hc as ->. }
      apply elem_of_cons in Hw as [->|Hw]; [|by apply (IH w false); [rewrite Hs; right|]].
      apply elem_of_cons in Hc as [->|Hc]; [done|].
      by apply (IH v false); [rewrite Hs; left|].
Qed.

Lemma toLowerCase_idem s : toLowerCase (toLowerCase s) = toLowerCase s.
Proof.
  unfold toLowerCase. rewrite <-list_fmap_compose. apply list_fmap_ext. intros _ c _.
  unfold compose, lower_unit. repeat case_match; lia.
Qed.

Lemma toLowerCase_app s t : toLowerCase (s ++ t) = toLowerCase s ++ toLowerCase t.
Proof. apply fmap_app. Qed.

#[export] Hint Rewrite str_or_id trim_idem toLowerCase_idem toLowerCase_app : js.
#[export] Hint Resolve str_or_truthy : js.

Example js_ascii : js "ab" = [97; 98]%N.
Proof. reflexivity. Qed.
Example js_middle_dot : js "·" = [0xB7]%N.
Proof. reflexivity. Qed.
Example js_lock : js "🔒" = [0xD83D; 0xDD12]%N.
Proof. reflexivity. Qed.
Example trim_example : trim (js "  a b ") = js "a b".
Proof. reflexivity. Qed.
Example of_Z_example : of_Z (-120) = js "-120".
Proof. reflexivity. Qed.
