(* ===== verification/View.v ===== *)
(** * Templates

    The markup of a Svelte component as a function from its state to a tree:
    elements and components with their attributes, in the template's order,
    with [{#if}] as [shown] and [alt] and [{#each}] as [each].  What a template
    says about behaviour is which events its controls raise and when; [offers]
    reads it off the tree: an event is offered when an element with a handler
    for it is shown, is not disabled and is not inside a closed dialog.

    Attributes that only style an element (classes, sizes, icons, ids) are left
    out. *)

From S2P Require Import Prelude JsString.
Open Scope js_scope.

Section Tree.
Context {E : Type}.

Inductive attr :=
(* [name="text"] and [name={text}] *)
| Attr (name : string) (v : jstr)
| Flag (name : string) (b : bool)
(* [items] and [selectedIds] of a selection *)
| Items (items : list (jstr * jstr))
| Ids (name : string) (ids : list jstr)
| Disabled (b : bool)
(* [primaryButtonDisabled], of a dialog *)
| PrimaryDisabled (b : bool)
(* [open], of a dialog *)
| Open (b : bool)
| On (event : string) (e : E)
(* a handler that reads off the event a value the control can have, [bind:]
   included *)
| OnValue (event : string) {V : Type} (can : V → bool) (f : V → E).

Inductive node :=
| Text (s : jstr)
| El (tag : string) (attrs : list attr) (children : list node)
| Frag (children : list node)
(* [{#if b} ... {/if}] and [{#if b} ... {:else} ... {/if}] *)
| shown (b : bool) (n : list node)
| alt (b : bool) (n n' : list node)
(* [{#each l as x}]; and [{#if o}] for an object that may be missing *)
| each {A : Type} (l : list A) (f : A → list node)
| given {A : Type} (o : option A) (f : A → list node).

(** ** What is offered *)

Definition live (attrs : list attr) (event : string) : bool :=
  forallb (fun a => match a with
                    | Disabled b => negb b
                    | PrimaryDisabled b => negb (b && String.eqb event "submit")
                    | _ => true
                    end) attrs.

Definition is_open (attrs : list attr) : bool :=
  forallb (fun a => match a with Open b => b | _ => true end) attrs.

Fixpoint attr_offers (attrs l : list attr) (e : E) : Prop :=
  match l with
  | [] => False
  | On event e' :: l' => (live attrs event = true ∧ e = e') ∨ attr_offers attrs l' e
  | OnValue event can f :: l' =>
      (live attrs event = true ∧ ∃ v, e = f v ∧ can v = true) ∨ attr_offers attrs l' e
  | _ :: l' => attr_offers attrs l' e
  end.

Definition any_of {A} (P : A → Prop) : list A → Prop :=
  fix go l := match l with [] => False | x :: l' => P x ∨ go l' end.

Fixpoint offers (n : node) (e : E) : Prop :=
  match n with
  | Text _ => False
  | El _ attrs children =>
      is_open attrs = true ∧ (attr_offers attrs attrs e ∨ any_of (fun c => offers c e) children)
  | Frag children => any_of (fun c => offers c e) children
  | shown b n => b = true ∧ any_of (fun c => offers c e) n
  | alt b n n' =>
      (b = true ∧ any_of (fun c => offers c e) n) ∨ (b = false ∧ any_of (fun c => offers c e) n')
  | each l f => ∃ x, x ∈ l ∧ any_of (fun c => offers c e) (f x)
  | given o f => ∃ x, o = Some x ∧ any_of (fun c => offers c e) (f x)
  end.

Lemma any_of_Exists {A} (P : A → Prop) l : any_of P l ↔ Exists P l.
Proof.
  induction l as [|x l IH]; simpl; [by rewrite Exists_nil|]. by rewrite Exists_cons, IH.
Qed.

Lemma offers_alt_dec (P : Prop) `{!Decision P} n n' e :
  offers (alt (bool_decide P) n n') e ↔
  (P ∧ any_of (fun c => offers c e) n) ∨ (¬ P ∧ any_of (fun c => offers c e) n').
Proof. cbn [offers]. by rewrite bool_decide_eq_true, bool_decide_eq_false. Qed.

Lemma any_of_single n e : any_of (fun c => offers c e) [n] ↔ offers n e.
Proof. cbn [any_of]. tauto. Qed.

(** ** What is shown *)

(** The texts of the tree in reading order: text nodes and attributes. *)
Fixpoint texts (n : node) : list jstr :=
  match n with
  | Text s => [s]
  | El _ attrs children =>
      if is_open attrs then
        omap (fun a => match a with Attr _ v => Some v | _ => None end) attrs ++ flat_map texts children
      else []
  | Frag children => flat_map texts children
  | shown b n => if b then flat_map texts n else []
  | alt b n n' => if b then flat_map texts n else flat_map texts n'
  | each l f => flat_map (fun x => flat_map texts (f x)) l
  | given o f => match o with Some x => flat_map texts (f x) | None => [] end
  end.

(** Induction that reaches the children. *)
Section NodeInd.
Context (P : node → Prop).
Context (HT : ∀ s, P (Text s)) (HE : ∀ tag attrs l, Forall P l → P (El tag attrs l)).
Context (HF : ∀ l, Forall P l → P (Frag l)) (HS : ∀ b l, Forall P l → P (shown b l)).
Context (HA : ∀ b l l', Forall P l → Forall P l' → P (alt b l l')).
Context (HC : ∀ A (l : list A) f, (∀ x, Forall P (f x)) → P (each l f)).
Context (HG : ∀ A (o : option A) f, (∀ x, Forall P (f x)) → P (given o f)).

Fixpoint node_nested_ind (n : node) : P n :=
  let all := fix all l : Forall P l :=
    match l with
    | [] => Forall_nil_2 P
    | c :: l' => Forall_cons_2 P c l' (node_nested_ind c) (all l')
    end in
  match n with
  | Text s => HT s
  | El tag attrs l => HE tag attrs l (all l)
  | Frag l => HF l (all l)
  | shown b l => HS b l (all l)
  | alt b l l' => HA b l l' (all l) (all l')
  | each l f => HC _ l f (fun x => all (f x))
  | given o f => HG _ o f (fun x => all (f x))
  end.
End NodeInd.
End Tree.

Arguments attr E : clear implicits.
Arguments node E : clear implicits.

Definition txt {E} (s : string) : node E := Text (js s).
Definition lit {E} (name s : string) : attr E := Attr name (js s).
Definition OnAny {E V} (event : string) (f : V → E) : attr E := OnValue event (fun _ => true) f.

(** What [{expr}] prints when the expression may be undefined. *)
Definition printed (o : option jstr) : jstr := default (js "undefined") o.

(** A component of this repository inside another: its events are wrapped. *)
Section Embed.
Context {E F : Type} (wrap : E → F).

Definition embed_attr (a : attr E) : attr F :=
  match a with
  | Attr n v => Attr n v
  | Flag n b => Flag n b
  | Items l => Items l
  | Ids n l => Ids n l
  | Disabled b => Disabled b
  | PrimaryDisabled b => PrimaryDisabled b
  | Open b => Open b
  | On event e => On event (wrap e)
  | OnValue event can f => OnValue event can (fun v => wrap (f v))
  end.

Fixpoint embed (n : node E) : node F :=
  match n with
  | Text s => Text s
  | El tag attrs children => El tag (embed_attr <$> attrs) (embed <$> children)
  | Frag children => Frag (embed <$> children)
  | shown b n => shown b (embed <$> n)
  | alt b n n' => alt b (embed <$> n) (embed <$> n')
  | each l f => each l (fun x => embed <$> f x)
  | given o f => given o (fun x => embed <$> f x)
  end.

Lemma live_embed attrs event : live (embed_attr <$> attrs) event = live attrs event.
Proof.
  unfold live. induction attrs as [|[] l IH]; cbn [fmap list_fmap forallb embed_attr];
    by rewrite ?IH.
Qed.

Lemma is_open_embed attrs : is_open (embed_attr <$> attrs) = is_open attrs.
Proof.
  unfold is_open. induction attrs as [|[] l IH]; cbn [fmap list_fmap forallb embed_attr];
    by rewrite ?IH.
Qed.

Lemma attr_offers_embed attrs l e :
  attr_offers (embed_attr <$> attrs) (embed_attr <$> l) e ↔ ∃ e', e = wrap e' ∧ attr_offers attrs l e'.
Proof.
  induction l as [|[] l IH]; cbn [fmap list_fmap embed_attr attr_offers]; rewrite ?live_embed, ?IH;
    naive_solver.
Qed.

Lemma any_of_embed l e :
  Forall (fun n => offers (embed n) e ↔ ∃ e', e = wrap e' ∧ offers n e') l →
  any_of (fun c => offers c e) (embed <$> l) ↔ ∃ e', e = wrap e' ∧ any_of (fun c => offers c e') l.
Proof.
  induction 1 as [|c l Hc _ IH]; cbn [fmap list_fmap any_of]; [naive_solver|].
  rewrite Hc, IH. naive_solver.
Qed.

Lemma offers_embed (n : node E) e : offers (embed n) e ↔ ∃ e', e = wrap e' ∧ offers n e'.
Proof.
  induction n as [s|tag attrs l IH|l IH|b l IH|b l l' IH IH'|A l f IH|A o f IH] using node_nested_ind;
    cbn [embed offers].
  - naive_solver.
  - rewrite is_open_embed, attr_offers_embed, (any_of_embed l e IH). naive_solver.
  - by apply any_of_embed.
  - rewrite (any_of_embed l e IH). naive_solver.
  - rewrite (any_of_embed l e IH), (any_of_embed l' e IH'). naive_solver.
  - setoid_rewrite (λ x, any_of_embed (f x) e (IH x)). naive_solver.
  - setoid_rewrite (λ x, any_of_embed (f x) e (IH x)). naive_solver.
Qed.
End Embed.

(** Turns the claim that a tree offers an event into the cases in which it
    does. *)
Ltac view_simpl :=
  cbn [offers any_of attr_offers live is_open forallb andb negb txt lit OnAny];
  cbn [String.eqb Ascii.eqb Bool.eqb andb negb].

(** Proves [offers n (wrap e) ↔ match e with ... end]: every control that the
    tree offers is in the table, and every event of the table has a control. *)
Ltac view_destruct :=
  repeat match goal with
  | H : _ ∨ _ |- _ => destruct H
  | H : _ ∧ _ |- _ => destruct H
  | H : ∃ _, _ |- _ => destruct H
  | H : False |- _ => destruct H
  | H : true = true |- _ => clear H
  end.
Ltac view_find :=
  match goal with
  | |- _ ∧ _ => split; view_find
  | |- _ ∨ _ => first [left; view_find | right; view_find]
  | |- ∃ _, _ => eexists; view_find
  | |- False => fail
  | |- _ => first [reflexivity | eassumption | solve [eauto]]
  end.
Ltac view_table e :=
  split;
    [ intros; view_destruct; simplify_eq/=; try done; eauto 10
    | destruct e; try (intros []; fail); intros; simplify_eq/=; view_destruct; subst; try done; try view_find ].
