(* ===== verification/JsAsync.v ===== *)
(** * Asynchronous handlers

    An [async] function of the UI is a program over the component's state: it
    reads and assigns component variables, throws, and suspends at an [await].
    [prog] is the free monad of these effects, so a handler below is written
    statement by statement as in the source, with [try_catch] and [finally].

    A program has two semantics.  [run] executes one handler to completion
    against a server, which answers each request and may change its own state;
    [run] is total, so a handler returns as soon as every request is answered.
    [step] is the event loop: user events start handlers, pending requests are
    answered in any order, and each stretch of code between two suspensions is
    atomic.  [wp] is the rely-guarantee calculus for invariants of [step]. *)

From S2P Require Import Prelude JsString.

(** ** Errors *)

Record jserr := JsErr { is_Error : bool; err_name : jstr; message : jstr }.

#[export] Instance jserr_eq_dec : EqDecision jserr.
Proof. solve_decision. Defined.

Definition Error (m : jstr) : jserr := JsErr true (js "Error") m.

(** The engine's own exception for reading a property of [undefined]; its text
    is not specified by ECMA-262. *)
Definition TypeError : jserr := JsErr true (js "TypeError") (js "TypeError").

(** [err instanceof Error ? err.message : fallback]. *)
Definition message_or (e : jserr) (fallback : jstr) : jstr :=
  if is_Error e then message e else fallback.

(** [err instanceof Error && err.message ? err.message : fallback]. *)
Definition nonempty_message_or (e : jserr) (fallback : jstr) : jstr :=
  if is_Error e && truthy (message e) then message e else fallback.

Definition result (A : Type) : Type := jserr + A.

(** ** Programs *)

Section Prog.
Context {S Rq : Type} {Rs : Rq → Type}.

Inductive prog (A : Type) : Type :=
| Ret (a : A)
| Throw (e : jserr)
| Get (k : S → prog A)
| Put (s : S) (p : prog A)
| Await (q : Rq) (k : Rs q → prog A).

#[global] Arguments Ret {A} a.
#[global] Arguments Throw {A} e.
#[global] Arguments Get {A} k.
#[global] Arguments Put {A} s p.
#[global] Arguments Await {A} q k.

(** Continues with [f] on either way of leaving [p]. *)
Fixpoint settle {A B} (p : prog A) (f : result A → prog B) : prog B :=
  match p with
  | Ret a => f (inr a)
  | Throw e => f (inl e)
  | Get k => Get (fun s => settle (k s) f)
  | Put s p => Put s (settle p f)
  | Await q k => Await q (fun r => settle (k r) f)
  end.

Definition of_result {A} (o : result A) : prog A :=
  match o with inl e => Throw e | inr a => Ret a end.

#[global] Instance prog_ret : MRet prog := fun A a => Ret a.
#[global] Instance prog_bind : MBind prog := fun A B f p =>
  settle p (fun o => match o with inl e => Throw e | inr a => f a end).

(** [try { p } catch (e) { h(e) }]. *)
Definition try_catch {A} (p : prog A) (h : jserr → prog A) : prog A :=
  settle p (fun o => match o with inl e => h e | inr a => Ret a end).

(** [try { p } finally { f }]. *)
Definition finally {A} (p : prog A) (f : prog unit) : prog A :=
  settle p (fun o => settle f (fun o' =>
    match o' with inl e => Throw e | inr _ => of_result o end)).

Definition get : prog S := Get Ret.
Definition modify (f : S → S) : prog unit := Get (fun s => Put (f s) (Ret ())).
Definition await (q : Rq) : prog (Rs q) := Await q Ret.
Definition when (b : bool) (p : prog unit) : prog unit := if b then p else Ret ().

(** [for (const x of l) body(x)]. *)
Fixpoint for_of {A} (l : list A) (body : A → prog unit) : prog unit :=
  match l with
  | [] => Ret ()
  | x :: l' => mbind (fun _ => for_of l' body) (body x)
  end.

(** ** One handler against a server *)

Section Run.
Context {W : Type} (answer : W → ∀ q : Rq, Rs q * W).

Fixpoint run {A} (p : prog A) (s : S) (w : W) : result A * S * W :=
  match p with
  | Ret a => (inr a, s, w)
  | Throw e => (inl e, s, w)
  | Get k => run (k s) s w
  | Put s' p => run p s' w
  | Await q k => let '(r, w') := answer w q in run (k r) s w'
  end.

Lemma run_settle {A B} (p : prog A) (f : result A → prog B) s w :
  run (settle p f) s w = let '(o, s', w') := run p s w in run (f o) s' w'.
Proof.
  revert s w. induction p as [a|e|k IH|s0 p IH|q k IH]; intros s w; simpl; auto.
  destruct (answer w q) as [r w']. apply IH.
Qed.

Lemma run_bind {A B} (p : prog A) (f : A → prog B) s w :
  run (p ≫= f) s w =
    match run p s w with
    | (inr a, s', w') => run (f a) s' w'
    | (inl e, s', w') => (inl e, s', w')
    end.
Proof.
  unfold mbind, prog_bind. rewrite run_settle.
  by destruct (run p s w) as [[[e|a] s'] w'].
Qed.

Lemma run_try_catch {A} (p : prog A) h s w :
  run (try_catch p h) s w =
    match run p s w with
    | (inr a, s', w') => (inr a, s', w')
    | (inl e, s', w') => run (h e) s' w'
    end.
Proof.
  unfold try_catch. rewrite run_settle. by destruct (run p s w) as [[[e|a] s'] w'].
Qed.

Lemma run_finally_modify {A} (p : prog A) f s w :
  run (finally p (modify f)) s w =
    let '(o, s', w') := run p s w in (o, f s', w').
Proof.
  unfold finally. rewrite run_settle. destruct (run p s w) as [[[e|a] s'] w']; done.
Qed.

Lemma run_modify f s w : run (modify f) s w = (inr (), f s, w).
Proof. done. Qed.
End Run.

(** ** The event loop *)

Record thread := Thread { th_request : Rq; th_resume : Rs th_request → prog unit }.

(** Runs to the next suspension; an exception that leaves a handler is an
    unhandled rejection and ends it. *)
Fixpoint advance (p : prog unit) (s : S) : S * option thread :=
  match p with
  | Ret _ | Throw _ => (s, None)
  | Get k => advance (k s) s
  | Put s' p => advance p s'
  | Await q k => (s, Some (Thread q k))
  end.

Section Loop.
Context {Ev : Type} (enabled : Ev → S → Prop) (handler : Ev → prog unit).

Inductive step : S * list thread → S * list thread → Prop :=
| step_event e s s' ts t :
    enabled e s → advance (handler e) s = (s', t) →
    step (s, ts) (s', ts ++ option_list t)
| step_answer q k (r : Rs q) s s' ts1 ts2 t :
    advance (k r) s = (s', t) →
    step (s, ts1 ++ Thread q k :: ts2) (s', ts1 ++ option_list t ++ ts2).

Inductive reachable (s0 : S) : S * list thread → Prop :=
| reach_init : reachable s0 (s0, [])
| reach_step c c' : reachable s0 c → step c c' → reachable s0 c'.

(** The same where the answers that come are among those [given]: what is shown
    can then be traced to an answer. *)
Inductive step_given (given : ∀ q, Rs q → Prop) : S * list thread → S * list thread → Prop :=
| given_event e s s' ts t :
    enabled e s → advance (handler e) s = (s', t) →
    step_given given (s, ts) (s', ts ++ option_list t)
| given_answer q k (r : Rs q) s s' ts1 ts2 t :
    given q r → advance (k r) s = (s', t) →
    step_given given (s, ts1 ++ Thread q k :: ts2) (s', ts1 ++ option_list t ++ ts2).

Inductive reachable_given (given : ∀ q, Rs q → Prop) (s0 : S) : S * list thread → Prop :=
| reach_given_init : reachable_given given s0 (s0, [])
| reach_given_step c c' :
    reachable_given given s0 c → step_given given c c' → reachable_given given s0 c'.

Lemma reachable_any s0 c : reachable s0 c → reachable_given (fun _ _ => True) s0 c.
Proof.
  induction 1 as [|c c' _ IH Hs]; [constructor|]. eapply reach_given_step; [exact IH|].
  destruct Hs; [by eapply given_event|by eapply given_answer].
Qed.
End Loop.

(** ** Invariants of the event loop *)

Section Wp.
Context (given : ∀ q, Rs q → Prop) (I : S → Prop).

(** Every state in which [p] suspends satisfies [I], provided the states it
    is resumed in do and its answers are [given], and it is left in a state
    that satisfies [Q]. *)
Fixpoint wp_given {A} (p : prog A) (Q : result A → S → Prop) (s : S) : Prop :=
  match p with
  | Ret a => Q (inr a) s
  | Throw e => Q (inl e) s
  | Get k => wp_given (k s) Q s
  | Put s' p => wp_given p Q s'
  | Await q k => I s ∧ ∀ r s', I s' → given q r → wp_given (k r) Q s'
  end.

Definition keeps_given (p : prog unit) : Prop := ∀ s, I s → wp_given p (fun _ s' => I s') s.

Lemma wp_settle {A B} (p : prog A) (f : result A → prog B) Q s :
  wp_given p (fun o s' => wp_given (f o) Q s') s → wp_given (settle p f) Q s.
Proof.
  revert s. induction p as [a|e|k IH|s0 p IH|q k IH]; intros s H; simpl in *; auto.
  destruct H as [HI H]. split; [done|]. intros r s' Hs Hg. apply IH. by apply H.
Qed.

Lemma wp_mono {A} (p : prog A) (Q Q' : result A → S → Prop) s :
  (∀ o s', Q o s' → Q' o s') → wp_given p Q s → wp_given p Q' s.
Proof.
  intros HQ. revert s. induction p as [a|e|k IH|s0 p IH|q k IH]; intros s; simpl; auto.
  intros [HI H]. split; [done|]. intros r s' Hs Hg. apply IH. by apply H.
Qed.

Lemma wp_bind {A B} (p : prog A) (f : A → prog B) Q s :
  wp_given p (fun o s' => match o with inr a => wp_given (f a) Q s' | inl e => Q (inl e) s' end) s →
  wp_given (p ≫= f) Q s.
Proof.
  intros H. apply wp_settle. eapply wp_mono; [|exact H]. by intros [e|a].
Qed.

Lemma wp_finally_modify {A} (p : prog A) f Q s :
  wp_given p (fun o s' => Q o (f s')) s → wp_given (finally p (modify f)) Q s.
Proof.
  intros H. apply wp_settle. eapply wp_mono; [|exact H]. by intros [e|a].
Qed.

Lemma wp_try_catch {A} (p : prog A) h Q s :
  wp_given p (fun o s' => match o with inr a => Q (inr a) s' | inl e => wp_given (h e) Q s' end) s →
  wp_given (try_catch p h) Q s.
Proof.
  intros H. apply wp_settle. eapply wp_mono; [|exact H]. by intros [e|a].
Qed.

Lemma wp_for_of {A} (l : list A) (body : A → prog unit) (J : S → Prop) Q s :
  (∀ x s', J s' → wp_given (body x) (fun o s'' => match o with
                                  | inr _ => J s'' | inl e => Q (inl e) s'' end) s') →
  (∀ s', J s' → Q (inr ()) s') → J s → wp_given (for_of l body) Q s.
Proof.
  intros Hb HQ. revert s. induction l as [|x l IH]; intros s HJ; simpl; [auto|].
  apply wp_bind. eapply wp_mono; [|apply Hb, HJ]. intros [e|a] s'; auto.
Qed.

Lemma wp_advance (p : prog unit) s s' t :
  wp_given p (fun _ s' => I s') s → advance p s = (s', t) →
  I s' ∧ match t with Some t => ∀ r, given (th_request t) r → keeps_given (th_resume t r) | None => True end.
Proof.
  revert s. induction p as [a|e|k IH|s0 p IH|q k IH]; intros s Hw H; simpl in *;
    simplify_eq; eauto.
  destruct Hw as [HI Hw]. split; [done|]. intros r Hg s1 Hs1. by apply Hw.
Qed.

(** An invariant that every handler keeps holds in every reachable state. *)
Lemma invariant_given {Ev} (enabled : Ev → S → Prop) (handler : Ev → prog unit) s0 :
  (∀ e s, I s → enabled e s → wp_given (handler e) (fun _ s' => I s') s) → I s0 →
  ∀ s ts, reachable_given enabled handler given s0 (s, ts) → I s.
Proof.
  intros Hh H0 s ts Hr.
  enough (I s ∧ Forall (fun t => ∀ r, given (th_request t) r → keeps_given (th_resume t r)) ts) by tauto.
  remember (s, ts) as c eqn:Hc. revert s ts Hc.
  induction Hr as [|c c' Hr IH Hstep]; intros s ts Hc; simplify_eq; [by split; [|constructor]|].
  inversion Hstep as [e s1 s2 ts1 t He Ha|q k r s1 s2 ts1 ts2 t Hg Ha]; simplify_eq.
  - destruct (IH s1 ts1 eq_refl) as [HI HF].
    destruct (wp_advance _ _ _ _ (Hh e s1 HI He) Ha) as [HI' Ht]. split; [done|].
    apply Forall_app. split; [done|]. destruct t; repeat constructor; auto.
  - destruct (IH s1 _ eq_refl) as [HI HF].
    apply Forall_app in HF as [HF1 HF2]. inversion HF2 as [|t' ts' Hk HF2']; simplify_eq.
    destruct (wp_advance _ _ _ _ (Hk r Hg s1 HI) Ha) as [HI' Ht]. split; [done|].
    apply Forall_app. split; [done|]. apply Forall_app. split; [|done].
    destruct t; repeat constructor; auto.
Qed.
End Wp.

Lemma invariant_reachable (I : S → Prop) {Ev} (enabled : Ev → S → Prop) (handler : Ev → prog unit) s0 :
  (∀ e s, I s → enabled e s → wp_given (fun _ _ => True) I (handler e) (fun _ s' => I s') s) → I s0 →
  ∀ s ts, reachable enabled handler s0 (s, ts) → I s.
Proof. intros Hh H0 s ts Hr. by eapply invariant_given; [exact Hh|exact H0|apply reachable_any]. Qed.
End Prog.

(** Whatever the answers are. *)
Abbreviation wp := (wp_given (fun _ _ => True)).
Abbreviation keeps := (keeps_given (fun _ _ => True)).

Arguments prog S {Rq} Rs A.
Arguments thread S {Rq} Rs.

(** Reads a program statement by statement under [wp]. *)
Ltac wp_run :=
  repeat (match goal with
    | |- wp_given _ _ (mbind _ _) _ _ => apply wp_bind
    | |- wp_given _ _ (finally _ _) _ _ => apply wp_finally_modify
    | |- wp_given _ _ (try_catch _ _) _ _ => apply wp_try_catch
    | |- True → _ => intros _
    | _ => progress cbn [wp_given modify get of_result negb]
    end).

(** [f = v] for a component variable [f]. *)
Notation "p '<~' v" := (modify (update_field p (fun _ => v)))
  (at level 70, v at level 69, no associativity) : js_scope.
