(* ===== verification/Numbers.v ===== *)
(** * Numbers

    The arithmetic the pages print with: [toFixed] of a quotient of integers
    and of a double, with the doubles of the standard library's [SpecFloat]
    (53 bits of precision, exponents below 1024). *)

From Stdlib Require Import Floats.SpecFloat.
From S2P Require Import Prelude JsString.

(** [value.toFixed(digits)] for the number [num / den]: the nearest multiple of
    [10 ^ -digits], the larger of two. *)
Definition fixed_units (digits num den : Z) : Z := (2 * num * 10 ^ digits + den) / (2 * den).

Definition pad0 (width : nat) (s : jstr) : jstr := replicate (width - length s) 48%N ++ s.

Definition toFixed (digits num den : Z) : jstr :=
  let n := fixed_units digits num den in
  if (digits =? 0)%Z then of_Z n
  else of_Z (n / 10 ^ digits) ++ js "." ++ pad0 (Z.to_nat digits) (of_Z (n mod 10 ^ digits)).

(** ** Doubles *)

Definition double (z : Z) : spec_float := binary_normalize 53 1024 z 0 false.
Definition divide : spec_float → spec_float → spec_float := SFdiv 53 1024.
Definition times : spec_float → spec_float → spec_float := SFmul 53 1024.

(** The quotient of integers that a finite double is. *)
Definition quotient (x : spec_float) : option (Z * Z) :=
  match x with
  | S754_zero _ => Some (0, 1)%Z
  | S754_finite sign m e =>
      let m := if sign then Zneg m else Zpos m in
      Some (if (0 <=? e)%Z then (m * 2 ^ e, 1)%Z else (m, 2 ^ (- e))%Z)
  | _ => None
  end.

(** [x.toFixed(digits)] of a double that is not negative, and below [10 ^ 21]
    where it is finite. *)
Definition doubleToFixed (digits : Z) (x : spec_float) : jstr :=
  match quotient x with
  | Some (num, den) => toFixed digits num den
  | None => match x with S754_nan => js "NaN" | _ => js "Infinity" end
  end.

(** [((part / whole) * 100).toFixed(1) + "%"]. *)
Definition percentage (part whole : Z) : jstr :=
  doubleToFixed 1 (times (divide (double part) (double whole)) (double 100)) ++ js "%".

Example percentage_third : percentage 1 3 = js "33.3%".
Proof. by vm_compute. Qed.

(** 0.29 * 100 is a little less than 29. *)
Example percentage_29 :
  quotient (times (divide (double 29) (double 100)) (double 100)) = Some (8162774324609023, 2 ^ 48)%Z ∧
  percentage 29 100 = js "29.0%".
Proof. by vm_compute. Qed.

Example percentage_ends : percentage 0 7 = js "0.0%" ∧ percentage 7 7 = js "100.0%".
Proof. by vm_compute. Qed.

(** The printed number is the nearest multiple of the last digit's unit. *)
Lemma fixed_units_error digits num den :
  (0 <= digits)%Z → (0 < den)%Z →
  (Z.abs (2 * (fixed_units digits num den * den - num * 10 ^ digits)) <= den)%Z.
Proof.
  intros Hd Hden. unfold fixed_units.
  pose proof (Z.div_mod (2 * num * 10 ^ digits + den) (2 * den)) as H1.
  pose proof (Z.mod_pos_bound (2 * num * 10 ^ digits + den) (2 * den)) as H2. nia.
Qed.
