(* ===== verification/Timers.v ===== *)
(** * Timers

    [setTimeout], [setInterval] and [clearTimeout].  Each armed timer has its
    own identifier; a component variable holds the identifier it was given,
    also after the timer has fired. *)

From S2P Require Import Prelude.
Open Scope js_scope.

Section Timers.
Context {C : Type}.

Record timers := Timers { next_id : nat; armed : list (nat * C) }.

Definition no_timers : timers := Timers 0 [].

Definition setTimeout (callback : C) (t : timers) : nat * timers :=
  (next_id t, Timers (S (next_id t)) (armed t ++ [(next_id t, callback)])).

(** Clearing an identifier whose timer has fired does nothing. *)
Definition clearTimeout (id : option nat) (t : timers) : timers :=
  match id with
  | None => t
  | Some id => Timers (next_id t) (List.filter (fun x => negb (x.1 =? id)%nat) (armed t))
  end.

(** What the timer [id] calls, when it is armed. *)
Definition callback_of (id : nat) (t : timers) : option C :=
  snd <$> find (fun x => (x.1 =? id)%nat) (armed t).

Definition timers_wf (t : timers) : Prop :=
  NoDup (armed t).*1 ∧ ∀ x, x ∈ armed t → x.1 < next_id t.

Lemma no_timers_wf : timers_wf no_timers.
Proof. split; [constructor|]. intros x Hx. by apply elem_of_nil in Hx. Qed.

Lemma setTimeout_wf c t : timers_wf t → timers_wf (setTimeout c t).2.
Proof.
  intros [Hnd Hlt]. split; simpl.
  - rewrite fmap_app. apply NoDup_app. split_and!; [done| |apply NoDup_singleton].
    intros i (x & -> & Hx)%list_elem_of_fmap Hi. apply list_elem_of_singleton in Hi; simpl in Hi.
    specialize (Hlt x Hx). lia.
  - intros x [Hx| ->%list_elem_of_singleton]%elem_of_app; [|simpl; lia].
    specialize (Hlt x Hx). lia.
Qed.

Lemma clearTimeout_wf id t : timers_wf t → timers_wf (clearTimeout id t).
Proof.
  intros [Hnd Hlt]. destruct id as [id|]; [|done]. split; simpl.
  - by apply NoDup_fmap_filter_b.
  - intros x [Hx _]%elem_of_filter_b. by apply Hlt.
Qed.

Lemma elem_of_clear id t x : x ∈ armed (clearTimeout (Some id) t) ↔ x ∈ armed t ∧ x.1 ≠ id.
Proof. simpl. rewrite elem_of_filter_b, negb_true_iff, Nat.eqb_neq. done. Qed.

Lemma callback_of_Some id t c : callback_of id t = Some c → (id, c) ∈ armed t.
Proof.
  unfold callback_of. destruct (find _ _) as [[i c']|] eqn:E; intros [= <-].
  apply find_Some_elem in E as [Hin Hid]. simpl in *. by apply Nat.eqb_eq in Hid as ->.
Qed.

Lemma callback_of_None id t c : callback_of id t = None → (id, c) ∉ armed t.
Proof.
  unfold callback_of. destruct (find _ _) as [x|] eqn:E; [done|]. intros _ Hin.
  pose proof (find_None_elem _ _ _ E Hin) as H. simpl in H. by rewrite Nat.eqb_refl in H.
Qed.
End Timers.

Arguments timers C : clear implicits.

#[export] Hint Resolve no_timers_wf setTimeout_wf clearTimeout_wf : js.
