(* ===== verification/Poll.v ===== *)
(** * Single-flight polling

    The shape the pages that poll share ([routes/stats/stats.svelte],
    [routes/logs/logs.svelte]): a loading flag that allows one request at a
    time, a timer variable that re-arms the load once the request has settled,
    and, where the user can ask for a refresh, a flag for one that came while a
    request was in flight.  [flight] is what the continuation of the pending
    [await] has captured.  The identifiers of one poll's timers are compared
    with nothing but that poll's timer variable, so each poll has a clock of
    its own. *)

From S2P Require Import Prelude Timers.
Open Scope js_scope.

Section Poll.
Context {K : Type}.

Record poll := Poll {
  timer : option nat;
  busy : bool;
  refreshPending : bool;
  flight : option K;
  clock : timers unit
}.
#[export] Instance poll_eta : Settable poll := fun p =>
  Poll (timer p) (busy p) (refreshPending p) (flight p) (clock p).

Definition idle : poll := Poll None false false None no_timers.

(** The load up to its [await]: [if (loading || destroyed) return].  [k] is
    what it captures then, [None] when computing that throws. *)
Definition poll_load (gone : bool) (k : option K) (p : poll) : poll :=
  if busy p || gone then p else p <| busy := true |> <| flight := k |>.

Definition poll_arm (p : poll) : poll :=
  let '(id, c) := setTimeout () (clock p) in p <| timer := Some id |> <| clock := c |>.

(** The [finally] of a load that knows refreshes: a refresh that came
    meanwhile runs now, otherwise the timer is armed. *)
Definition poll_settle (gone : bool) (k : option K) (p : poll) : poll :=
  let p := p <| flight := None |> <| busy := false |> in
  if gone then p
  else if refreshPending p then poll_load gone k (p <| refreshPending := false |>)
  else poll_arm p.

(** The [finally] of a load that has no refresh. *)
Definition poll_rearm (gone : bool) (p : poll) : poll :=
  let p := p <| flight := None |> <| busy := false |> in
  if gone then p else poll_arm p.

Lemma poll_rearm_pending gone p : refreshPending (poll_rearm gone p) = refreshPending p.
Proof. unfold poll_rearm. by destruct gone. Qed.

Definition poll_refresh (gone : bool) (k : option K) (p : poll) : poll :=
  let p := p <| clock ::= clearTimeout (timer p) |> <| timer := None |> in
  if busy p then p <| refreshPending := true |> else poll_load gone k p.

(** The timer [id] fires; [None] when it is not armed. *)
Definition poll_fire (gone : bool) (k : option K) (id : nat) (p : poll) : option poll :=
  match callback_of id (clock p) with
  | None => None
  | Some _ => Some (poll_load gone k (p <| clock ::= clearTimeout (Some id) |>))
  end.

Definition poll_stop (p : poll) : poll := p <| clock ::= clearTimeout (timer p) |>.

(** ** Invariant *)

(** While the page is shown a started poll has a request in flight and no
    timer, or no request and the one timer its variable names. *)
Record poll_ok (gone : bool) (p : poll) : Prop := {
  ok_clock : timers_wf (clock p);
  ok_busy : busy p = bool_decide (is_Some (flight p));
  ok_pending : gone = false → refreshPending p = true → is_Some (flight p);
  ok_id : ∀ i, timer p = Some i → i < next_id (clock p);
  ok_timer : gone = false → flight p = None → is_Some (timer p);
  ok_armed : gone = false → ∀ x, x ∈ armed (clock p) ↔ flight p = None ∧ timer p = Some x.1;
  ok_gone : gone = true → armed (clock p) = []
}.

(** The first load, when the page is mounted. *)
Lemma poll_start_ok k : poll_ok false (poll_load false (Some k) idle).
Proof.
  split; simpl; try done; [apply no_timers_wf|]. intros _ x. rewrite elem_of_nil. by split; [|intros []].
Qed.

Lemma poll_arm_ok p :
  timers_wf (clock p) → (∀ i, timer p = Some i → i < next_id (clock p)) →
  armed (clock p) = [] → flight p = None → busy p = false → refreshPending p = false →
  poll_ok false (poll_arm p).
Proof.
  intros Hc Hid Ha Hf Hb Hp. unfold poll_arm. simpl. split; simpl; try done; eauto.
  - by apply (setTimeout_wf ()).
  - by rewrite Hb, Hf.
  - congruence.
  - intros i [= <-]. lia.
  - intros _ [i []]. rewrite Ha, Hf. simpl. rewrite list_elem_of_singleton. intuition congruence.
Qed.

Lemma flight_no_timer p k : poll_ok false p → flight p = Some k → armed (clock p) = [].
Proof.
  intros Hok Hf. destruct (armed (clock p)) as [|x l] eqn:E; [done|].
  assert (x ∈ armed (clock p)) as Hx by (rewrite E; left).
  apply (ok_armed _ _ Hok eq_refl) in Hx as [Hn _]. congruence.
Qed.

Lemma poll_rearm_ok gone k p : poll_ok gone p → flight p = Some k → refreshPending p = false →
  poll_ok gone (poll_rearm gone p).
Proof.
  intros Hok Hf Hp. unfold poll_rearm. destruct gone; simpl.
  - destruct Hok. split; simpl; eauto; done.
  - apply poll_arm_ok; simpl; try done; [apply Hok..|]. by eapply flight_no_timer.
Qed.

Lemma poll_settle_ok gone k k' p : poll_ok gone p → flight p = Some k →
  poll_ok gone (poll_settle gone (Some k') p).
Proof.
  intros Hok Hf. unfold poll_settle. destruct gone; simpl.
  { destruct Hok. split; simpl; eauto; done. }
  destruct (refreshPending p) eqn:Hp.
  - pose proof (flight_no_timer _ _ Hok Hf) as Ha. destruct Hok.
    split; simpl; eauto; try done. intros _ x. rewrite Ha, elem_of_nil. by split; [|intros [? _]].
  - apply poll_arm_ok; simpl; try done; [apply Hok..|]. by eapply flight_no_timer.
Qed.

Lemma poll_refresh_ok k p : poll_ok false p → poll_ok false (poll_refresh false (Some k) p).
Proof.
  intros Hok. unfold poll_refresh. simpl. rewrite (ok_busy _ _ Hok).
  assert (armed (clearTimeout (timer p) (clock p)) = []) as Ha.
  { destruct (armed (clearTimeout _ _)) as [|x l] eqn:E; [done|]. exfalso.
    assert (x ∈ armed (clearTimeout (timer p) (clock p))) as Hx by (rewrite E; left).
    destruct (timer p) as [i|] eqn:Ht.
    - rewrite elem_of_clear in Hx. destruct Hx as [Hx Hne].
      apply (ok_armed _ _ Hok eq_refl) in Hx as [_ H]. congruence.
    - apply (ok_armed _ _ Hok eq_refl) in Hx as [_ H]. congruence. }
  pose proof (clearTimeout_wf (timer p) _ (ok_clock _ _ Hok)) as Hc.
  destruct (flight p) as [k'|] eqn:Hf; simpl.
  - split; simpl; rewrite ?Hf; try done.
    intros _ x. rewrite Ha, elem_of_nil. by split; [|intros [? _]].
  - unfold poll_load. simpl. rewrite ?(ok_busy _ _ Hok), ?Hf. simpl. split; simpl; try done.
    intros _ x. rewrite Ha, elem_of_nil. by split; [|intros [? _]].
Qed.

Lemma poll_fire_ok gone k id p p' : poll_ok gone p → poll_fire gone (Some k) id p = Some p' →
  poll_ok gone p' ∧ gone = false ∧ flight p = None ∧ flight p' = Some k.
Proof.
  intros Hok H. unfold poll_fire in H. destruct (callback_of id (clock p)) as [[]|] eqn:Hcb; [|done].
  apply Some_inj in H as <-. apply callback_of_Some in Hcb.
  destruct gone; [by rewrite (ok_gone _ _ Hok eq_refl) in Hcb; apply elem_of_nil in Hcb|].
  pose proof (proj1 (ok_armed _ _ Hok eq_refl _) Hcb) as [Hf Ht]. simpl in Ht.
  unfold poll_load. simpl. rewrite (ok_busy _ _ Hok), Hf. simpl.
  split; [|done]. split; simpl; try done.
  - apply (clearTimeout_wf (Some id)), Hok.
  - apply Hok.
  - intros _ x. split; [|by intros [? _]]. intros Hx. apply (elem_of_clear id) in Hx as [Hx Hne].
    apply (ok_armed _ _ Hok eq_refl) in Hx as [_ H]. congruence.
Qed.

Lemma poll_stop_ok p : poll_ok false p → poll_ok true (poll_stop p).
Proof.
  intros Hok. unfold poll_stop. split; simpl; try done.
  - apply clearTimeout_wf, Hok.
  - apply Hok.
  - intros i Hi. pose proof (ok_id _ _ Hok i Hi). by destruct (timer p).
  - intros _. destruct (armed (clearTimeout _ _)) as [|x l] eqn:E; [done|]. exfalso.
    assert (x ∈ armed (clearTimeout (timer p) (clock p))) as Hx by (rewrite E; left).
    destruct (timer p) as [i|] eqn:Ht.
    + rewrite elem_of_clear in Hx. destruct Hx as [Hx Hne].
      apply (ok_armed _ _ Hok eq_refl) in Hx as [_ H]. congruence.
    + apply (ok_armed _ _ Hok eq_refl) in Hx as [_ H]. congruence.
Qed.

(** A poll that runs never stops or doubles. *)
Lemma poll_alive p : poll_ok false p →
  ∃ id, ∀ x, x ∈ armed (clock p) ↔ flight p = None ∧ x = (id, ()).
Proof.
  intros Hok. exists (default 0 (timer p)). intros [i []].
  rewrite (ok_armed _ _ Hok eq_refl). simpl. split; intros [Hf Ht]; (split; [done|]).
  - by rewrite Ht.
  - destruct (ok_timer _ _ Hok eq_refl Hf) as [j Hj]. rewrite Hj in *. simpl in Ht. congruence.
Qed.
End Poll.

Arguments poll K : clear implicits.
#[export] Existing Instance poll_eta.
