(* ===== verification/Http.v ===== *)
(** * Fetch

    What the browser gives the UI: requests, responses and [Promise.all].  A
    body is typed: [P] is what a component sends through [JSON.stringify] and
    [B] the object it reads back, whose fields are options because the server
    may leave them out.  Reading the body of a response is folded into the
    [fetch] that yields it; no handler acts between the two. *)

From S2P Require Import Prelude JsString JsAsync.
Open Scope js_scope.

Record request (P : Type) := Request {
  rq_url : jstr;
  rq_method : jstr;
  rq_headers : gmap jstr jstr;
  rq_body : option P;
  (* members of the [init] object besides method, headers and body, which
     [fetch] does not look at *)
  rq_init : gmap jstr jstr
}.
Arguments Request {P}.
Arguments rq_url {P}.
Arguments rq_method {P}.
Arguments rq_headers {P}.
Arguments rq_body {P}.
Arguments rq_init {P}.

Record response (B : Type) := Response {
  status : Z;
  (* [await response.text()] *)
  text : result jstr;
  (* the [error] member of the text read as JSON, where there is one *)
  error_field : option jstr;
  (* [await response.json()]; [None] is [null] *)
  json : result (option B)
}.
Arguments Response {B}.
Arguments status {B}.
Arguments text {B}.
Arguments error_field {B}.
Arguments json {B}.

(** [response.ok]. *)
Definition ok {B} (r : response B) : bool := (200 <=? status r)%Z && (status r <=? 299)%Z.

(** How the promises passed to one [Promise.all] settle: the result of each,
    and the order in time in which they do. *)
Record settled (B : Type) := Settled {
  st_results : nat → result (response B);
  st_order : list nat
}.
Arguments Settled {B}.
Arguments st_results {B}.
Arguments st_order {B}.

(** What a handler waits for.  [NextOf sent flights] sends [sent] and waits for
    the first of the requests in flight, [sent] among them, to settle: the
    answer says which one, by its place in [flights] ([taken]).  [Within r] is
    the race of a request and a timer, with [None] for the timer. *)
Inductive io_req (P : Type) :=
| Fetch (r : request P)
| FetchAll (rs : list (request P))
| NextOf (sent flights : list (request P))
| Within (r : request P).
Arguments Fetch {P}.
Arguments FetchAll {P}.
Arguments NextOf {P}.
Arguments Within {P}.

Definition io_res {P} (B : Type) (q : io_req P) : Type :=
  match q with
  | Fetch _ => result (response B)
  | FetchAll _ => settled B
  | NextOf _ _ => nat * result (response B)
  | Within _ => option (result (response B))
  end.

(** A place past the end stands for the first. *)
Definition taken {A} (flights : list A) (i : nat) : nat := if (i <? length flights)%nat then i else 0.

(** A server that answers each request by itself; [pick] is the order in which
    the answers arrive. *)
Definition serve_in {P B} (pick : list (request P) → nat) (f : request P → result (response B))
    (q : io_req P) : io_res B q :=
  match q with
  | Fetch r => f r
  | FetchAll rs => Settled (fun i => from_option f (inl TypeError) (rs !! i)) []
  | NextOf _ flights =>
      let i := taken flights (pick flights) in (i, from_option f (inl TypeError) (flights !! i))
  | Within r => Some (f r)
  end.

Definition serve {P B} (f : request P → result (response B)) : ∀ q : io_req P, io_res B q :=
  serve_in (fun _ => 0) f.

Section Fetch.
Context {S P B : Type}.
Implicit Types r : request P.

(** [await fetch(url, init)]. *)
Definition fetch r : prog S (io_res (P := P) B) (response B) :=
  Await (Fetch r) of_result.

(** [await response.text()] and [await response.json()]. *)
Definition read_text (o : response B) : prog S (io_res (P := P) B) jstr := of_result (text o).
Definition read_json (o : response B) : prog S (io_res (P := P) B) (option B) :=
  of_result (json o).

(** [data.field] for a response object [data]: reading a field of [null]
    throws. *)
Definition deref {A} (o : option A) : prog S (io_res (P := P) B) A :=
  match o with Some a => Ret a | None => Throw TypeError end.

Lemma fetch_run {W} (answer : W → ∀ q : io_req P, io_res B q * W) r (s : S) w :
  run answer (fetch r) s w = let '(o, w') := answer w (Fetch r) in (o, s, w').
Proof. unfold fetch. simpl. by destruct (answer w (Fetch r)) as [[e|a] w']. Qed.
End Fetch.

(** ** [Promise.all] *)

Section PromiseAll.
Context {A : Type} (res : nat → result A).

(** The earliest rejection in the given order. *)
Fixpoint first_rejection (order : list nat) : option jserr :=
  match order with
  | [] => None
  | i :: order' =>
      match res i with inl e => Some e | inr _ => first_rejection order' end
  end.

Fixpoint fulfilled (l : list nat) : list A :=
  match l with
  | [] => []
  | i :: l' => match res i with inr a => a :: fulfilled l' | inl _ => fulfilled l' end
  end.

(** The promises of a call are [0 .. n-1]; those the order does not name
    settle after those it does. *)
Definition promise_all (n : nat) (order : list nat) : result (list A) :=
  match first_rejection (List.filter (fun i => (i <? n)%nat) order ++ seq 0 n) with
  | Some e => inl e
  | None => inr (fulfilled (seq 0 n))
  end.

Lemma first_rejection_None order :
  first_rejection order = None ↔ ∀ i, i ∈ order → ∃ a, res i = inr a.
Proof.
  induction order as [|i order IH]; simpl.
  - split; [intros _ i Hi; by apply elem_of_nil in Hi|done].
  - destruct (res i) as [e|a] eqn:E.
    + split; [done|]. intros H. destruct (H i) as [a Ha]; [by left|congruence].
    + rewrite IH. split.
      * intros H j Hj. apply elem_of_cons in Hj as [->|Hj]; eauto.
      * intros H j Hj. apply H. by right.
Qed.

(** [Promise.all] fulfils exactly when every promise does, whatever the
    order they settle in. *)
Lemma promise_all_fulfilled n order l :
  promise_all n order = inr l ↔
    (∀ i, i < n → ∃ a, res i = inr a) ∧ l = fulfilled (seq 0 n).
Proof.
  unfold promise_all.
  destruct (first_rejection _) as [e|] eqn:E.
  - split; [done|]. intros [H _]. exfalso.
    assert (first_rejection (List.filter (fun i => (i <? n)%nat) order ++ seq 0 n) = None)
      as HN; [|congruence].
    apply first_rejection_None. intros i. rewrite elem_of_app, elem_of_filter_b, elem_of_seq.
    intros Hi. apply H. lia.
  - rewrite first_rejection_None in E. split.
    + intros ?; simplify_eq. split; [|done]. intros i Hi. apply E.
      rewrite elem_of_app, elem_of_seq. lia.
    + by intros [_ ->].
Qed.

Lemma promise_all_length n order l : promise_all n order = inr l → length l = n.
Proof.
  intros [H ->]%promise_all_fulfilled.
  assert (∀ js, (∀ i, i ∈ js → i < n) → length (fulfilled js) = length js) as Hlen.
  { induction js as [|i js IH]; [done|]. intros Hjs. simpl.
    destruct (H i) as [a ->]; [apply Hjs; left|]. simpl. f_equal. apply IH. intros k Hk. apply Hjs. by right. }
  rewrite Hlen; [apply length_seq|]. intros i Hi%elem_of_seq. lia.
Qed.
End PromiseAll.

(** ** Responses that are not 2xx *)

Section Checked.
Context {S P B : Type}.

(** [responseError(response)]: the [error] member of a JSON body, the body as
    text, or the status. *)
Definition responseError (r : response B) : result jstr :=
  match text r with
  | inl e => inl e
  | inr body =>
      inr (if truthy (default [] (error_field r)) then default [] (error_field r)
           else str_or body (js "Request failed (" ++ of_Z (status r) ++ js ")"))
  end.

(** [if (!response.ok) throw new Error(await responseError(response))]. *)
Definition checked (o : result (response B)) : result (response B) :=
  match o with
  | inl e => inl e
  | inr r =>
      if ok r then inr r
      else match responseError r with inl e => inl e | inr m => inl (Error m) end
  end.

(** [response.json()] of a checked response. *)
Definition checked_json (o : result (response B)) : result (option B) :=
  match checked o with inl e => inl e | inr r => json r end.

Definition fetch_checked (rq : request P) : prog S (io_res (P := P) B) (response B) :=
  Await (Fetch rq) (fun o => of_result (checked o)).

(** [(await response.json()).field], the body being an object. *)
Definition fetch_body (rq : request P) : prog S (io_res (P := P) B) B :=
  o ← fetch_checked rq; b ← read_json o; deref b.

Definition body_of (o : result (response B)) : result B :=
  match checked_json o with
  | inl e => inl e
  | inr None => inl TypeError
  | inr (Some b) => inr b
  end.

Lemma checked_inr o r : checked o = inr r ↔ o = inr r ∧ ok r = true.
Proof.
  unfold checked. destruct o as [e|r']; [split; [done|by intros [[=] _]]|].
  destruct (ok r') eqn:E; [split; [by intros [= <-]|by intros [[= <-] _]]|].
  destruct (responseError r'); (split; [done|intros [[= <-] ?]; congruence]).
Qed.

Lemma body_of_inr o b :
  body_of o = inr b ↔ ∃ r, o = inr r ∧ ok r = true ∧ json r = inr (Some b).
Proof.
  unfold body_of, checked_json. destruct (checked o) as [e|r] eqn:E.
  - split; [done|]. intros (r & -> & Hok & _). simpl in E. by rewrite Hok in E.
  - apply checked_inr in E as [-> Hok]. split.
    + destruct (json r) as [e|[b'|]] eqn:Ej; intros [=]; subst; eauto.
    + intros (r' & [= <-] & _ & ->). done.
Qed.
End Checked.

(** ** Servers *)

(** A server is a function of all requests so far and the one it answers;
    running a handler against it leaves the log of requests. *)
Section History.
Context {S P B : Type} (reply : list (request P) → ∀ q : io_req P, io_res B q).

Definition requests_of (q : io_req P) : list (request P) :=
  match q with Fetch r | Within r => [r] | FetchAll rs => rs | NextOf sent _ => sent end.

Definition history (log : list (request P)) (q : io_req P) : io_res B q * list (request P) :=
  (reply log q, log ++ requests_of q).

Lemma fetch_checked_run rq (s : S) log :
  run history (fetch_checked rq) s log = (checked (reply log (Fetch rq)), s, log ++ [rq]).
Proof. unfold fetch_checked. simpl. by destruct (checked _). Qed.

Lemma fetch_body_run rq (s : S) log :
  run history (fetch_body rq) s log = (body_of (reply log (Fetch rq)), s, log ++ [rq]).
Proof.
  unfold fetch_body. rewrite run_bind, fetch_checked_run. unfold body_of, checked_json.
  destruct (checked (reply log (Fetch rq))) as [e|r]; [done|].
  rewrite run_bind. unfold read_json. by destruct (json r) as [e|[b|]].
Qed.

Lemma run_get (s : S) log : run history get s log = (inr s, s, log).
Proof. done. Qed.

Lemma run_read_json (r : response B) (s : S) log :
  run history (read_json r) s log = (json r, s, log).
Proof. unfold read_json. by destruct (json r). Qed.

Lemma run_read_text (r : response B) (s : S) log :
  run history (read_text r) s log = (text r, s, log).
Proof. unfold read_text. by destruct (text r). Qed.

Lemma run_deref {A} (o : option A) (s : S) log :
  run history (deref o) s log = (match o with Some a => inr a | None => inl TypeError end, s, log).
Proof. by destruct o. Qed.

Lemma run_of_result {A} (o : result A) (s : S) log : run history (of_result o) s log = (o, s, log).
Proof. by destruct o. Qed.

Lemma run_await_all rs (s : S) log :
  run (A := settled B) history (await (FetchAll rs)) s log = (inr (reply log (FetchAll rs)), s, log ++ rs).
Proof. done. Qed.

Lemma run_when (b : bool) (p : prog S (io_res (P := P) B) unit) s log :
  run history (when b p) s log = if b then run history p s log else (inr (), s, log).
Proof. by destruct b. Qed.
End History.

(** Computes the states the programs of the goal start from with [norm]. *)
Ltac norm_states norm :=
  repeat match goal with
  | |- context [run _ _ ?st _] =>
      let st' := norm st in
      first [constr_eq st st'; fail 1 | progress change st with st']
  end.

(** Executes the programs of the goal up to the next unknown answer. *)
Ltac run_with norm :=
  repeat (first
    [ rewrite run_modify | rewrite run_bind | rewrite run_try_catch
    | rewrite run_finally_modify | rewrite run_get | rewrite fetch_checked_run
    | rewrite fetch_body_run | rewrite run_deref | rewrite run_read_json | rewrite run_read_text
    | rewrite run_when | progress cbv beta iota zeta ];
    norm_states norm).
