(* ===== verification/Api.v ===== *)
(** * The API client and the session store

    [lib/api.ts] ([AppAPI]) and [store/apistore.ts].  A [Session] is the one
    [AppAPI] object the store holds, with the browser's [localStorage].  Pages
    reach it through the class [HasSession], so [doCall] is written once for
    every page state that embeds a session. *)

From S2P Require Import Prelude JsString JsAsync Http.

(** The callback [onUnauthorizedcallMe]: the constructor installs one that does
    nothing, [store/apistore.ts] replaces it by [store.logout]. *)
Inductive unauthorized_callback := DoNothing | StoreLogout.

Record AppAPI := MkAppAPI {
  baseURL : jstr;
  headers : gmap jstr jstr;
  onUnauthorizedcallMe : unauthorized_callback;
  loggedIn : option bool;
  jwtToken : option jstr;
  username : jstr
}.
#[export] Instance AppAPI_eta : Settable AppAPI := fun a =>
  MkAppAPI (baseURL a) (headers a) (onUnauthorizedcallMe a) (loggedIn a) (jwtToken a) (username a).

Record Session := MkSession { localStorage : gmap jstr jstr; api : AppAPI }.
#[export] Instance Session_eta : Settable Session := fun s => MkSession (localStorage s) (api s).

(** [`Bearer ${jwt}`] for a value read from [localStorage]. *)
Definition bearer (jwt : option jstr) : jstr := js "Bearer " ++ default (js "null") jwt.

Definition jwt_of (s : Session) : option jstr := localStorage s !! js "jwt".

(** [new AppAPI()], given what [getBasePath()] returns. *)
Definition new_AppAPI (basePath : jstr) (storage : gmap jstr jstr) : AppAPI := {|
  baseURL := basePath ++ js "/api";
  headers := {[ js "Authorization" := bearer (storage !! js "jwt") ]};
  onUnauthorizedcallMe := DoNothing;
  loggedIn := None;
  jwtToken := None;
  username := []
|}.

(** [token] may be [undefined]. *)
Definition setLoggedIn (token : option jstr) (name : jstr) (s : Session) : Session :=
  s <| api ::= fun a => a <| jwtToken := token |> <| username := name |>
                          <| loggedIn := Some true |> |>.

Definition setLoggedOut (s : Session) : Session :=
  s <| localStorage ::= delete (js "jwt") |>
    <| api ::= fun a => a <| username := [] |> <| loggedIn := Some false |> |>.

Definition onUnauthorized (callMe : unauthorized_callback) (s : Session) : Session :=
  s <| api ::= fun a => a <| onUnauthorizedcallMe := callMe |> |>.

Definition setHeaders (h : gmap jstr jstr) (s : Session) : Session :=
  s <| api ::= fun a => a <| headers := h |> |>.

(** [getHeaders()] assigns [Authorization] in place and returns the object. *)
Definition getHeaders (s : Session) : gmap jstr jstr * Session :=
  let s' := s <| api ::= fun a =>
                a <| headers ::= <[ js "Authorization" := bearer (jwt_of s) ]> |> |> in
  (headers (api s'), s').

(** ** [store/apistore.ts] *)

Definition loginSuccesful (token : option jstr) (name : jstr) : Session → Session := setLoggedIn token name.
Definition logout : Session → Session := setLoggedOut.
Definition refresh (s : Session) : Session := s.

(** The module's top level: a new client whose unauthorized callback logs the
    store out. *)
Definition apistore (basePath : jstr) (storage : gmap jstr jstr) : Session :=
  onUnauthorized StoreLogout (MkSession storage (new_AppAPI basePath storage)).

Definition run_unauthorized (s : Session) : Session :=
  match onUnauthorizedcallMe (api s) with DoNothing => s | StoreLogout => logout s end.

(** ** Pages that embed a session *)

Class HasSession (S : Type) := {
  session : S → Session;
  on_session : (Session → Session) → S → S;
  session_on_session f s : session (on_session f s) = f (session s);
  on_session_twice f g s : on_session f (on_session g s) = on_session (fun a => f (g a)) s;
  on_session_const f s : on_session (fun _ => f (session s)) s = on_session f s
}.

#[export] Instance Session_HasSession : HasSession Session :=
  {| session := id; on_session f s := f s; session_on_session f s := eq_refl;
     on_session_twice f g s := eq_refl; on_session_const f s := eq_refl |}.

Section Calls.
Context {S P B : Type} `{!HasSession S}.

Definition take_headers : prog S (io_res (P := P) B) (gmap jstr jstr) :=
  Get (fun s =>
    let '(h, a) := getHeaders (session s) in Put (on_session (fun _ => a) s) (Ret h)).

Definition url_of (endpoint : jstr) : prog S (io_res (P := P) B) jstr :=
  Get (fun s => Ret (baseURL (api (session s)) ++ endpoint)).

(** The [await]ed part of [doCall], without the logging of its [catch]. *)
Definition check_response (o : response B) : prog S (io_res (P := P) B) (option B) :=
  if (status o =? 401)%Z then
    modify (on_session run_unauthorized) ;;
    Throw (Error (js "Authentication required"))
  else if negb (ok o) then
    Throw (Error (js "GateSentry request failed with status " ++ of_Z (status o)))
  else read_json o.

(** [extraHeaders] is spread into the [init] object after [method] and [headers];
    its one caller passes no member of those names, nor [body]. *)
Definition doCall (endpoint method : jstr) (dataTosend : option P)
    (extraHeaders : gmap jstr jstr) : prog S (io_res (P := P) B) (option B) :=
  h ← take_headers;
  url ← url_of endpoint;
  let body := if bool_decide (method = js "post") || bool_decide (method = js "put")
              then dataTosend else None in
  o ← fetch (Request url method h body extraHeaders);
  check_response o.

Definition doCallRaw (endpoint method : jstr) (dataTosend : option P)
    : prog S (io_res (P := P) B) (response B) :=
  h ← take_headers;
  url ← url_of endpoint;
  let body := if bool_decide (method = js "post") then dataTosend else None in
  fetch (Request url method h body ∅).

(** [this.jwtToken = localStorage.getItem("jwt") || ""]. *)
Definition takeToken (s : Session) : Session :=
  s <| api ::= fun a => a <| jwtToken := Some (opt_or (jwt_of s) []) |> |>.

(** [verifyToken()]; [user] reads the [Username] of the answer. *)
Definition verifyToken (user : B → option jstr) : prog S (io_res (P := P) B) bool :=
  o ← doCallRaw (js "/auth/verify") (js "get") None;
  if (status o =? 200)%Z then
    body ← read_json o;
    modify (on_session takeToken) ;;
    data ← deref body;
    modify (on_session (fun a => setLoggedIn (jwtToken (api a)) (opt_or (user data) []) a)) ;;
    Ret true
  else
    modify (on_session setLoggedOut) ;;
    Ret false.

Definition getSetting (settingName : jstr) : prog S (io_res (P := P) B) (option B) :=
  doCall (js "/settings/" ++ settingName) (js "get") None ∅.

(** Resolves to [true]; [response.json()] never yields [undefined], so the
    test for it does not fire. *)
Definition setSetting (settingName : jstr) (datatosend : P) : prog S (io_res (P := P) B) bool :=
  json ← doCall (js "/settings/" ++ settingName) (js "post") (Some datatosend) ∅;
  Ret true.

Definition getUsers : prog S (io_res (P := P) B) (option B) :=
  doCall (js "/users") (js "get") None ∅.
Definition createUser (userData : P) : prog S (io_res (P := P) B) (option B) :=
  doCall (js "/users") (js "post") (Some userData) ∅.
Definition updateUser (user : P) : prog S (io_res (P := P) B) (option B) :=
  doCall (js "/users") (js "put") (Some user) ∅.
Definition deleteUser (name : jstr) : prog S (io_res (P := P) B) (option B) :=
  doCall (js "/users/" ++ name) (js "delete") None ∅.
End Calls.

(** ** What a call does *)

Section CallLemmas.
Context {S P B : Type} `{!HasSession S}.
Context {W : Type} (answer : W → ∀ q : io_req P, io_res B q * W).
Implicit Types (s : S) (w : W).

(** The state after [getHeaders()]: only the [Authorization] entry of the
    client's header object moves. *)
Definition after_headers s : S := on_session (fun _ => (getHeaders (session s)).2) s.

Definition call_request s (endpoint method : jstr) (data : option P)
    (extra : gmap jstr jstr) : request P :=
  Request (baseURL (api (session s)) ++ endpoint) method (getHeaders (session s)).1
    (if bool_decide (method = js "post") || bool_decide (method = js "put")
     then data else None) extra.

Definition call_result (o : result (response B)) : result (option B) :=
  match o with
  | inl e => inl e
  | inr r =>
      if (status r =? 401)%Z then inl (Error (js "Authentication required"))
      else if negb (ok r) then
        inl (Error (js "GateSentry request failed with status " ++ of_Z (status r)))
      else json r
  end.

Definition call_state (o : result (response B)) s : S :=
  match o with
  | inr r => if (status r =? 401)%Z then on_session run_unauthorized s else s
  | inl _ => s
  end.

Definition raw_request s (endpoint method : jstr) (data : option P) : request P :=
  Request (baseURL (api (session s)) ++ endpoint) method (getHeaders (session s)).1
    (if bool_decide (method = js "post") then data else None) ∅.

Definition verify_result (o : result (response B)) : result bool :=
  match o with
  | inl e => inl e
  | inr r =>
      if (status r =? 200)%Z then
        match json r with inl e => inl e | inr None => inl TypeError | inr (Some _) => inr true end
      else inr false
  end.

Definition verify_state (user : B → option jstr) (o : result (response B)) s : S :=
  match o with
  | inl _ => s
  | inr r =>
      if (status r =? 200)%Z then
        match json r with
        | inr (Some data) =>
            on_session (fun a => setLoggedIn (Some (opt_or (jwt_of a) [])) (opt_or (user data) []) a) s
        | inr None => on_session takeToken s
        | inl _ => s
        end
      else on_session setLoggedOut s
  end.

Lemma baseURL_after s : baseURL (api (session (after_headers s))) = baseURL (api (session s)).
Proof. unfold after_headers. by rewrite session_on_session. Qed.

Lemma jwt_after s : jwt_of (session (after_headers s)) = jwt_of (session s).
Proof. unfold after_headers. by rewrite session_on_session. Qed.

Lemma take_headers_run s w :
  run answer take_headers s w = (inr (getHeaders (session s)).1, after_headers s, w).
Proof. done. Qed.

Lemma url_of_run endpoint s w :
  run answer (url_of endpoint) s w = (inr (baseURL (api (session s)) ++ endpoint), s, w).
Proof. done. Qed.

Lemma check_response_run (o : response B) s w :
  run answer (check_response o) s w = (call_result (inr o), call_state (inr o) s, w).
Proof.
  unfold check_response, read_json, call_result, call_state.
  destruct (status o =? 401)%Z; [done|]. destruct (negb (ok o)); [done|].
  by destruct (json o).
Qed.

Lemma doCall_run endpoint method data extra s w :
  run answer (doCall endpoint method data extra) s w =
    let '(o, w') := answer w (Fetch (call_request s endpoint method data extra)) in
    (call_result o, call_state o (after_headers s), w').
Proof.
  unfold doCall. rewrite run_bind, take_headers_run, run_bind, url_of_run, run_bind, fetch_run.
  rewrite baseURL_after. unfold call_request. destruct (answer w _) as [[e|r] w']; [done|].
  apply check_response_run.
Qed.

Lemma doCallRaw_run endpoint method (data : option P) s w :
  run answer (doCallRaw endpoint method data) s w =
    let '(o, w') := answer w (Fetch (raw_request s endpoint method data)) in
    (o, after_headers s, w').
Proof.
  unfold doCallRaw. rewrite run_bind, take_headers_run, run_bind, url_of_run.
  rewrite baseURL_after. apply fetch_run.
Qed.

Lemma verifyToken_run user s w :
  run answer (verifyToken user) s w =
    let '(o, w') := answer w (Fetch (raw_request s (js "/auth/verify") (js "get") None)) in
    (verify_result o, verify_state user o (after_headers s), w').
Proof.
  unfold verifyToken. rewrite run_bind, doCallRaw_run. destruct (answer w _) as [[e|r] w']; [done|].
  unfold verify_result, verify_state. destruct (status r =? 200)%Z; [|done].
  unfold read_json. rewrite run_bind. destruct (json r) as [e|[b|]]; [done| |done].
  cbn [of_result run]. rewrite run_bind, run_modify, run_bind. cbn [deref run].
  rewrite run_bind, run_modify, on_session_twice. reflexivity.
Qed.

(** A call moves nothing but the session. *)
Lemma call_frame {T} (f : S → T) (o : result (response B)) s :
  (∀ g s, f (on_session g s) = f s) → f (call_state o (after_headers s)) = f s.
Proof.
  intros Hf. unfold call_state, after_headers. destruct o as [e|r]; [apply Hf|].
  destruct (status r =? 401)%Z; by rewrite ?Hf.
Qed.

(** A later call of the same page goes to the same server. *)
Lemma baseURL_call (o : result (response B)) s :
  baseURL (api (session (call_state o (after_headers s)))) = baseURL (api (session s)).
Proof.
  unfold call_state. destruct o as [e|r]; [apply baseURL_after|].
  destruct (status r =? 401)%Z; [|apply baseURL_after]. rewrite session_on_session.
  unfold run_unauthorized. destruct (onUnauthorizedcallMe _); apply baseURL_after.
Qed.

(** Under the event loop a call may end in any way, in any state that the
    other handlers leave. *)
Lemma wp_doCall (I : S → Prop) endpoint method (data : option P) extra (Q : result (option B) → S → Prop) s :
  (∀ g s, I s → I (on_session g s)) → I s → (∀ r s', I s' → Q r s') →
  wp I (doCall endpoint method data extra) Q s.
Proof.
  intros HI Hs HQ. unfold doCall, take_headers, url_of, fetch. simpl.
  split; [by apply HI|]. intros [e|r] s' Hs' _; simpl; [by apply HQ|].
  unfold check_response, read_json. destruct (status r =? 401)%Z; simpl; [by apply HQ, HI|].
  destruct (negb (ok r)); simpl; [by apply HQ|]. destruct (json r); simpl; by apply HQ.
Qed.

Lemma authorization_sent s endpoint method data extra :
  rq_headers (call_request s endpoint method data extra) !! js "Authorization"
    = Some (bearer (jwt_of (session s))).
Proof. unfold call_request. simpl. by rewrite lookup_insert_eq. Qed.

Lemma jwt_logout (a : Session) : jwt_of (logout a) = None.
Proof. unfold jwt_of, logout, setLoggedOut. simpl. by rewrite lookup_delete_eq. Qed.

Lemma jwt_setLoggedIn token name (a : Session) : jwt_of (setLoggedIn token name a) = jwt_of a.
Proof. done. Qed.
End CallLemmas.

(** ** Calls against a server *)

Section Server.
Context {S P B : Type} `{!HasSession S}.
Context (reply : list (request P) → ∀ q : io_req P, io_res B q).

(** The request of a call, and the session once it has been answered: both
    depend on the page's session alone. *)
Definition session_request (a : Session) (endpoint method : jstr) (data : option P)
    (extra : gmap jstr jstr) : request P :=
  Request (baseURL (api a) ++ endpoint) method (getHeaders a).1
    (if bool_decide (method = js "post") || bool_decide (method = js "put") then data else None) extra.

Definition session_after (o : result (response B)) (a : Session) : Session :=
  match o with
  | inr r => if (status r =? 401)%Z then run_unauthorized (getHeaders a).2 else (getHeaders a).2
  | inl _ => (getHeaders a).2
  end.

Lemma call_on_session (o : result (response B)) (s : S) :
  call_state o (after_headers s) = on_session (session_after o) s.
Proof.
  unfold call_state, session_after, after_headers.
  rewrite (on_session_const (fun a => (getHeaders a).2)).
  destruct o as [e|r]; [done|]. destruct (status r =? 401)%Z; [|done]. by rewrite on_session_twice.
Qed.

Lemma run_call endpoint method data extra (s : S) log :
  run (history reply) (doCall endpoint method data extra) s log =
    let q := session_request (session s) endpoint method data extra in
    (call_result (reply log (Fetch q)), on_session (session_after (reply log (Fetch q))) s, log ++ [q]).
Proof.
  rewrite doCall_run. unfold history. simpl. by rewrite call_on_session.
Qed.

Lemma baseURL_session_after (o : result (response B)) a : baseURL (api (session_after o a)) = baseURL (api a).
Proof.
  unfold session_after, run_unauthorized. destruct o as [e|r]; [done|].
  destruct (status r =? 401)%Z; [|done]. by destruct (onUnauthorizedcallMe _).
Qed.
End Server.

#[export] Hint Rewrite @baseURL_session_after : js.

#[export] Hint Rewrite @baseURL_after @jwt_after jwt_logout jwt_setLoggedIn
  @session_on_session : js.

Section CallTheorems.
Context {P B W : Type} (answer : W → ∀ q : io_req P, io_res B q * W).

(** C1: A call through the store's client succeeds exactly when the server
    answers with a 2xx status and a readable body; a 401 logs the session
    out, and from then on no request carries the token.  Any other answer
    leaves the stored token alone. *)
Theorem doCall_session endpoint method data extra (s : Session) w :
  onUnauthorizedcallMe (api s) = StoreLogout →
  let '(o, w') := answer w (Fetch (call_request s endpoint method data extra)) in
  let '(r, s', _) := run answer (doCall endpoint method data extra) s w in
  (∀ b, r = inr b ↔ ∃ a, o = inr a ∧ ok a = true ∧ json a = inr b) ∧
  ((∃ a, o = inr a ∧ status a = 401%Z) →
     r = inl (Error (js "Authentication required")) ∧
     loggedIn (api s') = Some false ∧ username (api s') = [] ∧
     ∀ ep m d x, rq_headers (call_request (P := P) s' ep m d x) !! js "Authorization"
                   = Some (js "Bearer null")) ∧
  ((∀ a, o = inr a → status a ≠ 401%Z) → jwt_of s' = jwt_of s).
Proof.
  intros Hcb. rewrite doCall_run.
  destruct (answer w _) as [o w']. unfold call_result, call_state.
  destruct o as [e|r]; simpl.
  { split_and!; [split; [done|]; by intros (a & [=] & _)|by intros (a & [=] & _)|done]. }
  destruct (Z.eqb_spec (status r) 401) as [E|E]; simpl.
  - split_and!.
    + intros b. split; [done|]. intros (a & [= <-] & Hok & _). unfold ok in Hok. lia.
    + intros _. unfold run_unauthorized; simpl. rewrite Hcb. do 3 (split; [done|]).
      intros ep m d x. rewrite lookup_insert_eq. by rewrite jwt_logout.
    + intros H. by destruct (H r eq_refl).
  - split_and!; [|intros (a & [= <-] & ?); done|done]. intros b.
    destruct (ok r) eqn:Hok; simpl; split.
    + eauto.
    + by intros (a & [= <-] & _ & ->).
    + done.
    + intros (a & [= <-] & ? & _). congruence.
Qed.

(** [setSetting] never resolves to [false]: it resolves to [true] or throws. *)
Theorem setSetting_true_or_throws (s : Session) w name data :
  let '(r, _, _) := run answer (setSetting name data) s w in
  r = inr true ∨ ∃ e, r = inl e.
Proof.
  unfold setSetting. rewrite run_bind, doCall_run.
  destruct (answer w _) as [o w']. destruct (call_result o); simpl; eauto.
Qed.

(** The fourth argument of [doCall] does not reach the request headers. *)
Theorem extraHeaders_not_sent endpoint method (data : option P) extra (s : Session) :
  rq_headers (call_request s endpoint method data extra)
    = rq_headers (call_request s endpoint method data ∅) ∧
  rq_init (call_request s endpoint method data extra) = extra.
Proof. done. Qed.
End CallTheorems.

(** A server that refuses every token. *)
Definition refusing (w : unit) (q : io_req unit) : io_res unit q * unit :=
  let r : response unit := Response 401 (inr []) None (inr None) in
  (serve (fun _ => inr r) q, w).

Lemma doCall_session_witness :
  let '(r, s', _) := run refusing (doCall (js "/users") (js "get") None ∅)
                       (apistore [] {[ js "jwt" := js "t" ]}) () in
  r = inl (Error (js "Authentication required")) ∧ loggedIn (api s') = Some false.
Proof.
  pose proof (doCall_session refusing (js "/users") (js "get") None ∅
    (apistore [] {[ js "jwt" := js "t" ]}) () eq_refl) as H.
  destruct (refusing () (Fetch (call_request (apistore [] {[ js "jwt" := js "t" ]})
    (js "/users") (js "get") None ∅))) as [o w'] eqn:E.
  destruct (run refusing (doCall (js "/users") (js "get") None ∅)
    (apistore [] {[ js "jwt" := js "t" ]}) ()) as [[r s'] w''].
  destruct H as (_ & H & _). injection E as <- _.
  destruct H as (H1 & H2 & _); [|by split]. by eexists.
Defined.
