(* ===== verification/Busy.v ===== *)
(** * Busy flags and pages at rest

    Pages set a flag ([saving], [deleting], [testing]) before a request and
    clear it in [finally]; controls are disabled and handlers return early
    while it is set.  [guarded] is the calculus of that discipline on
    [JsAsync] programs: a handler may set the flag when it is clear, owns it
    from then on, sends the critical requests only as its owner, clears it
    before it ends, and leaves it alone when another handler owns it.

    [single_flight] is what the discipline gives in the event loop: the flag
    is set exactly while one handler that owns it is in flight.  [answers_terminate]
    is the termination of the loop when no more events come, and [at_rest]
    combines the two. *)

From S2P Require Import Prelude JsString JsAsync Http Api.
Open Scope js_scope.

(** ** A page that is open *)

Section Opened.
Context {S Rq : Type} {Rs : Rq → Type}.
Context {Ev : Type} (enabled : Ev → S → Prop) (handler : Ev → prog S Rs unit).

(** The event loop of a page whose [onMount] is [p]. *)
Definition loop_from (p : prog S Rs unit) (s0 : S) : S * list (thread S Rs) → Prop :=
  rtc (step enabled handler) ((advance p s0).1, option_list (advance p s0).2).

Lemma loop_event e p s0 s s' ts t :
  loop_from p s0 (s, ts) → enabled e s → advance (handler e) s = (s', Some t) → loop_from p s0 (s', ts ++ [t]).
Proof. intros Hr He Ha. eapply rtc_r; [exact Hr|]. by apply (step_event _ _ e s s' ts (Some t)). Qed.

(** An event that sends nothing. *)
Lemma loop_assign e p s0 s s' ts :
  loop_from p s0 (s, ts) → enabled e s → advance (handler e) s = (s', None) → loop_from p s0 (s', ts).
Proof.
  intros Hr He Ha. eapply rtc_r; [exact Hr|]. rewrite <-(app_nil_r ts) at 2.
  by apply (step_event _ _ e s s' ts None).
Qed.

Lemma loop_mounted p s0 : loop_from p s0 ((advance p s0).1, option_list (advance p s0).2).
Proof. apply rtc_refl. Qed.

Lemma loop_from_ind (I : S * list (thread S Rs) → Prop) p s0 c :
  (∀ s t, advance p s0 = (s, t) → I (s, option_list t)) →
  (∀ c c', I c → step enabled handler c c' → I c') → loop_from p s0 c → I c.
Proof.
  intros H0 Hs Hr. assert (I ((advance p s0).1, option_list (advance p s0).2)) as Hi
    by (apply H0; apply surjective_pairing).
  revert Hi. unfold loop_from in Hr. generalize dependent ((advance p s0).1, option_list (advance p s0).2).
  intros c0 Hr. induction Hr; eauto.
Qed.
End Opened.

Section Guarded.
Context {S Rq : Type} {Rs : Rq → Type}.
Context (busy : S → bool) (critical : Rq → bool).

(** The flag's owner is told by [mine]; an assignment by its owner that clears
    it ends the ownership, one by another handler while it is set keeps it
    set, and one while it is clear may take it. *)
Definition assigns (mine : bool) (s s' : S) (K : bool → Prop) : Prop :=
  if negb mine && busy s then busy s' = true ∧ K false else K (busy s').

Fixpoint guarded {A} (p : prog S Rs A) (mine : bool) (Q : result A → bool → S → Prop) (s : S) : Prop :=
  match p with
  | Ret a => Q (inr a) mine s
  | Throw e => Q (inl e) mine s
  | Get k => guarded (k s) mine Q s
  | Put s' p => assigns mine s s' (fun m => guarded p m Q s')
  | Await q k =>
      (critical q = true → mine = true) ∧
      ∀ r s', (mine = true → busy s' = true) → guarded (k r) mine Q s'
  end.

Lemma assigns_mono mine s s' (K K' : bool → Prop) :
  (∀ m, K m → K' m) → assigns mine s s' K → assigns mine s s' K'.
Proof. unfold assigns. destruct (_ && _); naive_solver. Qed.

Lemma guarded_mono {A} (p : prog S Rs A) m (Q Q' : result A → bool → S → Prop) s :
  (∀ o m' s', Q o m' s' → Q' o m' s') → guarded p m Q s → guarded p m Q' s.
Proof.
  intros HQ. revert m s. induction p as [a|e|k IH|s0 p IH|q k IH]; intros m s; simpl; auto.
  - apply assigns_mono. auto.
  - intros [Hc H]. split; [done|]. intros r s' Hs. apply IH. by apply H.
Qed.

Lemma guarded_settle {A B} (p : prog S Rs A) (f : result A → prog S Rs B) m Q s :
  guarded p m (fun o m' s' => guarded (f o) m' Q s') s → guarded (settle p f) m Q s.
Proof.
  revert m s. induction p as [a|e|k IH|s0 p IH|q k IH]; intros m s; simpl; auto.
  - apply assigns_mono. auto.
  - intros [Hc H]. split; [done|]. intros r s' Hs. apply IH. by apply H.
Qed.

Lemma guarded_bind {A B} (p : prog S Rs A) (f : A → prog S Rs B) m Q s :
  guarded p m (fun o m' s' => match o with inr a => guarded (f a) m' Q s'
                                         | inl e => Q (inl e) m' s' end) s →
  guarded (p ≫= f) m Q s.
Proof. intros H. apply guarded_settle. eapply guarded_mono; [|exact H]. by intros [e|a]. Qed.

Lemma guarded_try_catch {A} (p : prog S Rs A) h m Q s :
  guarded p m (fun o m' s' => match o with inr a => Q (inr a) m' s'
                                         | inl e => guarded (h e) m' Q s' end) s →
  guarded (try_catch p h) m Q s.
Proof. intros H. apply guarded_settle. eapply guarded_mono; [|exact H]. by intros [e|a]. Qed.

Lemma guarded_finally_modify {A} (p : prog S Rs A) f m Q s :
  guarded p m (fun o m' s' => assigns m' s' (f s') (fun m'' => Q o m'' (f s'))) s →
  guarded (finally p (modify f)) m Q s.
Proof.
  intros H. apply guarded_settle. eapply guarded_mono; [|exact H].
  intros o m' s' Ha. simpl. eapply assigns_mono; [|exact Ha]. by destruct o.
Qed.

Lemma guarded_modify f m (Q : result unit → bool → S → Prop) s :
  assigns m s (f s) (fun m' => Q (inr ()) m' (f s)) → guarded (modify f) m Q s.
Proof. done. Qed.

(** The owner goes on owning through a loop. *)
Lemma guarded_for_of {A} (l : list A) (body : A → prog S Rs unit) Q s :
  busy s = true →
  (∀ x s', busy s' = true → guarded (body x) true (fun o m s'' =>
      m = true ∧ busy s'' = true ∧ match o with inl e => Q (inl e) true s'' | inr _ => True end) s') →
  (∀ s', busy s' = true → Q (inr ()) true s') →
  guarded (for_of l body) true Q s.
Proof.
  intros Hs Hb HQ. revert s Hs. induction l as [|x l IH]; intros s Hs; simpl; [auto|].
  apply guarded_bind. eapply guarded_mono; [|by apply Hb].
  intros [e|a] m s'' (-> & Hs'' & H); auto.
Qed.

(** A handler that starts without the flag and ends without it. *)
Definition flag_safe (p : prog S Rs unit) (s : S) : Prop := guarded p false (fun _ m _ => m = false) s.

(** ** In the event loop *)

Definition sound_thread (t : thread S Rs) (m : bool) : Prop :=
  (critical (th_request t) = true → m = true) ∧
  ∀ r s, (m = true → busy s = true) → guarded (th_resume t r) m (fun _ m' _ => m' = false) s.

Lemma guarded_advance (p : prog S Rs unit) m s s' t :
  (m = true → busy s = true) → guarded p m (fun _ m' _ => m' = false) s → advance p s = (s', t) →
  ∃ m', match t with Some t => sound_thread t m' | None => m' = false end ∧
    if negb m && busy s then busy s' = true ∧ m' = false else busy s' = m'.
Proof.
  revert m s. induction p as [a|e|k IH|s0 p IH|q k IH]; intros m s Hm Hg Ha; simpl in *; simplify_eq.
  - exists false. split; [done|]. by destruct (busy s').
  - exists false. split; [done|]. by destruct (busy s').
  - by eapply IH.
  - unfold assigns in Hg. destruct (negb m && busy s) eqn:E.
    + destruct Hg as [Hb Hg]. destruct (IH false s0 ltac:(done) Hg Ha) as (m' & Ht & Hm').
      rewrite Hb in Hm'. simpl in Hm'. eauto.
    + destruct (IH (busy s0) s0 ltac:(done) Hg Ha) as (m' & Ht & Hm').
      exists m'. split; [done|]. by destruct (busy s0).
  - exists m. split; [done|]. destruct (busy s') eqn:E, m; naive_solver.
Qed.

(** How many of the handlers in flight own the flag. *)
Definition owners (ms : list bool) : nat := length (List.filter id ms).

Lemma owners_app ms ms' : owners (ms ++ ms') = owners ms + owners ms'.
Proof. unfold owners. by rewrite List.filter_app, length_app. Qed.

Definition flag_held (c : S * list (thread S Rs)) : Prop :=
  ∃ ms, Forall2 sound_thread c.2 ms ∧ owners ms = if busy c.1 then 1 else 0.

Lemma flag_held_step ts1 ts2 ms1 ms2 m s s' (t : option (thread S Rs)) m' :
  Forall2 sound_thread ts1 ms1 → Forall2 sound_thread ts2 ms2 →
  owners (ms1 ++ m :: ms2) = (if busy s then 1 else 0) →
  match t with Some t => sound_thread t m' | None => m' = false end →
  (if negb m && busy s then busy s' = true ∧ m' = false else busy s' = m') →
  flag_held (s', ts1 ++ option_list t ++ ts2).
Proof.
  intros H1 H2 Ho Ht Hm. exists (ms1 ++ match t with Some _ => [m'] | None => [] end ++ ms2). split.
  - apply Forall2_app; [done|]. apply Forall2_app; [|done]. destruct t; [by apply Forall2_cons|constructor].
  - rewrite owners_app in Ho |- *. rewrite owners_app. change (m :: ms2) with ([m] ++ ms2) in Ho.
    rewrite owners_app in Ho. unfold owners in *. cbn [fst snd].
    destruct t, m, (busy s), (busy s'), m'; simpl in *; try done; try lia; by destruct Hm.
Qed.

Section Loop.
Context {Ev : Type} (enabled : Ev → S → Prop) (handler : Ev → prog S Rs unit).
Context (Hsafe : ∀ e s, enabled e s → flag_safe (handler e) s).

Lemma flag_held_advance p s s' ts t :
  flag_held (s, ts) → flag_safe p s → advance p s = (s', t) → flag_held (s', ts ++ option_list t).
Proof.
  intros (ms & HF & Ho) Hp Ha. simpl in *.
  destruct (guarded_advance p false s s' t ltac:(done) Hp Ha) as (m' & Ht & Hm).
  rewrite <-(app_nil_r (option_list t)).
  apply (flag_held_step ts [] ms [] false s s' t m'); try done.
  rewrite owners_app, Ho. unfold owners. simpl. by rewrite Nat.add_0_r.
Qed.

(** Exactly one handler in flight owns the flag while it is set, and none
    while it is clear. *)
Lemma flag_held_preserved c c' : flag_held c → step enabled handler c c' → flag_held c'.
Proof.
  intros Hc Hstep. destruct Hstep as [e s s' ts t He Ha|q k r s s' ts1 ts2 t Ha].
  - eapply flag_held_advance; eauto.
  - destruct Hc as (ms & HF & Ho). simpl in *.
    apply Forall2_app_inv_l in HF as (ms1 & ms2' & H1 & H2 & ->).
    inversion H2 as [|? m ? ms2 Hth H2']; simplify_eq.
    assert (m = true → busy s = true) as Hmb.
    { intros ->. rewrite owners_app in Ho. unfold owners in Ho. simpl in Ho. destruct (busy s); [done|lia]. }
    destruct Hth as [_ Hth]. simpl in Hth.
    destruct (guarded_advance _ m s s' t Hmb (Hth r s Hmb) Ha) as (m' & Ht & Hm).
    by apply (flag_held_step ts1 ts2 ms1 ms2 m s s' t m').
Qed.

Lemma flag_held_critical ts ms :
  Forall2 sound_thread ts ms →
  length (List.filter (fun t => critical (th_request t)) ts) ≤ owners ms.
Proof.
  induction 1 as [|t m ts ms [Ht _] _ IH]; [done|]. unfold owners in *. simpl.
  destruct (critical _); [rewrite (Ht eq_refl); simpl; lia|]. destruct m; simpl; lia.
Qed.

(** At most one critical request is under way, and none while the flag is
    clear; the flag is never set without a handler in flight to clear it. *)
Lemma single_flight p s0 s ts :
  busy s0 = false → flag_safe p s0 → loop_from enabled handler p s0 (s, ts) →
  length (List.filter (fun t => critical (th_request t)) ts) ≤ (if busy s then 1 else 0) ∧
  (busy s = true → ts ≠ []).
Proof.
  intros H0 Hp Hr. assert (flag_held (s, ts)) as (ms & HF & Ho).
  { eapply loop_from_ind; [|exact flag_held_preserved|exact Hr].
    intros s' t. apply (flag_held_advance p s0 s' []); [|done]. exists []. simpl. by rewrite H0. }
  simpl in *. split.
  - rewrite <-Ho. by apply flag_held_critical.
  - intros Hb ->. inversion HF; subst. rewrite Hb in Ho. discriminate Ho.
Qed.
End Loop.
End Guarded.

(** ** Flags are cleared *)

Section Settling.
Context {S Rq : Type} {Rs : Rq → Type} (busy : S → bool).

(** Ends, on every path, with the flag clear. *)
Definition clearing {A} (p : prog S Rs A) (s : S) : Prop :=
  wp (fun _ => True) p (fun _ s' => busy s' = false) s.

(** Never assigns the flag. *)
Fixpoint bystander {A} (p : prog S Rs A) (s : S) : Prop :=
  match p with
  | Ret _ | Throw _ => True
  | Get k => bystander (k s) s
  | Put s' p => busy s' = busy s ∧ bystander p s'
  | Await q k => ∀ r s', bystander (k r) s'
  end.

(** At each point of the program, either all that is left of it is [clearing],
    or it has not assigned the flag: what follows it is then judged by [Q],
    and by [C] when the rest was to be cleared. *)
Fixpoint eventually {A} (p : prog S Rs A) (Q C : result A → S → Prop) (s : S) : Prop :=
  wp (fun _ => True) p C s ∨
  match p with
  | Ret a => Q (inr a) s
  | Throw e => Q (inl e) s
  | Get k => eventually (k s) Q C s
  | Put s' p => busy s' = busy s ∧ eventually p Q C s'
  | Await q k => ∀ r s', eventually (k r) Q C s'
  end.

(** A handler that sets the flag clears it before it ends. *)
Definition settling (p : prog S Rs unit) (s : S) : Prop :=
  eventually p (fun _ _ => True) (fun _ s' => busy s' = false) s.

Lemma eventually_clear {A} (p : prog S Rs A) Q C s : wp (fun _ => True) p C s → eventually p Q C s.
Proof. destruct p; by left. Qed.

Lemma clearing_settling p s : clearing p s → settling p s.
Proof. apply eventually_clear. Qed.

Lemma eventually_settle {A B} (p : prog S Rs A) (f : result A → prog S Rs B) Q C s :
  eventually p (fun o s' => eventually (f o) Q C s') (fun o s' => wp (fun _ => True) (f o) C s') s →
  eventually (settle p f) Q C s.
Proof.
  revert s. induction p as [a|e|k IH|s0 p IH|q k IH]; intros s; cbn [eventually];
    (intros [H|H]; [apply eventually_clear; by apply wp_settle|]); cbn [settle]; [done|done|right..]; auto.
  destruct H. auto.
Qed.

Lemma eventually_mono {A} (p : prog S Rs A) (Q Q' C C' : result A → S → Prop) s :
  (∀ o s', Q o s' → Q' o s') → (∀ o s', C o s' → C' o s') → eventually p Q C s → eventually p Q' C' s.
Proof.
  intros HQ HC. revert s. induction p as [a|e|k IH|s0 p IH|q k IH]; intros s; cbn [eventually];
    (intros [H|H]; [left; by eapply wp_mono|right]); auto.
  destruct H. auto.
Qed.

Lemma eventually_bind {A B} (p : prog S Rs A) (f : A → prog S Rs B) Q C s :
  eventually p
    (fun o s' => match o with inr a => eventually (f a) Q C s' | inl e => Q (inl e) s' end)
    (fun o s' => match o with inr a => wp (fun _ => True) (f a) C s' | inl e => C (inl e) s' end) s →
  eventually (p ≫= f) Q C s.
Proof.
  intros H. apply eventually_settle. eapply eventually_mono; [| |exact H]; intros [e|a] s'; cbn; tauto.
Qed.

Lemma eventually_try_catch {A} (p : prog S Rs A) h Q C s :
  eventually p
    (fun o s' => match o with inl e => eventually (h e) Q C s' | inr a => Q (inr a) s' end)
    (fun o s' => match o with inl e => wp (fun _ => True) (h e) C s' | inr a => C (inr a) s' end) s →
  eventually (try_catch p h) Q C s.
Proof.
  intros H. apply eventually_settle. eapply eventually_mono; [| |exact H]; intros [e|a] s'; cbn; tauto.
Qed.

(** A [finally] that assigns another flag. *)
Lemma eventually_finally {A} (p : prog S Rs A) f Q C s :
  (∀ s', busy (f s') = busy s') →
  eventually p (fun o s' => Q o (f s')) (fun o s' => C o (f s')) s →
  eventually (finally p (modify f)) Q C s.
Proof.
  intros Hf H. apply eventually_settle. eapply eventually_mono; [| |exact H]; intros o s' Ho; cbn.
  - destruct o; cbn; auto 10.
  - by destruct o.
Qed.

(** An assignment that leaves the flag alone, before the rest. *)
Lemma settling_modify f (p : prog S Rs unit) s :
  busy (f s) = busy s → settling p (f s) → settling (modify f ≫= (fun _ => p)) s.
Proof.
  intros Hf Hp. apply eventually_bind. right. right. split; [done|]. by right.
Qed.

Lemma eventually_bystander {A} (p : prog S Rs A) (Q C : result A → S → Prop) s :
  bystander p s → (∀ o s', Q o s') → eventually p Q C s.
Proof.
  intros Hp HQ. revert s Hp. induction p as [a|e|k IH|s0 p IH|q k IH]; intros s Hp;
    cbn [eventually bystander] in *; right; auto.
  destruct Hp. auto.
Qed.

(** Comes, on every path, to a point where the flag is clear and the rest is
    [settling]. *)
Fixpoint clears (p : prog S Rs unit) (s : S) : Prop :=
  busy s = false ∧ settling p s ∨
  match p with
  | Ret _ | Throw _ => False
  | Get k => clears (k s) s
  | Put s' p => clears p s'
  | Await q k => ∀ r s', clears (k r) s'
  end.

Lemma clears_here p s : busy s = false → settling p s → clears p s.
Proof. intros Hb Hp. destruct p; by left. Qed.

Lemma clearing_clears p s : clearing p s → clears p s.
Proof.
  unfold clearing. revert s. induction p as [a|e|k IH|s0 p IH|q k IH]; intros s Hp; cbn [wp_given] in Hp; cbn [clears].
  1, 2: left; split; [done|by right].
  all: right; auto. intros r s'. apply IH. by apply Hp.
Qed.

(** Where a program comes to after [p] is judged on every way of leaving [p]. *)
Lemma clears_settle {A} (p : prog S Rs A) (f : result A → prog S Rs unit) s :
  wp (fun _ => True) p (fun o s' => clears (f o) s') s → clears (settle p f) s.
Proof.
  revert s. induction p as [a|e|k IH|s0 p IH|q k IH]; intros s Hp; cbn [wp_given settle] in *;
    [done|done|right; by apply IH..|]. right. intros r s'. by apply IH, Hp.
Qed.

Definition clearing_thread (t : thread S Rs) : Prop := ∀ r s, clearing (th_resume t r) s.
Definition clears_thread (t : thread S Rs) : Prop := ∀ r s, clears (th_resume t r) s.

Lemma clearing_thread_clears t : clearing_thread t → clears_thread t.
Proof. intros H r s. apply clearing_clears, H. Qed.

(** A handler in flight that sets the flag clears it later. *)
Definition tame (p : prog S Rs unit) (s : S) : Prop := settling p s ∨ clears p s.
Definition tame_thread (t : thread S Rs) : Prop := ∀ r s, tame (th_resume t r) s.

(** While the flag is set, a handler that will clear it is in flight. *)
Definition will_clear (c : S * list (thread S Rs)) : Prop :=
  Forall tame_thread c.2 ∧ (busy c.1 = true → Exists clears_thread c.2).

Lemma clearing_advance (p : prog S Rs unit) s s' t :
  clearing p s → advance p s = (s', t) →
  match t with Some t => clearing_thread t | None => busy s' = false end.
Proof.
  unfold clearing. revert s. induction p as [a|e|k IH|s0 p IH|q k IH]; intros s Hp Ha; simpl in *;
    simplify_eq/=; try done; [by eapply IH..|]. intros r s. by apply Hp.
Qed.

Lemma settling_advance (p : prog S Rs unit) s s' t :
  settling p s → advance p s = (s', t) →
  match t with Some t => clearing_thread t | None => busy s' = false end ∨
  (busy s' = busy s ∧ match t with Some t => ∀ r s, settling (th_resume t r) s | None => True end).
Proof.
  unfold settling. revert s. induction p as [a|e|k IH|s0 p IH|q k IH]; intros s [Hp|Hp] Ha;
    try (left; by eapply clearing_advance); simpl in Ha; simplify_eq; eauto.
  destruct Hp as [<- Hp]. eauto.
Qed.

(** Either what [p] suspends as will clear the flag, or [p] has left it. *)
Lemma settling_leaves (p : prog S Rs unit) s s' t :
  settling p s → advance p s = (s', t) →
  (∀ t', t = Some t' → tame_thread t') ∧
  (busy s' = true → busy s = true ∨ ∃ t', t = Some t' ∧ clears_thread t').
Proof.
  intros Hp Ha. destruct (settling_advance p s s' t Hp Ha) as [Ht|[Hbs Ht]].
  - destruct t as [t|]; [|split; [done|congruence]]. apply clearing_thread_clears in Ht. split; [|eauto].
    intros ? [= <-] r s1. right. apply Ht.
  - split; [|rewrite Hbs; auto]. intros ? -> r s1. left. apply Ht.
Qed.

Lemma clears_leaves (p : prog S Rs unit) s s' t :
  clears p s → advance p s = (s', t) →
  (∀ t', t = Some t' → tame_thread t') ∧ (busy s' = true → ∃ t', t = Some t' ∧ clears_thread t').
Proof.
  assert (∀ p s, busy s = false → settling p s → advance p s = (s', t) →
    (∀ t', t = Some t' → tame_thread t') ∧ (busy s' = true → ∃ t', t = Some t' ∧ clears_thread t')) as Hhere.
  { intros p0 s0 Hb Hp Ha. destruct (settling_leaves p0 s0 s' t Hp Ha) as [H1 H2]. split; [done|].
    intros Hb'. destruct (H2 Hb'); [congruence|done]. }
  revert s. induction p as [a|e|k IH|s0 p IH|q k IH]; intros s [[Hb Hp]|Hp] Ha; try (by eapply Hhere);
    cbn [advance] in Ha; simplify_eq; try done; [by eapply IH..|].
  assert (clears_thread (Thread q k)) as Ht by exact Hp.
  split; [|by eauto]. intros ? [= <-] r s1. right. apply Ht.
Qed.

Lemma will_clear_advance p s s' ts1 ts2 t :
  Forall tame_thread (ts1 ++ ts2) →
  (busy s = true → Exists clears_thread (ts1 ++ ts2) ∨ clears p s) →
  tame p s → advance p s = (s', t) → will_clear (s', ts1 ++ option_list t ++ ts2).
Proof.
  intros HF Hb Hp Ha.
  assert ((∀ t', t = Some t' → tame_thread t') ∧ (busy s' = true →
    Exists clears_thread (ts1 ++ ts2) ∨ ∃ t', t = Some t' ∧ clears_thread t')) as [H1 H2].
  { destruct Hp as [Hp|Hp].
    - destruct (settling_leaves p s s' t Hp Ha) as [H1 H2]. split; [done|]. intros Hb'.
      destruct (H2 Hb') as [Hbs|?]; [|by right]. destruct (Hb Hbs) as [?|Hc]; [by left|]. right.
      by apply (clears_leaves p s s' t Hc Ha).
    - destruct (clears_leaves p s s' t Hp Ha) as [H1 H2]. split; [done|]. auto. }
  apply Forall_app in HF as [HF1 HF2]. split; cbn [fst snd].
  - apply Forall_app. split; [done|]. apply Forall_app. split; [|done]. destruct t; [|constructor].
    apply Forall_singleton. by apply H1.
  - intros Hb'. rewrite !Exists_app. destruct (H2 Hb') as [HE|(t' & -> & Ht)].
    + apply Exists_app in HE as [HE|HE]; auto.
    + right. left. by apply Exists_cons_hd.
Qed.

(** [finally] with an assignment that clears the flag. *)
Lemma wp_true {A} (p : prog S Rs A) s : wp (fun _ => True) p (fun _ _ => True) s.
Proof. revert s. induction p as [a|e|k IH|s0 p IH|q k IH]; intros s; simpl; auto. Qed.

Section Loop.
Context {Ev : Type} (enabled : Ev → S → Prop) (handler : Ev → prog S Rs unit).
Context (Hsettles : ∀ e s, enabled e s → tame (handler e) s).

Lemma will_clear_preserved c c' : will_clear c → step enabled handler c c' → will_clear c'.
Proof.
  intros [HF Hb] Hstep. destruct Hstep as [e s s' ts t He Ha|q k r s s' ts1 ts2 t Ha]; simpl in *.
  - rewrite <-(app_nil_r (option_list t)). apply (will_clear_advance (handler e) s); auto.
    + by rewrite app_nil_r.
    + rewrite app_nil_r. auto.
  - apply Forall_app in HF as [HF1 HF2]. inversion HF2 as [|? ? Hth HF2']; simplify_eq.
    apply (will_clear_advance (k r) s); [by apply Forall_app| |by apply Hth|done].
    intros Hbt. apply Hb in Hbt as HE. apply Exists_app in HE as [HE|HE].
    + left. apply Exists_app. by left.
    + inversion HE as [? ? Hc|? ? HE']; simplify_eq; [right; apply Hc|].
      left. apply Exists_app. by right.
Qed.

(** With nothing in flight the flag is clear, whatever the order of the
    answers and whatever other handlers did. *)
Lemma flag_clear_at_rest p s0 s :
  clears p s0 ∨ busy s0 = false ∧ settling p s0 → loop_from enabled handler p s0 (s, []) → busy s = false.
Proof.
  intros H0 Hr. assert (will_clear (s, [])) as [_ Hb].
  { eapply loop_from_ind; [|exact will_clear_preserved|exact Hr].
    intros s' t Ha. rewrite <-(app_nil_r (option_list t)).
    apply (will_clear_advance p s0 s' [] []); [constructor| | |done].
    - destruct H0 as [H0|[H0 _]]; [auto|by rewrite H0].
    - destruct H0 as [H0|[_ H0]]; [by right|by left]. }
  destruct (busy s) eqn:E; [|done]. by apply Hb, Exists_nil in E.
Qed.
End Loop.
End Settling.

(** ** Termination *)

Section Rest.
Context {S Rq : Type} {Rs : Rq → Type}.

(** The part of [step] that is left when no more events come. *)
Inductive answer_step : S * list (thread S Rs) → S * list (thread S Rs) → Prop :=
| answer_one q k (r : Rs q) s s' ts1 ts2 t :
    advance (k r) s = (s', t) →
    answer_step (s, ts1 ++ Thread q k :: ts2) (s', ts1 ++ option_list t ++ ts2).

(** [t'] is what [t] suspends as next. *)
Definition resumes_as (t' t : thread S Rs) : Prop :=
  ∃ r s s', advance (th_resume t r) s = (s', Some t').

Lemma resumes_as_Acc (p : prog S Rs unit) s s' t : advance p s = (s', Some t) → Acc resumes_as t.
Proof.
  revert s s' t. induction p as [a|e|k IH|s0 p IH|q k IH]; intros s s' t H; simpl in H; simplify_eq; eauto.
  constructor. intros t' (r & s1 & s2 & Ha). by eapply IH.
Qed.

Lemma resumes_as_wf : well_founded resumes_as.
Proof. intros t. constructor. intros t' (r & s & s' & Ha). by eapply resumes_as_Acc. Qed.

(** One thread of the list ends or suspends again. *)
Inductive shrinks : list (thread S Rs) → list (thread S Rs) → Prop :=
| shrinks_end t ts1 ts2 : shrinks (ts1 ++ ts2) (ts1 ++ t :: ts2)
| shrinks_resume t t' ts1 ts2 : resumes_as t' t → shrinks (ts1 ++ t' :: ts2) (ts1 ++ t :: ts2).

Lemma shrinks_cons l t ts :
  shrinks l (t :: ts) →
  l = ts ∨ (∃ t', resumes_as t' t ∧ l = t' :: ts) ∨ (∃ ts', shrinks ts' ts ∧ l = t :: ts').
Proof.
  intros H. remember (t :: ts) as l0 eqn:E.
  destruct H as [t0 ts1 ts2|t0 t' ts1 ts2 Ht]; destruct ts1 as [|u ts1]; simplify_eq/=; eauto 10 using shrinks.
Qed.

Lemma shrinks_wf : well_founded shrinks.
Proof.
  intros ts. induction ts as [|t ts IH].
  - constructor. intros l H. remember [] as l0 eqn:E. by destruct H as [? [] ?|? ? [] ?].
  - revert ts IH. induction t as [t IHt] using (well_founded_induction resumes_as_wf).
    intros ts Hts. induction Hts as [ts Hts IHts].
    constructor. intros l [->|[(t' & Ht & ->)|(ts' & H & ->)]]%shrinks_cons; auto.
    + by constructor.
    + apply IHt; [done|]. by constructor.
Qed.

Lemma answer_shrinks c c' : answer_step c c' → shrinks c'.2 c.2.
Proof.
  intros H. destruct H as [q k r s s' ts1 ts2 [t|] Ha]; simpl.
  - apply shrinks_resume. by exists r, s, s'.
  - apply shrinks_end.
Qed.

(** However the answers come, there are finitely many until none is due. *)
Lemma answers_terminate c : Acc (flip answer_step) c.
Proof.
  destruct c as [s ts]. revert s.
  induction ts as [ts IH] using (well_founded_induction shrinks_wf). intros s.
  constructor. intros [s' ts'] H. apply IH. by apply answer_shrinks in H.
Qed.

Lemma answer_is_step {Ev} (enabled : Ev → S → Prop) handler c c' :
  answer_step c c' → step enabled handler c c'.
Proof. intros H. destruct H. by eapply step_answer. Qed.

Lemma loop_from_answers {Ev} (enabled : Ev → S → Prop) handler p s0 c c' :
  loop_from enabled handler p s0 c → rtc answer_step c c' → loop_from enabled handler p s0 c'.
Proof.
  intros Hc Hs. eapply rtc_trans; [exact Hc|]. eapply rtc_subrel; [|exact Hs].
  intros c1 c2. apply answer_is_step.
Qed.

(** An invariant that [onMount] and every handler keep holds on the page. *)
Lemma invariant_loop (I : S → Prop) {Ev} (enabled : Ev → S → Prop) (handler : Ev → prog S Rs unit) p s0 s ts :
  (∀ e s, I s → enabled e s → wp I (handler e) (fun _ s' => I s') s) →
  wp I p (fun _ s' => I s') s0 → loop_from enabled handler p s0 (s, ts) → I s.
Proof.
  intros Hh H0 Hr.
  enough (I (s, ts).1 ∧ Forall (fun t => ∀ r, keeps I (th_resume t r)) (s, ts).2) by tauto.
  revert Hr. apply (loop_from_ind enabled handler (fun c =>
    I c.1 ∧ Forall (fun t => ∀ r, keeps I (th_resume t r)) c.2)).
  - intros s' t Ha. destruct (wp_advance _ _ _ _ _ _ H0 Ha) as [HI Ht]. split; [done|].
    destruct t; [apply Forall_singleton; auto|constructor].
  - intros c c' [HI HF] Hstep. destruct Hstep as [e s1 s2 ts1 t He Ha|q k r s1 s2 ts1 ts2 t Ha]; simpl in *.
    + destruct (wp_advance _ _ _ _ _ _ (Hh e s1 HI He) Ha) as [HI' Ht]. split; [done|].
      apply Forall_app. split; [done|]. destruct t; [apply Forall_singleton; auto|constructor].
    + apply Forall_app in HF as [HF1 HF2]. inversion HF2 as [|? ? Hk HF2']; simplify_eq.
      destruct (wp_advance _ _ _ _ _ _ (Hk r s1 HI) Ha) as [HI' Ht]. split; [done|].
      apply Forall_app. split; [done|]. apply Forall_app. split; [|done].
      destruct t; [apply Forall_singleton; auto|constructor].
Qed.

(** A handler that never assigns a flag keeps it clear. *)
Lemma bystander_wp (busy : S → bool) {A} (p : prog S Rs A) s :
  (bystander busy p s) → busy s = false →
  wp (fun s => busy s = false) p (fun _ s' => busy s' = false) s.
Proof.
  revert s. induction p as [a|e|k IH|s0 p IH|q k IH]; intros s Hp Hs; cbn [wp_given bystander] in *; auto.
  destruct Hp as [Hb Hp]. apply IH; congruence.
Qed.

(** [run] is one schedule of the loop: a handler alone in flight, answered at
    once. *)
Lemma run_answers {W} (answer : W → ∀ q : Rq, Rs q * W) (p : prog S Rs unit) s w :
  rtc answer_step ((advance p s).1, option_list (advance p s).2) ((run answer p s w).1.2, []).
Proof.
  revert s w. induction p as [a|e|k IH|s0 p IH|q k IH]; intros s w; cbn [advance run fst snd option_list];
    [reflexivity|reflexivity|apply IH|apply IH|].
  destruct (answer w q) as [r w']. eapply rtc_l; [|apply IH].
  destruct (advance (k r) s) as [s' t] eqn:Ha. cbn [fst snd].
  pose proof (answer_one q k r s s' [] [] t Ha) as H. simpl in H. by rewrite app_nil_r in H.
Qed.

Lemma loop_from_run {W Ev} (enabled : Ev → S → Prop) handler (answer : W → ∀ q : Rq, Rs q * W) p s0 w :
  loop_from enabled handler p s0 ((run answer p s0 w).1.2, []).
Proof. eapply loop_from_answers; [apply rtc_refl|]. apply run_answers. Qed.

(** The flags of a page at rest: when every handler settles each of them, or
    clears it before it ends, the answers end and leave all of them clear. *)
Lemma page_rests_tame {Ev} (enabled : Ev → S → Prop) (handler : Ev → prog S Rs unit) p s0 c (flags : list (S → bool)) :
  loop_from enabled handler p s0 c →
  Forall (fun flag => (∀ e s, enabled e s → tame flag (handler e) s) ∧
    (clears flag p s0 ∨ flag s0 = false ∧ settling flag p s0)) flags →
  Acc (flip answer_step) c ∧
  ∀ s, rtc answer_step c (s, []) → Forall (fun flag => flag s = false) flags.
Proof.
  intros Hr HF. split; [apply answers_terminate|]. intros s Hs.
  eapply loop_from_answers in Hr; [|exact Hs].
  eapply Forall_impl; [exact HF|]. intros flag [Hh H0]. by eapply (flag_clear_at_rest flag).
Qed.

Lemma page_rests {Ev} (enabled : Ev → S → Prop) (handler : Ev → prog S Rs unit) p s0 c (flags : list (S → bool)) :
  loop_from enabled handler p s0 c →
  Forall (fun flag => (∀ e s, enabled e s → settling flag (handler e) s) ∧
    (clears flag p s0 ∨ flag s0 = false ∧ settling flag p s0)) flags →
  Acc (flip answer_step) c ∧
  ∀ s, rtc answer_step c (s, []) → Forall (fun flag => flag s = false) flags.
Proof.
  intros Hr HF. apply (page_rests_tame enabled handler p s0); [done|].
  eapply Forall_impl; [exact HF|]. intros flag [Hh H0]. split; [|done]. intros e s He. left. by apply Hh.
Qed.

(** A page comes to rest: every sequence of answers ends with nothing in
    flight. *)
Lemma comes_to_rest (c : S * list (thread S Rs)) (answer : ∀ q, Rs q) :
  ∃ s, rtc answer_step c (s, []).
Proof.
  destruct c as [s ts]. revert s.
  induction ts as [ts IH] using (well_founded_induction shrinks_wf). intros s.
  destruct ts as [|[q k] ts]; [exists s; reflexivity|].
  destruct (advance (k (answer q)) s) as [s' t] eqn:Ha.
  pose proof (answer_one q k (answer q) s s' [] ts t Ha) as H. simpl in H.
  destruct (IH _ (answer_shrinks _ _ H) s') as [s'' Hs]. exists s''. by eapply rtc_l.
Qed.
End Rest.

(** ** Reading a handler under [guarded] *)

Section Rules.
Context {S P B : Type} (busy : S → bool) (critical : io_req P → bool).
Implicit Types (s : S) (m : bool).

Lemma assigns_frame m s s' (K : bool → Prop) :
  busy s' = busy s → (m = true → busy s = true) → K m → assigns busy m s s' K.
Proof.
  unfold assigns. intros E Hm HK. rewrite E. destruct m; simpl; [by rewrite (Hm eq_refl)|].
  by destruct (busy s).
Qed.

Lemma assigns_own b s s' (K : bool → Prop) : busy s' = b → K b → assigns busy true s s' K.
Proof. by intros <-. Qed.

Lemma assigns_take b s s' (K : bool → Prop) :
  busy s = false → busy s' = b → K b → assigns busy false s s' K.
Proof. unfold assigns. intros -> <-. done. Qed.

Lemma guarded_fetch (rq : request P) m (Q : result (response B) → bool → S → Prop) s :
  (critical (Fetch rq) = true → m = true) →
  (∀ o s', (m = true → busy s' = true) → Q o m s') →
  guarded busy critical (fetch rq) m Q s.
Proof. intros Hc HQ. split; [done|]. intros o s' Hs. destruct o; simpl; auto. Qed.

Lemma guarded_fetch_checked (rq : request P) m (Q : result (response B) → bool → S → Prop) s :
  (critical (Fetch rq) = true → m = true) →
  (∀ o s', (m = true → busy s' = true) → Q o m s') →
  guarded busy critical (fetch_checked rq) m Q s.
Proof. intros Hc HQ. split; [done|]. intros o s' Hs. destruct (checked o); simpl; auto. Qed.

Lemma guarded_fetch_body (rq : request P) m (Q : result B → bool → S → Prop) s :
  (critical (Fetch rq) = true → m = true) →
  (∀ o s', (m = true → busy s' = true) → Q o m s') →
  guarded busy critical (fetch_body rq) m Q s.
Proof.
  intros Hc HQ. apply guarded_bind, guarded_fetch_checked; [done|]. intros [e|r] s' Hs; [auto|].
  apply guarded_bind. unfold read_json. destruct (json r) as [e|[b|]]; simpl; auto.
Qed.

Lemma guarded_deref {A} (o : option A) m (Q : result A → bool → S → Prop) s :
  (∀ o', Q o' m s) → guarded busy critical (deref (B := B) o) m Q s.
Proof. destruct o; simpl; auto. Qed.

Context `{!HasSession S} (Hsession : ∀ f s, busy (on_session f s) = busy s).

Lemma guarded_doCall endpoint method (data : option P) extra
    (Q : result (option B) → bool → S → Prop) m s :
  (m = true → busy s = true) →
  (∀ url h body, critical (Fetch (Request url method h body extra)) = true → m = true) →
  (∀ o s', (m = true → busy s' = true) → Q o m s') →
  guarded busy critical (doCall endpoint method data extra) m Q s.
Proof.
  intros Hm Hc HQ. unfold doCall, take_headers, url_of, fetch.
  apply guarded_bind. cbn [guarded]. destruct (getHeaders (session s)) as [h a]. cbn [guarded].
  apply assigns_frame; [by rewrite Hsession|done|]. apply guarded_bind. cbn [guarded].
  apply guarded_bind. cbn [guarded]. split; [by apply Hc|].
  intros [e|r] s' Hs; cbn [of_result guarded]; [by apply HQ|].
  unfold check_response. destruct (status r =? 401)%Z.
  - apply guarded_bind, guarded_modify, assigns_frame; [by rewrite Hsession|done|].
    cbn [guarded]. apply HQ. by rewrite Hsession.
  - destruct (ok r); cbn [negb guarded]; [|by apply HQ].
    unfold read_json. destruct (json r); cbn [of_result guarded]; by apply HQ.
Qed.
End Rules.

(** ** Handlers that have nothing to do with the flag *)

Section Harmless.
Context {S P B : Type} (busy : S → bool) (critical : io_req P → bool).
#[local] Abbreviation prog := (prog S (io_res (P := P) B)).

Fixpoint harmless_from {A} (p : prog A) (s : S) : Prop :=
  match p with
  | Ret _ | Throw _ => True
  | Get k => harmless_from (k s) s
  | Put s' p => busy s' = busy s ∧ harmless_from p s'
  | Await q k => critical q = false ∧ ∀ r s', harmless_from (k r) s'
  end.

(** Never assigns the flag and sends no critical request. *)
Definition harmless {A} (p : prog A) : Prop := ∀ s, harmless_from p s.

Lemma harmless_guarded {A} (p : prog A) m (Q : result A → bool → S → Prop) s :
  harmless p → (m = true → busy s = true) → (∀ o s', (m = true → busy s' = true) → Q o m s') →
  guarded busy critical p m Q s.
Proof.
  intros Hp Hm HQ. specialize (Hp s). revert s Hm Hp.
  induction p as [a|e|k IH|s0 p IH|q k IH]; intros s Hm Hp; cbn [guarded harmless_from] in *; auto.
  - destruct Hp as [Hb Hp]. apply assigns_frame; [done|done|]. apply IH; [|done]. by rewrite Hb.
  - destruct Hp as [Hc Hp]. split; [by rewrite Hc|]. intros r s' Hs'. by apply IH.
Qed.

Lemma harmless_bystander {A} (p : prog A) s : harmless p → bystander busy p s.
Proof.
  intros Hp. specialize (Hp s). revert s Hp.
  induction p as [a|e|k IH|s0 p IH|q k IH]; intros s Hp; cbn [bystander harmless_from] in *; auto.
  - destruct Hp. auto.
  - destruct Hp as [_ Hp]. auto.
Qed.

Lemma harmless_safe (p : prog unit) s : harmless p → flag_safe busy critical p s.
Proof. intros Hp. by apply harmless_guarded. Qed.

Lemma harmless_settle {A C} (p : prog A) (f : result A → prog C) :
  harmless p → (∀ o, harmless (f o)) → harmless (settle p f).
Proof.
  intros Hp Hf s. specialize (Hp s). revert s Hp.
  induction p as [a|e|k IH|s0 p IH|q k IH]; intros s Hp; cbn [settle harmless_from] in *; try apply Hf; auto.
  - destruct Hp as [Hb Hp]. auto.
  - destruct Hp as [Hc Hp]. split; [done|]. intros r s'. by apply IH.
Qed.

Lemma harmless_bind {A C} (p : prog A) (f : A → prog C) :
  harmless p → (∀ a, harmless (f a)) → harmless (p ≫= f).
Proof. intros Hp Hf. apply harmless_settle; [done|]. by intros [e|a]. Qed.

Lemma harmless_try_catch {A} (p : prog A) h : harmless p → (∀ e, harmless (h e)) → harmless (try_catch p h).
Proof. intros Hp Hf. apply harmless_settle; [done|]. by intros [e|a]. Qed.

Lemma harmless_finally {A} (p : prog A) f : harmless p → harmless f → harmless (finally p f).
Proof.
  intros Hp Hf. apply harmless_settle; [done|]. intros o. apply harmless_settle; [done|].
  intros [e|[]]; [done|]. by destruct o.
Qed.

Lemma harmless_for_of {A} (l : list A) (body : A → prog unit) :
  (∀ x, harmless (body x)) → harmless (for_of l body).
Proof.
  intros Hb. induction l as [|x l IH]; [done|]. simpl. by apply harmless_bind.
Qed.

Lemma harmless_modify f : (∀ s, busy (f s) = busy s) → harmless (modify f).
Proof. intros Hf s. by split. Qed.

Lemma harmless_get : harmless get.
Proof. done. Qed.

Lemma harmless_of_result {A} (o : result A) : harmless (of_result o).
Proof. by destruct o. Qed.

Lemma harmless_await q : critical q = false → harmless (await q).
Proof. by split. Qed.

Lemma harmless_fetch (rq : request P) : critical (Fetch rq) = false → harmless (fetch rq).
Proof. intros Hc s. split; [done|]. intros o s'. apply harmless_of_result. Qed.

Lemma harmless_fetch_checked (rq : request P) : critical (Fetch rq) = false → harmless (fetch_checked rq).
Proof. intros Hc s. split; [done|]. intros o s'. apply harmless_of_result. Qed.

Lemma harmless_deref {A} (o : option A) : harmless (deref o).
Proof. by destruct o. Qed.

Lemma harmless_fetch_body (rq : request P) : critical (Fetch rq) = false → harmless (fetch_body rq).
Proof.
  intros Hc. apply harmless_bind; [by apply harmless_fetch_checked|]. intros r.
  apply harmless_bind; [apply harmless_of_result|]. apply harmless_deref.
Qed.

Lemma harmless_when b (p : prog unit) : harmless p → harmless (when b p).
Proof. by destruct b. Qed.

Context `{!HasSession S} (Hsession : ∀ f s, busy (on_session f s) = busy s).

Lemma harmless_doCall endpoint method (data : option P) extra :
  (∀ url h body, critical (Fetch (Request url method h body extra)) = false) →
  harmless (doCall endpoint method data extra).
Proof.
  intros Hc. unfold doCall, take_headers, url_of, fetch, check_response, read_json.
  apply harmless_bind; [intros s; cbn; by destruct (getHeaders (session s)); split|]. intros h.
  apply harmless_bind; [done|]. intros url.
  apply harmless_bind; [intros s; split; [done|]; intros o s'; apply harmless_of_result|]. intros o.
  destruct (status o =? 401)%Z; [|destruct (ok o); [apply harmless_of_result|done]].
  apply harmless_bind; [|done]. by apply harmless_modify.
Qed.
End Harmless.

(** One rule for each way a program goes on without a request. *)
Section Intro.
Context {S Rq : Type} {Rs : Rq → Type} (I : S → Prop).

Lemma wp_modify_intro f (Q : result unit → S → Prop) s :
  Q (inr ()) (f s) → wp I (modify (Rs := Rs) f) Q s.
Proof. done. Qed.
Lemma wp_get_intro (Q : result S → S → Prop) s : Q (inr s) s → wp I (get (Rs := Rs)) Q s.
Proof. done. Qed.
Lemma wp_ret_intro {A} (a : A) (Q : result A → S → Prop) s : Q (inr a) s → wp I (Ret a : prog S Rs A) Q s.
Proof. done. Qed.
Lemma wp_throw_intro {A} e (Q : result A → S → Prop) s : Q (inl e) s → wp I (Throw e : prog S Rs A) Q s.
Proof. done. Qed.
Lemma wp_of_result_intro {A} (o : result A) (Q : result A → S → Prop) s :
  Q o s → wp I (of_result o : prog S Rs A) Q s.
Proof. by destruct o. Qed.
End Intro.

(** Compares flags by their values: unfolding from the outside never looks at
    what else has been assigned. *)
Ltac hnf_left :=
  lazymatch goal with |- ?x = ?y => let x' := eval hnf in x in transitivity x'; [exact (eq_refl x')|] end.
Ltac hnf_eq :=
  lazymatch goal with
  | |- ?x = ?y =>
      let x' := eval hnf in x in let y' := eval hnf in y in
      constr_eq x' y'; transitivity x'; [exact (eq_refl x')|exact (eq_refl x')]
  end.
Ltac harmless_run :=
  repeat match goal with
  | |- ∀ _, _ => intros
  | |- harmless _ _ (mbind _ _) => apply harmless_bind
  | |- harmless _ _ (finally _ _) => apply harmless_finally
  | |- harmless _ _ (try_catch _ _) => apply harmless_try_catch
  | |- harmless _ _ (for_of _ _) => apply harmless_for_of
  | |- harmless _ _ (modify _) => apply harmless_modify; try solve [intros; hnf_eq|intros; repeat case_match; first [hnf_eq|hnf_left; assumption]]
  | |- harmless _ _ get => apply harmless_get
  | |- harmless _ _ (of_result _) => apply harmless_of_result
  | |- harmless _ _ (read_json _) => apply harmless_of_result
  | |- harmless _ _ (read_text _) => apply harmless_of_result
  | |- harmless _ _ (deref _) => apply harmless_deref
  | |- harmless _ _ (when _ _) => apply harmless_when
  | |- harmless _ _ (await _) => intros ?; split; [try done|by intros]
  | |- harmless _ _ (fetch _) => apply harmless_fetch; try done
  | |- harmless _ _ (fetch_checked _) => apply harmless_fetch_checked; try done
  | |- harmless _ _ (fetch_body _) => apply harmless_fetch_body; try done
  | |- harmless _ _ (doCall _ _ _ _) => apply harmless_doCall; try done
  | |- harmless _ _ (Ret _) => done
  | |- harmless _ _ (Throw _) => done
  | |- harmless _ _ (match ?x with _ => _ end) => destruct x
  end.

(** Decides an assignment: it leaves the flag alone, or it is the owner's, or
    it takes the flag. *)
Ltac busy_known :=
  intros;
  first [discriminate | assumption
        |hnf_left;
         first [reflexivity|assumption
               |match goal with H : true = true → _ |- _ => exact (H eq_refl) end | eauto 3; fail]].

Ltac guard_assign :=
  lazymatch goal with
  | |- assigns ?busy ?m ?s ?s' _ =>
      let b := eval hnf in (busy s') in
      lazymatch b with
      | true => first [apply (assigns_take _ true); [busy_known|hnf_left; reflexivity|]
                      |apply (assigns_own _ true); [hnf_left; reflexivity|]]
      | false => first [apply (assigns_own _ false); [hnf_left; reflexivity|]
                       |apply (assigns_take _ false); [busy_known|hnf_left; reflexivity|]]
      | _ => apply assigns_frame; [hnf_eq|busy_known|]
      end; cbv beta
  end.

Ltac guard_step :=
  lazymatch goal with
  | |- guarded _ _ (mbind _ _) _ _ _ => apply guarded_bind
  | |- guarded _ _ (finally _ _) _ _ _ => apply guarded_finally_modify
  | |- guarded _ _ (try_catch _ _) _ _ _ => apply guarded_try_catch
  | |- guarded _ _ (modify _) _ _ _ => apply guarded_modify
  | |- guarded _ _ (fetch _) _ _ _ =>
      apply guarded_fetch; [busy_known|intros]
  | |- guarded _ _ (read_text ?r) _ _ _ => unfold read_text; destruct (text r)
  | |- guarded _ _ (fetch_checked _) _ _ _ =>
      apply guarded_fetch_checked; [busy_known|intros]
  | |- guarded _ _ (fetch_body _) _ _ _ =>
      apply guarded_fetch_body; [busy_known|intros]
  | |- guarded _ _ (deref _) _ _ _ => apply guarded_deref; intros
  | |- guarded _ _ (doCall _ _ _ _) _ _ _ =>
      apply guarded_doCall; [intros; reflexivity|busy_known|busy_known|intros]
  | |- guarded _ _ (when ?b _) _ _ _ => destruct b eqn:?; unfold when
  | |- guarded _ _ (read_json ?r) _ _ _ => unfold read_json; destruct (json r)
  | |- guarded _ _ (of_result ?o) _ _ _ => destruct o; cbn [of_result guarded]
  | |- guarded _ _ (match ?o with _ => _ end) _ _ _ => destruct o eqn:?
  | |- assigns _ _ _ _ _ => guard_assign; cbv beta
  | |- _ = false => reflexivity
  | |- true = true => reflexivity
  | |- match ?o with inl _ => _ | inr _ => _ end => destruct o
  | _ => progress cbn [guarded get of_result negb]
  end.
Ltac guard_run := repeat guard_step.

(** Proves [wp (fun _ => True) p C s] where what [C] asks for is settled by
    assignments alone once the last request of [p] is answered. *)
Ltac clearing_run :=
  try apply clearing_clears; unfold clearing;
  repeat (cbn beta iota; lazymatch goal with
  | |- wp _ (mbind _ _) _ _ => apply wp_bind
  | |- wp _ (finally _ (modify _)) _ _ => apply wp_finally_modify; eapply wp_mono; [intros|apply wp_true]
  | |- wp _ (try_catch _ _) _ _ => apply wp_try_catch
  | |- wp _ (match ?x with _ => _ end) _ _ => destruct x
  | |- wp _ (when _ _) _ _ => unfold when
  | |- wp _ (modify _) _ _ => apply wp_modify_intro
  | |- wp _ get _ _ => apply wp_get_intro
  | |- wp _ (Ret _) _ _ => apply wp_ret_intro
  | |- wp _ (Throw _) _ _ => apply wp_throw_intro
  | |- wp _ (of_result ?o) _ _ => apply wp_of_result_intro
  | |- match ?o with inl _ => _ | inr _ => _ end => destruct o
  | |- _ = false => hnf_left; reflexivity
  end).

(** A flag that the program never assigns. *)
Ltac bystander_run := apply (harmless_bystander _ (fun _ => false)); harmless_run.

(** Proves [eventually]: at each point the rest never assigns the flag, or
    clears it, or is taken apart. *)
Ltac settling_run :=
  unfold settling;
  repeat (cbn beta iota; lazymatch goal with
  | |- True => exact I
  | |- match ?o with inl _ => _ | inr _ => _ end => destruct o
  | |- eventually _ _ _ _ _ =>
      first
        [ apply eventually_bystander; [solve [bystander_run]|intros]
        | apply eventually_clear; solve [clearing_run]
        | lazymatch goal with
          | |- eventually _ (mbind _ _) _ _ _ => apply eventually_bind
          | |- eventually _ (try_catch _ _) _ _ _ => apply eventually_try_catch
          | |- eventually _ (finally _ _) _ _ _ => apply eventually_finally; [done|]
          | |- eventually _ (when ?b _) _ _ _ => destruct b; unfold when
          | |- eventually _ (match ?x with _ => _ end) _ _ _ => destruct x
          end ]
  end).
