(* ===== verification/Joined.v ===== *)
(** * [Promise.all] over requests and a chain of reads

    [Promise.all] of some requests and of one [async] function that reads a few
    more, one after the other, and never rejects.  All are under way at once:
    the answers arrive in any order, the chain assigns what it reads as it goes,
    the call is over at the first failure, and the chain goes on after that.
    [all_settle] is that, one suspension for each answer; what it does when the
    call is over ([over]) is the handler's own.

    The [Busy] lemmas say that neither the chain nor the answers touch a flag;
    [all_settle_run] says what is left when every answer has come. *)

From S2P Require Import Prelude JsString JsAsync Http Api Busy.
Open Scope js_scope.

(** [try { done(await getJSON(url)) } catch { done(error) }]. *)
Record side_read (T P B : Type) := SideRead {
  sr_request : T → request P;
  sr_done : result B → T → T
}.
Arguments SideRead {T P B}.
Arguments sr_request {T P B}.
Arguments sr_done {T P B}.

Lemma taken_one {A} (x : A) i : taken [x] i = 0.
Proof. unfold taken. by destruct (Nat.ltb_spec i (length [x])); simpl in *; [lia|]. Qed.

Lemma taken_lt {A} (l : list A) i : l ≠ [] → taken l i < length l.
Proof. intros Hl. unfold taken. destruct (Nat.ltb_spec i (length l)); [done|]. destruct l; [done|simpl; lia]. Qed.

Lemma taken_idem {A} (l : list A) i : taken l (taken l i) = taken l i.
Proof. destruct (decide (l = [])) as [->|Hl]; [done|]. pose proof (taken_lt l i Hl). unfold taken at 1. by destruct (Nat.ltb_spec (taken l i) (length l)); [|lia]. Qed.

Section Joined.
Context {T P B : Type}.
#[local] Abbreviation handler := (prog T (io_res (P := P) B)).
Implicit Types (side : list (side_read T P B)) (s : T).

Definition read_side (r : side_read T P B) : handler unit :=
  s ← get; o ← await (Fetch (sr_request r s)); modify (sr_done r (body_of o)).

(** The chain on its own. *)
Definition side_reads side : handler unit := for_of side read_side.

(** The request of the chain's first read. *)
Definition next_side side s : list (request P) :=
  match side with [] => [] | r :: _ => [sr_request r s] end.

(** The rest of the chain, its first read being in flight. *)
Definition finish_side (flying : list (request P)) side : handler unit :=
  match side with
  | [] => Ret ()
  | r :: side' =>
      a ← await (NextOf [] flying);
      modify (sr_done r (body_of a.2)) ;;
      side_reads side'
  end.

Section Over.
(** What follows the call: the bodies by their place in the array, or the first
    failure. *)
Context (over : result (nat → option B) → handler unit).

(** [n] answers are awaited: those of [waiting], each with its place, and those
    of the chain, whose first request is [flying].  [got] are the bodies read
    so far. *)
Fixpoint all_settle (n : nat) (sent : list (request P)) (waiting : list (nat * request P))
    (flying : list (request P)) side (got : nat → option B) : handler unit :=
  match n with
  | 0 => over (inr got)
  | S n =>
      let flights := waiting.*2 ++ flying in
      a ← await (NextOf sent flights);
      let i := taken flights a.1 in
      match waiting !! i with
      | Some (j, _) =>
          match checked_json a.2 with
          | inl e => over (inl e) ;; finish_side flying side
          | inr body => all_settle n [] (delete i waiting) flying side (fun k => if (k =? j)%nat then body else got k)
          end
      | None =>
          match side with
          | [] => Ret ()
          | r :: side =>
              modify (sr_done r (body_of a.2)) ;;
              s ← get;
              let next := next_side side s in
              all_settle n next waiting next side got
          end
      end
  end.

(** [Promise.all([...requests, chain()])]. *)
Definition promise_all_with (requests : T → list (request P)) side : handler unit :=
  s ← get;
  let rqs := requests s in
  let first := next_side side s in
  all_settle (length rqs + length side) (rqs ++ first) (imap pair rqs) first side (fun _ => None).
End Over.
End Joined.

(** ** What the chain and the answers leave alone *)

Section Flags.
Context {T P B : Type} (busy : T → bool) (critical : io_req P → bool).
Context (side_all : list (side_read T P B)).
Context (Hkeeps : ∀ r, r ∈ side_all → ∀ o s, busy (sr_done r o s) = busy s).
#[local] Abbreviation handler := (prog T (io_res (P := P) B)).
Implicit Types (side : list (side_read T P B)) (s : T) (over : result (nat → option B) → handler unit).

Lemma side_reads_harmless side :
  side ⊆ side_all → (∀ r s, r ∈ side_all → critical (Fetch (sr_request r s)) = false) →
  harmless busy critical (side_reads side).
Proof.
  intros Hs Hc. unfold side_reads. induction side as [|r side IH]; [done|]. cbn [for_of].
  apply harmless_bind; [|intros _; apply IH; set_solver]. intros s. unfold read_side. cbn.
  split; [apply Hc; set_solver|]. intros o s'. split; [apply Hkeeps; set_solver|done].
Qed.

Lemma finish_side_harmless flying side :
  side ⊆ side_all → (∀ r s, r ∈ side_all → critical (Fetch (sr_request r s)) = false) →
  (∀ sent flights, critical (NextOf sent flights) = false) →
  harmless busy critical (finish_side flying side).
Proof.
  intros Hs Hc Hn. destruct side as [|r side]; [done|]. intros s. cbn. split; [apply Hn|]. intros a s'.
  split; [apply Hkeeps; set_solver|]. apply side_reads_harmless; set_solver.
Qed.

Lemma all_settle_harmless over n sent waiting flying side got :
  side ⊆ side_all → (∀ r s, r ∈ side_all → critical (Fetch (sr_request r s)) = false) →
  (∀ sent flights, critical (NextOf sent flights) = false) →
  (∀ o, harmless busy critical (over o)) →
  harmless busy critical (all_settle over n sent waiting flying side got).
Proof.
  intros Hs Hc Hn Ho. revert sent waiting flying side got Hs.
  induction n as [|n IH]; intros sent waiting flying side got Hs; [apply Ho|]. cbn [all_settle].
  apply harmless_bind; [intros s; split; [apply Hn|done]|]. intros a.
  destruct (waiting !! _) as [[j rq]|].
  - destruct (checked_json a.2) as [e|body]; [|by apply IH].
    apply harmless_bind; [apply Ho|]. intros _. by apply finish_side_harmless.
  - destruct side as [|r side]; [done|].
    apply harmless_bind; [apply harmless_modify; intros; apply Hkeeps; set_solver|]. intros _.
    apply harmless_bind; [apply harmless_get|]. intros s. apply IH. set_solver.
Qed.

Lemma promise_all_with_harmless over requests side :
  side ⊆ side_all → (∀ r s, r ∈ side_all → critical (Fetch (sr_request r s)) = false) →
  (∀ sent flights, critical (NextOf sent flights) = false) →
  (∀ o, harmless busy critical (over o)) →
  harmless busy critical (promise_all_with over requests side).
Proof. intros. apply harmless_bind; [apply harmless_get|]. intros s. by apply all_settle_harmless. Qed.

End Flags.

Section Clears.
Context {T P B : Type} (busy : T → bool).
Context (side_all : list (side_read T P B)).
Context (Hkeeps : ∀ r, r ∈ side_all → ∀ o s, busy (sr_done r o s) = busy s).
#[local] Abbreviation handler := (prog T (io_res (P := P) B)).
Implicit Types (side : list (side_read T P B)) (s : T) (over : result (nat → option B) → handler unit).

(** The flag that [over] clears: it is set until the call is over, and the rest
    of the chain leaves it alone. *)
Lemma finish_side_settling flying side s : side ⊆ side_all → settling busy (finish_side flying side) s.
Proof.
  intros Hs. apply eventually_bystander; [|done]. apply (harmless_bystander _ (fun _ => false)).
  by apply (finish_side_harmless _ _ side_all).
Qed.

Lemma all_settle_clears over n sent waiting flying side got s :
  (∀ o s, wp (fun _ => True) (over o) (fun _ s' => busy s' = false) s) →
  side ⊆ side_all → n = length waiting + length side →
  length flying = (if is_nil side then 0 else 1) →
  clears busy (all_settle over n sent waiting flying side got) s.
Proof.
  intros Ho. revert sent waiting flying side got s.
  induction n as [|n IH]; intros sent waiting flying side got s Hs Hn Hf; cbn [all_settle].
  { apply clearing_clears, Ho. }
  right. cbn [await mbind prog_bind settle]. intros a s1.
  destruct (waiting !! _) as [[j rq]|] eqn:Ew.
  - pose proof (lookup_lt_Some _ _ _ Ew) as Hlt. destruct (checked_json a.2) as [e|body].
    + apply clears_settle. eapply wp_mono; [|apply Ho]. intros o s2 Hb.
      apply clears_here; [done|]. destruct o; [by right|by apply finish_side_settling].
    + apply IH; [done| |done]. rewrite length_delete by eauto. lia.
  - apply lookup_ge_None in Ew. unfold taken in Ew. rewrite length_app, length_fmap, Hf in Ew.
    destruct side as [|r side]; simpl in Hn, Hf, Ew.
    { case_match; lia. }
    right. right. right. apply IH; [set_solver| |by destruct side].
    case_match; simpl in *; lia.
Qed.

Lemma promise_all_with_clears over requests side s :
  (∀ o s, wp (fun _ => True) (over o) (fun _ s' => busy s' = false) s) → side ⊆ side_all →
  clears busy (promise_all_with over requests side) s.
Proof.
  intros Ho Hs. right. apply all_settle_clears; [done|done| |by destruct side]. by rewrite length_imap.
Qed.
End Clears.

(** ** What is left when every answer has come *)

Section Run.
Context {T P B : Type} (pick : list (request P) → nat) (f : request P → result (response B)).
#[local] Abbreviation handler := (prog T (io_res (P := P) B)).
Implicit Types (side : list (side_read T P B)) (s : T).

(** The server [serve_in pick f], with the requests in the order they are sent
    and in the order they are answered. *)
Definition settled_of (q : io_req P) : list (request P) :=
  match q with
  | Fetch r | Within r => [r]
  | FetchAll rs => rs
  | NextOf _ flights => option_list (flights !! taken flights (pick flights))
  end.

Definition answering (w : list (request P) * list (request P)) (q : io_req P)
    : io_res B q * (list (request P) * list (request P)) :=
  (serve_in pick f q, (w.1 ++ requests_of q, w.2 ++ settled_of q)).

(** The chain by itself. *)
Definition side_state side s : T :=
  foldl (fun s r => sr_done r (body_of (f (sr_request r s))) s) s side.
Definition side_requests side s : list (request P) := (fun r => sr_request r s) <$> side.

Context (side_all : list (side_read T P B)).
Context (Hstable : ∀ r r' o s, r ∈ side_all → r' ∈ side_all → sr_request r' (sr_done r o s) = sr_request r' s).

Lemma side_requests_done r o s side :
  r ∈ side_all → side ⊆ side_all → side_requests side (sr_done r o s) = side_requests side s.
Proof.
  intros Hr Hs. apply list_fmap_ext. intros i r' Hi. apply Hstable; [done|]. apply Hs. by eapply list_elem_of_lookup_2.
Qed.

Lemma side_reads_run side s w :
  side ⊆ side_all →
  run answering (side_reads side) s w =
    (inr (), side_state side s, (w.1 ++ side_requests side s, w.2 ++ side_requests side s)).
Proof.
  intros Hs. revert s w. unfold side_reads. induction side as [|r side IH]; intros s w.
  { simpl. unfold side_requests. simpl. rewrite !app_nil_r. by destruct w. }
  cbn [for_of]. rewrite run_bind. unfold read_side at 1. cbn. rewrite IH by set_solver.
  rewrite side_requests_done by set_solver. cbn. by rewrite <-!app_assoc.
Qed.

Lemma finish_side_run side s w :
  side ⊆ side_all →
  run answering (finish_side (next_side side s) side) s w =
    (inr (), side_state side s, (w.1 ++ side_requests (tail side) s, w.2 ++ side_requests side s)).
Proof.
  intros Hs. destruct side as [|r side].
  { simpl. unfold side_requests. simpl. rewrite !app_nil_r. by destruct w. }
  cbn [finish_side next_side]. cbn -[side_reads side_state].
  rewrite side_reads_run by set_solver. rewrite side_requests_done by set_solver.
  rewrite taken_one. cbn. rewrite app_nil_r. by rewrite <-app_assoc.
Qed.

Context (over : result (nat → option B) → handler unit) (after : result (nat → option B) → T → T).
Context (Hover : ∀ o s w, run answering (over o) s w = (inr (), after o s, w)).
Context (Hcomm : ∀ e r o s, r ∈ side_all → sr_done r o (after (inl e) s) = after (inl e) (sr_done r o s)).
Context (Hreq : ∀ e r s, r ∈ side_all → sr_request r (after (inl e) s) = sr_request r s).

Lemma side_state_after e side s : side ⊆ side_all → side_state side (after (inl e) s) = after (inl e) (side_state side s).
Proof.
  revert s. induction side as [|r side IH]; intros s Hs; [done|]. cbn. rewrite Hreq, Hcomm by set_solver.
  apply IH. set_solver.
Qed.

Lemma side_requests_after e side s : side ⊆ side_all → side_requests side (after (inl e) s) = side_requests side s.
Proof. intros Hs. apply list_fmap_ext. intros i r Hi. apply Hreq, Hs. by eapply list_elem_of_lookup_2. Qed.

Lemma next_side_after e side s : side ⊆ side_all → next_side side (after (inl e) s) = next_side side s.
Proof. intros Hs. destruct side as [|r side]; [done|]. cbn. by rewrite Hreq by set_solver. Qed.

(** Every one of the requests was answered with a body, or [rq] is the first
    that was not, in the order of the answers. *)
Definition all_read (waiting : list (nat * request P)) (got got' : nat → option B) : Prop :=
  (∀ j rq, (j, rq) ∈ waiting → checked_json (f rq) = inr (got' j)) ∧ ∀ j, j ∉ waiting.*1 → got' j = got j.

Definition first_refused (rqs answered : list (request P)) (e : jserr) : Prop :=
  ∃ l1 rq l2, answered = l1 ++ rq :: l2 ∧ rq ∈ rqs ∧ checked_json (f rq) = inl e ∧
    ∀ q, q ∈ l1 → q ∈ rqs → ∃ b, checked_json (f q) = inr b.

(** One more body, and the rest. *)
Lemma all_read_delete i j rq body (waiting : list (nat * request P)) (got got' : nat → option B) :
  NoDup waiting.*1 → waiting !! i = Some (j, rq) → checked_json (f rq) = inr body →
  all_read (delete i waiting) (fun k => if (k =? j)%nat then body else got k) got' →
  all_read waiting got got'.
Proof.
  intros Hnd Hi Hb [H1 H2]. pose proof (delete_Permutation _ _ _ Hi) as Hp.
  rewrite Hp in Hnd. cbn in Hnd. apply NoDup_cons in Hnd as [Hj _].
  assert (got' j = body) as Hgj by (rewrite H2 by done; by rewrite Nat.eqb_refl).
  split.
  - intros j' rq'. rewrite Hp, elem_of_cons. intros [[= -> ->]|H]; [by rewrite Hgj|auto].
  - intros j'. rewrite Hp. cbn. rewrite not_elem_of_cons. intros [Hne Hni]. rewrite H2 by done.
    by destruct (Nat.eqb_spec j' j).
Qed.

Lemma first_refused_cons i (j : nat) rq body (waiting : list (nat * request P)) answered e :
  waiting !! i = Some (j, rq) → checked_json (f rq) = inr body →
  first_refused (delete i waiting).*2 answered e → first_refused waiting.*2 (rq :: answered) e.
Proof.
  intros Hi Hb (l1 & rq' & l2 & -> & Hin & He & Hl). pose proof (delete_Permutation _ _ _ Hi) as Hp.
  exists (rq :: l1), rq', l2. split; [done|]. split; [rewrite Hp; by right|]. split; [done|].
  intros q. rewrite elem_of_cons, Hp. cbn. rewrite elem_of_cons. intros [->|Hq]; [eauto|].
  intros [->|Hq']; eauto.
Qed.

Lemma first_refused_other q rqs answered e :
  (q ∈ rqs → ∃ b, checked_json (f q) = inr b) → first_refused rqs answered e → first_refused rqs (q :: answered) e.
Proof.
  intros Hq (l1 & rq & l2 & -> & Hin & He & Hl). exists (q :: l1), rq, l2. split_and!; try done.
  intros q'. rewrite elem_of_cons. intros [->|H]; auto.
Qed.

Lemma all_settle_run n sent waiting side got s w :
  side ⊆ side_all → NoDup waiting.*1 → n = length waiting + length side → (n = 0 → sent = []) →
  (∀ r s, r ∈ side → sr_request r s ∉ waiting.*2) →
  let '(r, s', w') := run answering (all_settle over n sent waiting (next_side side s) side got) s w in
  ∃ answered, r = inr () ∧ w' = (w.1 ++ sent ++ side_requests (tail side) s, w.2 ++ answered) ∧
    ((∃ got', all_read waiting got got' ∧ s' = after (inr got') (side_state side s)) ∨
     (∃ e, first_refused waiting.*2 answered e ∧ s' = after (inl e) (side_state side s))).
Proof.
  revert sent waiting side got s w.
  induction n as [|n IH]; intros sent waiting side got s w Hs Hnd Hn Hsent Hne; cbn [all_settle].
  { rewrite Hover. destruct waiting, side; try done. exists []. rewrite (Hsent eq_refl).
    unfold side_requests. simpl. rewrite !app_nil_r. destruct w. split; [done|]. split; [done|].
    left. exists got. split; [|done]. split; [|done]. intros j rq Hj. by apply elem_of_nil in Hj. }
  set (flights := waiting.*2 ++ next_side side s). rewrite run_bind. cbn [await run answering serve_in].
  cbn [answering serve_in requests_of settled_of]. set (i := taken flights (pick flights)).
  cbn [fst snd]. assert (taken flights i = i) as -> by apply taken_idem.
  destruct (waiting !! i) as [[j rq]|] eqn:Ew.
  - assert (flights !! i = Some rq) as ->.
    { apply lookup_app_l_Some. rewrite list_lookup_fmap, Ew. done. }
    cbn [from_option option_list]. destruct (checked_json (f rq)) as [e|body] eqn:Eb.
    + rewrite run_bind, Hover. rewrite <-(next_side_after e side s) by done. rewrite finish_side_run by done.
      rewrite !side_requests_after by (done || by destruct side; [|intros x Hx; apply Hs; right]). cbn [fst snd].
      eexists. split; [done|]. split; [f_equal; by rewrite <-!app_assoc|].
      right. exists e. rewrite side_state_after by done. split; [|done].
      exists [], rq, (side_requests side s). split_and!; [done| |done|intros q Hq; by apply elem_of_nil in Hq].
      apply list_elem_of_fmap. exists (j, rq). split; [done|]. by eapply list_elem_of_lookup_2.
    + pose proof (delete_Permutation _ _ _ Ew) as Hp.
      specialize (IH [] (delete i waiting) side (fun k => if (k =? j)%nat then body else got k) s
        (w.1 ++ sent, w.2 ++ [rq])).
      destruct (run _ _ s _) as [[r s'] w'].
      destruct IH as (answered & -> & -> & Hout); [done| | | | |].
      * rewrite Hp in Hnd. cbn in Hnd. by apply NoDup_cons in Hnd as [_ ?].
      * rewrite length_delete by eauto. apply lookup_lt_Some in Ew. lia.
      * done.
      * intros r0 s0 Hr0. specialize (Hne r0 s0 Hr0). rewrite Hp in Hne. cbn in Hne. by apply not_elem_of_cons in Hne as [_ ?].
      * exists (rq :: answered). split; [done|]. split; [cbn; f_equal; by rewrite <-!app_assoc|].
        destruct Hout as [(got' & Hg & ->)|(e & He & ->)].
        -- left. exists got'. split; [by eapply all_read_delete|done].
        -- right. exists e. split; [by eapply first_refused_cons|done].
  - apply lookup_ge_None in Ew.
    assert (flights ≠ []) as Hfl.
    { unfold flights. destruct waiting as [|[]], side; simpl in Hn |- *; lia || done. }
    pose proof (taken_lt flights (pick flights) Hfl) as Hlt. fold i in Hlt.
    unfold flights in Hlt. rewrite length_app, length_fmap in Hlt.
    destruct side as [|r side]; [simpl in Hlt; lia|]. cbn [next_side] in Hlt |- *. simpl in Hlt.
    assert (flights !! i = Some (sr_request r s)) as ->.
    { unfold flights. rewrite lookup_app_r by (rewrite length_fmap; lia). rewrite length_fmap.
      cbn [next_side]. by replace (i - length waiting) with 0 by lia. }
    cbn [from_option option_list]. rewrite run_bind, run_modify. cbv beta iota. rewrite run_bind. cbn [run get].
    set (s1 := sr_done r _ s).
    specialize (IH (next_side side s1) waiting side got s1 (w.1 ++ sent, w.2 ++ [sr_request r s])).
    destruct (run _ _ s1 _) as [[r' s'] w'].
    destruct IH as (answered & -> & -> & Hout); [set_solver|done|simpl in Hn; lia| | |].
    + intros ->. by destruct side; simpl in Hn; [|lia].
    + intros r0 s0 Hr0. apply Hne. by right.
    + exists (sr_request r s :: answered). split; [done|]. split.
      * cbn. f_equal; [|by rewrite <-!app_assoc]. rewrite <-!app_assoc. do 2 f_equal.
        destruct side as [|r1 side]; [done|]. cbn. unfold s1. rewrite Hstable by set_solver.
        f_equal. apply (side_requests_done r); set_solver.
      * destruct Hout as [Hout|(e & He & ->)]; [left; exact Hout|]. right. exists e. split; [|done].
        apply first_refused_other; [|done]. intros Hin. exfalso. apply (Hne r s); [by left|done].
Qed.

(** The whole call: the requests and the chain's first are sent at once, the
    chain's others after them; when every request has brought a body, or at the
    first that has not, the call is over, and the chain is read to its end. *)
Lemma promise_all_with_run requests side s w :
  side ⊆ side_all → (∀ r s s', r ∈ side → sr_request r s ∉ requests s') →
  let '(r, s', w') := run answering (promise_all_with over requests side) s w in
  ∃ answered, r = inr () ∧ w' = (w.1 ++ requests s ++ side_requests side s, w.2 ++ answered) ∧
    ((∃ got, (∀ j rq, requests s !! j = Some rq → checked_json (f rq) = inr (got j)) ∧
        s' = after (inr got) (side_state side s)) ∨
     (∃ e, first_refused (requests s) answered e ∧ s' = after (inl e) (side_state side s))).
Proof.
  intros Hs Hne. unfold promise_all_with. rewrite run_bind. cbn [run get].
  assert ((imap pair (requests s)).*1 = seq 0 (length (requests s)) ∧ (imap pair (requests s)).*2 = requests s) as [H1 H2].
  { rewrite !fmap_imap. split.
    - etransitivity; [exact (imap_seq_0 (requests s) id)|apply list_fmap_id].
    - etransitivity; [exact (imap_const id (requests s))|apply list_fmap_id]. }
  pose proof (all_settle_run (length (requests s) + length side) (requests s ++ next_side side s)
    (imap pair (requests s)) side (fun _ => None) s w) as H.
  destruct (run _ _ s w) as [[r s'] w']. destruct H as (answered & -> & -> & Hout); [done| | | | |].
  - rewrite H1. apply NoDup_seq.
  - by rewrite length_imap.
  - intros H0. destruct (requests s), side; simpl in *; done || lia.
  - intros r0 s0 Hr. rewrite H2. by apply Hne.
  - exists answered. split; [done|]. split; [f_equal; rewrite <-!app_assoc; by destruct side|].
    rewrite H2 in Hout. destruct Hout as [(got & [Hg _] & ->)|Hout]; [|by right].
    left. exists got. split; [|done]. intros j rq Hj. apply Hg. apply elem_of_lookup_imap. eauto.
Qed.
End Run.
