(* ===== verification/PolicyModel.v ===== *)
(** * The policy model

    [routes/rules/policymodel.ts]: the wire shapes of policies, the labels the
    page shows for them, and the conversion between an API record and an
    editable draft.  A [Partial] record of the source is a record of options. *)

From S2P Require Import Prelude JsString.
From stdpp Require Import sorting.
Open Scope js_scope.

(** ** Shapes *)

Record TimeWindow := MkWindow { from : jstr; to : jstr }.
#[export] Instance TimeWindow_eta : Settable TimeWindow := fun w => MkWindow (from w) (to w).

Record Schedule := MkSchedule {
  sch_timezone : jstr;
  sch_weekdays : list Z;
  sch_windows : list TimeWindow;
  sch_preset : option jstr
}.
#[export] Instance Schedule_eta : Settable Schedule := fun s =>
  MkSchedule (sch_timezone s) (sch_weekdays s) (sch_windows s) (sch_preset s).

Record SchedulePreset := MkPreset {
  pre_id : jstr;
  pre_name : jstr;
  pre_description : jstr;
  pre_timezone : jstr;
  pre_weekdays : list Z;
  pre_windows : list TimeWindow
}.

Record RuleTarget := MkTarget {
  all_traffic : bool;
  tgt_domains : list jstr;
  tgt_categories : list jstr
}.
#[export] Instance RuleTarget_eta : Settable RuleTarget := fun t =>
  MkTarget (all_traffic t) (tgt_domains t) (tgt_categories t).

Record GroupRule := MkRule {
  rule_id : jstr;
  rule_name : jstr;
  rule_enabled : bool;
  rule_action : jstr;
  rule_target : RuleTarget;
  url_regexes : list jstr;
  blocked_content_types : list jstr;
  rule_schedule : option Schedule;
  rule_users : list jstr;
  domain_draft : jstr;
  url_draft : jstr;
  content_type_draft : jstr
}.
#[export] Instance GroupRule_eta : Settable GroupRule := fun r =>
  MkRule (rule_id r) (rule_name r) (rule_enabled r) (rule_action r) (rule_target r)
    (url_regexes r) (blocked_content_types r) (rule_schedule r) (rule_users r)
    (domain_draft r) (url_draft r) (content_type_draft r).

Record PolicyGroup := MkGroup {
  grp_id : jstr;
  grp_name : jstr;
  grp_description : jstr;
  blocked_categories : list jstr;
  blocked_domains : list jstr;
  allowed_domains : list jstr;
  rules : list GroupRule;
  safe_search : bool;
  grp_users : list jstr;
  priority : Z
}.
#[export] Instance PolicyGroup_eta : Settable PolicyGroup := fun g =>
  MkGroup (grp_id g) (grp_name g) (grp_description g) (blocked_categories g)
    (blocked_domains g) (allowed_domains g) (rules g) (safe_search g) (grp_users g) (priority g).

#[export] Instance TimeWindow_eq_dec : EqDecision TimeWindow.
Proof. solve_decision. Defined.
#[export] Instance Schedule_eq_dec : EqDecision Schedule.
Proof. solve_decision. Defined.
#[export] Instance RuleTarget_eq_dec : EqDecision RuleTarget.
Proof. solve_decision. Defined.
#[export] Instance GroupRule_eq_dec : EqDecision GroupRule.
Proof. solve_decision. Defined.
#[export] Instance PolicyGroup_eq_dec : EqDecision PolicyGroup.
Proof. solve_decision. Defined.

Record PartialSchedule := MkPartialSchedule {
  p_timezone : option jstr;
  p_weekdays : option (list Z);
  p_windows : option (list TimeWindow);
  p_preset : option jstr
}.

Record PartialTarget := MkPartialTarget {
  p_all_traffic : option bool;
  p_domains : option (list jstr);
  p_categories : option (list jstr)
}.

Record PartialRule := MkPartialRule {
  p_rule_id : option jstr;
  p_rule_name : option jstr;
  p_enabled : option bool;
  p_action : option jstr;
  p_target : option PartialTarget;
  p_url_regexes : option (list jstr);
  p_content_types : option (list jstr);
  p_schedule : option PartialSchedule;
  p_rule_users : option (list jstr)
}.

Record PartialGroup := MkPartialGroup {
  p_id : option jstr;
  p_name : option jstr;
  p_description : option jstr;
  p_blocked_categories : option (list jstr);
  p_blocked_domains : option (list jstr);
  p_allowed_domains : option (list jstr);
  p_rules : option (list PartialRule);
  p_safe_search : option bool;
  p_users : option (list jstr);
  p_priority : option Z
}.

Record CategoryStatus := MkCategory {
  cat_id : jstr;
  cat_name : jstr;
  cat_description : jstr;
  domain_count : Z;
  updated_at : option jstr;
  cat_enabled : bool
}.

Record DeviceAssignment := MkAssignment { asg_device_id : jstr; asg_group_id : jstr }.

Record Device := MkDevice {
  dev_id : jstr;
  display_name : option jstr;
  hostnames : option (list jstr);
  dev_ipv4 : option jstr;
  dev_online : option bool
}.

Record PolicyTemplate := MkTemplate {
  tpl_id : jstr;
  tpl_name : jstr;
  tpl_group_name : jstr;
  tpl_description : jstr;
  limitations : list jstr;
  tpl_categories : list jstr;
  tpl_safe_search : bool;
  tpl_rules : option (list GroupRule);
  tpl_group_id : jstr;
  available : bool
}.

(** ** Constants *)

Definition DEFAULT_GROUP_ID : jstr := js "default".

Definition WEEKDAYS : list (jstr * jstr) :=
  [(js "0", js "Sunday"); (js "1", js "Monday"); (js "2", js "Tuesday");
   (js "3", js "Wednesday"); (js "4", js "Thursday"); (js "5", js "Friday");
   (js "6", js "Saturday")].

Definition WEEKDAY_NAMES : list jstr :=
  [js "Sun"; js "Mon"; js "Tue"; js "Wed"; js "Thu"; js "Fri"; js "Sat"].

Definition SCHEDULE_PRESET_CUSTOM : jstr := js "custom".

Definition emptyGroup : PolicyGroup := {|
  grp_id := []; grp_name := []; grp_description := []; blocked_categories := [];
  blocked_domains := []; allowed_domains := []; rules := []; safe_search := false;
  grp_users := []; priority := 0
|}.

Definition emptyRule : GroupRule := {|
  rule_id := []; rule_name := []; rule_enabled := true; rule_action := js "block";
  rule_target := {| all_traffic := false; tgt_domains := []; tgt_categories := [] |};
  url_regexes := []; blocked_content_types := []; rule_schedule := None; rule_users := [];
  domain_draft := []; url_draft := []; content_type_draft := []
|}.

(** ** Drafts from API records *)

Definition copySchedule (schedule : option PartialSchedule) : option Schedule :=
  match schedule with
  | None => None
  | Some s => Some {|
      sch_timezone := opt_or (p_timezone s) (js "UTC");
      sch_weekdays := default [] (p_weekdays s);
      sch_windows := (fun w => MkWindow (from w) (to w)) <$> default [] (p_windows s);
      sch_preset := match p_preset s with
                    | Some p => if truthy p then Some p else None
                    | None => None
                    end
    |}
  end.

Definition copyRule (rule : PartialRule) : GroupRule := {|
  rule_id := opt_or (p_rule_id rule) [];
  rule_name := opt_or (p_rule_name rule) [];
  rule_enabled := negb (bool_decide (p_enabled rule = Some false));
  rule_action := if bool_decide (p_action rule = Some (js "allow"))
                 then js "allow" else js "block";
  rule_target := {|
    all_traffic := default false (p_target rule ≫= p_all_traffic);
    tgt_domains := default [] (p_target rule ≫= p_domains);
    tgt_categories := default [] (p_target rule ≫= p_categories)
  |};
  url_regexes := default [] (p_url_regexes rule);
  blocked_content_types := default [] (p_content_types rule);
  rule_schedule := copySchedule (p_schedule rule);
  rule_users := default [] (p_rule_users rule);
  domain_draft := []; url_draft := []; content_type_draft := []
|}.

Definition copyGroup (group : PartialGroup) : PolicyGroup := {|
  grp_id := opt_or (p_id group) [];
  grp_name := opt_or (p_name group) [];
  grp_description := opt_or (p_description group) [];
  blocked_categories := default [] (p_blocked_categories group);
  blocked_domains := default [] (p_blocked_domains group);
  allowed_domains := default [] (p_allowed_domains group);
  rules := copyRule <$> default [] (p_rules group);
  safe_search := default false (p_safe_search group);
  grp_users := default [] (p_users group);
  priority := default 0%Z (p_priority group)
|}.

(** ** Request bodies from drafts *)

Record PersistedRule := MkPersistedRule {
  out_rule_id : jstr;
  out_rule_name : jstr;
  out_enabled : bool;
  out_action : jstr;
  out_target : RuleTarget;
  out_url_regexes : list jstr;
  out_content_types : list jstr;
  out_schedule : option Schedule;
  out_rule_users : list jstr
}.

Record PersistedGroup := MkPersistedGroup {
  out_id : jstr;
  out_name : jstr;
  out_description : jstr;
  out_blocked_categories : list jstr;
  out_blocked_domains : list jstr;
  out_allowed_domains : list jstr;
  out_safe_search : bool;
  out_users : list jstr;
  out_priority : Z;
  out_rules : list PersistedRule
}.

Definition persistableGroup (draft : PolicyGroup) : PersistedGroup := {|
  out_id := grp_id draft;
  out_name := trim (grp_name draft);
  out_description := grp_description draft;
  out_blocked_categories := blocked_categories draft;
  out_blocked_domains := blocked_domains draft;
  out_allowed_domains := allowed_domains draft;
  out_safe_search := safe_search draft;
  out_users := grp_users draft;
  out_priority := priority draft;
  out_rules := (fun rule => {|
    out_rule_id := rule_id rule;
    out_rule_name := trim (rule_name rule);
    out_enabled := rule_enabled rule;
    out_action := rule_action rule;
    out_target := rule_target rule;
    out_url_regexes := url_regexes rule;
    out_content_types := blocked_content_types rule;
    out_schedule := rule_schedule rule;
    out_rule_users := rule_users rule
  |}) <$> rules draft
|}.

(** ** Labels *)

(** [WEEKDAY_NAMES[day]]: [undefined] outside the array. *)
Definition weekdayName (day : Z) : option jstr :=
  if (0 <=? day)%Z then WEEKDAY_NAMES !! Z.to_nat day else None.

Definition weekdayLabel (weekdays : option (list Z)) : jstr :=
  match weekdays with
  | None | Some [] => []
  | Some days =>
      if (7 <=? length days)%nat then []
      else joinStr (js ", ") (omap weekdayName (merge_sort Z.le days))
  end.

Definition scheduleLabel (schedule : option Schedule) : jstr :=
  match schedule with
  | None => js "Always"
  | Some s =>
      let windows := joinStr (js ", ")
        ((fun w => from w ++ js "-" ++ to w) <$> sch_windows s) in
      let days := weekdayLabel (Some (sch_weekdays s)) in
      windows ++ (if truthy days then js " " ++ days else js " every day")
  end.

Definition targetLabel (target : RuleTarget) (categoryName : jstr → jstr) : jstr :=
  if all_traffic target then js "all traffic" else
  let parts := (categoryName <$> tgt_categories target) ++ tgt_domains target in
  match parts with
  | [] => js "nothing yet"
  | _ =>
      if (3 <? length parts)%nat
      then joinStr (js ", ") (take 3 parts) ++ js " and " ++ of_nat (length parts - 3) ++ js " more"
      else joinStr (js ", ") parts
  end.

Definition ruleSentence (rule : GroupRule) (categoryName : jstr → jstr) : jstr :=
  (if bool_decide (rule_action rule = js "allow") then js "Allow " else js "Block ")
  ++ targetLabel (rule_target rule) categoryName
  ++ (match url_regexes rule with
      | [] => []
      | l => js " when the URL matches " ++ joinStr (js " or ") l
      end)
  ++ (match blocked_content_types rule with
      | [] => []
      | l => (match url_regexes rule with
              | [] => js " when the response is "
              | _ => js " or the response is "
              end) ++ joinStr (js ", ") l
      end)
  ++ (match rule_schedule rule with
      | None => []
      | Some _ => js ", " ++ scheduleLabel (rule_schedule rule)
      end)
  ++ (match rule_users rule with
      | [] => []
      | l => js ", for " ++ joinStr (js ", ") l
      end).

Definition needsProxy (rule : GroupRule) : bool :=
  negb (is_nil (url_regexes rule)) || negb (is_nil (blocked_content_types rule))
  || negb (is_nil (rule_users rule)).

(** ** Bedtime rules *)

Definition isBedtimeRule (rule : GroupRule) : bool :=
  bool_decide (rule_action rule = js "block")
  && all_traffic (rule_target rule)
  && (match rule_schedule rule with Some _ => true | None => false end)
  && is_nil (url_regexes rule)
  && is_nil (blocked_content_types rule)
  && is_nil (rule_users rule).

Definition bedtimeRule (timezone : jstr) (preset : option SchedulePreset) : GroupRule :=
  emptyRule
    <| rule_name := js "Bedtime" |>
    <| rule_target ::= fun t => t <| all_traffic := true |> |>
    <| rule_schedule := Some {|
         sch_timezone := timezone;
         sch_weekdays := match preset with Some p => pre_weekdays p | None => [] end;
         sch_windows :=
           match preset with
           | Some p => match pre_windows p with
                       | [] => [MkWindow (js "21:00") (js "07:00")]
                       | l => (fun w => MkWindow (from w) (to w)) <$> l
                       end
           | None => [MkWindow (js "21:00") (js "07:00")]
           end;
         sch_preset := None
       |} |>.

Definition hasAdvancedSettings (group : PolicyGroup) : bool :=
  let bedtime := List.filter isBedtimeRule (rules group) in
  negb (is_nil (grp_users group))
  || (length bedtime <? length (rules group))%nat
  || (1 <? length bedtime)%nat.

Definition plural (n : nat) : jstr := if (n =? 1)%nat then [] else js "s".

(** The [parts] of [policySummary]. *)
Definition policyParts (group : PolicyGroup) (categoryName : jstr → jstr) : list jstr :=
  (match blocked_categories group with
   | [] => []
   | cats =>
       let names := categoryName <$> cats in
       [js "Blocks " ++
        (if (3 <? length names)%nat
         then joinStr (js ", ") (take 3 names) ++ js " and " ++ of_nat (length names - 3) ++ js " more"
         else joinStr (js ", ") names)]
   end)
  ++ (match blocked_domains group with
      | [] => []
      | l => [of_nat (length l) ++ js " blocked site" ++ plural (length l)]
      end)
  ++ (match allowed_domains group with
      | [] => []
      | l => [of_nat (length l) ++ js " always-allowed site" ++ plural (length l)]
      end)
  ++ (if safe_search group then [js "Safe search"] else [])
  ++ (match find (fun rule => rule_enabled rule && isBedtimeRule rule) (rules group) with
      | Some bedtime => [js "Bedtime " ++ scheduleLabel (rule_schedule bedtime)]
      | None => []
      end)
  ++ (let other := length (List.filter (fun rule => negb (isBedtimeRule rule)) (rules group)) in
      if (other =? 0)%nat then [] else [of_nat other ++ js " custom rule" ++ plural other]).

Definition policySummary (group : PolicyGroup) (categoryName : jstr → jstr) : jstr :=
  match policyParts group categoryName with
  | [] => js "Blocks nothing of its own"
  | parts => joinStr (js " · ") parts
  end.

(** ** A request body as a record *)

(** A body is an object that has every member of a [Partial] record. *)
Definition as_record_schedule (s : Schedule) : PartialSchedule :=
  MkPartialSchedule (Some (sch_timezone s)) (Some (sch_weekdays s)) (Some (sch_windows s))
    (sch_preset s).

Definition as_record_rule (r : PersistedRule) : PartialRule := {|
  p_rule_id := Some (out_rule_id r);
  p_rule_name := Some (out_rule_name r);
  p_enabled := Some (out_enabled r);
  p_action := Some (out_action r);
  p_target := Some (MkPartialTarget (Some (all_traffic (out_target r)))
                      (Some (tgt_domains (out_target r))) (Some (tgt_categories (out_target r))));
  p_url_regexes := Some (out_url_regexes r);
  p_content_types := Some (out_content_types r);
  p_schedule := as_record_schedule <$> out_schedule r;
  p_rule_users := Some (out_rule_users r)
|}.

Definition as_record_group (g : PersistedGroup) : PartialGroup := {|
  p_id := Some (out_id g);
  p_name := Some (out_name g);
  p_description := Some (out_description g);
  p_blocked_categories := Some (out_blocked_categories g);
  p_blocked_domains := Some (out_blocked_domains g);
  p_allowed_domains := Some (out_allowed_domains g);
  p_rules := Some (as_record_rule <$> out_rules g);
  p_safe_search := Some (out_safe_search g);
  p_users := Some (out_users g);
  p_priority := Some (out_priority g)
|}.

(** What a form can hold in a schedule and a rule: values [copyGroup] keeps. *)
Definition schedule_wf (s : Schedule) : Prop :=
  sch_timezone s ≠ [] ∧ sch_preset s ≠ Some [].

Definition rule_wf (r : GroupRule) : Prop :=
  (rule_action r = js "allow" ∨ rule_action r = js "block") ∧
  (∀ s, rule_schedule r = Some s → schedule_wf s).

Definition group_wf (g : PolicyGroup) : Prop := Forall rule_wf (rules g).

(** The draft as it comes back: names trimmed, entry text of the list inputs
    gone. *)
Definition settle_rule (r : GroupRule) : GroupRule :=
  r <| rule_name ::= trim |> <| domain_draft := [] |> <| url_draft := [] |>
    <| content_type_draft := [] |>.

Definition settle_group (g : PolicyGroup) : PolicyGroup :=
  g <| grp_name ::= trim |> <| rules ::= fmap settle_rule |>.

Lemma copySchedule_as_record s : schedule_wf s → copySchedule (Some (as_record_schedule s)) = Some s.
Proof.
  intros [Htz Hp]. destruct s as [tz days ws preset]; simpl in *. f_equal. f_equal.
  - by destruct tz.
  - rewrite <-(list_fmap_id ws) at 2. apply list_fmap_ext. by intros _ [] _.
  - destruct preset as [p|]; [|done]. by destruct p.
Qed.

Lemma copySchedule_wf p s : copySchedule p = Some s → schedule_wf s.
Proof.
  destruct p as [p|]; intros H; simplify_eq/=. split; simpl.
  - destruct (p_timezone p) as [[]|]; done.
  - by destruct (p_preset p) as [[]|].
Qed.

Lemma copyRule_wf p : rule_wf (copyRule p).
Proof.
  split; simpl; [case_bool_decide; auto|]. intros s. apply copySchedule_wf.
Qed.

Lemma copyGroup_wf p : group_wf (copyGroup p).
Proof.
  unfold group_wf. simpl. apply Forall_fmap, Forall_true. intros. apply copyRule_wf.
Qed.

Lemma bool_default_or (b : bool) : negb (bool_decide (Some b = Some false)) = b.
Proof. by destruct b. Qed.

Lemma copyRule_persist r :
  rule_wf r →
  copyRule (as_record_rule (MkPersistedRule (rule_id r) (trim (rule_name r)) (rule_enabled r)
    (rule_action r) (rule_target r) (url_regexes r) (blocked_content_types r)
    (rule_schedule r) (rule_users r))) = settle_rule r.
Proof.
  intros [Ha Hs]. destruct r as [i n en act [at_ ds cs] us cts sch usrs d1 d2 d3]; simpl in *.
  unfold copyRule, settle_rule; simpl. rewrite bool_default_or.
  f_equal; try (by rewrite str_or_id).
  - destruct Ha as [-> | ->]; by vm_compute.
  - destruct sch as [s|]; [|done]. by apply copySchedule_as_record, Hs.
Qed.

Lemma copyGroup_persist g :
  group_wf g → copyGroup (as_record_group (persistableGroup g)) = settle_group g.
Proof.
  intros Hwf. unfold copyGroup, settle_group, persistableGroup; simpl.
  rewrite !str_or_id. f_equal. rewrite <-!list_fmap_compose.
  apply list_fmap_ext. intros i r Hr. apply copyRule_persist.
  by eapply Forall_lookup_1.
Qed.

(** ** Labels are functions of the set of days *)

Lemma merge_sort_sorted (l : list Z) : StronglySorted Z.le (merge_sort Z.le l).
Proof. apply (StronglySorted_merge_sort Z.le). Qed.

Lemma merge_sort_Permutation_eq (l l' : list Z) :
  l ≡ₚ l' → merge_sort Z.le l = merge_sort Z.le l'.
Proof.
  intros H. apply (StronglySorted_unique Z.le).
  - apply merge_sort_sorted.
  - apply merge_sort_sorted.
  - by rewrite !merge_sort_Permutation.
Qed.

Lemma merge_sort_id (l : list Z) : StronglySorted Z.le l → merge_sort Z.le l = l.
Proof.
  intros H. apply (StronglySorted_unique Z.le); [apply merge_sort_sorted|done|].
  apply merge_sort_Permutation.
Qed.

Definition week : list Z := [0; 1; 2; 3; 4; 5; 6]%Z.

(** The days of the week that a list names, in week order. *)
Definition days_in_order (days : list Z) : list Z := List.filter (includes days) week.

Lemma StronglySorted_filter_b (f : Z → bool) l :
  StronglySorted Z.le l → StronglySorted Z.le (List.filter f l).
Proof.
  induction 1 as [|x l Hl IH Hx]; simpl; [constructor|].
  destruct (f x); [|done]. constructor; [done|].
  rewrite Forall_forall in Hx |- *. intros y [Hy _]%elem_of_filter_b. by apply Hx.
Qed.

Lemma days_in_order_Permutation days :
  NoDup days → Forall (fun d => d ∈ week) days → days_in_order days ≡ₚ days.
Proof.
  intros Hnd Hall. apply NoDup_Permutation.
  - apply NoDup_filter_b. apply (bool_decide_unpack _). by vm_compute.
  - done.
  - intros d. unfold days_in_order. rewrite elem_of_filter_b, includes_spec.
    rewrite Forall_forall in Hall. split; [by intros [_ ?]|auto].
Qed.

Lemma sorted_days days :
  NoDup days → Forall (fun d => d ∈ week) days → merge_sort Z.le days = days_in_order days.
Proof.
  intros Hnd Hall. rewrite (merge_sort_Permutation_eq days (days_in_order days)).
  - apply merge_sort_id, StronglySorted_filter_b. repeat constructor; lia.
  - symmetry. by apply days_in_order_Permutation.
Qed.

(** [weekdayLabel] names each of the given days once, in the order of the week
    and whatever order they are given in; no days and all seven are unnamed. *)
Theorem weekdayLabel_spec days :
  NoDup days → Forall (fun d => d ∈ week) days →
  weekdayLabel (Some days) =
    if bool_decide (days = []) || (7 <=? length days)%nat then []
    else joinStr (js ", ") (omap weekdayName (days_in_order days)).
Proof.
  intros Hnd Hall. unfold weekdayLabel. rewrite <-sorted_days by done.
  destruct days as [|d days]; [done|]. by rewrite bool_decide_false by done.
Qed.

Lemma weekdayLabel_spec_witness :
  weekdayLabel (Some [5; 1; 3]%Z) = js "Mon, Wed, Fri".
Proof.
  rewrite weekdayLabel_spec; [reflexivity| |].
  - apply (bool_decide_unpack _). by vm_compute.
  - repeat constructor; apply (bool_decide_unpack _); by vm_compute.
Defined.

(** ** Opening a policy and saving it *)

Lemma isBedtimeRule_settle r : isBedtimeRule (settle_rule r) = isBedtimeRule r.
Proof. done. Qed.

(** An API record with every member it leaves out filled in. *)
Definition filled_schedule (s : PartialSchedule) : PartialSchedule := {|
  p_timezone := Some (opt_or (p_timezone s) (js "UTC"));
  p_weekdays := Some (default [] (p_weekdays s));
  p_windows := Some (default [] (p_windows s));
  p_preset := match p_preset s with Some [] => None | preset => preset end
|}.

Definition filled_rule (r : PartialRule) : PartialRule := {|
  p_rule_id := Some (default [] (p_rule_id r));
  p_rule_name := Some (default [] (p_rule_name r));
  p_enabled := Some (default true (p_enabled r));
  p_action := p_action r;
  p_target := Some {|
    p_all_traffic := Some (default false (p_target r ≫= p_all_traffic));
    p_domains := Some (default [] (p_target r ≫= p_domains));
    p_categories := Some (default [] (p_target r ≫= p_categories))
  |};
  p_url_regexes := Some (default [] (p_url_regexes r));
  p_content_types := Some (default [] (p_content_types r));
  p_schedule := filled_schedule <$> p_schedule r;
  p_rule_users := Some (default [] (p_rule_users r))
|}.

Definition filled_group (g : PartialGroup) : PartialGroup := {|
  p_id := Some (default [] (p_id g));
  p_name := Some (default [] (p_name g));
  p_description := Some (default [] (p_description g));
  p_blocked_categories := Some (default [] (p_blocked_categories g));
  p_blocked_domains := Some (default [] (p_blocked_domains g));
  p_allowed_domains := Some (default [] (p_allowed_domains g));
  p_rules := Some (filled_rule <$> default [] (p_rules g));
  p_safe_search := Some (default false (p_safe_search g));
  p_users := Some (default [] (p_users g));
  p_priority := Some (default 0%Z (p_priority g))
|}.

(** What the editor changes by itself: space around a name, and an action that is
    neither of the two. *)
Definition trimmed (name : option jstr) : Prop := trim (default [] name) = default [] name.
Definition rule_normal (r : PartialRule) : Prop :=
  trimmed (p_rule_name r) ∧ (p_action r = Some (js "allow") ∨ p_action r = Some (js "block")).
Definition group_normal (g : PartialGroup) : Prop :=
  trimmed (p_name g) ∧ Forall rule_normal (default [] (p_rules g)).

Lemma opt_or_default (o : option jstr) : opt_or o [] = default [] o.
Proof. by destruct o as [[]|]. Qed.

Lemma resave_schedule s : as_record_schedule <$> copySchedule (Some s) = Some (filled_schedule s).
Proof.
  unfold as_record_schedule, filled_schedule. cbn. f_equal. f_equal.
  - f_equal. rewrite <-(list_fmap_id (default [] (p_windows s))) at 2. apply list_fmap_ext. by intros _ [] _.
  - by destruct (p_preset s) as [[]|].
Qed.

Lemma resave_rule r : rule_normal r →
  as_record_rule (MkPersistedRule (rule_id (copyRule r)) (trim (rule_name (copyRule r))) (rule_enabled (copyRule r))
    (rule_action (copyRule r)) (rule_target (copyRule r)) (url_regexes (copyRule r))
    (blocked_content_types (copyRule r)) (rule_schedule (copyRule r)) (rule_users (copyRule r))) = filled_rule r.
Proof.
  intros [Hn Ha]. unfold as_record_rule, filled_rule, copyRule. cbn [out_rule_id out_rule_name out_enabled out_action
    out_target out_url_regexes out_content_types out_schedule out_rule_users rule_id rule_name rule_enabled rule_action
    rule_target url_regexes blocked_content_types rule_schedule rule_users all_traffic tgt_domains tgt_categories].
  rewrite !opt_or_default. f_equal.
  - f_equal. exact Hn.
  - f_equal. by destruct (p_enabled r) as [[]|].
  - destruct Ha as [-> | ->]; by vm_compute.
  - destruct (p_schedule r) as [s|]; [|done]. apply resave_schedule.
Qed.


(** A policy as the API sends it, with the members that are empty left out. *)
Definition sample_record : PartialGroup :=
  MkPartialGroup (Some (js "g1")) (Some (js "Kids")) None (Some [js "adult"]) None None
    (Some [MkPartialRule (Some (js "r1")) None (Some true) (Some (js "block"))
       (Some (MkPartialTarget None (Some [js "games.example"]) None)) None None
       (Some (MkPartialSchedule (Some (js "UTC")) None (Some [MkWindow (js "20:00") (js "07:00")]) None)) None])
    None None (Some 0%Z).


(** ** The simple editor *)

(** A rule made by the bedtime switch is recognised as one, needs no proxy,
    and is still recognised with the space around its name and the entry text
    of its inputs gone. *)
Theorem bedtimeRule_recognised timezone preset :
  let r := bedtimeRule timezone preset in
  isBedtimeRule r = true ∧ needsProxy r = false ∧
  isBedtimeRule (settle_rule r) = true ∧
  (∀ s, rule_schedule r = Some s → sch_windows s ≠ []).
Proof.
  simpl. split_and!; try done. intros s [= <-]. simpl.
  destruct preset as [p|]; [|done]. by destruct (pre_windows p).
Qed.

(** The advanced section stays closed exactly for the policies the simple
    editor can show whole: no users, and at most one rule, a bedtime rule. *)
Theorem hasAdvancedSettings_spec g :
  hasAdvancedSettings g = false ↔
    grp_users g = [] ∧
    (rules g = [] ∨ ∃ r, rules g = [r] ∧ isBedtimeRule r = true).
Proof.
  unfold hasAdvancedSettings. destruct (grp_users g) as [|u us]; simpl; [|naive_solver].
  destruct (rules g) as [|r [|r' rs]]; simpl.
  - intuition.
  - destruct (isBedtimeRule r) eqn:E; simpl; split; [intros _|done|done|]; [eauto|].
    intros [_ [?|(r0 & [= <-] & ?)]]; congruence.
  - split; [|intros [_ [?|(r0 & ? & _)]]; done]. intros H. exfalso.
    pose proof (filter_length_le isBedtimeRule rs).
    destruct (isBedtimeRule r), (isBedtimeRule r'); simpl in H; lia.
Qed.
