(* ===== verification/DeviceNames.v ===== *)
(** * Device names for decision rows

    [lib/devicenames.ts]: joins the administrator's device names to the client
    addresses of the decision log. *)

From S2P Require Import Prelude JsString.

Record DeviceNameSource := MkSource {
  manual_name : option jstr;
  src_ipv4 : option jstr;
  src_ipv6 : option jstr
}.

(** [new Set([device.ipv4, device.ipv6].filter(Boolean))]. *)
Definition addresses (device : DeviceNameSource) : list jstr :=
  setOf (List.filter truthy (option_list (src_ipv4 device) ++ option_list (src_ipv6 device))).

(** [device.manual_name?.trim()], with [[]] for [undefined]. *)
Definition trimmed_name (device : DeviceNameSource) : jstr :=
  match manual_name device with Some n => trim n | None => [] end.

Definition claim (ip : jstr) (claims : gmap jstr nat) : gmap jstr nat :=
  <[ ip := S (default 0 (claims !! ip)) ]> claims.

Definition count_claims (devices : list DeviceNameSource) : gmap jstr nat :=
  foldl (fun claims device => foldl (fun c ip => claim ip c) claims (addresses device))
    ∅ devices.

Definition name_device (claims : gmap jstr nat) (names : gmap jstr jstr)
    (device : DeviceNameSource) : gmap jstr jstr :=
  let name := trimmed_name device in
  if truthy name then
    foldl (fun ns ip =>
      if bool_decide (claims !! ip = Some 1) then <[ ip := name ]> ns else ns)
      names (addresses device)
  else names.

Definition buildDeviceNameMap (devices : option (list DeviceNameSource)) : gmap jstr jstr :=
  let devices := default [] devices in
  let claims := count_claims devices in
  foldl (name_device claims) ∅ devices.

Definition formatDeviceAddress (names : gmap jstr jstr) (ip : jstr) : jstr :=
  match names !! ip with
  | Some name => if truthy name then name ++ js " (" ++ ip ++ js ")" else ip
  | None => ip
  end.

(** ** Claims *)

Lemma NoDup_addresses device : NoDup (addresses device).
Proof. apply NoDup_setOf. Qed.

Lemma claim_addresses (ips : list jstr) claims ip :
  NoDup ips →
  default 0 (foldl (fun c a => claim a c) claims ips !! ip) =
    default 0 (claims !! ip) + (if bool_decide (ip ∈ ips) then 1 else 0).
Proof.
  intros Hnd. revert claims. induction Hnd as [|a ips Ha Hnd IH]; intros claims; cbn [foldl].
  { rewrite bool_decide_false by (by intros ?%elem_of_nil). lia. }
  rewrite IH. unfold claim. destruct (decide (a = ip)) as [->|Hne].
  - rewrite lookup_insert_eq. cbn [default from_option id]. rewrite (bool_decide_false (ip ∈ ips)) by done.
    rewrite bool_decide_true by (by left). lia.
  - rewrite lookup_insert_ne by done.
    clear IH. case_bool_decide as Hin.
    + by rewrite (bool_decide_true (ip ∈ a :: ips)) by (by right).
    + rewrite (bool_decide_false (ip ∈ a :: ips)); [done|].
      rewrite elem_of_cons. intuition congruence.
Qed.

(** The number of devices with an address. *)
Definition claimants (ip : jstr) (devices : list DeviceNameSource) : nat :=
  length (List.filter (fun d => bool_decide (ip ∈ addresses d)) devices).

Lemma count_claims_acc devices claims ip :
  default 0 (foldl (fun c d => foldl (fun c a => claim a c) c (addresses d)) claims devices !! ip)
    = default 0 (claims !! ip) + claimants ip devices.
Proof.
  revert claims. induction devices as [|d ds IH]; intros claims; unfold claimants in *; simpl.
  - lia.
  - rewrite IH, claim_addresses by apply NoDup_addresses.
    destruct (bool_decide (ip ∈ addresses d)); simpl; lia.
Qed.

Lemma count_claims_spec devices ip :
  count_claims devices !! ip = Some 1 ↔ claimants ip devices = 1.
Proof.
  pose proof (count_claims_acc devices ∅ ip) as H. rewrite lookup_empty in H. simpl in H.
  fold (count_claims devices) in H. destruct (count_claims devices !! ip) as [n|]; simpl in H.
  - split; [intros [= ->]; done|intros ?; f_equal; lia].
  - split; [done|lia].
Qed.

Lemma claimants_unique ip devices i d :
  claimants ip devices = 1 → devices !! i = Some d → ip ∈ addresses d →
  ∀ j d', devices !! j = Some d' → ip ∈ addresses d' → j = i.
Proof.
  unfold claimants. intros Hc Hi Hd j d' Hj Hd'. revert i j Hc Hi Hj.
  induction devices as [|e es IH]; intros i j Hc Hi Hj; [done|]. simpl in Hc.
  assert (∀ k x, es !! k = Some x → ip ∈ addresses x →
    0 < length (List.filter (fun d => bool_decide (ip ∈ addresses d)) es)) as Hpos.
  { intros k x Hk Hx.
    assert (x ∈ List.filter (fun d => bool_decide (ip ∈ addresses d)) es) as Hin.
    { rewrite elem_of_filter_b, bool_decide_eq_true. split; [by eapply list_elem_of_lookup_2|done]. }
    destruct (List.filter _ es); [by apply elem_of_nil in Hin|simpl; lia]. }
  destruct i as [|i], j as [|j]; simplify_eq/=; [done|..].
  - rewrite bool_decide_true in Hc by done. simpl in Hc. specialize (Hpos j d' Hj Hd'). lia.
  - rewrite bool_decide_true in Hc by done. simpl in Hc. specialize (Hpos i d Hi Hd). lia.
  - f_equal. destruct (bool_decide (ip ∈ addresses e)); simpl in Hc; [|by eapply IH].
    specialize (Hpos i d Hi Hd). lia.
Qed.

(** ** The name map *)

Lemma name_addresses claims name (ips : list jstr) names ip :
  foldl (fun ns a => if bool_decide (claims !! a = Some 1) then <[ a := name ]> ns else ns)
    names ips !! ip =
  if bool_decide (ip ∈ ips ∧ (claims : gmap jstr nat) !! ip = Some 1)
  then Some name else (names : gmap jstr jstr) !! ip.
Proof.
  revert names. induction ips as [|a ips IH]; intros names; cbn [foldl].
  { rewrite bool_decide_false; [done|]. intros [H%elem_of_nil _]. done. }
  rewrite IH. destruct (decide (ip ∈ ips ∧ claims !! ip = Some 1)) as [H|H].
  { rewrite !bool_decide_true; [done| |done]. destruct H. split; [by right|done]. }
  rewrite (bool_decide_false (ip ∈ ips ∧ _)) by done.
  destruct (decide (a = ip)) as [->|Hne].
  - destruct (decide (claims !! ip = Some 1)) as [Hc|Hc].
    + rewrite (bool_decide_true (claims !! ip = Some 1)) by done.
      rewrite (bool_decide_true (ip ∈ ip :: ips ∧ _)) by (split; [by left|done]).
      by rewrite lookup_insert_eq.
    + rewrite (bool_decide_false (claims !! ip = Some 1)) by done.
      by rewrite (bool_decide_false (ip ∈ ip :: ips ∧ _)) by (by intros [_ ?]).
  - rewrite (bool_decide_false (ip ∈ a :: ips ∧ _)).
    + destruct (bool_decide (claims !! a = Some 1)); [by rewrite lookup_insert_ne|done].
    + rewrite elem_of_cons. intuition congruence.
Qed.

Lemma name_device_lookup claims names d ip :
  name_device claims names d !! ip =
    if bool_decide (truthy (trimmed_name d) = true ∧ ip ∈ addresses d ∧ claims !! ip = Some 1)
    then Some (trimmed_name d) else names !! ip.
Proof.
  unfold name_device. destruct (truthy (trimmed_name d)) eqn:E.
  - rewrite name_addresses.
    by rewrite (bool_decide_ext (true = true ∧ ip ∈ addresses d ∧ claims !! ip = Some 1)
      (ip ∈ addresses d ∧ claims !! ip = Some 1)) by tauto.
  - rewrite bool_decide_false; [done|]. by intros [? _].
Qed.

Lemma name_devices_lookup claims devices names ip n :
  foldl (name_device claims) names devices !! ip = Some n →
  (∃ i d, devices !! i = Some d ∧ ip ∈ addresses d ∧ claims !! ip = Some 1 ∧
          trimmed_name d = n ∧ n ≠ []) ∨ names !! ip = Some n.
Proof.
  revert names. induction devices as [|d ds IH]; intros names H; simpl in H; [by right|].
  destruct (IH _ H) as [(i & e & Hi & Hrest)|Hn].
  { left. by exists (S i), e. }
  rewrite name_device_lookup in Hn. case_bool_decide as Hb; [|by right].
  destruct Hb as (Ht & Ha & Hc). left. exists 0, d. simplify_eq.
  split_and!; [done..|by apply truthy_true].
Qed.

Lemma name_devices_complete claims devices names ip i d :
  devices !! i = Some d → ip ∈ addresses d → claims !! ip = Some 1 → trimmed_name d ≠ [] →
  (∀ j d', devices !! j = Some d' → ip ∈ addresses d' → j = i) →
  foldl (name_device claims) names devices !! ip = Some (trimmed_name d).
Proof.
  intros Hi Ha Hc Hn. revert i names Hi. induction devices as [|e es IH]; intros i names Hi Hu;
    [done|]. simpl. destruct i as [|i]; simplify_eq/=.
  - assert (foldl (name_device claims) (name_device claims names d) es !! ip
      = name_device claims names d !! ip) as ->.
    { assert (∀ j d', es !! j = Some d' → ip ∉ addresses d') as Hno.
      { intros j d' Hj Hd'. by specialize (Hu (S j) d' Hj Hd'). }
      clear IH Hu. generalize (name_device claims names d).
      induction es as [|e es IH]; intros ns; [done|]. simpl. rewrite IH.
      - rewrite name_device_lookup, bool_decide_false; [done|].
        intros (_ & Hin & _). by apply (Hno 0 e).
      - intros j d' Hj. by apply (Hno (S j) d'). }
    rewrite name_device_lookup, bool_decide_true; [done|].
    split_and!; [by apply truthy_true|done..].
  - apply (IH i); [done|]. intros j d' Hj Hd'. by specialize (Hu (S j) d' Hj Hd') as [= ->].
Qed.

(** A row's address gets a name exactly when one device, and only one, has the
    address now and the administrator named it; the name is trimmed. *)
Theorem buildDeviceNameMap_spec devices ip n :
  buildDeviceNameMap (Some devices) !! ip = Some n ↔
    ∃ i d, devices !! i = Some d ∧ ip ∈ addresses d ∧ trimmed_name d = n ∧ n ≠ [] ∧
           ∀ j d', devices !! j = Some d' → ip ∈ addresses d' → j = i.
Proof.
  unfold buildDeviceNameMap. simpl. split.
  - intros H. apply name_devices_lookup in H as [(i & d & Hi & Ha & Hc & Hn)|H];
      [|by rewrite lookup_empty in H].
    exists i, d. destruct Hn. split_and!; [done..|].
    apply count_claims_spec in Hc. by eapply claimants_unique.
  - intros (i & d & Hi & Ha & <- & Hn & Hu). eapply name_devices_complete; try done.
    apply count_claims_spec. clear Hn. unfold claimants. revert i Hi Hu.
    induction devices as [|e es IH]; intros i Hi Hu; [done|].
    destruct i as [|i]; simplify_eq/=.
    + rewrite bool_decide_true by done. simpl. f_equal.
      assert (∀ j d', es !! j = Some d' → ip ∉ addresses d') as Hno.
      { intros j d' Hj Hd'. by specialize (Hu (S j) d' Hj Hd'). }
      clear IH Hu. induction es as [|e es IH]; [done|]. simpl.
      rewrite bool_decide_false by (by apply (Hno 0 e)). apply IH.
      intros j d' Hj. by apply (Hno (S j) d').
    + rewrite bool_decide_false by (intros H; by specialize (Hu 0 e eq_refl H)).
      apply (IH i); [done|]. intros j d' Hj Hd'. by specialize (Hu (S j) d' Hj Hd') as [= ->].
Qed.

(** The raw address stays visible: a row shows the address alone or a
    non-empty name followed by the address in parentheses. *)
Theorem formatDeviceAddress_shows_ip devices ip :
  let names := buildDeviceNameMap devices in
  formatDeviceAddress names ip = ip ∨
  ∃ n, n ≠ [] ∧ names !! ip = Some n ∧
       formatDeviceAddress names ip = n ++ js " (" ++ ip ++ js ")".
Proof.
  simpl. unfold formatDeviceAddress.
  destruct (buildDeviceNameMap devices !! ip) as [n|] eqn:E; [|by left].
  destruct n as [|c n]; [by left|]. right. by exists (c :: n).
Qed.
