(* ===== verification/Credentials.v ===== *)
(** * Password length

    [lib/credentials.ts]: the backend bounds a password by its length in UTF-8
    bytes, which is neither its length in code units nor in characters. *)

From S2P Require Import Prelude JsString.

Definition MIN_PASSWORD_BYTES : Z := 12.
Definition MAX_PASSWORD_BYTES : Z := 72.

Definition high_surrogate (c : N) : bool := (0xD800 <=? c)%N && (c <=? 0xDBFF)%N.
Definition low_surrogate (c : N) : bool := (0xDC00 <=? c)%N && (c <=? 0xDFFF)%N.

(** The UTF-8 bytes of a code point below 0x10000. *)
Definition encode_unit (c : N) : list N :=
  if (c <? 0x80)%N then [c]
  else if (c <? 0x800)%N then [0xC0 + c / 0x40; 0x80 + c mod 0x40]%N
  else [0xE0 + c / 0x1000; 0x80 + c / 0x40 mod 0x40; 0x80 + c mod 0x40]%N.

(** The bytes of the code point of a surrogate pair. *)
Definition encode_pair (h l : N) : list N :=
  let c := ((h - 0xD800) * 0x400 + (l - 0xDC00) + 0x10000)%N in
  [0xF0 + c / 0x40000; 0x80 + c / 0x1000 mod 0x40; 0x80 + c / 0x40 mod 0x40;
   0x80 + c mod 0x40]%N.

(** [new TextEncoder().encode(value)]: a surrogate without its partner becomes
    U+FFFD. *)
Fixpoint encode (value : jstr) : list N :=
  match value with
  | [] => []
  | c :: rest =>
      if high_surrogate c then
        match rest with
        | d :: rest' =>
            if low_surrogate d then encode_pair c d ++ encode rest'
            else encode_unit 0xFFFD ++ encode rest
        | [] => encode_unit 0xFFFD
        end
      else if low_surrogate c then encode_unit 0xFFFD ++ encode rest
      else encode_unit c ++ encode rest
  end.

Definition utf8ByteLength (value : jstr) : Z := Z.of_nat (length (encode value)).

Definition passwordHasValidByteLength (value : jstr) : bool :=
  let length := utf8ByteLength value in
  (MIN_PASSWORD_BYTES <=? length)%Z && (length <=? MAX_PASSWORD_BYTES)%Z.

(** ** Induction along the encoder *)

(** Code units, and every surrogate in a pair. *)
Fixpoint well_formed (value : jstr) : Prop :=
  match value with
  | [] => True
  | c :: rest =>
      (c < 0x10000)%N ∧
      if high_surrogate c then
        match rest with
        | d :: rest' => low_surrogate d = true ∧ well_formed rest'
        | [] => False
        end
      else low_surrogate c = false ∧ well_formed rest
  end.

Lemma encode_ind (P : jstr → Prop) :
  P [] →
  (∀ c d rest, high_surrogate c = true → low_surrogate d = true → P rest → P (c :: d :: rest)) →
  (∀ c rest, high_surrogate c = true → (∀ d r, rest = d :: r → low_surrogate d = false) →
     P rest → P (c :: rest)) →
  (∀ c rest, high_surrogate c = false → P rest → P (c :: rest)) →
  ∀ s, P s.
Proof.
  intros Hnil Hpair Hlone Hunit s.
  induction s as [s IH] using (induction_ltof1 _ (@length N)). unfold ltof in IH.
  destruct s as [|c rest]; [done|].
  assert (P rest) as Hrest by (apply IH; simpl; lia).
  destruct (high_surrogate c) eqn:Hc; [|by apply Hunit].
  destruct rest as [|d rest]; [by apply Hlone|].
  destruct (low_surrogate d) eqn:Hd.
  - apply Hpair; [done..|]. apply IH. simpl. lia.
  - apply Hlone; [done| |done]. by intros ?? [= <- <-].
Qed.

Lemma encode_pair_eq c d rest :
  high_surrogate c = true → low_surrogate d = true →
  encode (c :: d :: rest) = encode_pair c d ++ encode rest.
Proof. intros Hc Hd. simpl. by rewrite Hc, Hd. Qed.

Lemma encode_lone_eq c rest :
  high_surrogate c = true → (∀ d r, rest = d :: r → low_surrogate d = false) →
  encode (c :: rest) = encode_unit 0xFFFD ++ encode rest.
Proof.
  intros Hc Hd. destruct rest as [|d r]; simpl; rewrite Hc; [done|].
  by rewrite (Hd d r eq_refl).
Qed.

Lemma encode_unit_eq c rest :
  high_surrogate c = false →
  encode (c :: rest) = encode_unit (if low_surrogate c then 0xFFFD else c) ++ encode rest.
Proof. intros Hc. simpl. rewrite Hc. by destruct (low_surrogate c). Qed.

Lemma encode_unit_length c :
  length (encode_unit c) = if (c <? 0x80)%N then 1 else if (c <? 0x800)%N then 2 else 3.
Proof. unfold encode_unit. by repeat case_match. Qed.

(** ** Bounds *)

Lemma utf8ByteLength_bounds value :
  (Z.of_nat (length value) <= utf8ByteLength value <= 3 * Z.of_nat (length value))%Z.
Proof.
  unfold utf8ByteLength. induction value using encode_ind.
  - done.
  - rewrite encode_pair_eq, length_app by done. simpl. lia.
  - rewrite encode_lone_eq, length_app, encode_unit_length by done. simpl. lia.
  - rewrite encode_unit_eq, length_app, encode_unit_length by done. simpl.
    repeat case_match; lia.
Qed.

Lemma utf8ByteLength_ascii value :
  Forall (fun c => (c < 0x80)%N) value → utf8ByteLength value = Z.of_nat (length value).
Proof.
  unfold utf8ByteLength. induction 1 as [|c rest Hc _ IH]; [done|].
  rewrite encode_unit_eq by (unfold high_surrogate; lia).
  replace (low_surrogate c) with false by (unfold low_surrogate; lia).
  rewrite length_app, encode_unit_length. replace (c <? 0x80)%N with true by lia. simpl. lia.
Qed.

(** ** Decoding *)

#[local] Ltac Zify.zify_post_hook ::= Z.to_euclidean_division_equations.

Lemma decode_unit c rest :
  (c < 0x10000)%N → utf16_of_utf8 (encode_unit c ++ rest) = c :: utf16_of_utf8 rest.
Proof.
  intros Hc. unfold encode_unit.
  destruct (c <? 0x80)%N eqn:H1; [simpl; by rewrite H1|].
  destruct (c <? 0x800)%N eqn:H2; simpl.
  - replace (0xC0 + c / 0x40 <? 0x80)%N with false by lia.
    replace (0xC0 + c / 0x40 <? 0xE0)%N with true by lia. f_equal. lia.
  - replace (0xE0 + c / 0x1000 <? 0x80)%N with false by lia.
    replace (0xE0 + c / 0x1000 <? 0xE0)%N with false by lia.
    replace (0xE0 + c / 0x1000 <? 0xF0)%N with true by lia. f_equal. lia.
Qed.

Lemma decode_pair h l rest :
  high_surrogate h = true → low_surrogate l = true →
  utf16_of_utf8 (encode_pair h l ++ rest) = h :: l :: utf16_of_utf8 rest.
Proof.
  unfold high_surrogate, low_surrogate. intros Hh Hl. unfold encode_pair.
  set (c := ((h - 0xD800) * 0x400 + (l - 0xDC00) + 0x10000)%N).
  assert (0x10000 <= c < 0x110000)%N by lia. simpl.
  replace (0xF0 + c / 0x40000 <? 0x80)%N with false by lia.
  replace (0xF0 + c / 0x40000 <? 0xE0)%N with false by lia.
  replace (0xF0 + c / 0x40000 <? 0xF0)%N with false by lia.
  replace ((0xF0 + c / 0x40000 - 0xF0) * 0x40000 + (0x80 + c / 0x1000 mod 0x40 - 0x80) * 0x1000
    + (0x80 + c / 0x40 mod 0x40 - 0x80) * 0x40 + (0x80 + c mod 0x40 - 0x80) - 0x10000)%N
    with (c - 0x10000)%N by lia.
  f_equal; [|f_equal]; unfold c; lia.
Qed.

Lemma decode_encode value : well_formed value → utf16_of_utf8 (encode value) = value.
Proof.
  induction value as [|c d rest Hc Hd IH|c rest Hc Hno _|c rest Hc IH] using encode_ind;
    intros Hwf.
  - done.
  - rewrite encode_pair_eq, decode_pair by done. simpl in Hwf. rewrite Hc in Hwf.
    by rewrite IH by apply Hwf.
  - simpl in Hwf. rewrite Hc in Hwf. destruct rest as [|d r]; [tauto|].
    rewrite (Hno d r eq_refl) in Hwf. destruct Hwf as [_ [? _]]; done.
  - simpl in Hwf. rewrite Hc in Hwf. destruct Hwf as (Hlt & Hl & Hwf).
    rewrite encode_unit_eq, Hl, decode_unit by done. by rewrite IH.
Qed.

(** Every byte is one. *)
Lemma encode_bytes value : Forall (fun c => (c < 0x10000)%N) value → Forall (fun b => (b < 256)%N) (encode value).
Proof.
  assert (∀ c, (c < 0x10000)%N → Forall (fun b => (b < 256)%N) (encode_unit c)) as Hunit.
  { intros c Hc. unfold encode_unit. destruct (c <? 0x80)%N eqn:H1; [repeat constructor; lia|].
    destruct (c <? 0x800)%N eqn:H2; repeat constructor; lia. }
  induction value as [|c d rest Hc Hd IH|c rest Hc Hno IH|c rest Hc IH] using encode_ind; intros Hv.
  - constructor.
  - inversion Hv as [|? ? H1 Hv']; inversion Hv' as [|? ? H2 Hv'']; subst.
    rewrite encode_pair_eq by done. apply Forall_app. split; [|by apply IH].
    unfold high_surrogate, low_surrogate in *. unfold encode_pair.
    set (x := ((c - 0xD800) * 0x400 + (d - 0xDC00) + 0x10000)%N).
    assert (x < 0x110000)%N by lia. clearbody x. repeat constructor; lia.
  - inversion Hv as [|? ? H1 Hv']; subst. specialize (IH Hv').
    assert (encode (c :: rest) = encode_unit 0xFFFD ++ encode rest) as ->.
    { simpl. rewrite Hc. destruct rest as [|d r]; [done|]. by rewrite (Hno d r eq_refl). }
    apply Forall_app. split; [apply Hunit; lia|done].
  - inversion Hv as [|? ? H1 Hv']; subst. specialize (IH Hv'). rewrite encode_unit_eq by done.
    destruct (low_surrogate c); apply Forall_app; (split; [apply Hunit; lia|done]).
Qed.

(** The bytes counted are the UTF-8 encoding: decoding them gives the password
    back, for every string without lone surrogates; the count is between one
    and three bytes per code unit, and one for ASCII. *)
Theorem encode_roundtrip value :
  well_formed value → utf16_of_utf8 (encode value) = value.
Proof. apply decode_encode. Qed.

Lemma encode_roundtrip_witness : utf16_of_utf8 (encode (js "pässword🔒")) = js "pässword🔒".
Proof. apply encode_roundtrip. vm_compute. repeat split; discriminate || done. Defined.

(** A password of valid byte length has between 4 and 72 code units; an ASCII
    one is valid exactly when it has between 12 and 72. *)
Theorem passwordHasValidByteLength_units value :
  (passwordHasValidByteLength value = true → 4 ≤ length value ≤ 72) ∧
  (Forall (fun c => (c < 0x80)%N) value →
     passwordHasValidByteLength value = true ↔ 12 ≤ length value ≤ 72).
Proof.
  unfold passwordHasValidByteLength, MIN_PASSWORD_BYTES, MAX_PASSWORD_BYTES. split.
  - pose proof (utf8ByteLength_bounds value). lia.
  - intros H. rewrite utf8ByteLength_ascii by done. lia.
Qed.

Example lock_18 : utf8ByteLength (concat (replicate 18 (js "🔒"))) = MAX_PASSWORD_BYTES.
Proof. reflexivity. Qed.
Example lock_19 : passwordHasValidByteLength (concat (replicate 19 (js "🔒"))) = false.
Proof. reflexivity. Qed.
