(* ===== verification/Uri.v ===== *)
(** * encodeURIComponent

    The percent encoding the log and device pages put text into URLs with
    (ECMA-262, 19.2.6): the UTF-8 bytes of the text, each that is not an
    unreserved character as [%XY].  A surrogate without its partner throws. *)

From S2P Require Import Prelude JsString JsAsync Credentials.

Definition URIError : jserr := JsErr true (js "URIError") (js "URI malformed").

(** [A-Z a-z 0-9 - _ . ! ~ * ' ( )]. *)
Definition is_unreserved (b : N) : bool :=
  is_digit b || ((65 <=? b) && (b <=? 90))%N || ((97 <=? b) && (b <=? 122))%N
  || bool_decide (b ∈ [45; 95; 46; 33; 126; 42; 39; 40; 41]%N).

Definition hex_digit (n : N) : N := if (n <? 10)%N then (48 + n)%N else (55 + n)%N.

Definition percent (b : N) : jstr :=
  if is_unreserved b then [b] else [37; hex_digit (b / 16); hex_digit (b mod 16)]%N.

Fixpoint lone_surrogate (s : jstr) : bool :=
  match s with
  | [] => false
  | c :: rest =>
      if high_surrogate c then
        match rest with
        | d :: rest' => if low_surrogate d then lone_surrogate rest' else true
        | [] => true
        end
      else if low_surrogate c then true else lone_surrogate rest
  end.

Definition encodeURIComponent (s : jstr) : result jstr :=
  if lone_surrogate s then inl URIError else inr (encode s ≫= percent).

(** ** Decoding *)

Definition hex_value (c : N) : N := if (c <? 58)%N then (c - 48)%N else (c - 55)%N.

(** What a server makes of a percent-encoded query value. *)
Fixpoint percent_decode (s : jstr) : list N :=
  match s with
  | [] => []
  | c :: rest =>
      match rest with
      | h :: l :: rest' =>
          if (c =? 37)%N then (16 * hex_value h + hex_value l)%N :: percent_decode rest'
          else c :: percent_decode rest
      | _ => c :: percent_decode rest
      end
  end.

Lemma hex_value_digit n : (n < 16)%N → hex_value (hex_digit n) = n.
Proof.
  intros H. unfold hex_value, hex_digit. destruct (N.ltb_spec n 10).
  - destruct (N.ltb_spec (48 + n) 58); lia.
  - destruct (N.ltb_spec (55 + n) 58); lia.
Qed.

Lemma unreserved_not_percent b : is_unreserved b = true → (b =? 37)%N = false.
Proof. intros H. apply N.eqb_neq. intros ->. by vm_compute in H. Qed.

Lemma decode_plain c s : (c =? 37)%N = false → percent_decode (c :: s) = c :: percent_decode s.
Proof. intros H. destruct s as [|h [|l s]]; simpl; rewrite ?H; done. Qed.

Lemma percent_decode_encode bytes :
  Forall (fun b => (b < 256)%N) bytes → percent_decode (bytes ≫= percent) = bytes.
Proof.
  induction 1 as [|b bytes Hb _ IH]; [done|].
  cbn [mbind list_bind]. unfold percent at 1. destruct (is_unreserved b) eqn:Hu.
  - cbn [app]. rewrite decode_plain by (by apply unreserved_not_percent). by f_equal.
  - cbn [app percent_decode]. rewrite N.eqb_refl.
    rewrite !hex_value_digit by (try apply N.mod_upper_bound; try lia; apply N.Div0.div_lt_upper_bound; lia).
    f_equal; [|done]. rewrite N.mul_comm, <-(N.mul_comm 16). symmetry. apply N.div_mod. lia.
Qed.

Lemma not_lone_well_formed s :
  Forall (fun c => (c < 0x10000)%N) s → lone_surrogate s = false → well_formed s.
Proof.
  induction s as [|c d rest Hc Hd IH|c rest Hc Hno _|c rest Hc IH] using encode_ind; intros Hf Hl.
  - done.
  - inversion Hf as [|? ? H1 Hf']; inversion Hf' as [|? ? H2 Hf'']; subst.
    simpl in *. rewrite Hc, Hd in Hl. rewrite Hc. auto.
  - simpl in Hl. rewrite Hc in Hl. destruct rest as [|d r]; [done|]. by rewrite (Hno d r eq_refl) in Hl.
  - inversion Hf as [|? ? H1 Hf']; subst. simpl in *. rewrite Hc in Hl |- *.
    destruct (low_surrogate c); [done|]. auto.
Qed.

Lemma percent_chars b c : (b < 256)%N → c ∈ percent b → is_unreserved c = true ∨ c = 37%N.
Proof.
  intros Hb. unfold percent. destruct (is_unreserved b) eqn:Hu.
  - intros ->%list_elem_of_singleton. by left.
  - assert (∀ n, (n < 16)%N → is_unreserved (hex_digit n) = true) as Hhex.
    { intros n Hn. unfold is_unreserved, hex_digit, is_digit. destruct (N.ltb_spec n 10); lia. }
    rewrite !elem_of_cons, elem_of_nil. intros [->|[->|[->|[]]]]; [by right|left; apply Hhex..].
    + apply N.Div0.div_lt_upper_bound. lia.
    + apply N.mod_upper_bound. lia.
Qed.

(** Text put into a URL through [encodeURIComponent] cannot end the query
    parameter it is in, and the server that decodes the parameter reads the
    text back. *)
Theorem encodeURIComponent_spec s e :
  Forall (fun c => (c < 0x10000)%N) s → encodeURIComponent s = inr e →
  (∀ c, c ∈ e → is_unreserved c = true ∨ c = 37%N) ∧
  utf16_of_utf8 (percent_decode e) = s.
Proof.
  intros Hs H. unfold encodeURIComponent in H. destruct (lone_surrogate s) eqn:Hl; [done|].
  injection H as <-. pose proof (encode_bytes s Hs) as Hb. split.
  - intros c (b & Hc & Hin)%list_elem_of_bind. rewrite Forall_forall in Hb.
    by eapply percent_chars; [apply Hb|].
  - rewrite percent_decode_encode by done. by apply decode_encode, not_lone_well_formed.
Qed.

Lemma encodeURIComponent_spec_witness :
  encodeURIComponent (js "a b&c=é") = inr (js "a%20b%26c%3D%C3%A9") ∧
  utf16_of_utf8 (percent_decode (js "a%20b%26c%3D%C3%A9")) = js "a b&c=é".
Proof.
  assert (encodeURIComponent (js "a b&c=é") = inr (js "a%20b%26c%3D%C3%A9")) as E
    by (vm_compute; reflexivity).
  split; [exact E|]. apply (encodeURIComponent_spec _ _) in E; [apply E|].
  vm_compute. repeat constructor.
Defined.
