(* ===== verification/Navigation.v ===== *)
(** * Navigation

    [lib/navigate.ts], [menu.ts] and the route test of [App.svelte].  The base
    path is [window.__GS_BASE_PATH__], which the Go server injects; every
    definition takes it as the argument [injected]. *)

From S2P Require Import Prelude JsString.

Definition slash : jstr := js "/".

Definition getBasePath (injected : option jstr) : jstr :=
  let bp := opt_or injected [] in
  if bool_decide (bp = slash) then [] else bp.

(** The path [gsNavigate] hands to the router. *)
Definition gsNavigate (injected : option jstr) (to : jstr) : jstr := getBasePath injected ++ to.

(** ** The menu *)

Record MenuLink := MkLink { link_text : jstr; href : jstr }.

Inductive MenuItem :=
| Link (l : MenuLink)
| Menu (text : jstr) (children : list MenuLink).

Definition menuItems : list MenuItem := [
  Link (MkLink (js "Home") (js "/"));
  Link (MkLink (js "Logs") (js "/logs"));
  Link (MkLink (js "Settings") (js "/settings"));
  Link (MkLink (js "DNS") (js "/dns"));
  Link (MkLink (js "Devices") (js "/devices"));
  Link (MkLink (js "Policies") (js "/rules"));
  Link (MkLink (js "Services") (js "/services"));
  Menu (js "HTTPS inspection") [
    MkLink (js "Blocked keywords") (js "/blockedkeywords");
    MkLink (js "Blocked content types") (js "/blockedfiletypes");
    MkLink (js "Sites not inspected") (js "/excludehosts");
    MkLink (js "URLs not inspected") (js "/excludeurls")
  ];
  Link (MkLink (js "Stats") (js "/stats"));
  Link (MkLink (js "AI") (js "/ai"));
  Link (MkLink (js "Users") (js "/users"))
].

Definition routeHref (injected : option jstr) (href : jstr) : jstr := getBasePath injected ++ href.

Definition currentRoute (injected : option jstr) (pathname : jstr) : jstr :=
  let base := getBasePath injected in
  let pathname :=
    if truthy base && (bool_decide (pathname = base) || startsWith (base ++ slash) pathname)
    then str_or (drop (length base) pathname) slash else pathname in
  str_or pathname slash.

Definition isRouteActive (href pathname : jstr) : bool :=
  if bool_decide (href = slash) then bool_decide (pathname = slash)
  else bool_decide (pathname = href) || startsWith (href ++ slash) pathname.

Definition isMenuActive (item : MenuItem) (pathname : jstr) : bool :=
  match item with
  | Link l => isRouteActive (href l) pathname
  | Menu _ children => existsb (fun child => isRouteActive (href child) pathname) children
  end.

(** [routePath] of [App.svelte]. *)
Definition routePath (injected : option jstr) (browserPath : jstr) : jstr :=
  let base := getBasePath injected in
  if truthy base && (bool_decide (browserPath = base) || startsWith (base ++ slash) browserPath)
  then str_or (drop (length base) browserPath) slash
  else str_or browserPath slash.

(** ** Lemmas *)

Definition is_slash (c : N) : bool := (c =? 47)%N.

(** The first segment of an absolute path. *)
Fixpoint until_slash (s : jstr) : jstr :=
  match s with
  | [] => []
  | c :: s' => if is_slash c then [] else c :: until_slash s'
  end.

Definition first_segment (p : jstr) : jstr := until_slash (drop 1 p).

Lemma until_slash_app w s :
  forallb (fun c => negb (is_slash c)) w = true → until_slash (w ++ 47%N :: s) = w.
Proof.
  induction w as [|c w IH]; simpl; [done|]. intros H. split_bools.
  by replace (is_slash c) with false by done; rewrite IH.
Qed.

Lemma until_slash_all w : forallb (fun c => negb (is_slash c)) w = true → until_slash w = w.
Proof.
  induction w as [|c w IH]; simpl; [done|]. intros H. split_bools.
  by replace (is_slash c) with false by done; rewrite IH.
Qed.

(** An [href] of one segment. *)
Definition one_segment (h : jstr) : bool :=
  match h with
  | c :: w => is_slash c && forallb (fun c => negb (is_slash c)) w
  | [] => false
  end.

Lemma isRouteActive_segment h p :
  one_segment h = true → isRouteActive h p = true → h = slash ++ first_segment p.
Proof.
  unfold one_segment, isRouteActive. destruct h as [|c w]; [done|]. intros H Ha. split_bools.
  assert (c = 47%N) as -> by (unfold is_slash in *; lia).
  destruct (decide ((47%N :: w) = slash)) as [E|E].
  - rewrite bool_decide_true in Ha by done. split_bools. subst p. by injection E as ->.
  - rewrite bool_decide_false in Ha by done. apply orb_true_iff in Ha as [Ha|Ha].
    + split_bools. subst p. unfold first_segment.
      change (drop 1 (47%N :: w)) with w. by rewrite until_slash_all.
    + apply startsWith_spec in Ha as [t ->]. unfold first_segment.
      rewrite <-app_assoc. change (drop 1 ((47%N :: w) ++ slash ++ t)) with (w ++ 47%N :: t).
      by rewrite until_slash_app.
Qed.

(** All links of the menu, in order. *)
Definition links : list MenuLink :=
  concat ((fun item => match item with Link l => [l] | Menu _ cs => cs end) <$> menuItems).

Lemma links_one_segment l : l ∈ links → one_segment (href l) = true.
Proof.
  intros H. assert (Forall (fun l => one_segment (href l) = true) links) as HF
    by (apply (bool_decide_unpack _); by vm_compute).
  rewrite Forall_forall in HF. auto.
Qed.

Lemma one_segment_absolute h : one_segment h = true → startsWith slash h = true.
Proof.
  unfold one_segment. destruct h as [|c w]; [done|]. intros H. split_bools.
  by assert (c = 47%N) as -> by (unfold is_slash in *; lia).
Qed.

(** The shell's and the menu's reading of a path is the same. *)
Lemma routePath_current injected p : routePath injected p = currentRoute injected p.
Proof.
  unfold routePath, currentRoute.
  destruct (truthy _ && _); [|done]. by destruct (drop _ p).
Qed.

(** The path of an absolute link is read as that link, under every base path. *)
Lemma currentRoute_routeHref injected to :
  startsWith slash to = true → currentRoute injected (routeHref injected to) = to.
Proof.
  intros H. apply startsWith_spec in H as [w ->]. unfold currentRoute, routeHref.
  destruct (getBasePath injected) as [|b bs] eqn:E; [done|].
  assert (startsWith ((b :: bs) ++ slash) ((b :: bs) ++ slash ++ w) = true) as ->
    by (apply startsWith_spec; exists w; by rewrite <-app_assoc).
  rewrite orb_true_r. simpl truthy. cbn [andb]. by rewrite drop_app_length.
Qed.

Lemma routePath_gsNavigate injected to :
  startsWith slash to = true → routePath injected (gsNavigate injected to) = to.
Proof. rewrite routePath_current. apply currentRoute_routeHref. Qed.

(** Whatever path the browser shows, at most one link of the menu is marked as
    the current page; and on the path a link leads to, it is that link. *)
Theorem menu_one_active injected l :
  l ∈ links →
  isRouteActive (href l) (currentRoute injected (routeHref injected (href l))) = true ∧
  ∀ p l', l' ∈ links → isRouteActive (href l) p = true → isRouteActive (href l') p = true →
    href l' = href l.
Proof.
  intros Hl. pose proof (links_one_segment l Hl) as H1. split.
  - rewrite currentRoute_routeHref by (by apply one_segment_absolute).
    unfold isRouteActive. case_bool_decide; [done|].
    by rewrite bool_decide_true.
  - intros p l' Hl' Ha Ha'.
    rewrite (isRouteActive_segment _ _ H1 Ha).
    by rewrite (isRouteActive_segment _ _ (links_one_segment l' Hl') Ha').
Qed.

Lemma menu_one_active_witness :
  isRouteActive (js "/dns")
    (currentRoute (Some (js "/gatesentry")) (routeHref (Some (js "/gatesentry")) (js "/dns")))
    = true.
Proof.
  apply (menu_one_active (Some (js "/gatesentry")) (MkLink (js "DNS") (js "/dns"))).
  vm_compute. repeat first [left|right].
Defined.
