(* ===== verification/Notifications.v ===== *)
(** * Notifications

    [lib/utils.ts] builds a notification from the fields a caller gives, and
    [store/notifications.ts] keeps the list the page shows.  The translator
    [_] is a parameter. *)

From S2P Require Import Prelude JsString JsAsync Http.

Record NotificationMessage := MkMessage {
  m_kind : option jstr;
  m_title : option jstr;
  m_subtitle : option jstr;
  m_timeout : option Z
}.
#[export] Instance NotificationMessage_eta : Settable NotificationMessage := fun m =>
  MkMessage (m_kind m) (m_title m) (m_subtitle m) (m_timeout m).

(** [{ subtitle: s }]. *)
Definition subtitle_only (s : jstr) : NotificationMessage := MkMessage None None (Some s) None.

Record BuiltNotification := MkBuilt {
  b_kind : jstr;
  b_title : jstr;
  b_subtitle : jstr;
  b_timeout : Z
}.

Section Build.
Context (translator : jstr → jstr).

Definition buildNotification (n : NotificationMessage) : BuiltNotification := {|
  b_kind := default (js "error") (m_kind n);
  b_title := default (translator (js "Error")) (m_title n);
  b_subtitle := default (translator (js "Unable to perform action")) (m_subtitle n);
  b_timeout := default 30000%Z (m_timeout n)
|}.

Definition createNotificationSuccess (n : NotificationMessage) : BuiltNotification :=
  buildNotification (n <| m_kind := Some (js "success") |> <| m_timeout := Some 2000%Z |>
                       <| m_title := Some (translator (js "Success")) |>).

Definition createNotificationError (n : NotificationMessage) : BuiltNotification :=
  buildNotification (n <| m_kind := Some (js "error") |> <| m_timeout := Some 30000%Z |>).
End Build.

(** ** The store *)

Record Notification := MkNotification {
  n_id : Z;
  n_title : jstr;
  n_subtitle : jstr;
  n_kind : jstr;
  n_timeout : Z
}.

#[export] Instance Notification_eq_dec : EqDecision Notification.
Proof. solve_decision. Defined.

(** [notificationstore.add]; every caller passes all four fields. *)
Definition add (n : BuiltNotification) (currentArray : list Notification) : list Notification :=
  currentArray ++ [{|
    n_id := Z.of_nat (length currentArray) + 1;
    n_title := b_title n;
    n_subtitle := b_subtitle n;
    n_kind := b_kind n;
    n_timeout := b_timeout n
  |}].

Definition remove (notification : Notification) (currentArray : list Notification)
    : list Notification :=
  List.filter (fun n => negb (n_id n =? n_id notification)%Z) currentArray.

(** Pages that show notifications. *)
Class HasNotifications (S : Type) := {
  shown : S → list Notification;
  on_shown : (list Notification → list Notification) → S → S;
  shown_on_shown f s : shown (on_shown f s) = f (shown s)
}.

(** [notificationstore.add(...)] in a handler. *)
Definition notify {S P B} `{!HasNotifications S} (n : BuiltNotification)
    : prog S (io_res (P := P) B) unit :=
  modify (on_shown (add n)).

(** ** Lemmas *)

Definition ids (l : list Notification) : list Z := n_id <$> l.

(** The identifiers [1 .. n] that a list only ever added to has. *)
Definition numbered (l : list Notification) : Prop := ids l = Z.of_nat <$> seq 1 (length l).

Lemma add_numbered n l : numbered l → numbered (add n l).
Proof.
  unfold numbered, ids, add. intros H.
  rewrite fmap_app, length_app, H. simpl. rewrite Nat.add_1_r, seq_S, fmap_app. simpl.
  f_equal. f_equal. lia.
Qed.

Lemma numbered_NoDup l : numbered l → NoDup (ids l).
Proof. intros ->. apply NoDup_fmap; [apply _|apply NoDup_seq]. Qed.

(** Dismissing a notification removes every notification with its identifier
    and no other, and keeps the order. *)
Theorem remove_spec notification l :
  (∀ n, n ∈ remove notification l ↔ n ∈ l ∧ n_id n ≠ n_id notification) ∧
  remove notification l `sublist_of` l.
Proof.
  split.
  - intros n. unfold remove. rewrite elem_of_filter_b. split; intros [? ?]; split; lia || done.
  - unfold remove. induction l as [|n l IH]; simpl; [done|].
    destruct (negb _); [by apply sublist_skip|by apply sublist_cons].
Qed.

(** As long as nothing is dismissed the identifiers are distinct; after a
    dismissal the next notification can get one that is in use, and then
    dismissing it dismisses both. *)
Theorem ids_unique_until_removal ns :
  NoDup (ids (foldl (fun l n => add n l) [] ns)) ∧
  ∀ a b c, ∃ n,
    let l := add c (remove n (add b (add a []))) in
    n ∈ add b (add a []) ∧ length l = 2 ∧ ¬ NoDup (ids l) ∧
    ∀ m, m ∈ l → remove m l = [].
Proof.
  split.
  - apply numbered_NoDup. assert (numbered []) as H by done. revert H.
    generalize (@nil Notification). induction ns as [|n ns IH]; intros l H; simpl; [done|].
    apply IH. by apply add_numbered.
  - intros a b c. eexists (MkNotification 1 _ _ _ _). simpl. split_and!.
    + left.
    + done.
    + intros H. inversion H as [|? ? Hni _]; subst. apply Hni. left.
    + intros m Hm. repeat (apply elem_of_cons in Hm as [->|Hm]; [done|]).
      by apply elem_of_nil in Hm.
Qed.

(** A success notification is titled "Success" and shown for two seconds
    whatever the caller asked for; an error keeps the caller's title. *)
Theorem success_overrides translator n :
  b_title (createNotificationSuccess translator n) = translator (js "Success") ∧
  b_timeout (createNotificationSuccess translator n) = 2000%Z ∧
  b_kind (createNotificationSuccess translator n) = js "success" ∧
  b_title (createNotificationError translator n)
    = default (translator (js "Error")) (m_title n) ∧
  b_timeout (createNotificationError translator n) = 30000%Z.
Proof. done. Qed.

(** ** Sizes *)

(** [magnitude] is [Math.floor(Math.log(bytes) / Math.log(1024))], whose
    precision the language leaves open. *)
Section Sizes.
Context (magnitude : Z → Z).

Definition sizes : list jstr := [js "Bytes"; js "KB"; js "MB"; js "GB"; js "TB"].

(** [Math.round(bytes / Math.pow(1024, i))]: a division by a power of two is
    exact. *)
Definition rounded (bytes i : Z) : Z := ((2 * bytes + 1024 ^ i) / (2 * 1024 ^ i))%Z.

Definition bytesToSize (bytes : Z) : jstr :=
  if (bytes =? 0)%Z then js "0 B"
  else
    let i := magnitude bytes in
    of_Z (rounded bytes i) ++ js " " ++ default (js "undefined") (sizes !! Z.to_nat i).

(** Where the magnitude is right, the number printed is at least 1 and within
    half a unit of the size; it is 1024, one of the next unit, just below that
    unit. *)
Lemma bytesToSize_rounded bytes :
  (0 < bytes)%Z → (0 <= magnitude bytes)%Z →
  (1024 ^ magnitude bytes <= bytes < 1024 ^ (magnitude bytes + 1))%Z →
  let u := (1024 ^ magnitude bytes)%Z in
  (1 <= rounded bytes (magnitude bytes) <= 1024)%Z ∧
  (2 * Z.abs (rounded bytes (magnitude bytes) * u - bytes) <= u)%Z.
Proof.
  intros Hb Hm [Hl Hu]. cbv zeta. unfold rounded. rewrite Z.pow_add_r in Hu by lia.
  set (u := (1024 ^ magnitude bytes)%Z) in *. assert (0 < u)%Z by (apply Z.pow_pos_nonneg; lia).
  pose proof (Z.div_mod (2 * bytes + u) (2 * u) ltac:(lia)) as Hd.
  pose proof (Z.mod_pos_bound (2 * bytes + u) (2 * u) ltac:(lia)) as Hr.
  change (1024 ^ 1)%Z with 1024%Z in Hu.
  set (r := ((2 * bytes + u) / (2 * u))%Z) in *. split; [split|]; nia.
Qed.
End Sizes.
