(* ===== verification/Layout.v ===== *)
(** * Layout and dialogs

    The components that pages are laid out with, as trees with holes for their
    slots: [components/layout/*.svelte], [components/modal.svelte],
    [components/ConfirmDialog.svelte], [components/headermenu.svelte],
    [components/sidenavmenu.svelte], [components/notifications.svelte] and
    [components/privacynotice.svelte].  A slot that the component tests for is
    an [option].

    The dialogs come down to the [Modal] of the component library: it is
    usable while it is open, its primary button submits unless it is disabled,
    and every way to close it (its secondary button, its cross, Escape) ends
    in its [close] event. *)

From S2P Require Import Prelude JsString Navigation Notifications View.
Open Scope js_scope.

Section Layout.
Context {E : Type}.

(** A slot inside an element that is there when the slot is filled. *)
Definition slot (filled : option (list (node E))) (tag : string) : node E :=
  match filled with Some content => El tag [] content | None => Frag [] end.

(** ** components/layout *)

Definition page_shell (title description : jstr) (narrow : bool) (breadcrumb : list (node E))
    (actions : option (list (node E))) (content : list (node E)) : node E :=
  El "div" [Flag "class:page-shell--narrow" narrow] [
    El "header" [] [
      El "div" [] [
        Frag breadcrumb;
        El "h1" [] [Text title];
        shown (truthy description) [El "p" [] [Text description]]
      ];
      slot actions "div"
    ];
    El "div" [] content
  ].

Definition section_panel (title description ariaLabel : jstr) (actions : option (list (node E)))
    (body : list (node E)) : node E :=
  El "section" (if truthy (str_or ariaLabel title) then [Attr "aria-label" (str_or ariaLabel title)] else []) [
    shown (truthy title || truthy description || match actions with Some _ => true | None => false end) [
      El "header" [] [
        El "div" [] [
          shown (truthy title) [El "h2" [] [Text title]];
          shown (truthy description) [El "p" [] [Text description]]
        ];
        slot actions "div"
      ]
    ];
    El "div" [] body
  ].

Inductive resource := Loading | Empty | Failed.

Definition resource_state (state : resource) (title message retryLabel : jstr) (onRetry : option E)
    (content : list (node E)) : node E :=
  El "div" [Flag "class:resource-state--error" (match state with Failed => true | _ => false end)] [
    match state with
    | Loading =>
        El "InlineLoading" [Attr "description" (str_or (str_or message title) (js "Loading"))] []
    | Failed =>
        Frag [
          El "InlineNotification" [
            lit "kind" "error"; Attr "title" (str_or title (js "Unable to load"));
            Attr "subtitle" message
          ] [];
          given onRetry (fun retry => [
            El "Button" [lit "kind" "tertiary"; On "click" retry] [Text retryLabel]])
        ]
    | Empty =>
        Frag [
          El "h2" [] [Text (str_or title (js "Nothing here yet"))];
          shown (truthy message) [El "p" [] [Text message]];
          Frag content
        ]
    end
  ].

Definition auth_shell (title description : jstr) (footer : option (list (node E)))
    (content : list (node E)) : node E :=
  El "main" [] [
    El "section" [] [
      El "div" [] [El "span" [] [txt "GateSentry"]];
      El "header" [] [
        El "h1" [] [Text title];
        shown (truthy description) [El "p" [] [Text description]]
      ];
      Frag content
    ];
    slot footer "footer"
  ].

(** The [DataTable] of the component library: what is inside it (a toolbar),
    and a cell for each row under each header.  Its sorting and its search
    change which rows are shown and in which order; every row counts as shown
    here. *)
Definition data_table {A : Type} (headers : list (jstr * jstr)) (rows : list A)
    (inside : list (node E)) (cell : A → jstr → list (node E)) : node E :=
  El "DataTable" [Items headers] [
    Frag inside;
    each rows (fun row => [each headers (fun header => cell row header.1)])
  ].

Lemma data_table_offers {A : Type} headers (rows : list A) inside cell e :
  offers (data_table headers rows inside cell) e ↔
  any_of (fun c => offers c e) inside ∨
  ∃ row, row ∈ rows ∧ ∃ key, key ∈ headers.*1 ∧ any_of (fun c => offers c e) (cell row key).
Proof.
  unfold data_table. cbn [offers any_of attr_offers is_open forallb]. split.
  - intros [_ [[]|[H|[(row & Hr & [(h & Hh & H)|[]])|[]]]]]; [by left|right].
    exists row. split; [done|]. exists h.1. split; [by apply list_elem_of_fmap_2|done].
  - intros [H|(row & Hr & key & (h & -> & Hh)%list_elem_of_fmap & H)]; (split; [done|]); right; [by left|].
    right. left. exists row. split; [done|]. left. by exists h.
Qed.

(** ** Dialogs *)

(** [components/modal.svelte]; nothing of it is on the page while it is
    closed. *)
Definition modal (isOpen : bool) (title label primaryButtonText secondaryButtonText : jstr)
    (primaryButtonDisabled : bool) (onSubmit onClose : E) (content : list (node E)) : node E :=
  shown isOpen [
    El "Modal" [
      Open isOpen; Attr "modalHeading" title; Attr "modalLabel" label;
      Attr "primaryButtonText" primaryButtonText; Attr "secondaryButtonText" secondaryButtonText;
      PrimaryDisabled primaryButtonDisabled; On "submit" onSubmit; On "close" onClose
    ] content
  ].

(** [components/ConfirmDialog.svelte]. *)
Definition confirm_dialog (isOpen : bool) (title label confirmText cancelText : jstr) (busy : bool)
    (onSubmit onClose : E) (content : list (node E)) : node E :=
  El "Modal" [
    Open isOpen; Attr "modalHeading" title; Attr "modalLabel" label;
    Attr "primaryButtonText" (if busy then js "Working…" else confirmText);
    PrimaryDisabled busy; Attr "secondaryButtonText" cancelText;
    On "submit" onSubmit; On "close" onClose
  ] content.

Lemma confirm_dialog_offers isOpen title label confirmText cancelText busy onSubmit onClose slot e :
  offers (confirm_dialog isOpen title label confirmText cancelText busy onSubmit onClose slot) e ↔
  isOpen = true ∧ ((busy = false ∧ e = onSubmit) ∨ e = onClose ∨ any_of (fun c => offers c e) slot).
Proof.
  unfold confirm_dialog. view_simpl. destruct isOpen, busy; simpl; naive_solver.
Qed.

Lemma modal_offers isOpen title label p1 p2 disabled onSubmit onClose slot e :
  offers (modal isOpen title label p1 p2 disabled onSubmit onClose slot) e ↔
  isOpen = true ∧ ((disabled = false ∧ e = onSubmit) ∨ e = onClose ∨ any_of (fun c => offers c e) slot).
Proof.
  unfold modal. view_simpl. destruct isOpen, disabled; simpl; naive_solver.
Qed.

(** What the layouts offer is what is in their slots. *)
Definition slot_offers (filled : option (list (node E))) (e : E) : Prop :=
  match filled with Some content => any_of (fun c => offers c e) content | None => False end.

Lemma offers_slot filled tag e : offers (slot filled tag) e ↔ slot_offers filled e.
Proof. destruct filled; cbn; tauto. Qed.

Lemma page_shell_offers title description narrow breadcrumb actions content e :
  offers (page_shell title description narrow breadcrumb actions content) e ↔
  any_of (fun c => offers c e) breadcrumb ∨ slot_offers actions e ∨ any_of (fun c => offers c e) content.
Proof. unfold page_shell. view_simpl. rewrite offers_slot. tauto. Qed.

Lemma section_panel_offers title description ariaLabel actions body e :
  offers (section_panel title description ariaLabel actions body) e ↔
  slot_offers actions e ∨ any_of (fun c => offers c e) body.
Proof.
  unfold section_panel. destruct (truthy (str_or ariaLabel title)); view_simpl; rewrite offers_slot;
    destruct actions; cbn [slot_offers]; rewrite ?orb_true_r; intuition congruence.
Qed.

Lemma resource_state_offers state title message retryLabel onRetry content e :
  offers (resource_state state title message retryLabel onRetry content) e ↔
  match state with
  | Loading => False
  | Failed => onRetry = Some e
  | Empty => any_of (fun c => offers c e) content
  end.
Proof. unfold resource_state. destruct state; view_simpl; naive_solver. Qed.

Lemma auth_shell_offers title description footer content e :
  offers (auth_shell title description footer content) e ↔
  slot_offers footer e ∨ any_of (fun c => offers c e) content.
Proof. unfold auth_shell. view_simpl. rewrite offers_slot. tauto. Qed.

(** ** Menus *)

(** [$location?.pathname ? currentRoute($location.pathname) : pathname], with
    the router's location. *)
Definition activePath (injected location : option jstr) (pathname : jstr) : jstr :=
  let path := default [] location in
  if truthy path then currentRoute injected path else pathname.

Definition linkHref (item : MenuItem) : jstr :=
  match item with Link l => href l | Menu _ _ => slash end.

Section Menus.
Context (injected : option jstr) (navigate : jstr → E) (active : jstr).

Definition menu_child (tag : string) (child : MenuLink) : node E :=
  El tag [
    Attr "text" (link_text child); Attr "href" (routeHref injected (href child));
    Flag "isSelected" (isRouteActive (href child) active); On "click" (navigate (href child))
  ] [].

(** [components/headermenu.svelte]. *)
Definition headermenu_item (item : MenuItem) : node E :=
  match item with
  | Link l =>
      El "HeaderNavItem" [
        Attr "text" (link_text l); Attr "href" (routeHref injected (href l));
        Flag "isSelected" (isRouteActive (href l) active); On "click" (navigate (linkHref item))
      ] []
  | Menu text children =>
      El "HeaderNavMenu" [
        Attr "text" text; Attr "href" (routeHref injected (default [] (href <$> head children)));
        Flag "expanded" (isMenuActive item active)
      ] [each children (fun child => [menu_child "HeaderNavItem" child])]
  end.

Definition headermenu_view : node E :=
  El "HeaderNav" [lit "aria-label" "Primary navigation"] [
    each menuItems (fun item => [headermenu_item item])
  ].

(** [components/sidenavmenu.svelte]. *)
Definition sidenavmenu_item (item : MenuItem) : node E :=
  match item with
  | Link l =>
      El "SideNavLink" [
        Attr "text" (link_text l); Attr "href" (routeHref injected (href l));
        Flag "isSelected" (isRouteActive (href l) active); On "click" (navigate (linkHref item))
      ] []
  | Menu text children =>
      El "SideNavMenu" [Attr "text" text; Flag "expanded" (isMenuActive item active)]
        [each children (fun child => [menu_child "SideNavMenuItem" child])]
  end.

Definition sidenavmenu_view : node E :=
  El "SideNavItems" [] [
    each menuItems (fun item => [sidenavmenu_item item]);
    El "SideNavDivider" [] []
  ].
End Menus.

(** [components/notifications.svelte]. *)
Definition notifications_view (close : Notification → E) (store : list Notification) : node E :=
  El "div" [lit "aria-label" "Notifications"] [
    each store (fun notification => [
      El "ToastNotification" [
        Attr "kind" (n_kind notification); Attr "title" (n_title notification);
        Attr "subtitle" (n_subtitle notification); Attr "timeout" (of_Z (n_timeout notification));
        On "close" (close notification)
      ] []])
  ].
End Layout.

(** ** The menus lead to the pages *)

Section MenuOffers.
Context {E : Type} (injected : option jstr) (navigate : jstr → E) (active : jstr).

Lemma links_of_menu l :
  l ∈ links ↔ ∃ item, item ∈ menuItems ∧
    match item with Link l' => l = l' | Menu _ children => l ∈ children end.
Proof.
  unfold links. rewrite list_elem_of_In, in_concat. setoid_rewrite <-list_elem_of_In.
  setoid_rewrite list_elem_of_fmap. split.
  - intros (ls & (item & -> & Hi) & Hl). exists item. split; [done|].
    destruct item; [by apply list_elem_of_singleton in Hl|done].
  - intros (item & Hi & Hl). eexists. split; [exists item; split; [reflexivity|done]|].
    destruct item; [by subst; apply list_elem_of_singleton|done].
Qed.

Lemma menu_entries (f : MenuItem → node E) e :
  (∀ item, offers (f item) e ↔
    match item with
    | Link l => e = navigate (href l)
    | Menu _ children => ∃ l, l ∈ children ∧ e = navigate (href l)
    end) →
  (∃ item, item ∈ menuItems ∧ (offers (f item) e ∨ False)) ↔ ∃ l, l ∈ links ∧ e = navigate (href l).
Proof.
  intros Hf. setoid_rewrite Hf. setoid_rewrite links_of_menu. split.
  - intros ([l|text children] & Hi & [H|[]]).
    + exists l. split; [by exists (Link l)|done].
    + destruct H as (l & Hl & ->). exists l. split; [by exists (Menu text children)|done].
  - intros (l & ([l'|text children] & Hi & Hl) & ->).
    + subst. exists (Link l'). split; [done|by left].
    + exists (Menu text children). split; [done|left; by exists l].
Qed.

Lemma menu_child_offers tag l e : offers (menu_child injected navigate active tag l) e ↔ e = navigate (href l).
Proof. unfold menu_child. view_simpl. tauto. Qed.

(** Both menus lead to the same places: the links of the table, each by a
    click on its entry, and nowhere else. *)
Theorem menus_offer_links (e : E) :
  (offers (headermenu_view injected navigate active) e ↔ ∃ l, l ∈ links ∧ e = navigate (href l)) ∧
  (offers (sidenavmenu_view injected navigate active) e ↔ ∃ l, l ∈ links ∧ e = navigate (href l)).
Proof.
  split; [rewrite <-(menu_entries (headermenu_item injected navigate active))
         |rewrite <-(menu_entries (sidenavmenu_item injected navigate active))].
  - unfold headermenu_view. cbn [offers any_of attr_offers is_open forallb lit]. tauto.
  - intros [l|text children]; unfold headermenu_item; view_simpl; [tauto|].
    setoid_rewrite menu_child_offers. naive_solver.
  - unfold sidenavmenu_view. cbn [offers any_of attr_offers is_open forallb lit]. tauto.
  - intros [l|text children]; unfold sidenavmenu_item; view_simpl; [tauto|].
    setoid_rewrite menu_child_offers. naive_solver.
Qed.
End MenuOffers.
