(* ===== verification/PlainPages.v ===== *)
(** * Pages without state

    [routes/devices/devices.svelte], [routes/rules/rules.svelte],
    [routes/services/services.svelte] and [routes/notfound/notfound.svelte]: a
    heading around one component, which is a leaf here. *)

From S2P Require Import Prelude JsString View Layout.
Open Scope js_scope.

Inductive plain_event := Go (path : jstr).

Definition breadcrumb (here : string) : list (node plain_event) := [
  El "Breadcrumb" [] [
    El "BreadcrumbItem" [lit "href" "/"] [txt "Dashboard"]; El "BreadcrumbItem" [] [txt here]
  ]
].

Definition devices_page : node plain_event :=
  page_shell (js "Network devices")
    (js "Review devices GateSentry has observed, assign protection, and manage explicit identity links.")
    false (breadcrumb "Devices") None [El "DeviceList" [] []].

Definition rules_page : node plain_event :=
  page_shell (js "Policies")
    (js "Choose protection for each device, test a decision, or adjust the gateway-wide baseline.")
    false (breadcrumb "Policies") None [El "Policygroups" [] []].

Definition services_page : node plain_event :=
  page_shell (js "Services") (js "Control the gateway services running on this installation.")
    false (breadcrumb "Services") None [
    section_panel (js "DNS server")
      (js "Devices configured to use GateSentry DNS depend on this service for domain filtering.") [] None [
      El "ToggleComponent" [
        lit "settingName" "enable_dns_server"; lit "label" "DNS Server"; lit "labelA" "Not running";
        lit "labelB" "Running"
      ] []
    ]
  ].

Definition notfound_page : node plain_event :=
  page_shell (js "Page not found") (js "The requested GateSentry administration page does not exist.") true [] None [
    resource_state Empty (js "We could not find that page")
      (js "Return to the overview or choose another destination from the navigation.") (js "Retry") None [
      El "Button" [On "click" (Go (js "/"))] [txt "Return to overview"]
    ]
  ].

(** These pages have nothing to do by themselves; the one for an unknown path
    leads back to the overview. *)
Theorem plain_pages_offer e :
  ¬ offers devices_page e ∧ ¬ offers rules_page e ∧ ¬ offers services_page e ∧
  (offers notfound_page e ↔ e = Go (js "/")).
Proof.
  unfold devices_page, rules_page, services_page, notfound_page, breadcrumb.
  rewrite !page_shell_offers. cbn [slot_offers any_of]. rewrite section_panel_offers, resource_state_offers.
  cbn [slot_offers]. view_simpl. tauto.
Qed.
