(* ===== verification/Certificates.v ===== *)
(** * Certificates

    [components/connectedCertificateBasic.svelte], one PEM text stored as a
    setting; [components/connectedCertificateComposed.svelte], the summary and
    the two fields of the certificate and its key; and
    [components/downloadCertificateLink.svelte].

    [value] is the component's variable and [text] what the text area holds:
    typing changes the text alone, and an assignment to [value] reaches the
    text area when the value is another one. *)

From S2P Require Import Prelude JsString JsAsync Http Api Busy Navigation Notifications View.
Open Scope js_scope.

(** [b_Value] is the [Value] of a setting, [b_name] and [b_expiry] the summary
    of [/certificate/info]. *)
Record CertificateBody := MkCertificateBody {
  b_Value : option jstr;
  b_name : option jstr;
  b_expiry : option jstr
}.

Inductive CertificatePayload := SendPem (key value : jstr).

Record Field := MkField {
  sess : Session;
  shown_notifications : list Notification;
  settingName : option jstr;
  label : jstr;
  value : option jstr;
  text : jstr
}.
#[export] Instance Field_eta : Settable Field := fun s =>
  MkField (sess s) (shown_notifications s) (settingName s) (label s) (value s) (text s).
#[export] Instance Field_session : HasSession Field :=
  {| session := sess; on_session f s := s <| sess ::= f |>; session_on_session f s := eq_refl;
     on_session_twice f g s := eq_refl; on_session_const f s := eq_refl |}.
#[export] Instance Field_notifications : HasNotifications Field :=
  {| Notifications.shown := shown_notifications; on_shown f s := s <| shown_notifications ::= f |>;
     shown_on_shown f s := eq_refl |}.

Inductive field_event :=
| Type_ (text : jstr)
| Blur.

Section Basic.
Context (translator : jstr → jstr).
#[local] Abbreviation handler := (prog Field (io_res (P := CertificatePayload) CertificateBody)).

Definition field (a : Session) (l : list Notification) (settingName : option jstr) (label : jstr) : Field :=
  MkField a l settingName label (Some []) [].

(** [value = v] and the update of the text area. *)
Definition assign_value (v : option jstr) (s : Field) : Field :=
  if bool_decide (value s = v) then s else s <| value := v |> <| text := default [] v |>.

(** What the URL says for a missing name. *)
Definition url_name (s : Field) : jstr := default (js "undefined") (settingName s).

Definition loadAPIData : handler unit :=
  s ← get;
  match settingName s with
  | None => Ret ()
  | Some name =>
      json ← getSetting name;
      body ← deref json;
      modify (assign_value (b_Value body))
  end.

(** The reload is not awaited; it is the last thing the handler starts. *)
Definition onBlur : handler unit :=
  s ← get;
  response ← setSetting (url_name s) (SendPem (url_name s) (text s));
  (if negb response then
     notify (createNotificationError translator (subtitle_only (translator (js "Unable to save certificate data"))))
   else
     notify (createNotificationSuccess translator (subtitle_only (translator (js "Certificate data saved"))))) ;;
  loadAPIData.

Definition field_view (s : Field) : node field_event :=
  El "div" [] [
    El "FormLabel" [Attr "for" (js "certificate-" ++ url_name s)] [Text (label s)];
    El "TextArea" [
      Attr "id" (js "certificate-" ++ url_name s); Attr "value" (text s);
      OnAny "input" Type_; On "blur" Blur
    ] []
  ].

Definition field_handler (e : field_event) : handler unit :=
  match e with
  | Type_ t => text <~ t
  | Blur => onBlur
  end.

Definition field_loop (a : Session) (l : list Notification) (name : option jstr) (lbl : jstr) :=
  loop_from (fun e s => offers (field_view s) e) field_handler loadAPIData (field a l name lbl).
End Basic.

(** ** The summary and its fields *)

Record Certificate := MkCertificate {
  c_session : Session;
  info : option CertificateBody;
  loading : bool;
  loadError : jstr;
  editMode : bool
}.
#[export] Instance Certificate_eta : Settable Certificate := fun s =>
  MkCertificate (c_session s) (info s) (loading s) (loadError s) (editMode s).
#[export] Instance Certificate_session : HasSession Certificate :=
  {| session := c_session; on_session f s := s <| c_session ::= f |>; session_on_session f s := eq_refl;
     on_session_twice f g s := eq_refl; on_session_const f s := eq_refl |}.

Inductive certificate_event :=
| ToggleEdit
| CapemEvent (e : field_event)
| KeypemEvent (e : field_event).

Section Composed.
Context (translator : jstr → jstr) (injected : option jstr).
#[local] Abbreviation tr s := (translator (js s)).

Definition certificate (a : Session) : Certificate := MkCertificate a None true [] false.

Definition onMount : prog Certificate (io_res (P := CertificatePayload) CertificateBody) unit :=
  finally
    (try_catch
       (json ← doCall (js "/certificate/info") (js "get") None ∅;
        info <~ json)
       (fun error => loadError <~ message_or error (js "Certificate details failed")))
    (loading <~ false).

Definition toggleEdit (s : Certificate) : Certificate := s <| editMode ::= negb |>.

(** [downloadCertificateLink.svelte]. *)
Definition link : jstr := getBasePath injected ++ js "/api/files/certificate".

Definition download_view (kind size : jstr) : node certificate_event :=
  El "Button" [Attr "href" link; Attr "kind" kind; Attr "size" size; Flag "download" true]
    [Text (tr "Download certificate")].

Definition summary_view (s : Certificate) : node certificate_event :=
  alt (loading s) [
    El "InlineLoading" [Attr "description" (tr "Loading certificate details…")] []
  ] [
    alt (truthy (loadError s)) [
      El "InlineNotification" [
        lit "kind" "error"; Attr "title" (tr "Certificate unavailable"); Attr "subtitle" (loadError s)
      ] []
    ] [
      given (info s) (fun info => [
        El "dl" [] [
          El "div" [] [
            El "dt" [] [Text (tr "Issuer name")];
            El "dd" [] [Text (opt_or (b_name info) (tr "Unknown"))]
          ];
          El "div" [] [
            El "dt" [] [Text (tr "Expiry")];
            El "dd" [] [Text (opt_or (b_expiry info) (tr "Unknown"))]
          ]
        ]])
    ]
  ].

(** [capem] and [keypem] are the two fields, which exist while they are
    edited. *)
Definition certificate_view (s : Certificate) (capem keypem : Field) : list (node certificate_event) := [
  El "div" [] [
    El "div" [] [
      El "h3" [] [Text (tr "Inspection certificate")];
      El "p" [] [Text (tr "Install this certificate only on devices that you intend GateSentry to inspect.")]
    ];
    El "Button" [lit "kind" (if editMode s then "secondary" else "tertiary"); On "click" ToggleEdit]
      [Text (if editMode s then tr "Hide advanced settings" else tr "Edit certificate")]
  ];
  summary_view s;
  El "div" [] [download_view (js "tertiary") (js "small")];
  shown (editMode s) [
    El "InlineNotification" [
      lit "kind" "warning"; Attr "title" (tr "Advanced certificate settings");
      Attr "subtitle" (tr "Replacing certificate material can interrupt HTTPS inspection. Keep the private key secret and update the certificate and key as a matched pair.")
    ] [];
    El "div" [] [
      El "section" [] [
        El "h4" [] [Text (tr "Certificate (PEM)")];
        El "p" [] [Text (tr "Public certificate installed on protected devices. It may be downloaded and shared with those devices.")];
        embed CapemEvent (field_view capem)
      ];
      El "section" [] [
        El "h4" [] [Text (tr "Private key (PEM)")];
        El "p" [] [Text (tr "Sensitive signing key stored by GateSentry. Never install or share this value with client devices.")];
        embed KeypemEvent (field_view keypem)
      ]
    ]
  ]
].
End Composed.

(** ** What the handlers do *)

Ltac field_norm st :=
  eval cbv beta iota zeta delta [update_field sess shown_notifications settingName label value text
    session on_session Field_session Notifications.shown on_shown Field_notifications] in st.
Ltac field_simpl := match goal with |- ?G => let G' := field_norm G in change G' end.
Ltac field_run :=
  unfold getSetting, setSetting, notify; repeat (progress run_with field_norm || rewrite run_call); field_simpl.

Section Handlers.
Context (translator : jstr → jstr).
Context (reply : list (request CertificatePayload) → ∀ q : io_req CertificatePayload, io_res CertificateBody q).

Definition save_request (s : Field) (name : jstr) : request CertificatePayload :=
  session_request (sess s) (js "/settings/" ++ name) (js "post") (Some (SendPem name (text s))) ∅.
Definition load_request (a : Session) (name : jstr) : request CertificatePayload :=
  session_request a (js "/settings/" ++ name) (js "get") None ∅.

(** Leaving the text area sends its text, changed or not, and then reads the
    setting again.  A refused save ends the handler: the field keeps the text,
    nothing is read and, although the code has a notification for it, nothing
    is shown. *)
Theorem onBlur_spec s name log :
  settingName s = Some name →
  let '(r, s', log') := run (history reply) (onBlur translator) s log in
  let q := save_request s name in
  let q2 := load_request (session_after (reply log (Fetch q)) (sess s)) name in
  match call_result (reply log (Fetch q)) with
  | inl e => r = inl e ∧ log' = log ++ [q] ∧ text s' = text s ∧ value s' = value s ∧
      shown_notifications s' = shown_notifications s
  | inr _ =>
      log' = log ++ [q; q2] ∧
      shown_notifications s' = add (createNotificationSuccess translator
        (subtitle_only (translator (js "Certificate data saved")))) (shown_notifications s) ∧
      match call_result (reply (log ++ [q]) (Fetch q2)) with
      | inr (Some body) => r = inr () ∧ value s' = b_Value body ∧
          text s' = if bool_decide (value s = b_Value body) then text s else default [] (b_Value body)
      | inr None => r = inl TypeError ∧ text s' = text s ∧ value s' = value s
      | inl e => r = inl e ∧ text s' = text s ∧ value s' = value s
      end
  end.
Proof.
  intros Hn. destruct s as [a l n lb v t]. simpl in Hn. subst n.
  unfold onBlur, loadAPIData, save_request, load_request, url_name. cbn [from_option id settingName]. field_run. cbn [from_option id].
  destruct (call_result _) as [e|b]; field_run; [by split_and!|]. cbn [run negb]. field_run.
  rewrite <-app_assoc. cbn [app].
  destruct (call_result _) as [e|[b2|]]; field_run; try by split_and!.
  unfold assign_value. field_simpl. case_bool_decide; by split_and!.
Qed.
End Handlers.

(** ** Leaving a field before it is filled *)

(** A field can be left before its setting has been read: what is sent then is
    the empty text, whatever certificate or key the server holds. *)
Theorem early_blur_erases translator a l name lbl :
  ∃ s read save,
    field_loop translator a l (Some name) lbl (s, [read; save]) ∧
    th_request read = Fetch (load_request a name) ∧
    th_request save = Fetch (session_request a (js "/settings/" ++ name) (js "post") (Some (SendPem name [])) ∅).
Proof.
  set (s0 := (advance loadAPIData (field a l (Some name) lbl)).1).
  assert (∃ t, advance loadAPIData (field a l (Some name) lbl) = (s0, Some t) ∧
    th_request t = Fetch (load_request a name)) as (t1 & H1 & Hq1) by (eexists; split; reflexivity).
  assert (∃ s1 t, advance (onBlur translator) s0 = (s1, Some t) ∧
    th_request t = Fetch (session_request a (js "/settings/" ++ name) (js "post") (Some (SendPem name [])) ∅))
    as (s1 & t2 & H2 & Hq2).
  { do 2 eexists. split; [reflexivity|]. cbn [th_request]. do 2 f_equal.
    unfold s0. simpl. unfold session_request, jwt_of. simpl. by rewrite insert_insert_eq. }
  exists s1, t1, t2. split; [|done].
  unfold field_loop, loop_from. rewrite H1. cbn [fst snd option_list].
  eapply rtc_l; [|apply rtc_refl]. apply (step_event _ _ Blur s0 s1 [t1] (Some t2)); [|done].
  unfold field_view. view_simpl. tauto.
Qed.

(** ** The composed component *)

(** The fields can be edited exactly while the advanced settings are shown,
    whether or not the summary could be read. *)
Theorem certificate_offers translator injected s capem keypem e :
  any_of (fun n => offers n e) (certificate_view translator injected s capem keypem) ↔
  match e with ToggleEdit => True | CapemEvent _ | KeypemEvent _ => editMode s = true end.
Proof.
  assert (∀ f e', offers (field_view f) e') as Hf.
  { intros f []; unfold field_view; view_simpl.
    - split; [done|]. do 2 right. left. split; [done|]. left. left. split; [done|]. by eexists.
    - tauto. }
  unfold certificate_view, summary_view, download_view. view_simpl. rewrite !offers_embed.
  split.
  - intros H. view_destruct; subst; done.
  - destruct e; intros He; [tauto| |]; do 3 right; left; (split; [done|]); right; left; (split; [done|]); right.
    + left. split; [done|]. right. do 2 right. left. by eexists.
    + right. left. split; [done|]. right. do 2 right. left. by eexists.
Qed.
