(* ===== verification/Clipboard.v ===== *)
(** * The clipboard

    [lib/clipboard.ts].  The browser answers whether the page is a secure
    context, whether there is a clipboard API and how a write to it ends, and
    how [document.execCommand] ends; the document's body is the list of its
    children. *)

From S2P Require Import Prelude JsString JsAsync.

Record Browser := MkBrowser {
  isSecureContext : bool;
  (* [None]: there is no [navigator.clipboard.writeText] *)
  writeText : option (jstr → result unit);
  (* [document.execCommand("copy")] with the given text selected *)
  execCommand : jstr → result bool
}.

(** An element of the body: a text area with its value, or anything else. *)
Inductive element := TextArea (value : jstr) | Other (name : jstr).

#[export] Instance element_eq_dec : EqDecision element.
Proof. solve_decision. Defined.

(** [document.body.removeChild(ta)] for the last [ta] appended. *)
Definition removeLast (body : list element) : list element := take (length body - 1) body.

Definition fallbackCopy (browser : Browser) (text : jstr) (body : list element)
    : bool * list element :=
  let body := body ++ [TextArea text] in
  let ok := match execCommand browser text with inr ok => ok | inl _ => false end in
  (ok, removeLast body).

Definition copyToClipboard (browser : Browser) (text : option jstr) (body : list element)
    : bool * list element :=
  let value := default [] text in
  if negb (truthy value) then (false, body) else
  match (if isSecureContext browser then writeText browser else None) with
  | Some write =>
      match write value with
      | inr _ => (true, body)
      | inl _ => fallbackCopy browser value body
      end
  | None => fallbackCopy browser value body
  end.

Lemma exec_true (r : result bool) :
  match r with inr ok => ok | inl _ => false end = true ↔ r = inr true.
Proof. destruct r as [?|[]]; split; congruence. Qed.

(** Copying reports success exactly when one of the two ways worked, tries the
    second whenever the first is missing or refused, and leaves no element
    behind in the document. *)
Theorem copyToClipboard_spec browser text body :
  let value := default [] text in
  let '(copied, body') := copyToClipboard browser text body in
  body' = body ∧
  (copied = true ↔
     value ≠ [] ∧
     ((isSecureContext browser = true ∧ ∃ w, writeText browser = Some w ∧ w value = inr ()) ∨
      ((isSecureContext browser = false ∨ writeText browser = None ∨
        ∃ w e, writeText browser = Some w ∧ w value = inl e) ∧
       execCommand browser value = inr true))).
Proof.
  assert (∀ v b, fallbackCopy browser v b =
    (match execCommand browser v with inr ok => ok | inl _ => false end, b)) as Hfb.
  { intros v b. unfold fallbackCopy, removeLast. f_equal.
    rewrite length_app, Nat.add_sub. by rewrite take_app_length. }
  unfold copyToClipboard. simpl. set (v := default [] text).
  destruct (truthy v) eqn:Hv; simpl.
  - apply truthy_true in Hv. rewrite Hfb.
    destruct (isSecureContext browser) eqn:Hs; [destruct (writeText browser) as [w|] eqn:Hw|];
      [destruct (w v) as [e|[]] eqn:Hwv| |]; (split; [done|]).
    + rewrite exec_true.
      split; [intros Hx; split; [done|right; eauto 10]|].
      intros [_ [(_ & w' & [= <-] & ?)|[_ ?]]]; congruence.
    + split; [intros _; split; eauto|done].
    + rewrite exec_true.
      split; [intros Hx; split; [done|right; eauto 10]|].
      intros [_ [(_ & w' & ? & _)|[_ ?]]]; congruence.
    + rewrite exec_true.
      split; [intros Hx; split; [done|right; eauto 10]|].
      intros [_ [(? & _)|[_ ?]]]; congruence.
  - apply truthy_false in Hv. rewrite Hv. split; [done|]. split; [done|tauto].
Qed.
