(* ===== verification/CheckScript.v ===== *)
(** * The svelte-check gate

    [scripts/check.mjs]: runs svelte-check, refuses machine output it does not
    understand, and compares the diagnostics with a recorded baseline.  The
    result of [spawnSync], the command line and the baseline file are inputs;
    an exception that reaches the top level ends the process with status 1. *)

From S2P Require Import Prelude JsString.
From stdpp Require Import sorting.

Definition newline : N := 10.
Definition nl : jstr := [newline].

Record SpawnResult := MkSpawn {
  spawn_error : bool;
  spawn_stderr : jstr;
  spawn_stdout : jstr;
  spawn_status : Z
}.

Record Exit := MkExit {
  exit_code : Z;
  written_baseline : option jstr;
  to_stdout : list jstr;
  to_stderr : list jstr
}.

(** ** Lines *)

Fixpoint skip_digits (s : jstr) : jstr :=
  match s with
  | [] => []
  | c :: s' => if is_digit c then skip_digits s' else s
  end.

(** [line.replace(/^[0-9]+ /, "")]. *)
Definition strip_number (line : jstr) : jstr :=
  match line with
  | c :: _ =>
      if is_digit c then
        match skip_digits line with
        | d :: rest => if (d =? 32)%N then rest else line
        | [] => line
        end
      else line
  | [] => line
  end.

Definition normalizedLines (output : jstr) : list jstr :=
  strip_number <$> List.filter truthy (splitOn (fun c => (c =? newline)%N) output).

(** The order of [Array.prototype.sort] on strings: by code units. *)
Fixpoint unit_le (s t : jstr) : bool :=
  match s, t with
  | [], _ => true
  | _ :: _, [] => false
  | c :: s', d :: t' => (c <? d)%N || ((c =? d)%N && unit_le s' t')
  end.

Definition unit_ord (s t : jstr) : Prop := unit_le s t = true.

#[export] Instance unit_ord_dec s t : Decision (unit_ord s t).
Proof. unfold unit_ord. apply _. Defined.

Definition sort_strings (l : list jstr) : list jstr := merge_sort unit_ord l.

(** [/^(?:ERROR|WARNING) /.test(line)]. *)
Definition is_diagnostic (line : jstr) : bool :=
  startsWith (js "ERROR ") line || startsWith (js "WARNING ") line.

Definition diagnostics (lines : list jstr) : list jstr :=
  sort_strings (List.filter is_diagnostic lines).

Definition summaries (lines : list jstr) : list jstr :=
  List.filter (startsWith (js "COMPLETED ")) lines.

Definition is_unexpected (line : jstr) : bool :=
  negb (startsWith (js "START ") line) && negb (startsWith (js "ERROR ") line)
  && negb (startsWith (js "WARNING ") line) && negb (startsWith (js "COMPLETED ") line).

(** ** The summary line *)

(** A run of digits, its value, and what follows it. *)
Fixpoint digits_value (acc : Z) (s : jstr) : Z * jstr :=
  match s with
  | c :: s' =>
      if is_digit c then digits_value (acc * 10 + Z.of_N (c - 48)) s' else (acc, s)
  | [] => (acc, [])
  end.

(** [(\d+)] followed by the literal [lit]. *)
Definition number_then (lit s : jstr) : option (Z * jstr) :=
  match s with
  | c :: _ =>
      if is_digit c then
        let '(n, rest) := digits_value 0 s in
        if startsWith lit rest then Some (n, drop (length lit) rest) else None
      else None
  | [] => None
  end.

(** The error and warning counts of a line of the form
    [/^COMPLETED (\d+) FILES (\d+) ERRORS (\d+) WARNINGS (\d+) FILES_WITH_PROBLEMS$/]. *)
Definition match_summary (summary : jstr) : option (Z * Z) :=
  if negb (startsWith (js "COMPLETED ") summary) then None else
  '(_, r1) ← number_then (js " FILES ") (drop 10 summary);
  '(errors, r2) ← number_then (js " ERRORS ") r1;
  '(warnings, r3) ← number_then (js " WARNINGS ") r2;
  '(_, r4) ← number_then (js " FILES_WITH_PROBLEMS") r3;
  if is_nil r4 then Some (errors, warnings) else None.

(** ** The script *)

Definition fail (messages : list jstr) (out : list jstr) : Exit := MkExit 1 None out messages.

Definition error_count (lines : list jstr) : Z :=
  Z.of_nat (length (List.filter (startsWith (js "ERROR ")) lines)).

Definition check (result : SpawnResult) (update_baseline : bool) (baseline : option jstr) : Exit :=
  if spawn_error result then fail [] [] else
  let err := spawn_stderr result in
  let output := spawn_stdout result in
  let lines := normalizedLines output in
  let diags := diagnostics lines in
  match summaries lines with
  | [summary] =>
      if negb (is_nil (List.filter is_unexpected lines)) then
        fail [err; js "svelte-check returned incomplete or unrecognized machine output"] [output]
      else
      match match_summary summary with
      | None =>
          fail [err; js "svelte-check returned an unrecognized completion summary"] [output]
      | Some (errorCount, warningCount) =>
          let expectedStatus := if (errorCount =? 0)%Z then 0%Z else 1%Z in
          if negb (spawn_status result =? expectedStatus)%Z then
            fail [err; js "svelte-check exited " ++ of_Z (spawn_status result) ++
                  js "; expected " ++ of_Z expectedStatus ++
                  js " for its reported diagnostics"] [output]
          else if negb (error_count diags =? errorCount)%Z then
            fail [err; js "svelte-check summary does not match its emitted diagnostics"] [output]
          else
          let normalized := joinStr nl (diags ++ [summary]) in
          if update_baseline then
            MkExit 0 (Some (normalized ++ nl)) [] [err]
          else
          match baseline with
          | None => fail [err] []
          | Some content =>
              if negb (bool_decide (normalized = trim content)) then
                fail [err; js "svelte-check diagnostics differ from ui/svelte-check.baseline";
                      js "Run 'yarn check --update-baseline' only when the diagnostic change is intentional and reviewed."]
                  [output]
              else
                MkExit 0 None
                  [js "svelte-check baseline matched (" ++ of_Z errorCount ++
                   js " known errors, " ++ of_Z warningCount ++
                   js " known warnings); no diagnostic changes"] [err]
          end
      end
  | _ =>
      fail [err; js "svelte-check returned incomplete or unrecognized machine output"] [output]
  end.

(** ** Sorting *)

#[export] Instance unit_ord_total : Total unit_ord.
Proof.
  intros s. unfold unit_ord. induction s as [|c s IH]; intros [|d t]; simpl; auto.
  destruct (N.lt_trichotomy c d) as [H|[->|H]]; [left; lia| |right; lia].
  destruct (IH t) as [-> | ->]; [left|right]; rewrite N.eqb_refl; apply orb_true_r.
Qed.

#[export] Instance unit_ord_trans : Transitive unit_ord.
Proof.
  unfold unit_ord. intros s. induction s as [|c s IH]; intros [|d t] [|e u]; simpl; try done.
  intros H1 H2.
  assert (c < d ∨ c = d ∧ unit_le s t = true)%N as [?|[-> ?]] by lia;
    assert (d < e ∨ d = e ∧ unit_le t u = true)%N as [?|[-> ?]] by lia; try lia.
  rewrite (IH t u) by done. lia.
Qed.

#[export] Instance unit_ord_antisymm : AntiSymm eq unit_ord.
Proof.
  unfold unit_ord. intros s. induction s as [|c s IH]; intros [|d t]; simpl; try done.
  intros H1 H2. assert (c = d) as -> by lia. f_equal. apply IH; lia.
Qed.

Lemma sort_strings_Permutation l : sort_strings l ≡ₚ l.
Proof. apply merge_sort_Permutation. Qed.

Lemma sort_strings_eq l l' : l ≡ₚ l' → sort_strings l = sort_strings l'.
Proof.
  intros H. apply (StronglySorted_unique unit_ord).
  - apply (StronglySorted_merge_sort unit_ord).
  - apply (StronglySorted_merge_sort unit_ord).
  - by rewrite !sort_strings_Permutation.
Qed.

(** ** Shape of the lines *)

Lemma skip_digits_suffix s : ∃ p, s = p ++ skip_digits s.
Proof.
  induction s as [|c s [p Hp]]; [by exists []|]. simpl.
  destruct (is_digit c); [exists (c :: p); simpl; congruence|by exists []].
Qed.

Lemma strip_number_suffix s : ∃ p, s = p ++ strip_number s.
Proof.
  unfold strip_number. destruct s as [|c s]; [by exists []|].
  destruct (is_digit c) eqn:Hc; [|by exists []].
  destruct (skip_digits_suffix (c :: s)) as [p Hp].
  destruct (skip_digits (c :: s)) as [|d rest]; [by exists []|].
  destruct (d =? 32)%N; [|by exists []].
  exists (p ++ [d]). by rewrite <-app_assoc.
Qed.

Definition no_newline (s : jstr) : Prop := Forall (fun c => (c =? newline)%N = false) s.

Lemma normalizedLines_no_newline output : Forall no_newline (normalizedLines output).
Proof.
  unfold normalizedLines. rewrite Forall_fmap. apply Forall_forall.
  intros s [Hs _]%elem_of_filter_b. simpl.
  assert (no_newline s) as Hn.
  { apply Forall_forall. intros c Hc. by apply (splitOn_no_sep _ _ _ _ Hs Hc). }
  destruct (strip_number_suffix s) as [p Hp]. unfold no_newline in *. rewrite Hp in Hn.
  by apply Forall_app in Hn as [_ ?].
Qed.

Lemma digits_value_suffix acc s n rest :
  digits_value acc s = (n, rest) → ∃ p, s = p ++ rest.
Proof.
  revert acc. induction s as [|c s IH]; intros acc H; simpl in H; simplify_eq; [by exists []|].
  destruct (is_digit c); simplify_eq; [|by exists []].
  destruct (IH _ H) as [p ->]. by exists (c :: p).
Qed.

Lemma number_then_suffix lit s n rest :
  number_then lit s = Some (n, rest) → ∃ p, s = p ++ lit ++ rest.
Proof.
  unfold number_then. destruct s as [|c s]; [done|]. destruct (is_digit c); [|done].
  destruct (digits_value 0 (c :: s)) as [m r] eqn:E.
  destruct (startsWith lit r) eqn:Hl; [|done]. intros ?; simplify_eq.
  apply digits_value_suffix in E as [p ->]. apply startsWith_spec in Hl as [t ->].
  exists p. by rewrite drop_app_length.
Qed.

Lemma match_summary_shape s e w :
  match_summary s = Some (e, w) → ∃ p, s = js "COMPLETED " ++ p ++ js " FILES_WITH_PROBLEMS".
Proof.
  unfold match_summary. destruct (startsWith (js "COMPLETED ") s) eqn:Hs; [|done].
  apply startsWith_spec in Hs as [t ->]. cbn [negb].
  change (drop 10 (js "COMPLETED " ++ t)) with t.
  destruct (number_then (js " FILES ") t) as [[? r1]|] eqn:E1; [|done]. simpl.
  destruct (number_then (js " ERRORS ") r1) as [[? r2]|] eqn:E2; [|done]. simpl.
  destruct (number_then (js " WARNINGS ") r2) as [[? r3]|] eqn:E3; [|done]. simpl.
  destruct (number_then (js " FILES_WITH_PROBLEMS") r3) as [[? [|]]|] eqn:E4; try done.
  apply number_then_suffix in E1 as [p1 ->]. apply number_then_suffix in E2 as [p2 ->].
  apply number_then_suffix in E3 as [p3 ->]. apply number_then_suffix in E4 as [p4 ->].
  intros _. eexists. rewrite app_nil_r, !app_assoc. f_equal.
Qed.

(** ** What the gate accepts *)

(** Everything that is asked of the output before the baseline is looked at. *)
Definition well_reported (r : SpawnResult) (summary : jstr) : Prop :=
  let lines := normalizedLines (spawn_stdout r) in
  spawn_error r = false ∧ summaries lines = [summary] ∧
  List.filter is_unexpected lines = [] ∧
  ∃ e w, match_summary summary = Some (e, w) ∧
    spawn_status r = (if (e =? 0)%Z then 0%Z else 1%Z) ∧
    error_count (diagnostics lines) = e.

Definition normalized (r : SpawnResult) (summary : jstr) : jstr :=
  joinStr nl (diagnostics (normalizedLines (spawn_stdout r)) ++ [summary]).

Lemma check_accepts r update baseline :
  exit_code (check r update baseline) = 0%Z ↔
    ∃ summary, well_reported r summary ∧
      if update then written_baseline (check r update baseline) = Some (normalized r summary ++ nl)
      else ∃ content, baseline = Some content ∧ normalized r summary = trim content.
Proof.
  unfold check, well_reported, normalized.
  destruct (spawn_error r); simpl; [split; [done|by intros (? & [? _] & _)]|].
  destruct (summaries _) as [|summary [|? ?]]; simpl;
    [split; [done|by intros (? & (_ & ? & _) & _)]| |split; [done|by intros (? & (_ & ? & _) & _)]].
  destruct (List.filter is_unexpected _) as [|u us]; simpl;
    [|split; [done|by intros (? & (_ & _ & ? & _) & _)]].
  destruct (match_summary summary) as [[e w]|] eqn:Em; simpl;
    [|split; [done|intros (? & (_ & [= <-] & _ & ? & ? & ? & _) & _); congruence]].
  destruct (Z.eqb_spec (spawn_status r) (if (e =? 0)%Z then 0%Z else 1%Z)) as [Es|Es]; simpl;
    [|split; [done|intros (? & (_ & [= <-] & _ & ? & ? & ? & ? & _) & _); simplify_eq]].
  destruct (Z.eqb_spec (error_count (diagnostics (normalizedLines (spawn_stdout r)))) e) as [Ec|Ec];
    simpl; [|split; [done|intros (? & (_ & [= <-] & _ & ? & ? & ? & ? & ?) & _); simplify_eq]].
  destruct update; simpl; [split; [|done]; intros _; exists summary; eauto 12|].
  destruct baseline as [content|]; simpl; [|split; [done|by intros (? & _ & ? & ? & _)]].
  case_bool_decide as Ht; simpl.
  - split; [intros _|done]. exists summary. eauto 14.
  - split; [done|]. intros (? & (_ & [= <-] & _) & ? & [= <-] & ?). done.
Qed.

Lemma well_reported_summary_no_newline r summary :
  well_reported r summary → no_newline summary.
Proof.
  intros (_ & Hs & _). assert (summary ∈ summaries (normalizedLines (spawn_stdout r))) as Hin
    by (rewrite Hs; left).
  apply elem_of_filter_b in Hin as [Hin _].
  pose proof (normalizedLines_no_newline (spawn_stdout r)) as HF.
  rewrite Forall_forall in HF. auto.
Qed.

Lemma elem_of_diagnostics l lines : l ∈ diagnostics lines ↔ l ∈ lines ∧ is_diagnostic l = true.
Proof. unfold diagnostics. by rewrite sort_strings_Permutation, elem_of_filter_b. Qed.

Lemma diagnostics_no_newline output : Forall no_newline (diagnostics (normalizedLines output)).
Proof.
  apply Forall_forall. intros l [Hl _]%elem_of_diagnostics.
  pose proof (normalizedLines_no_newline output) as HF. rewrite Forall_forall in HF. auto.
Qed.

(** The recorded text determines the diagnostics and the summary. *)
Lemma normalized_inj r1 r2 s1 s2 :
  well_reported r1 s1 → well_reported r2 s2 → normalized r1 s1 = normalized r2 s2 →
  diagnostics (normalizedLines (spawn_stdout r1)) = diagnostics (normalizedLines (spawn_stdout r2))
  ∧ s1 = s2.
Proof.
  intros H1 H2 Heq. unfold normalized in Heq.
  apply (f_equal (splitOn (fun c => (c =? newline)%N))) in Heq. unfold nl in Heq.
  rewrite !splitOn_joinStr in Heq; try done; try (by intros ?%app_eq_nil; naive_solver).
  - apply app_inj_2 in Heq as [? ?]; [by simplify_eq|done].
  - apply Forall_app. split; [apply diagnostics_no_newline|].
    constructor; [by eapply well_reported_summary_no_newline|constructor].
  - apply Forall_app. split; [apply diagnostics_no_newline|].
    constructor; [by eapply well_reported_summary_no_newline|constructor].
Qed.

(** Neither end of the recorded text is white space. *)
Lemma normalized_trim r summary :
  well_reported r summary → trim (normalized r summary ++ nl) = normalized r summary.
Proof.
  intros Hr. unfold normalized.
  set (ds := diagnostics _). unfold trim.
  assert (∃ c t, joinStr nl (ds ++ [summary]) = c :: t ∧ is_space c = false) as (c & t & Hc & Hsp).
  { destruct Hr as (_ & _ & _ & e & w & Hm & _). apply match_summary_shape in Hm as [p ->].
    destruct ds as [|d ds'] eqn:E; [eexists _, _; split; [reflexivity|by vm_compute]|].
    assert (d ∈ ds) as Hd by (rewrite E; left). unfold ds in Hd.
    apply elem_of_diagnostics in Hd as [_ Hd]. unfold is_diagnostic in Hd.
    apply orb_true_iff in Hd as [Hd|Hd]; apply startsWith_spec in Hd as [u ->];
      (destruct ds'; [eexists _, _; split; [reflexivity|by vm_compute]
                     |eexists _, _; split; [reflexivity|by vm_compute]]). }
  assert (∃ u, joinStr nl (ds ++ [summary]) = u ++ [83%N]) as [u Hu].
  { destruct Hr as (_ & _ & _ & e & w & Hm & _). apply match_summary_shape in Hm as [p ->].
    destruct (joinStr_last nl ds (js "COMPLETED " ++ p ++ js " FILES_WITH_PROBLEMS")) as [q ->].
    exists (q ++ js "COMPLETED " ++ p ++ js " FILES_WITH_PROBLEM"). by rewrite <-!app_assoc. }
  rewrite trimStart_id.
  - rewrite Hu. unfold trimEnd. rewrite rev_app_distr, rev_app_distr. simpl.
    by rewrite rev_involutive.
  - rewrite Hc. intros c' t' [= <- _]. done.
Qed.

(** Recording a baseline and checking the same run against it succeeds. *)
Theorem check_after_update r baseline :
  exit_code (check r true baseline) = 0%Z →
  ∃ content, written_baseline (check r true baseline) = Some content ∧
             exit_code (check r false (Some content)) = 0%Z.
Proof.
  intros H. apply check_accepts in H as (s & Hr & Hw).
  eexists. split; [exact Hw|]. apply check_accepts. exists s. split; [done|].
  eexists. split; [done|]. symmetry. by apply normalized_trim.
Qed.

(** One baseline accepts exactly the runs that report the same diagnostics, in
    whatever order: of two well-reported runs, if the first passes, the second
    passes if and only if its diagnostics are a permutation of the first's and
    its summary is the same. *)
Theorem check_detects_changes r1 r2 s1 s2 baseline :
  well_reported r1 s1 → well_reported r2 s2 →
  exit_code (check r1 false baseline) = 0%Z →
  exit_code (check r2 false baseline) = 0%Z ↔
    (List.filter is_diagnostic (normalizedLines (spawn_stdout r1)) ≡ₚ
     List.filter is_diagnostic (normalizedLines (spawn_stdout r2))) ∧ s1 = s2.
Proof.
  intros H1 H2 Hok. apply check_accepts in Hok as (s & Hs & content & -> & Hn).
  assert (s = s1) as ->.
  { destruct Hs as (_ & Hs & _), H1 as (_ & H1 & _). congruence. }
  rewrite check_accepts. split.
  - intros (s & Hs' & content' & [= <-] & Hn').
    assert (s = s2) as ->.
    { destruct Hs' as (_ & Hs' & _), H2 as (_ & H2 & _). congruence. }
    destruct (normalized_inj r1 r2 s1 s2) as [Hd ->]; [done..|congruence|]. split; [|done].
    unfold diagnostics in Hd.
    by rewrite <-(sort_strings_Permutation (List.filter is_diagnostic (normalizedLines (spawn_stdout r1)))),
      <-(sort_strings_Permutation (List.filter is_diagnostic (normalizedLines (spawn_stdout r2)))), Hd.
  - intros [Hp ->]. exists s2. split; [done|]. exists content. split; [done|].
    rewrite <-Hn. unfold normalized, diagnostics. by rewrite (sort_strings_eq _ _ Hp).
Qed.

Definition sample_run : SpawnResult := {|
  spawn_error := false;
  spawn_stderr := [];
  spawn_stdout := js "1 START x" ++ nl ++ js "2 ERROR b" ++ nl ++ js "3 ERROR a" ++ nl ++
                  js "4 COMPLETED 9 FILES 2 ERRORS 0 WARNINGS 1 FILES_WITH_PROBLEMS" ++ nl;
  spawn_status := 1
|}.

Definition sample_summary : jstr :=
  js "COMPLETED 9 FILES 2 ERRORS 0 WARNINGS 1 FILES_WITH_PROBLEMS".

Lemma sample_well_reported : well_reported sample_run sample_summary.
Proof.
  split_and!; [reflexivity|vm_compute; reflexivity|vm_compute; reflexivity|].
  exists 2%Z, 0%Z. split_and!; vm_compute; reflexivity.
Qed.

Lemma check_after_update_witness :
  exit_code (check sample_run true None) = 0%Z ∧
  ∃ content, written_baseline (check sample_run true None) = Some content ∧
             exit_code (check sample_run false (Some content)) = 0%Z.
Proof. split; [vm_compute; reflexivity|]. apply check_after_update. vm_compute. reflexivity. Defined.

Lemma check_detects_changes_witness :
  exit_code (check sample_run false
    (Some (js "ERROR a" ++ nl ++ js "ERROR b" ++ nl ++ sample_summary ++ nl))) = 0%Z.
Proof.
  apply (check_detects_changes sample_run sample_run sample_summary sample_summary);
    [apply sample_well_reported|apply sample_well_reported|vm_compute; reflexivity|done].
Defined.
