(* ===== verification/DomainList.v ===== *)
(** * List inputs of the policy form

    [routes/rules/domainlist.svelte] and [routes/rules/categoryselect.svelte].
    A component that dispatches [change] answers with the new list, one that
    does not with [None]. *)

From S2P Require Import Prelude JsString.

(** ** Domain lists *)

Definition is_url_end (c : N) : bool := bool_decide (c ∈ [47; 63; 35]%N).   (* / ? # *)
Definition is_entry_sep (c : N) : bool := is_space c || (c =? 44)%N.         (* \s , *)

Fixpoint take_while (f : N → bool) (s : jstr) : jstr :=
  match s with
  | [] => []
  | c :: s' => if f c then c :: take_while f s' else []
  end.
Fixpoint drop_while (f : N → bool) (s : jstr) : jstr :=
  match s with
  | [] => []
  | c :: s' => if f c then drop_while f s' else s
  end.

(** [value.replace(/:\d+$/, "")]. *)
Definition strip_port (value : jstr) : jstr :=
  let r := rev value in
  match take_while is_digit r, drop_while is_digit r with
  | _ :: _, c :: rest => if (c =? 58)%N then rev rest else value
  | _, _ => value
  end.

(** [value.replace(/\.$/, "")]. *)
Definition strip_dot (value : jstr) : jstr :=
  match rev value with
  | c :: rest => if (c =? 46)%N then rev rest else value
  | [] => value
  end.

Definition clean (raw : jstr) : jstr :=
  let value := toLowerCase (trim raw) in
  let value := match indexOf (js "://") value with
               | Some scheme => drop (scheme + 3) value
               | None => value
               end in
  strip_dot (strip_port (hd [] (splitOn is_url_end value))).

(** The loop of [add]: [if (!next.includes(value)) next.push(value)]. *)
Definition push_new (next values : list jstr) : list jstr :=
  foldl (fun next value => if includes next value then next else next ++ [value]) next values.

(** [add()]: the new list when it is dispatched; the entry text is cleared. *)
Definition add_entries (entries : list jstr) (draft : jstr) : option (list jstr) :=
  let values := List.filter truthy (clean <$> splitOnRuns is_entry_sep false draft) in
  let next := push_new entries values in
  if (length next =? length entries)%nat then None else Some next.

Definition remove_entry (entries : list jstr) (entry : jstr) : list jstr :=
  List.filter (fun candidate => negb (bool_decide (candidate = entry))) entries.

(** ** Category selection *)

Definition toggle (selection : list jstr) (id : jstr) (checked : bool) : option (list jstr) :=
  if eqb checked (includes selection id) then None
  else Some (if checked then selection ++ [id]
             else List.filter (fun candidate => negb (bool_decide (candidate = id))) selection).

(** ** Lemmas on the string pieces *)

Lemma take_drop_while f s : take_while f s ++ drop_while f s = s.
Proof. induction s as [|c s IH]; simpl; [done|]. destruct (f c); simpl; congruence. Qed.

Lemma strip_port_prefix s : ∃ t, s = strip_port s ++ t.
Proof.
  unfold strip_port. pose proof (take_drop_while is_digit (rev s)) as H.
  destruct (take_while is_digit (rev s)) as [|d ds]; [by exists []; rewrite app_nil_r|].
  destruct (drop_while is_digit (rev s)) as [|c rest]; [by exists []; rewrite app_nil_r|].
  destruct (c =? 58)%N; [|by exists []; rewrite app_nil_r].
  exists (rev ((d :: ds) ++ [c])). rewrite <-rev_app_distr, <-app_assoc. simpl app in *.
  by rewrite H, rev_involutive.
Qed.

Lemma strip_dot_prefix s : ∃ t, s = strip_dot s ++ t.
Proof.
  unfold strip_dot. destruct (rev s) as [|c rest] eqn:E; [by exists []; rewrite app_nil_r|].
  destruct (c =? 46)%N; [|by exists []; rewrite app_nil_r].
  exists [c]. rewrite <-(rev_involutive s), E. done.
Qed.

Lemma strip_port_port host digits :
  digits ≠ [] → forallb is_digit digits = true →
  strip_port (host ++ 58%N :: digits) = host.
Proof.
  intros Hd Hall. unfold strip_port.
  assert (∀ ds rest, forallb is_digit ds = true →
    take_while is_digit (ds ++ 58%N :: rest) = ds ∧
    drop_while is_digit (ds ++ 58%N :: rest) = 58%N :: rest) as Hrun.
  { intros ds rest. induction ds as [|d ds IH]; [done|]. simpl. intros [-> Hds]%andb_true_iff.
    destruct (IH Hds) as [-> ->]. done. }
  assert (rev (host ++ 58%N :: digits) = rev digits ++ 58%N :: rev host) as ->
    by (rewrite rev_app_distr; simpl; by rewrite <-app_assoc).
  destruct (Hrun (rev digits) (rev host)) as [-> ->].
  { rewrite forallb_forall in *. intros d Hin. apply Hall. by apply in_rev. }
  destruct (rev digits) as [|d ds] eqn:E.
  - apply (f_equal (@rev N)) in E. rewrite rev_involutive in E. by simpl in E.
  - simpl. by rewrite rev_involutive.
Qed.

Lemma strip_port_none s : forallb (fun c => negb (c =? 58)%N) s = true → strip_port s = s.
Proof.
  intros H. unfold strip_port. pose proof (take_drop_while is_digit (rev s)) as Htd.
  destruct (take_while _ _); [done|]. destruct (drop_while _ _) as [|c rest]; [done|].
  destruct (c =? 58)%N eqn:E; [|done]. exfalso.
  assert (In c s) as Hin.
  { apply in_rev. rewrite <-Htd. apply in_or_app. right. by left. }
  rewrite forallb_forall in H. specialize (H c Hin). by rewrite E in H.
Qed.

Lemma strip_dot_none s c : c ≠ 46%N → strip_dot (s ++ [c]) = s ++ [c].
Proof.
  intros H. unfold strip_dot. rewrite rev_app_distr. simpl.
  by destruct (N.eqb_spec c 46).
Qed.

Lemma splitOn_hd_app sep w c s :
  forallb (fun d => negb (sep d)) w = true → sep c = true →
  hd [] (splitOn sep (w ++ c :: s)) = w.
Proof.
  intros Hw Hc. rewrite splitOn_cons_word.
  - simpl. rewrite Hc. simpl. by rewrite app_nil_r.
  - apply Forall_forall. intros d Hd. rewrite forallb_forall in Hw.
    apply negb_true_iff, Hw. by apply list_elem_of_In.
Qed.

Lemma splitOn_hd_all sep w :
  forallb (fun d => negb (sep d)) w = true → hd [] (splitOn sep w) = w.
Proof.
  intros Hw. rewrite <-(app_nil_r w) at 1. rewrite splitOn_cons_word; [simpl; by rewrite app_nil_r|].
  apply Forall_forall. intros d Hd. rewrite forallb_forall in Hw.
  apply negb_true_iff, Hw. by apply list_elem_of_In.
Qed.

(** ** What the inputs promise *)

Lemma push_new_spec next values :
  (NoDup next → NoDup (push_new next values)) ∧
  (∃ added, push_new next values = next ++ added) ∧
  (∀ x, x ∈ push_new next values ↔ x ∈ next ∨ x ∈ values).
Proof.
  unfold push_new. revert next. induction values as [|v vs IH]; intros next; simpl.
  - split_and!; [done|by exists []; rewrite app_nil_r|].
    intros x. rewrite elem_of_nil. tauto.
  - destruct (includes next v) eqn:E.
    + apply includes_spec in E. destruct (IH next) as (IH1 & IH2 & IH3). split_and!; [done..|].
      intros x. rewrite IH3, elem_of_cons. split; [tauto|]. intros [?|[->|?]]; auto.
    + apply includes_false in E. destruct (IH (next ++ [v])) as (IH1 & [added IH2] & IH3).
      split_and!.
      * intros Hnd. apply IH1, NoDup_app. split_and!; [done| |apply NoDup_singleton].
        intros x Hx ->%list_elem_of_singleton. done.
      * exists (v :: added). by rewrite IH2, <-app_assoc.
      * intros x. rewrite IH3, elem_of_app, list_elem_of_singleton, elem_of_cons. tauto.
Qed.

Lemma NoDup_remove_entry entries entry : NoDup entries → NoDup (remove_entry entries entry).
Proof. apply NoDup_filter_b. Qed.

Lemma elem_of_remove_entry entries entry x :
  x ∈ remove_entry entries entry ↔ x ∈ entries ∧ x ≠ entry.
Proof.
  unfold remove_entry. rewrite elem_of_filter_b, negb_true_iff, bool_decide_eq_false. done.
Qed.

Lemma add_entries_Some entries draft next :
  add_entries entries draft = Some next →
  next = push_new entries (List.filter truthy (clean <$> splitOnRuns is_entry_sep false draft)).
Proof. unfold add_entries. case_match; naive_solver. Qed.

Lemma add_entries_NoDup entries draft next :
  NoDup entries → add_entries entries draft = Some next → NoDup next.
Proof. intros Hnd ->%add_entries_Some. by apply push_new_spec. Qed.

Lemma toggle_NoDup selection id checked next :
  NoDup selection → toggle selection id checked = Some next → NoDup next.
Proof.
  unfold toggle. intros Hnd H. destruct (eqb checked (includes selection id)) eqn:E; [done|].
  destruct checked; simplify_eq; [|by apply NoDup_filter_b].
  destruct (includes selection id) eqn:Ei; [done|]. apply includes_false in Ei.
  apply NoDup_app. split_and!; [done| |apply NoDup_singleton].
  intros x Hx ->%list_elem_of_singleton. done.
Qed.

(** ** Theorems *)

Definition host_char (c : N) : bool :=
  negb (is_space c) && negb (is_url_end c) && negb (c =? 58)%N && (lower_unit c =? c)%N.

Lemma host_lower host : forallb host_char host = true → toLowerCase host = host.
Proof.
  intros H. rewrite forallb_forall in H. rewrite <-(list_fmap_id host) at 2.
  apply list_fmap_ext. intros i c Hc. apply list_elem_of_lookup_2, list_elem_of_In in Hc.
  specialize (H c Hc). unfold host_char in H. simpl. lia.
Qed.

Lemma host_no_colon host : forallb host_char host = true →
  forallb (fun c => negb (c =? 58)%N) host = true.
Proof.
  rewrite !forallb_forall. intros H c Hc. specialize (H c Hc). unfold host_char in H. lia.
Qed.

Lemma host_no_end host : forallb host_char host = true →
  forallb (fun c => negb (is_url_end c)) host = true.
Proof.
  rewrite !forallb_forall. intros H c Hc. specialize (H c Hc). unfold host_char in H. lia.
Qed.

(** The domain a cleaned entry keeps: nothing of it is the scheme separator's
    tail, a path, a query, a fragment, white space or an ASCII capital. *)
Lemma clean_chars raw c :
  c ∈ clean raw → is_url_end c = false ∧ lower_unit c = c.
Proof.
  unfold clean.
  set (v := match indexOf _ _ with Some _ => _ | None => _ end).
  assert (∀ d, d ∈ v → lower_unit d = d) as Hlow.
  { assert (∀ d, d ∈ toLowerCase (trim raw) → lower_unit d = d) as Hl.
    { intros d (e & -> & _)%list_elem_of_fmap. unfold lower_unit. repeat case_match; lia. }
    intros d Hd. apply Hl. subst v. destruct (indexOf _ _); [|done].
    apply list_elem_of_lookup in Hd as [i Hi]. rewrite lookup_drop in Hi.
    by eapply list_elem_of_lookup_2. }
  intros Hc.
  assert (c ∈ hd [] (splitOn is_url_end v)) as Hh.
  { destruct (strip_dot_prefix (strip_port (hd [] (splitOn is_url_end v)))) as [t1 H1].
    destruct (strip_port_prefix (hd [] (splitOn is_url_end v))) as [t2 H2].
    rewrite H2, H1, !elem_of_app. tauto. }
  destruct (splitOn is_url_end v) as [|w ws] eqn:E; [by apply elem_of_nil in Hh|]. simpl in Hh.
  split; [apply (splitOn_no_sep is_url_end v w); [rewrite E; left|done]|].
  apply Hlow. clear -E Hh. revert w ws E Hh. induction v as [|d v IH]; intros w ws E Hh; simpl in E.
  - simplify_eq. by apply elem_of_nil in Hh.
  - destruct (is_url_end d); simplify_eq; [by apply elem_of_nil in Hh|].
    destruct (splitOn is_url_end v) as [|w' ws'] eqn:E'; simplify_eq.
    + apply list_elem_of_singleton in Hh as ->. left.
    + apply elem_of_cons in Hh as [->|Hh]; [left|right; by eapply IH].
Qed.

Lemma indexOf_first c p a b :
  forallb (fun d => negb (d =? c)%N) a = true → indexOf (c :: p) (a ++ (c :: p) ++ b) = Some (length a).
Proof.
  induction a as [|d a IH]; intros H.
  - assert (startsWith (c :: p) (c :: p ++ b) = true) as Hs by (apply startsWith_spec; by exists b).
    simpl in *. by rewrite Hs.
  - simpl in H. split_bools.
    assert (startsWith (c :: p) ((d :: a) ++ (c :: p) ++ b) = false) as Hs.
    { simpl. destruct (N.eqb_spec c d) as [->|]; [by rewrite N.eqb_refl in *|done]. }
    change (indexOf (c :: p) ((d :: a) ++ (c :: p) ++ b)) with
      (if startsWith (c :: p) ((d :: a) ++ (c :: p) ++ b) then Some 0
       else S <$> indexOf (c :: p) (a ++ (c :: p) ++ b)).
    by rewrite Hs, IH.
Qed.

Lemma indexOf_none_char d p s :
  d ∈ p → d ∉ s → indexOf p s = None.
Proof.
  intros Hp Hs. destruct (indexOf p s) as [i|] eqn:E; [|done].
  apply indexOf_Some in E as (a & b & -> & _). exfalso. apply Hs. set_solver.
Qed.

Lemma trim_no_space s : forallb (fun c => negb (is_space c)) s = true → trim s = s.
Proof.
  rewrite forallb_forall. intros H.
  assert (∀ c, c ∈ s → is_space c = false) as Hns.
  { intros c Hc. apply negb_true_iff, H. by apply list_elem_of_In. }
  unfold trim. rewrite trimStart_id.
  - apply trimEnd_id. intros c t ->. apply Hns. rewrite elem_of_app. right. left.
  - intros c t ->. apply Hns. left.
Qed.

(** A port as it is written after a host, and nothing. *)
Definition is_port (port : jstr) : Prop :=
  port = [] ∨ ∃ digits, port = 58%N :: digits ∧ digits ≠ [] ∧ forallb is_digit digits = true.

Lemma clean_host host c port :
  forallb host_char (host ++ [c]) = true → c ≠ 46%N → is_port port →
  strip_dot (strip_port ((host ++ [c]) ++ port)) = host ++ [c].
Proof.
  intros Hh Hc [->|(ds & -> & Hd & Hds)].
  - rewrite app_nil_r, strip_port_none by (by apply host_no_colon). by apply strip_dot_none.
  - rewrite strip_port_port by done. by apply strip_dot_none.
Qed.

Lemma lower_port port : is_port port → toLowerCase port = port.
Proof.
  intros [->|(ds & -> & _ & Hds)]; [done|]. simpl. f_equal.
  rewrite <-(list_fmap_id ds) at 2. apply list_fmap_ext. intros i d Hd.
  rewrite forallb_forall in Hds. apply list_elem_of_lookup_2, list_elem_of_In in Hd.
  specialize (Hds d Hd). unfold is_digit in Hds. unfold lower_unit. simpl. repeat case_match; lia.
Qed.

Lemma port_no_end port : is_port port → forallb (fun c => negb (is_url_end c)) port = true.
Proof.
  intros [->|(ds & -> & _ & Hds)]; [done|]. simpl. rewrite forallb_forall in *. intros d Hd.
  specialize (Hds d Hd). unfold is_digit in Hds. unfold is_url_end.
  rewrite bool_decide_false; [done|]. rewrite !elem_of_cons, elem_of_nil. lia.
Qed.

Lemma port_no_space port : is_port port → forallb (fun c => negb (is_space c)) port = true.
Proof.
  intros [->|(ds & -> & _ & Hds)]; [done|]. simpl. rewrite forallb_forall in *. intros d Hd.
  specialize (Hds d Hd). unfold is_digit in Hds. unfold is_space.
  rewrite bool_decide_false; [done|]. rewrite !elem_of_cons, elem_of_nil. lia.
Qed.

Lemma host_no_space host : forallb host_char host = true →
  forallb (fun c => negb (is_space c)) host = true.
Proof.
  rewrite !forallb_forall. intros H c Hc. specialize (H c Hc). unfold host_char in H. lia.
Qed.

(** What an administrator pastes from the address bar becomes the host: the
    scheme, the port and everything from the path on are dropped.  [host]
    does not end in a dot. *)
Theorem clean_url scheme host c port tail :
  forallb host_char scheme = true → forallb host_char (host ++ [c]) = true → c ≠ 46%N →
  is_port port →
  (tail = [] ∨ ∃ d t, tail = d :: t ∧ is_url_end d = true) →
  forallb (fun d => negb (is_space d)) tail = true →
  clean (scheme ++ js "://" ++ (host ++ [c]) ++ port ++ tail) = host ++ [c] ∧
  clean ((host ++ [c]) ++ port) = host ++ [c].
Proof.
  intros Hs Hh Hc Hp Ht Hts. unfold clean. split.
  - rewrite trim_no_space.
    2: { rewrite (forallb_app _ scheme), (forallb_app _ (js "://")), (forallb_app _ (host ++ [c])),
           (forallb_app _ port), (host_no_space scheme), (host_no_space (host ++ [c])),
           (port_no_space port), Hts by done. done. }
    rewrite (toLowerCase_app scheme), (toLowerCase_app (js "://")), (toLowerCase_app (host ++ [c])),
      (toLowerCase_app port), (host_lower scheme), (host_lower (host ++ [c])), (lower_port port) by done.
    change (toLowerCase (js "://")) with (58 :: [47; 47])%N.
    change (js "://") with (58 :: [47; 47])%N.
    rewrite indexOf_first by (by apply host_no_colon).
    rewrite (app_assoc scheme).
    assert (length scheme + 3 = length (scheme ++ (58 :: [47; 47])%N)) as ->
      by (by rewrite length_app).
    rewrite drop_app_length, app_assoc.
    assert (forallb (fun c => negb (is_url_end c)) ((host ++ [c]) ++ port) = true) as Hne
      by (rewrite forallb_app, host_no_end, port_no_end; done).
    destruct Ht as [->|(d & t & -> & Hd)].
    + rewrite app_nil_r, splitOn_hd_all by done. by apply clean_host.
    + assert (lower_unit d = d) as Hl.
      { unfold is_url_end in Hd. apply bool_decide_eq_true in Hd.
        rewrite !elem_of_cons, elem_of_nil in Hd. unfold lower_unit. repeat case_match; lia. }
      cbn [toLowerCase fmap list_fmap]. rewrite Hl, splitOn_hd_app by done. by apply clean_host.
  - rewrite trim_no_space
      by (rewrite forallb_app, host_no_space, port_no_space by done; done).
    rewrite toLowerCase_app, host_lower, lower_port by done.
    assert (forallb (fun c => negb (is_url_end c)) ((host ++ [c]) ++ port) = true) as Hne
      by (rewrite forallb_app, host_no_end, port_no_end; done).
    rewrite (indexOf_none_char 47%N).
    + rewrite splitOn_hd_all by done. by apply clean_host.
    + vm_compute. right. left.
    + intros Hin%list_elem_of_In. rewrite forallb_forall in Hne. by specialize (Hne _ Hin).
Qed.

Lemma clean_url_witness :
  clean (js "https://www.example.com:8443/Path?q=1") = js "www.example.com" ∧
  clean (js "www.example.com:8443") = js "www.example.com".
Proof.
  apply (clean_url (js "https") (js "www.example.co") 109%N (js ":8443") (js "/Path?q=1"));
    try (vm_compute; reflexivity); try done.
  - right. exists (js "8443"). split_and!; [done..|vm_compute; reflexivity].
  - right. exists 47%N, (js "Path?q=1"). split; [reflexivity|vm_compute; reflexivity].
Defined.

(** Without a scheme of its own, an entry that has one further on is taken for
    what follows that one. *)
Theorem clean_embedded_url :
  clean (js "example.com/login?next=https://other.example/") = js "other.example".
Proof. reflexivity. Qed.

(** Adding keeps the entries and their order, appends each new domain once,
    and dispatches exactly when there is one. *)
Theorem add_entries_spec entries draft :
  NoDup entries →
  let values := List.filter truthy (clean <$> splitOnRuns is_entry_sep false draft) in
  match add_entries entries draft with
  | None => ∀ v, v ∈ values → v ∈ entries
  | Some next =>
      NoDup next ∧ (∃ added, added ≠ [] ∧ next = entries ++ added) ∧
      ∀ v, v ∈ next ↔ v ∈ entries ∨ v ∈ values
  end.
Proof.
  intros Hnd values. unfold add_entries. fold values.
  destruct (push_new_spec entries values) as (H1 & [added H2] & H3).
  rewrite H2. destruct (Nat.eqb_spec (length (entries ++ added)) (length entries)) as [E|E].
  - intros v Hv. rewrite length_app in E. destruct added; [|simpl in E; lia].
    rewrite app_nil_r in H2. rewrite <-H2. apply H3. by right.
  - rewrite <-H2. split_and!; [auto| |done]. exists added. split; [|done].
    intros ->. by rewrite app_nil_r in E.
Qed.

Lemma add_entries_spec_witness :
  ∃ next, add_entries [js "a.com"] (js "A.com, b.com") = Some next ∧ NoDup next.
Proof.
  pose proof (add_entries_spec [js "a.com"] (js "A.com, b.com") (NoDup_singleton _)) as H.
  cbv zeta in H. destruct (add_entries [js "a.com"] (js "A.com, b.com")) as [next|] eqn:E.
  - exists next. split; [done|apply H].
  - vm_compute in E. discriminate E.
Defined.
