(* ===== verification/GroupForm.v ===== *)
(** * The policy form

    [routes/rules/groupform.svelte].  The form mutates the page's draft in
    place, so each handler is a function on the draft, and a rule object is
    named by its index in [draft.rules].  [form_event] lists the inputs of the
    template, [offered] says which of them the template renders, and [form_step]
    runs the handler of one; a handler that throws gives [inl].  The reactive
    [bedtime] is recomputed between events. *)

From S2P Require Import Prelude JsString JsAsync PolicyModel DomainList.
From stdpp Require Import sorting.
Open Scope js_scope.

(** The properties the page passes besides the draft. *)
Record FormProps := MkFormProps {
  schedulePresets : list SchedulePreset;
  fp_timezone : jstr;
  fp_users : list jstr
}.

Inductive WindowKey := KFrom | KTo.
Inductive ListField := UrlRegexes | ContentTypes.
Inductive DomainField := BlockedDomains | AllowedDomains.

(** [Number(id)] for an identifier of [WEEKDAYS]. *)
Definition Number (id : jstr) : Z :=
  foldl (fun n c => 10 * n + Z.of_N (c - 48))%Z 0%Z id.

(** [selected.map(Number).sort((a, b) => a - b)]. *)
Definition sortedDays (selected : list jstr) : list Z := merge_sort Z.le (Number <$> selected).

(** ** The bedtime section *)

Definition bedtimeIndex (draft : PolicyGroup) : option nat :=
  findIndex isBedtimeRule (rules draft).

Definition bedtime (draft : PolicyGroup) : option GroupRule :=
  bedtimeIndex draft ≫= fun i => rules draft !! i.

(** [touchRules] copies the array and keeps its elements. *)
Definition touchRules (draft : PolicyGroup) : PolicyGroup := draft <| rules ::= fun l => l |>.

Definition addRule (draft : PolicyGroup) : PolicyGroup :=
  draft <| rules ::= fun l => l ++ [emptyRule] |>.

Definition removeRule (index : nat) (draft : PolicyGroup) : PolicyGroup :=
  draft <| rules ::= removeAt index |>.

Definition setBedtime (props : FormProps) (on : bool) (draft : PolicyGroup) : PolicyGroup :=
  match on, bedtimeIndex draft with
  | true, None =>
      let preset := find (fun candidate => bool_decide (pre_id candidate = js "bedtime"))
                      (schedulePresets props) in
      draft <| rules ::= cons (bedtimeRule (fp_timezone props) preset) |>
  | false, Some index => removeRule index draft
  | _, _ => draft
  end.

Definition set_window (key : WindowKey) (value : jstr) (w : TimeWindow) : TimeWindow :=
  match key with KFrom => w <| from := value |> | KTo => w <| to := value |> end.

(** An assignment through [draft.rules[index]]. *)
Definition on_rule (index : nat) (f : GroupRule → GroupRule) (draft : PolicyGroup) : PolicyGroup :=
  draft <| rules ::= alter f index |>.

(** [windows[0][key] = value]; [windows[0]] is [undefined] on an empty array. *)
Definition onBedtimeTime (key : WindowKey) (value : jstr) (draft : PolicyGroup)
    : result PolicyGroup :=
  match bedtimeIndex draft, bedtime draft ≫= rule_schedule with
  | Some index, Some schedule =>
      match sch_windows schedule with
      | [] => inl TypeError
      | w :: ws =>
          inr (touchRules (on_rule index (fun r => r <| rule_schedule :=
            Some (schedule <| sch_windows := set_window key value w :: ws |>
                           <| sch_preset := None |>) |>) draft))
      end
  | _, _ => inr draft
  end.

Definition onBedtimeDays (selected : list jstr) (draft : PolicyGroup) : PolicyGroup :=
  match bedtimeIndex draft, bedtime draft ≫= rule_schedule with
  | Some index, Some schedule =>
      touchRules (on_rule index (fun r => r <| rule_schedule :=
        Some (schedule <| sch_weekdays := sortedDays selected |> <| sch_preset := None |>) |>) draft)
  | _, _ => draft
  end.

(** ** Rules *)

Definition moveRule (index : nat) (offset : Z) (draft : PolicyGroup) : PolicyGroup :=
  let target := (Z.of_nat index + offset)%Z in
  if (target <? 0)%Z || (Z.of_nat (length (rules draft)) <=? target)%Z then draft
  else match rules draft !! index, rules draft !! Z.to_nat target with
       | Some a, Some b => draft <| rules ::= fun l => <[Z.to_nat target := a]> (<[index := b]> l) |>
       | _, _ => draft
       end.

Definition conditionsAllowed (rule : GroupRule) : bool :=
  bool_decide (rule_action rule = js "block").

Definition setTargetKind (value : jstr) (rule : GroupRule) : GroupRule :=
  rule <| rule_target ::= fun t => t <| all_traffic := bool_decide (value = js "all") |> |>.

Definition get_field (field : ListField) : GroupRule → list jstr :=
  match field with UrlRegexes => url_regexes | ContentTypes => blocked_content_types end.
Definition set_field (field : ListField) (v : list jstr) (rule : GroupRule) : GroupRule :=
  match field with
  | UrlRegexes => rule <| url_regexes := v |>
  | ContentTypes => rule <| blocked_content_types := v |>
  end.
Definition get_draft (field : ListField) : GroupRule → jstr :=
  match field with UrlRegexes => url_draft | ContentTypes => content_type_draft end.
Definition set_draft (field : ListField) (v : jstr) (rule : GroupRule) : GroupRule :=
  match field with
  | UrlRegexes => rule <| url_draft := v |>
  | ContentTypes => rule <| content_type_draft := v |>
  end.

(** Response types are entered with [lower] set, URL patterns without. *)
Definition addListEntry (field : ListField) (lower : bool) (rule : GroupRule) : GroupRule :=
  let value := trim (get_draft field rule) in
  let value := if lower then toLowerCase value else value in
  if negb (truthy value) || includes (get_field field rule) value then rule
  else set_draft field [] (set_field field (get_field field rule ++ [value]) rule).

Definition removeListEntry (field : ListField) (value : jstr) (rule : GroupRule) : GroupRule :=
  set_field field
    (List.filter (fun candidate => negb (bool_decide (candidate = value))) (get_field field rule))
    rule.

Definition setRuleUsers (selected : list jstr) (rule : GroupRule) : GroupRule :=
  rule <| rule_users := selected |>.

Definition setWeekdays (selected : list jstr) (rule : GroupRule) : GroupRule :=
  match rule_schedule rule with
  | None => rule
  | Some s => rule <| rule_schedule := Some (s <| sch_weekdays := sortedDays selected |>) |>
  end.

(** ** Schedules *)

Definition scheduleChoice (rule : GroupRule) : jstr :=
  match rule_schedule rule with
  | None => []
  | Some s => opt_or (sch_preset s) SCHEDULE_PRESET_CUSTOM
  end.

Definition setScheduleChoice (props : FormProps) (choice : jstr) (rule : GroupRule) : GroupRule :=
  if negb (truthy choice) then rule <| rule_schedule := None |>
  else if bool_decide (choice = SCHEDULE_PRESET_CUSTOM) then
    let window := default (MkWindow (js "20:00") (js "07:00"))
                    (rule_schedule rule ≫= fun s => head (sch_windows s)) in
    rule <| rule_schedule := Some {|
      sch_timezone := fp_timezone props;
      sch_weekdays := match rule_schedule rule with Some s => sch_weekdays s | None => [] end;
      sch_windows := [MkWindow (from window) (to window)];
      sch_preset := None
    |} |>
  else match find (fun candidate => bool_decide (pre_id candidate = choice))
               (schedulePresets props) with
       | None => rule
       | Some preset => rule <| rule_schedule := Some {|
           sch_timezone := fp_timezone props;
           sch_weekdays := pre_weekdays preset;
           sch_windows := (fun w => MkWindow (from w) (to w)) <$> pre_windows preset;
           sch_preset := Some (pre_id preset)
         |} |>
       end.

Definition onScheduleChange (props : FormProps) (value : jstr) : GroupRule → GroupRule :=
  setScheduleChoice props value.

Definition onWindowTimeChange (key : WindowKey) (value : jstr) (rule : GroupRule) : GroupRule :=
  match rule_schedule rule with
  | Some s =>
      match sch_windows s with
      | [] => rule
      | w :: ws => rule <| rule_schedule :=
                     Some (s <| sch_windows := set_window key value w :: ws |>) |>
      end
  | None => rule
  end.

Definition presetLabel (preset : SchedulePreset) : jstr :=
  match pre_windows preset with
  | [] => pre_name preset
  | w :: _ => pre_name preset ++ js " (" ++ from w ++ js "-" ++ to w ++ js ")"
  end.

Definition setGroupUsers (selected : list jstr) (draft : PolicyGroup) : PolicyGroup :=
  draft <| grp_users := selected |>.

(** ** The template *)

Inductive form_event :=
| EvName (value : jstr)
| EvDescription (value : jstr)
| EvSafeSearch (toggled : bool)
| EvCategory (id : jstr) (checked : bool)
| EvAddDomains (which : DomainField) (entry : jstr)
| EvRemoveDomain (which : DomainField) (entry : jstr)
| EvSetBedtime (toggled : bool)
| EvBedtimeTime (key : WindowKey) (value : jstr)
| EvBedtimeDays (selected : list jstr)
| EvGroupUsers (selected : list jstr)
| EvAddRule
| EvRemoveRule (index : nat)
| EvMoveRule (index : nat) (offset : Z)
| EvRuleEnabled (index : nat) (toggled : bool)
| EvRuleName (index : nat) (value : jstr)
| EvRuleAction (index : nat) (selected : jstr)
| EvTargetKind (index : nat) (value : jstr)
| EvRuleCategory (index : nat) (id : jstr) (checked : bool)
| EvRuleAddDomains (index : nat) (entry : jstr)
| EvRuleRemoveDomain (index : nat) (entry : jstr)
| EvSchedule (index : nat) (value : jstr)
| EvWindowTime (index : nat) (key : WindowKey) (value : jstr)
| EvWeekdays (index : nat) (selected : list jstr)
| EvRuleUsers (index : nat) (selected : list jstr)
| EvEntryText (index : nat) (field : ListField) (value : jstr)
| EvAddEntry (index : nat) (field : ListField)
| EvRemoveEntry (index : nat) (field : ListField) (value : jstr).

Definition get_domains (which : DomainField) : PolicyGroup → list jstr :=
  match which with BlockedDomains => blocked_domains | AllowedDomains => allowed_domains end.
Definition set_domains (which : DomainField) (v : list jstr) (draft : PolicyGroup) : PolicyGroup :=
  match which with
  | BlockedDomains => draft <| blocked_domains := v |>
  | AllowedDomains => draft <| allowed_domains := v |>
  end.

Definition set_rule_domains (v : list jstr) (rule : GroupRule) : GroupRule :=
  rule <| rule_target ::= fun t => t <| tgt_domains := v |> |>.
Definition set_rule_categories (v : list jstr) (rule : GroupRule) : GroupRule :=
  rule <| rule_target ::= fun t => t <| tgt_categories := v |> |>.

(** A child component dispatches its new list, or nothing. *)
Definition on_change {A R} (set : A → R → R) (detail : option A) (r : R) : R :=
  match detail with Some v => set v r | None => r end.

(** The rule the card of [index] shows. *)
Definition rule_event (props : FormProps) (e : form_event) : option (nat * (GroupRule → GroupRule)) :=
  match e with
  | EvRuleEnabled i b => Some (i, fun r => r <| rule_enabled := b |>)
  | EvRuleName i v => Some (i, fun r => r <| rule_name := v |>)
  | EvRuleAction i a => Some (i, fun r => r <| rule_action := a |>)
  | EvTargetKind i v => Some (i, setTargetKind v)
  | EvRuleCategory i id checked =>
      Some (i, fun r => on_change set_rule_categories
                          (toggle (tgt_categories (rule_target r)) id checked) r)
  | EvRuleAddDomains i entry =>
      Some (i, fun r => on_change set_rule_domains
                          (add_entries (tgt_domains (rule_target r)) entry) r)
  | EvRuleRemoveDomain i entry =>
      Some (i, fun r => set_rule_domains (remove_entry (tgt_domains (rule_target r)) entry) r)
  | EvSchedule i v => Some (i, onScheduleChange props v)
  | EvWindowTime i k v => Some (i, onWindowTimeChange k v)
  | EvWeekdays i sel => Some (i, setWeekdays sel)
  | EvRuleUsers i sel => Some (i, setRuleUsers sel)
  | EvEntryText i f v => Some (i, set_draft f v)
  | EvAddEntry i f => Some (i, addListEntry f (match f with ContentTypes => true | _ => false end))
  | EvRemoveEntry i f v => Some (i, removeListEntry f v)
  | _ => None
  end.

Definition form_step (props : FormProps) (e : form_event) (draft : PolicyGroup)
    : result PolicyGroup :=
  match e with
  | EvName v => inr (draft <| grp_name := v |>)
  | EvDescription v => inr (draft <| grp_description := v |>)
  | EvSafeSearch b => inr (draft <| safe_search := b |>)
  | EvCategory id checked =>
      inr (on_change (fun v d => d <| blocked_categories := v |>)
             (toggle (blocked_categories draft) id checked) draft)
  | EvAddDomains w entry =>
      inr (on_change (set_domains w) (add_entries (get_domains w draft) entry) draft)
  | EvRemoveDomain w entry => inr (set_domains w (remove_entry (get_domains w draft) entry) draft)
  | EvSetBedtime b => inr (setBedtime props b draft)
  | EvBedtimeTime k v => onBedtimeTime k v draft
  | EvBedtimeDays sel => inr (onBedtimeDays sel draft)
  | EvGroupUsers sel => inr (setGroupUsers sel draft)
  | EvAddRule => inr (addRule draft)
  | EvRemoveRule i => inr (removeRule i draft)
  | EvMoveRule i off => inr (moveRule i off draft)
  | _ =>
      match rule_event props e with
      | Some (i, f) => inr (on_rule i f draft)
      | None => inr draft
      end
  end.

(** The cards of the template: every rule but the bedtime one. *)
Definition shown_rule (draft : PolicyGroup) (index : nat) : option GroupRule :=
  if bool_decide (bedtimeIndex draft = Some index) then None else rules draft !! index.

Definition has_custom_schedule (rule : GroupRule) : bool :=
  match rule_schedule rule with
  | Some s => negb (truthy (default [] (sch_preset s)))
  | None => false
  end.

Definition offered (props : FormProps) (e : form_event) (draft : PolicyGroup) : bool :=
  let on_card i (p : GroupRule → bool) := match shown_rule draft i with Some r => p r | None => false end in
  let weekday_ids sel := forallb (fun id => includes (fst <$> WEEKDAYS) id) sel in
  let user_ids sel := forallb (includes (fp_users props)) sel in
  match e with
  | EvName _ | EvDescription _ | EvSafeSearch _ | EvCategory _ _ | EvAddDomains _ _
  | EvSetBedtime _ | EvAddRule => true
  | EvRemoveDomain w entry => includes (get_domains w draft) entry
  | EvBedtimeTime _ _ =>
      match bedtime draft ≫= rule_schedule with Some _ => true | None => false end
  | EvBedtimeDays sel =>
      match bedtime draft ≫= rule_schedule with Some _ => weekday_ids sel | None => false end
  | EvGroupUsers sel =>
      negb (bool_decide (grp_id draft = DEFAULT_GROUP_ID)) && negb (is_nil (fp_users props))
      && user_ids sel
  | EvRemoveRule i => on_card i (fun _ => true)
  | EvMoveRule i off =>
      on_card i (fun _ => true) &&
      ((bool_decide (off = -1)%Z && negb (i =? 0)%nat) ||
       (bool_decide (off = 1)%Z && negb (i =? length (rules draft) - 1)%nat))
  | EvRuleEnabled i _ | EvRuleName i _ => on_card i (fun _ => true)
  | EvRuleAction i a =>
      on_card i (fun _ => bool_decide (a = js "block") || bool_decide (a = js "allow"))
  | EvTargetKind i v =>
      on_card i (fun _ => bool_decide (v = js "listed") || bool_decide (v = js "all"))
  | EvRuleCategory i _ _ | EvRuleAddDomains i _ =>
      on_card i (fun r => negb (all_traffic (rule_target r)))
  | EvRuleRemoveDomain i entry =>
      on_card i (fun r => negb (all_traffic (rule_target r))
                          && includes (tgt_domains (rule_target r)) entry)
  | EvSchedule i v =>
      on_card i (fun _ => negb (truthy v) || bool_decide (v = SCHEDULE_PRESET_CUSTOM)
                          || includes (pre_id <$> schedulePresets props) v)
  | EvWindowTime i _ _ => on_card i has_custom_schedule
  | EvWeekdays i sel => on_card i has_custom_schedule && weekday_ids sel
  | EvRuleUsers i sel => on_card i (fun _ => negb (is_nil (fp_users props))) && user_ids sel
  | EvEntryText i _ _ | EvAddEntry i _ => on_card i conditionsAllowed
  | EvRemoveEntry i f v =>
      on_card i (fun r => conditionsAllowed r && includes (get_field f r) v)
  end.

Inductive form_reachable (props : FormProps) (g0 : PolicyGroup) : PolicyGroup → Prop :=
| form_init : form_reachable props g0 g0
| form_next g e g' :
    form_reachable props g0 g → offered props e g = true → form_step props e g = inr g' →
    form_reachable props g0 g'.

(** ** Well-formed drafts *)

(** Every array that a keyed [each] block iterates has distinct keys, and a
    schedule has the window its time pickers edit. *)
Record rule_ok (r : GroupRule) : Prop := {
  ok_rule_wf : rule_wf r;
  ok_windows : ∀ s, rule_schedule r = Some s → sch_windows s ≠ [];
  ok_domains : NoDup (tgt_domains (rule_target r));
  ok_categories : NoDup (tgt_categories (rule_target r));
  ok_urls : NoDup (url_regexes r);
  ok_types : NoDup (blocked_content_types r)
}.

Record draft_ok (g : PolicyGroup) : Prop := {
  ok_blocked_categories : NoDup (blocked_categories g);
  ok_blocked_domains : NoDup (blocked_domains g);
  ok_allowed_domains : NoDup (allowed_domains g);
  ok_rules : Forall rule_ok (rules g)
}.

(** What the page passes: a time zone, and presets the schedule API lists, each
    with an identifier and a window. *)
Definition props_ok (props : FormProps) : Prop :=
  fp_timezone props ≠ [] ∧
  Forall (fun p => pre_id p ≠ [] ∧ pre_windows p ≠ []) (schedulePresets props).

Lemma emptyRule_ok : rule_ok emptyRule.
Proof. split; simpl; [split; simpl; [by right|done]|done|constructor..]. Qed.

Lemma bedtimeRule_ok tz p : tz ≠ [] → rule_ok (bedtimeRule tz p).
Proof.
  intros Htz. split; simpl; [|..|constructor|constructor|constructor|constructor].
  - split; simpl; [by right|]. intros s [= <-]. by split.
  - intros s [= <-]. simpl. destruct p as [p|]; [|done]. by destruct (pre_windows p).
Qed.

(** A handler that only touches the schedule keeps the rest. *)
Lemma rule_ok_schedule r o :
  rule_ok r → (∀ s, o = Some s → schedule_wf s ∧ sch_windows s ≠ []) →
  rule_ok (r <| rule_schedule := o |>).
Proof.
  intros [[Ha Hs] Hw Hd Hc Hu Ht] Ho. split; simpl; [split; simpl; [done|]|..|done|done|done|done].
  - intros s E. by apply Ho.
  - intros s E. by apply Ho.
Qed.

Lemma rule_ok_target r t :
  rule_ok r → NoDup (tgt_domains t) → NoDup (tgt_categories t) → rule_ok (r <| rule_target := t |>).
Proof. intros [[Ha Hs] Hw Hd Hc Hu Ht] ??. by split. Qed.

Lemma rule_ok_field r f v : rule_ok r → NoDup v → rule_ok (set_field f v r).
Proof. intros [[Ha Hs] Hw Hd Hc Hu Ht] ?. by destruct f; split. Qed.

Lemma rule_ok_draft r f v : rule_ok r → rule_ok (set_draft f v r).
Proof. intros [[Ha Hs] Hw Hd Hc Hu Ht]. by destruct f; split. Qed.

Lemma NoDup_get_field r f : rule_ok r → NoDup (get_field f r).
Proof. intros []. by destruct f. Qed.

Create HintDb form discriminated.
#[local] Hint Resolve rule_ok_schedule rule_ok_target rule_ok_field rule_ok_draft
  NoDup_get_field add_entries_NoDup toggle_NoDup NoDup_remove_entry : form.
#[local] Hint Resolve ok_domains ok_categories ok_blocked_categories ok_blocked_domains
  ok_allowed_domains ok_rules : form.

Lemma addListEntry_ok r f lower : rule_ok r → rule_ok (addListEntry f lower r).
Proof.
  intros Hr. unfold addListEntry. destruct (negb _ || _) eqn:E; [done|]. split_bools.
  apply rule_ok_draft, rule_ok_field; [done|].
  apply NoDup_app. split_and!; [auto with form| |apply NoDup_singleton].
  intros x Hx ->%list_elem_of_singleton.
  by match goal with H : includes _ _ = false |- _ => apply includes_false in H end.
Qed.

Lemma setScheduleChoice_ok props choice r :
  props_ok props → rule_ok r → rule_ok (setScheduleChoice props choice r).
Proof.
  intros [Htz Hp] Hr. unfold setScheduleChoice.
  destruct (negb (truthy choice)); [by apply rule_ok_schedule|].
  case_bool_decide.
  - apply rule_ok_schedule; [done|]. intros s [= <-]. by repeat split.
  - destruct (find _ _) as [p|] eqn:E; [|done].
    apply find_Some_elem in E as [Hin _]. rewrite Forall_forall in Hp.
    destruct (Hp p Hin) as [Hid Hw].
    apply rule_ok_schedule; [done|]. intros s [= <-]. repeat split; simpl; [done|congruence|].
    by destruct (pre_windows p).
Qed.

Lemma schedule_edit_ok r s f :
  rule_ok r → rule_schedule r = Some s →
  sch_timezone (f s) = sch_timezone s → (sch_preset (f s) = sch_preset s ∨ sch_preset (f s) = None) →
  sch_windows (f s) ≠ [] → rule_ok (r <| rule_schedule := Some (f s) |>).
Proof.
  intros Hr Hs Htz Hp Hw. apply rule_ok_schedule; [done|]. intros s' [= <-].
  destruct (ok_rule_wf _ Hr) as [_ Hwf]. destruct (Hwf s Hs) as [H1 H2].
  repeat split; [congruence| |done]. by destruct Hp as [-> | ->].
Qed.

Lemma shown_rule_Some draft i r : shown_rule draft i = Some r → rules draft !! i = Some r.
Proof. unfold shown_rule. by case_bool_decide. Qed.

Lemma draft_ok_rules g l : draft_ok g → Forall rule_ok l → draft_ok (g <| rules := l |>).
Proof. intros [] ?. by split. Qed.

Lemma draft_ok_on_rule g i f :
  draft_ok g → (∀ r, rules g !! i = Some r → rule_ok r → rule_ok (f r)) → draft_ok (on_rule i f g).
Proof.
  intros Hg Hf. apply draft_ok_rules; [done|].
  apply Forall_alter; [by apply ok_rules|]. intros r Hr Hok. by apply Hf.
Qed.

Lemma bedtime_lookup g s :
  bedtime g ≫= rule_schedule = Some s →
  ∃ i r, bedtimeIndex g = Some i ∧ rules g !! i = Some r ∧ rule_schedule r = Some s.
Proof.
  unfold bedtime. destruct (bedtimeIndex g) as [i|]; [|done]. simpl.
  destruct (rules g !! i) as [r|] eqn:E; [|done]. simpl. eauto.
Qed.

Lemma onBedtimeTime_ok k v g :
  draft_ok g → ∃ g', onBedtimeTime k v g = inr g' ∧ draft_ok g'.
Proof.
  intros Hg. unfold onBedtimeTime.
  destruct (bedtime g ≫= rule_schedule) as [s|] eqn:E; [|by destruct (bedtimeIndex g); eauto].
  apply bedtime_lookup in E as (i & r & -> & Hr & Hs).
  assert (rule_ok r) as Hok by (eapply Forall_lookup_1; [by apply ok_rules|done]).
  pose proof (ok_windows _ Hok s Hs) as Hw. destruct (sch_windows s) as [|w ws] eqn:Ews; [done|].
  eexists. split; [done|]. apply (draft_ok_on_rule g i); [done|].
  intros r' Hr' _. assert (r' = r) as -> by congruence.
  apply (schedule_edit_ok r s (fun s => s <| sch_windows := set_window k v w :: ws |>
    <| sch_preset := None |>)); try done. by right.
Qed.

Lemma onBedtimeDays_ok sel g : draft_ok g → draft_ok (onBedtimeDays sel g).
Proof.
  intros Hg. unfold onBedtimeDays.
  destruct (bedtime g ≫= rule_schedule) as [s|] eqn:E; [|by destruct (bedtimeIndex g)].
  apply bedtime_lookup in E as (i & r & -> & Hr & Hs).
  assert (rule_ok r) as Hok by (eapply Forall_lookup_1; [by apply ok_rules|done]).
  apply (draft_ok_on_rule g i); [done|]. intros r' Hr' _. assert (r' = r) as -> by congruence.
  apply (schedule_edit_ok r s (fun s => s <| sch_weekdays := sortedDays sel |>
    <| sch_preset := None |>)); [done|done|done|by right|]. simpl. by eapply ok_windows.
Qed.

Lemma setBedtime_ok props b g : props_ok props → draft_ok g → draft_ok (setBedtime props b g).
Proof.
  intros [Htz _] Hg. unfold setBedtime. destruct b, (bedtimeIndex g); try done.
  - apply draft_ok_rules; [done|]. constructor; [by apply bedtimeRule_ok|by apply ok_rules].
  - apply draft_ok_rules; [done|]. apply Forall_app.
    split; [apply Forall_take|apply Forall_drop]; by apply ok_rules.
Qed.

Lemma moveRule_ok i off g : draft_ok g → draft_ok (moveRule i off g).
Proof.
  intros Hg. unfold moveRule. destruct (_ || _); [done|].
  destruct (rules g !! i) as [a|] eqn:Ea; [|done].
  destruct (rules g !! Z.to_nat _) as [b|] eqn:Eb; [|done].
  pose proof (ok_rules g Hg) as Hr. apply draft_ok_rules; [done|].
  apply Forall_insert; [apply Forall_insert; [done|]|]; by eapply Forall_lookup_1.
Qed.

Lemma rule_event_ok props e i f g r :
  props_ok props → rule_event props e = Some (i, f) → offered props e g = true →
  rules g !! i = Some r → rule_ok r → rule_ok (f r).
Proof.
  intros Hp He Ho Hr Hok.
  destruct e; simplify_eq/=; unfold on_change, set_rule_categories, set_rule_domains, setTargetKind.
  - by destruct Hok as [[] ? ? ? ? ?].
  - by destruct Hok as [[] ? ? ? ? ?].
  - destruct (shown_rule g i) as [r'|]; [|done].
    destruct Hok as [[Ha Hs] ? ? ? ? ?]; split; simpl; try done. split; simpl; [|done].
    apply orb_true_iff in Ho as [H|H]; apply bool_decide_eq_true in H; auto.
  - apply rule_ok_target; simpl; auto with form.
  - destruct (toggle _ _ _) eqn:E; [|done]. apply rule_ok_target; simpl; eauto with form.
  - destruct (add_entries _ _) eqn:E; [|done]. apply rule_ok_target; simpl; eauto with form.
  - apply rule_ok_target; simpl; eauto with form.
  - by apply setScheduleChoice_ok.
  - unfold onWindowTimeChange. destruct (rule_schedule r) as [s|] eqn:Es; [|done].
    destruct (sch_windows s) as [|w ws]; [done|].
    apply (schedule_edit_ok r s (fun s => s <| sch_windows := set_window key value w :: ws |>));
      [done|done|done|by left|done].
  - unfold setWeekdays. destruct (rule_schedule r) as [s|] eqn:Es; [|done].
    apply (schedule_edit_ok r s (fun s => s <| sch_weekdays := sortedDays selected |>));
      [done|done|done|by left|simpl; by eapply ok_windows].
  - by destruct Hok as [[] ? ? ? ? ?].
  - auto with form.
  - by apply addListEntry_ok.
  - apply rule_ok_field; [done|]. apply NoDup_filter_b. auto with form.
Qed.

Lemma form_step_ok props e g :
  props_ok props → draft_ok g → offered props e g = true →
  ∃ g', form_step props e g = inr g' ∧ draft_ok g'.
Proof.
  intros Hp Hg Ho.
  assert (∀ i f, rule_event props e = Some (i, f) → draft_ok (on_rule i f g)) as Hrule.
  { intros i f He. apply draft_ok_on_rule; [done|]. intros r Hr Hok. by eapply rule_event_ok. }
  destruct e; cbn [form_step];
    try (eexists; split; [reflexivity|by eapply Hrule]); try (by apply onBedtimeTime_ok);
    eexists; (split; [reflexivity|]).
  all: try (by destruct Hg); unfold on_change, set_domains, get_domains.
  - destruct (toggle _ _ _) eqn:E; [|done]. apply toggle_NoDup in E; [by destruct Hg|auto with form].
  - destruct (add_entries _ _) eqn:E; [|done].
    apply add_entries_NoDup in E; [by destruct Hg, which|destruct which; auto with form].
  - destruct Hg, which; split; simpl; auto with form.
  - by apply setBedtime_ok.
  - by apply onBedtimeDays_ok.
  - apply draft_ok_rules; [done|]. apply Forall_app. split; [by apply ok_rules|].
    constructor; [apply emptyRule_ok|constructor].
  - apply draft_ok_rules; [done|]. apply Forall_app.
    split; [apply Forall_take|apply Forall_drop]; by apply ok_rules.
  - by apply moveRule_ok.
Qed.

(** ** What the form promises *)

Lemma form_reachable_ok props g0 g :
  props_ok props → draft_ok g0 → form_reachable props g0 g → draft_ok g.
Proof.
  intros Hp H0. induction 1 as [|g e g' _ IH Ho Hs]; [done|].
  destruct (form_step_ok props e g Hp IH Ho) as (g'' & Hs' & Hg). congruence.
Qed.


Definition sample_props : FormProps := {|
  schedulePresets := [MkPreset (js "bedtime") (js "Bedtime") [] (js "UTC") [0; 1]%Z
                        [MkWindow (js "21:00") (js "06:00")]];
  fp_timezone := js "Europe/Berlin";
  fp_users := [js "anna"]
|}.

Lemma sample_props_ok : props_ok sample_props.
Proof. split; [done|]. repeat constructor; done. Qed.

Lemma emptyGroup_ok : draft_ok emptyGroup.
Proof. split; simpl; constructor. Qed.

(** Runs the events that are offered, and stops at one that is not. *)
Fixpoint form_run (props : FormProps) (es : list form_event) (g : PolicyGroup)
    : option PolicyGroup :=
  match es with
  | [] => Some g
  | e :: es' =>
      if offered props e g then
        match form_step props e g with inr g' => form_run props es' g' | inl _ => None end
      else None
  end.

Lemma form_run_reachable props g0 es g g' :
  form_reachable props g0 g → form_run props es g = Some g' → form_reachable props g0 g'.
Proof.
  revert g. induction es as [|e es IH]; intros g Hr H; simplify_eq/=; [done|].
  destruct (offered props e g) eqn:Ho; [|done].
  destruct (form_step props e g) as [|g''] eqn:Hs; [done|].
  eapply IH; [|done]. by eapply form_next.
Qed.

Definition sample_events : list form_event :=
  [EvName (js "Kids"); EvAddDomains BlockedDomains (js "https://a.com/x, b.com");
   EvAddRule; EvSetBedtime true; EvBedtimeTime KTo (js "06:30");
   EvSchedule 1 (js "bedtime"); EvEntryText 1 ContentTypes (js " Video/ ");
   EvAddEntry 1 ContentTypes; EvMoveRule 1 (-1)].


(** A card's inputs reach its own rule and nothing else of the draft. *)
Theorem rule_event_frame props e i f g :
  rule_event props e = Some (i, f) →
  ∃ g', form_step props e g = inr g' ∧
    rules g' !! i = f <$> rules g !! i ∧
    (∀ j, j ≠ i → rules g' !! j = rules g !! j) ∧
    length (rules g') = length (rules g) ∧
    g' = g <| rules := rules g' |>.
Proof.
  intros He. exists (on_rule i f g). split_and!.
  - by destruct e; simplify_eq/=.
  - simpl. apply list_lookup_alter_eq.
  - intros j Hj. simpl. by apply list_lookup_alter_ne.
  - simpl. apply length_alter.
  - done.
Qed.

Lemma rule_event_frame_witness :
  ∃ g', form_step sample_props (EvRuleName 0 (js "n")) (addRule emptyGroup) = inr g'.
Proof.
  destruct (rule_event_frame sample_props (EvRuleName 0 (js "n")) 0
    (fun r => r <| rule_name := js "n" |>) (addRule emptyGroup) eq_refl) as (g' & H & _).
  by exists g'.
Defined.

(** C32: The arrows of a card exchange the rule with its neighbour: the rules stay
    the same, every other rule keeps its place in the evaluation order, and
    the opposite arrow on the moved rule undoes it. *)
Theorem moveRule_spec props i off g :
  offered props (EvMoveRule i off) g = true →
  let j := Z.to_nat (Z.of_nat i + off) in
  let g' := moveRule i off g in
  rules g' ≡ₚ rules g ∧
  rules g' !! i = rules g !! j ∧ rules g' !! j = rules g !! i ∧
  (∀ k, k ≠ i → k ≠ j → rules g' !! k = rules g !! k) ∧
  moveRule j (- off) g' = g.
Proof.
  intros Ho. cbn [offered] in Ho. apply andb_true_iff in Ho as [Hr Ho].
  destruct (shown_rule g i) as [a|] eqn:Ea; [|done]. apply shown_rule_Some in Ea. clear Hr.
  pose proof (lookup_lt_Some _ _ _ Ea) as Hlt.
  assert ((off = -1)%Z ∧ i ≠ 0 ∨ off = 1%Z ∧ S i < length (rules g)) as Hoff.
  { apply orb_true_iff in Ho as [Ho|Ho]; split_bools; lia. }
  clear Ho. set (j := Z.to_nat (Z.of_nat i + off)).
  assert (Z.of_nat j = Z.of_nat i + off)%Z as Hj by lia.
  assert (j < length (rules g)) as Hjl by lia.
  destruct (lookup_lt_is_Some_2 _ _ Hjl) as [b Hb].
  assert (i ≠ j) as Hij by lia.
  assert (moveRule i off g = g <| rules := <[j := a]> (<[i := b]> (rules g)) |>) as E.
  { unfold moveRule. fold j. rewrite Ea, Hb. by destruct (_ || _) eqn:?; [lia|]. }
  cbv zeta. rewrite E. simpl. split_and!.
  - by apply Permutation_insert_swap.
  - rewrite list_lookup_insert_ne by done. rewrite list_lookup_insert_eq by done. done.
  - rewrite list_lookup_insert_eq by (by rewrite length_insert). done.
  - intros k ??. by rewrite !list_lookup_insert_ne by done.
  - unfold moveRule. simpl. rewrite !length_insert.
    assert (Z.to_nat (Z.of_nat j + - off) = i) as -> by lia.
    rewrite list_lookup_insert_eq by (by rewrite length_insert).
    rewrite list_lookup_insert_ne, list_lookup_insert_eq by done.
    destruct (_ || _) eqn:?; [lia|]. destruct g; simpl in *. f_equal.
    rewrite list_insert_insert_eq, list_insert_insert_ne, list_insert_insert_eq by done.
    rewrite list_insert_id by (by rewrite list_lookup_insert_ne). by apply list_insert_id.
Qed.

Lemma moveRule_spec_witness :
  let g := addRule (addRule emptyGroup) in
  moveRule 0 1 g ≠ g <| rules := [] |> ∧ rules (moveRule 0 1 g) ≡ₚ rules g.
Proof.
  split; [intros H; apply (f_equal rules) in H; vm_compute in H; discriminate H|].
  apply (moveRule_spec sample_props 0 1 (addRule (addRule emptyGroup))).
  vm_compute. reflexivity.
Defined.

(** C31: The bedtime switch: on, the draft has a bedtime rule ahead of the others,
    which it keeps, and the policy's summary says so; off, the rule the section
    shows is gone and the others stay in order; off undoes on. *)
Theorem setBedtime_spec props g :
  (bedtime g = None →
     let g' := setBedtime props true g in
     (∃ r, bedtime g' = Some r ∧ rules g' = r :: rules g ∧ rule_enabled r = true) ∧
     setBedtime props false g' = g) ∧
  (∀ i r, bedtimeIndex g = Some i → rules g !! i = Some r →
     setBedtime props true g = g ∧
     rules g = take i (rules g) ++ r :: drop (S i) (rules g) ∧
     rules (setBedtime props false g) = take i (rules g) ++ drop (S i) (rules g)).
Proof.
  split.
  - intros Hn. cbv zeta.
    assert (bedtimeIndex g = None) as Hi.
    { unfold bedtime in Hn. destruct (bedtimeIndex g) as [i|] eqn:E; [|done]. simpl in Hn.
      apply findIndex_Some in E as (r & Hr & _). congruence. }
    destruct (setBedtime props true g) as [] eqn:E; revert E.
    unfold setBedtime. rewrite Hi. intros <-. split.
    + eexists. split_and!; reflexivity.
    + by destruct g.
  - intros i r Hi Hr. unfold setBedtime. rewrite Hi. split_and!; [done| |done].
    by rewrite take_drop_middle.
Qed.

Lemma setBedtime_spec_witness :
  setBedtime sample_props false (setBedtime sample_props true emptyGroup) = emptyGroup.
Proof. apply (setBedtime_spec sample_props emptyGroup). reflexivity. Defined.

(** The schedule select shows the choice just made, and a preset's choice
    stores the preset's own hours and days. *)
Theorem scheduleChoice_setScheduleChoice props choice r :
  props_ok props →
  choice = [] ∨ choice = SCHEDULE_PRESET_CUSTOM ∨ choice ∈ pre_id <$> schedulePresets props →
  scheduleChoice (setScheduleChoice props choice r) = choice ∧
  (choice ≠ [] → choice ≠ SCHEDULE_PRESET_CUSTOM →
     ∃ p s, p ∈ schedulePresets props ∧ pre_id p = choice ∧
       rule_schedule (setScheduleChoice props choice r) = Some s ∧
       sch_windows s = pre_windows p ∧ sch_weekdays s = pre_weekdays p).
Proof.
  intros [_ Hp] Hc. unfold setScheduleChoice.
  destruct choice as [|c cs]; [split; [done|by intros ?]|]. simpl negb. cbv iota.
  case_bool_decide as Hcustom; [split; [by rewrite Hcustom|by intros ?]|].
  destruct Hc as [?|[?|Hc]]; [done|done|].
  destruct (find _ _) as [p|] eqn:E.
  - apply find_Some_elem in E as [Hin Hid]. apply bool_decide_eq_true in Hid. simpl. split.
    + unfold scheduleChoice. simpl. rewrite Hid. done.
    + intros _ _. exists p. eexists. split_and!; [done|done|reflexivity| |done].
      simpl. rewrite <-(list_fmap_id (pre_windows p)) at 2. apply list_fmap_ext. by intros _ [] _.
  - apply list_elem_of_fmap in Hc as (p & Hp1 & Hp2).
    pose proof (find_None_elem _ _ _ E Hp2) as Hf. cbv beta in Hf.
    by rewrite bool_decide_true in Hf.
Qed.

Lemma scheduleChoice_setScheduleChoice_witness :
  scheduleChoice (setScheduleChoice sample_props (js "bedtime") emptyRule) = js "bedtime".
Proof.
  apply (scheduleChoice_setScheduleChoice sample_props (js "bedtime") emptyRule sample_props_ok).
  right. right. left.
Defined.

(** ** What the form does not prevent *)

(** A rule that is given a URL pattern and then switched to "allow" keeps the
    pattern, with the fields that would remove it hidden. *)
Theorem allow_keeps_conditions :
  ∃ g r, form_reachable sample_props emptyGroup g ∧ rules g = [r] ∧
    rule_action r = js "allow" ∧ url_regexes r ≠ [] ∧ conditionsAllowed r = false ∧
    (∀ f v, offered sample_props (EvRemoveEntry 0 f v) g = false) ∧
    out_url_regexes <$> head (out_rules (persistableGroup g)) = Some (url_regexes r).
Proof.
  destruct (form_run sample_props [EvAddRule; EvEntryText 0 UrlRegexes (js "/shorts/");
    EvAddEntry 0 UrlRegexes; EvRuleAction 0 (js "allow")] emptyGroup) as [g|] eqn:E;
    [|vm_compute in E; discriminate E].
  pose proof (form_run_reachable _ _ _ _ _ (form_init _ _) E) as Hr.
  vm_compute in E. injection E as <-. do 2 eexists. split_and!; [exact Hr|..]; try reflexivity.
  by vm_compute.
Qed.

(** A custom rule that is switched off and then given the shape of a bedtime
    rule is shown as the bedtime switch, on, and has no card to enable it. *)
Theorem disabled_bedtime_shown_on :
  ∃ g r, form_reachable sample_props emptyGroup g ∧ bedtime g = Some r ∧
    rule_enabled r = false ∧ (∀ i b, offered sample_props (EvRuleEnabled i b) g = false) ∧
    policySummary g id = js "Blocks nothing of its own".
Proof.
  destruct (form_run sample_props [EvAddRule; EvRuleEnabled 0 false; EvSchedule 0 (js "custom");
    EvTargetKind 0 (js "all")] emptyGroup) as [g|] eqn:E; [|vm_compute in E; discriminate E].
  pose proof (form_run_reachable _ _ _ _ _ (form_init _ _) E) as Hr.
  vm_compute in E. injection E as <-. do 2 eexists. split_and!; [exact Hr|reflexivity|reflexivity|..].
  - intros [|i] b; reflexivity.
  - vm_compute. reflexivity.
Qed.
