(* ===== verification/GroupFormView.v ===== *)
(** * The template of the policy form

    The markup of [routes/rules/groupform.svelte] with its two inputs
    [routes/rules/categoryselect.svelte] and [routes/rules/domainlist.svelte],
    and the proof that the controls it offers are the inputs [GroupForm.offered]
    lists, so that what [GroupForm] proves holds for everything a user can do
    with the form. *)

From S2P Require Import Prelude JsString JsAsync View PolicyModel DomainList GroupForm.
Open Scope js_scope.

(** ** The inputs *)

Section Inputs.
(** [Number.prototype.toLocaleString]. *)
Context (toLocaleString : Z → jstr).

Definition coverageLabel (category : CategoryStatus) : jstr :=
  if bool_decide (domain_count category = 0%Z) then js "Not downloaded yet"
  else toLocaleString (domain_count category) ++ js " domains".

(** [toggle] raises [change id checked]. *)
Definition categoryselect_view {E} (categories : list CategoryStatus) (selection : list jstr)
    (disabled compact : bool) (change : jstr → bool → E) : node E :=
  El "div" [Flag "class:compact" compact] [
    each categories (fun category => [
      El "div" [] [
        El "div" [] [
          El "Checkbox" [
            Attr "labelText" (cat_name category);
            Flag "checked" (includes selection (cat_id category));
            Disabled disabled;
            OnAny "check" (fun checked : bool => change (cat_id category) checked)
          ] [];
          El "span" [] [Text (coverageLabel category)]
        ];
        shown (negb compact) [El "p" [] [Text (cat_description category)]]
      ]])
  ].
End Inputs.

(** The text in the box is the component's own [draft]: adding raises [add]
    with what was typed, on the button and on Enter. *)
Definition domainlist_view {E} (entries : list jstr) (label : jstr) (add : jstr → E)
    (remove : jstr → E) : node E :=
  Frag [
    El "div" [] [
      El "TextInput" [
        Attr "labelText" label; lit "placeholder" "tiktok.com (covers its subdomains)";
        OnAny "keydown" add
      ] [];
      El "Button" [OnAny "click" add] [txt "Add"]
    ];
    shown (negb (is_nil entries)) [
      El "div" [] [
        each entries (fun entry => [El "Tag" [On "close" (remove entry)] [Text entry]])
      ]
    ]
  ].

(** ** The form *)

Inductive form_view_event :=
| Edit (e : form_event)
| Save
| Cancel.

Definition weekday_ids (sel : list jstr) : bool := forallb (fun id => includes (fst <$> WEEKDAYS) id) sel.
Definition user_items (users : list jstr) : list (jstr * jstr) := (fun user => (user, user)) <$> users.
Definition user_ids (users sel : list jstr) : bool := forallb (includes users) sel.

(** [schedule.windows[0]?.[key] || ""]. *)
Definition window_value (key : WindowKey) (schedule : Schedule) : jstr :=
  match head (sch_windows schedule) with
  | Some w => match key with KFrom => from w | KTo => to w end
  | None => []
  end.

Section Form.
Context (toLocaleString : Z → jstr).
Context (props : FormProps) (categories : list CategoryStatus) (saving : bool).
(** [hasAdvancedSettings(draft)] when the form was opened. *)
Context (startAdvanced : bool) (draft : PolicyGroup).

Definition isDefault : bool := bool_decide (grp_id draft = DEFAULT_GROUP_ID).

Definition basic_view : node form_event :=
  El "FormGroup" [lit "legendText" "Basic protection"] [
    El "p" [] [txt "Name the policy, choose broad categories, and add site exceptions."];
    El "div" [] [
      El "TextInput" [lit "labelText" "Name"; lit "placeholder" "Kids"; Attr "value" (grp_name draft);
        OnAny "bind:value" (fun v => EvName v)] []
    ];
    El "fieldset" [] [
      El "legend" [] [txt "Blocked categories"];
      El "p" [] [txt "Lists of sites that update themselves."];
      categoryselect_view toLocaleString categories (blocked_categories draft) false false
        (fun id checked => EvCategory id checked)
    ];
    El "Row" [] [
      El "Column" [] [
        El "fieldset" [] [
          El "legend" [] [txt "Blocked domains"];
          domainlist_view (blocked_domains draft) (js "Block a domain")
            (fun entry => EvAddDomains BlockedDomains entry)
            (fun entry => EvRemoveDomain BlockedDomains entry)
        ]
      ];
      El "Column" [] [
        El "fieldset" [] [
          El "legend" [] [txt "Always allowed domains"];
          domainlist_view (allowed_domains draft) (js "Allow a domain")
            (fun entry => EvAddDomains AllowedDomains entry)
            (fun entry => EvRemoveDomain AllowedDomains entry);
          El "p" [] [txt "Always reachable, even if a blocked category lists it."]
        ]
      ]
    ];
    El "div" [] [
      El "Toggle" [
        lit "labelText" "Safe search"; lit "labelA" "Off";
        lit "labelB" "Google, Bing, DuckDuckGo, and YouTube restricted mode";
        Flag "toggled" (safe_search draft);
        OnAny "bind:toggled" (fun b : bool => EvSafeSearch b)
      ] []
    ]
  ].

Definition timepicker (label : string) (value : jstr) (change : jstr → form_event) : node form_event :=
  El "TimePicker" [
    lit "labelText" label; lit "placeholder" "HH:MM";
    lit "pattern" "([01][0-9]|2[0-3]):[0-5][0-9]"; Attr "value" value;
    OnAny "change" (fun v => change v)
  ] [].

Definition bedtime_view : node form_event :=
  El "FormGroup" [lit "legendText" "Schedule"] [
    El "p" [] [txt "Optionally pause internet access overnight in the gateway time zone."];
    El "Toggle" [
      lit "labelText" "Bedtime"; lit "labelA" "Off"; lit "labelB" "No internet during these hours";
      Flag "toggled" (match bedtime draft with Some _ => true | None => false end);
      OnAny "toggle" (fun b : bool => EvSetBedtime b)
    ] [];
    given (bedtime draft ≫= rule_schedule) (fun schedule => [
      El "div" [] [
        timepicker "From" (window_value KFrom schedule) (EvBedtimeTime KFrom);
        timepicker "Until" (window_value KTo schedule) (EvBedtimeTime KTo);
        El "MultiSelect" [
          lit "titleText" "Nights"; lit "label" "Every night"; Items WEEKDAYS;
          Ids "selectedIds" (of_Z <$> sch_weekdays schedule);
          OnValue "select" weekday_ids (fun sel => EvBedtimeDays sel)
        ] []
      ];
      El "p" [] [
        txt "A night lasts until the next morning, in ";
        Text (str_or (sch_timezone schedule) (js "UTC")); txt "."
      ]
    ])
  ].

(** ** A rule's card *)

Definition rule_head_view (index : nat) (rule : GroupRule) : node form_event :=
  El "div" [] [
    El "h5" [] [txt "Rule "; Text (of_nat (index + 1))];
    El "div" [] [
      El "Toggle" [
        lit "labelText" "Enabled"; Flag "hideLabel" true; Flag "toggled" (rule_enabled rule);
        OnAny "bind:toggled" (fun b : bool => EvRuleEnabled index b)
      ] [];
      El "Button" [
        lit "iconDescription" "Move rule up"; Disabled (index =? 0)%nat;
        On "click" (EvMoveRule index (-1))
      ] [];
      El "Button" [
        lit "iconDescription" "Move rule down"; Disabled (index =? length (rules draft) - 1)%nat;
        On "click" (EvMoveRule index 1)
      ] [];
      El "Button" [lit "kind" "danger-ghost"; On "click" (EvRemoveRule index)] [txt "Remove rule"]
    ]
  ].

Definition rule_row_view (index : nat) (rule : GroupRule) : node form_event :=
  El "Row" [] [
    El "Column" [] [
      El "TextInput" [
        lit "labelText" "Name"; lit "placeholder" "After school"; Attr "value" (rule_name rule);
        OnAny "bind:value" (fun v => EvRuleName index v)
      ] []
    ];
    El "Column" [] [
      El "Select" [
        lit "labelText" "Action"; Attr "selected" (rule_action rule);
        OnValue "bind:selected" (fun a => bool_decide (a = js "block") || bool_decide (a = js "allow"))
          (fun a => EvRuleAction index a)
      ] [
        El "SelectItem" [lit "value" "block"; lit "text" "Block"] [];
        El "SelectItem" [lit "value" "allow"; lit "text" "Allow"] []
      ]
    ];
    El "Column" [] [
      El "Select" [
        lit "labelText" "Applies to";
        Attr "selected" (if all_traffic (rule_target rule) then js "all" else js "listed");
        OnValue "change" (fun v => bool_decide (v = js "listed") || bool_decide (v = js "all"))
          (fun v => EvTargetKind index v)
      ] [
        El "SelectItem" [lit "value" "listed"; lit "text" "Selected categories and domains"] [];
        El "SelectItem" [lit "value" "all"; lit "text" "All traffic"] []
      ]
    ]
  ].

Definition rule_target_view (index : nat) (rule : GroupRule) : node form_event :=
  shown (negb (all_traffic (rule_target rule))) [
    El "div" [] [
      categoryselect_view toLocaleString categories (tgt_categories (rule_target rule)) false true
        (fun id checked => EvRuleCategory index id checked);
      domainlist_view (tgt_domains (rule_target rule)) (js "Domain")
        (fun entry => EvRuleAddDomains index entry)
        (fun entry => EvRuleRemoveDomain index entry)
    ]
  ].

Definition rule_schedule_view (index : nat) (rule : GroupRule) : node form_event :=
  Frag [
    El "Select" [
      lit "labelText" "When"; Attr "selected" (scheduleChoice rule);
      Attr "helperText"
        (match rule_schedule rule with
         | Some s => scheduleLabel (Some s) ++ js " (" ++ str_or (sch_timezone s) (js "UTC") ++ js ")"
         | None => []
         end);
      OnValue "change" (fun v => negb (truthy v) || bool_decide (v = SCHEDULE_PRESET_CUSTOM)
                                 || includes (pre_id <$> schedulePresets props) v)
        (fun v => EvSchedule index v)
    ] [
      El "SelectItem" [lit "value" ""; lit "text" "Always"] [];
      each (schedulePresets props) (fun preset => [
        El "SelectItem" [Attr "value" (pre_id preset); Attr "text" (presetLabel preset)] []]);
      El "SelectItem" [Attr "value" SCHEDULE_PRESET_CUSTOM; lit "text" "Custom hours"] []
    ];
    given (rule_schedule rule) (fun schedule => [
      shown (negb (truthy (default [] (sch_preset schedule)))) [
        El "div" [] [
          timepicker "From" (window_value KFrom schedule) (EvWindowTime index KFrom);
          timepicker "To" (window_value KTo schedule) (EvWindowTime index KTo)
        ];
        El "MultiSelect" [
          lit "titleText" "Days"; lit "label" "Every day"; Items WEEKDAYS;
          Ids "selectedIds" (of_Z <$> sch_weekdays schedule);
          OnValue "select" weekday_ids (fun sel => EvWeekdays index sel)
        ] []
      ]
    ])
  ].

Definition rule_users_view (index : nat) (rule : GroupRule) : node form_event :=
  shown (negb (is_nil (fp_users props))) [
    El "MultiSelect" [
      lit "titleText" "Only for proxy users"; lit "label" "Everyone on this policy";
      Items (user_items (fp_users props)); Ids "selectedIds" (rule_users rule);
      OnValue "select" (user_ids (fp_users props)) (fun sel => EvRuleUsers index sel)
    ] []
  ].

Definition list_entry_view (index : nat) (rule : GroupRule) (field : ListField)
    (labelText placeholder addText : string) : node form_event :=
  El "Column" [] [
    El "div" [] [
      El "TextInput" [
        lit "labelText" labelText; lit "placeholder" placeholder; Attr "value" (get_draft field rule);
        OnAny "bind:value" (fun v => EvEntryText index field v);
        On "keydown" (EvAddEntry index field)
      ] [];
      El "Button" [On "click" (EvAddEntry index field)] [txt addText]
    ];
    shown (negb (is_nil (get_field field rule))) [
      El "div" [] [
        each (get_field field rule) (fun value => [
          El "Tag" [On "close" (EvRemoveEntry index field value)] [Text value]])
      ]
    ]
  ].

Definition rule_conditions_view (index : nat) (rule : GroupRule) : node form_event :=
  shown (conditionsAllowed rule) [
    El "div" [] [
      El "Accordion" [] [
        El "AccordionItem" [
          lit "title" "Block only part of the site";
          Flag "open" (negb (is_nil (url_regexes rule)) || negb (is_nil (blocked_content_types rule)))
        ] [
          El "Row" [] [
            list_entry_view index rule UrlRegexes "URL pattern (regular expression)" "/shorts/" "Add pattern";
            list_entry_view index rule ContentTypes "Response type" "video/" "Add type"
          ]
        ]
      ]
    ]
  ].

Definition rule_view (index : nat) (rule : GroupRule) : node form_event :=
  El "div" [] [
    rule_head_view index rule;
    rule_row_view index rule;
    rule_target_view index rule;
    El "Row" [] [
      El "Column" [] [rule_schedule_view index rule];
      El "Column" [] [rule_users_view index rule]
    ];
    rule_conditions_view index rule;
    shown (needsProxy rule) [
      El "p" [] [txt "DNS cannot see URLs, response types, or proxy logins, so this rule is enforced by the proxy only. Devices that use GateSentry for DNS alone are not affected by it."]
    ]
  ].

(** ** The advanced section and the form *)

Definition cards_view : node form_event :=
  each (imap pair (rules draft)) (fun '(index, rule) => [
    shown (negb (bool_decide (bedtimeIndex draft = Some index))) [rule_view index rule]]).

Definition advanced_view : node form_event :=
  El "FormGroup" [lit "legendText" "Advanced rules"] [
    El "p" [] [txt "Use only when basic category, domain, safe-search, and bedtime controls are not enough."];
    El "Accordion" [] [
      El "AccordionItem" [
        lit "title" "Custom rules, proxy users, and description"; Flag "open" startAdvanced
      ] [
        El "TextArea" [
          lit "labelText" "Description"; Attr "value" (grp_description draft);
          OnAny "bind:value" (fun v => EvDescription v)
        ] [];
        shown (negb isDefault && negb (is_nil (fp_users props))) [
          El "MultiSelect" [
            lit "titleText" "Proxy users on this policy"; lit "label" "Only devices assigned to it";
            Items (user_items (fp_users props)); Ids "selectedIds" (grp_users draft);
            OnValue "select" (user_ids (fp_users props)) (fun sel => EvGroupUsers sel)
          ] [];
          El "p" [] [txt "A signed-in proxy user gets this policy on any device."]
        ];
        El "fieldset" [] [
          El "legend" [] [txt "Rules"];
          El "p" [] [txt "Rules run top to bottom before the lists above, and the first match decides. Use them for scheduled site exceptions, per-user exceptions, or blocking part of a site."];
          cards_view;
          El "Button" [lit "kind" "tertiary"; On "click" (EvAddRule)] [txt "Add rule"]
        ]
      ]
    ]
  ].

(** A form whose submit button is disabled cannot be submitted, by the button
    or by Enter in one of its inputs. *)
Definition form_view : node form_view_event :=
  El "form" [PrimaryDisabled saving; On "submit" Save] [
    El "div" [] [embed Edit basic_view];
    El "div" [] [embed Edit bedtime_view];
    El "div" [] [embed Edit advanced_view];
    El "div" [lit "aria-label" "Policy actions"] [
      El "Button" [lit "type" "submit"; Disabled saving] [txt "Save policy"];
      El "Button" [lit "type" "button"; lit "kind" "ghost"; On "click" Cancel] [txt "Cancel"]
    ]
  ].
End Form.

(** ** What the template offers *)

Section Offers.
Context (toLocaleString : Z → jstr).
Context (props : FormProps) (categories : list CategoryStatus) (saving : bool).
Context (startAdvanced : bool) (draft : PolicyGroup).

Lemma offers_categoryselect {E} selection disabled compact (change : jstr → bool → E) e :
  offers (categoryselect_view toLocaleString categories selection disabled compact change) e ↔
    disabled = false ∧ ∃ id checked, id ∈ cat_id <$> categories ∧ e = change id checked.
Proof.
  unfold categoryselect_view. view_simpl. setoid_rewrite list_elem_of_fmap. destruct disabled; naive_solver.
Qed.

Lemma offers_domainlist {E} entries label (add remove : jstr → E) e :
  offers (domainlist_view entries label add remove) e ↔
    (∃ entry, e = add entry) ∨ (∃ entry, entry ∈ entries ∧ e = remove entry).
Proof.
  unfold domainlist_view. view_simpl.
  destruct entries; simpl; [|naive_solver]. setoid_rewrite elem_of_nil. naive_solver.
Qed.

Lemma basic_offers e :
  offers (basic_view toLocaleString categories draft) e ↔
    match e with
    | EvName _ | EvSafeSearch _ | EvAddDomains _ _ => True
    | EvCategory id _ => id ∈ cat_id <$> categories
    | EvRemoveDomain w entry => entry ∈ get_domains w draft
    | _ => False
    end.
Proof.
  unfold basic_view. view_simpl. rewrite offers_categoryselect, !offers_domainlist.
  view_table e.
  - destruct which; naive_solver.
  - destruct which; naive_solver.
Qed.

Lemma bedtime_offers e :
  offers (bedtime_view draft) e ↔
    match e with
    | EvSetBedtime _ => True
    | EvBedtimeTime _ _ => is_Some (bedtime draft ≫= rule_schedule)
    | EvBedtimeDays sel => is_Some (bedtime draft ≫= rule_schedule) ∧ weekday_ids sel = true
    | _ => False
    end.
Proof.
  unfold bedtime_view, timepicker, is_Some. view_simpl.
  view_table e. destruct key; naive_solver.
Qed.

Lemma rule_head_offers i r e :
  offers (rule_head_view draft i r) e ↔
    match e with
    | EvRuleEnabled j _ | EvRemoveRule j => j = i
    | EvMoveRule j off => j = i ∧ (off = (-1)%Z ∧ i ≠ 0 ∨ off = 1%Z ∧ i ≠ length (rules draft) - 1)
    | _ => False
    end.
Proof.
  unfold rule_head_view. view_simpl. rewrite !andb_true_r, !negb_true_iff, !Nat.eqb_neq.
  view_table e.
Qed.

Lemma rule_row_offers i r e :
  offers (rule_row_view i r) e ↔
    match e with
    | EvRuleName j _ => j = i
    | EvRuleAction j a => j = i ∧ bool_decide (a = js "block") || bool_decide (a = js "allow") = true
    | EvTargetKind j v => j = i ∧ bool_decide (v = js "listed") || bool_decide (v = js "all") = true
    | _ => False
    end.
Proof. unfold rule_row_view. view_simpl. view_table e. Qed.

Lemma rule_target_offers i r e :
  offers (rule_target_view toLocaleString categories i r) e ↔
    all_traffic (rule_target r) = false ∧
    match e with
    | EvRuleCategory j id _ => j = i ∧ id ∈ cat_id <$> categories
    | EvRuleAddDomains j _ => j = i
    | EvRuleRemoveDomain j entry => j = i ∧ entry ∈ tgt_domains (rule_target r)
    | _ => False
    end.
Proof.
  unfold rule_target_view. view_simpl. rewrite offers_categoryselect, offers_domainlist, negb_true_iff.
  view_table e.
Qed.

Lemma rule_schedule_offers i r e :
  offers (rule_schedule_view props i r) e ↔
    match e with
    | EvSchedule j v => j = i ∧ negb (truthy v) || bool_decide (v = SCHEDULE_PRESET_CUSTOM)
                                || includes (pre_id <$> schedulePresets props) v = true
    | EvWindowTime j _ _ => j = i ∧ has_custom_schedule r = true
    | EvWeekdays j sel => j = i ∧ has_custom_schedule r = true ∧ weekday_ids sel = true
    | _ => False
    end.
Proof.
  unfold rule_schedule_view, timepicker, has_custom_schedule. view_simpl.
  destruct (rule_schedule r) as [s|]; [destruct (negb (truthy (default [] (sch_preset s)))) eqn:Ep|].
  - view_table e. destruct key; naive_solver.
  - view_table e.
  - view_table e.
Qed.

Lemma rule_users_offers i r e :
  offers (rule_users_view props i r) e ↔
    match e with
    | EvRuleUsers j sel => j = i ∧ is_nil (fp_users props) = false ∧ user_ids (fp_users props) sel = true
    | _ => False
    end.
Proof. unfold rule_users_view. view_simpl. rewrite negb_true_iff. view_table e. Qed.

Lemma list_entry_offers i r field labelText placeholder addText e :
  offers (list_entry_view i r field labelText placeholder addText) e ↔
    match e with
    | EvEntryText j f _ | EvAddEntry j f => j = i ∧ f = field
    | EvRemoveEntry j f v => j = i ∧ f = field ∧ v ∈ get_field field r
    | _ => False
    end.
Proof.
  unfold list_entry_view. view_simpl. destruct (get_field field r) eqn:El; simpl.
  - view_table e. set_solver.
  - view_table e.
Qed.

Lemma rule_conditions_offers i r e :
  offers (rule_conditions_view i r) e ↔
    conditionsAllowed r = true ∧
    match e with
    | EvEntryText j _ _ | EvAddEntry j _ => j = i
    | EvRemoveEntry j f v => j = i ∧ v ∈ get_field f r
    | _ => False
    end.
Proof.
  unfold rule_conditions_view. view_simpl. rewrite !list_entry_offers.
  destruct e; simpl; try tauto; destruct field; intuition (done || congruence).
Qed.

(** The events of a rule's card, with the rule they are about. *)
Definition card_offers (i : nat) (r : GroupRule) (e : form_event) : Prop :=
  match e with
  | EvRuleEnabled j _ | EvRemoveRule j | EvRuleName j _ => j = i
  | EvMoveRule j off => j = i ∧ (off = (-1)%Z ∧ i ≠ 0 ∨ off = 1%Z ∧ i ≠ length (rules draft) - 1)
  | EvRuleAction j a => j = i ∧ bool_decide (a = js "block") || bool_decide (a = js "allow") = true
  | EvTargetKind j v => j = i ∧ bool_decide (v = js "listed") || bool_decide (v = js "all") = true
  | EvRuleCategory j id _ => j = i ∧ all_traffic (rule_target r) = false ∧ id ∈ cat_id <$> categories
  | EvRuleAddDomains j _ => j = i ∧ all_traffic (rule_target r) = false
  | EvRuleRemoveDomain j entry =>
      j = i ∧ all_traffic (rule_target r) = false ∧ entry ∈ tgt_domains (rule_target r)
  | EvSchedule j v => j = i ∧ negb (truthy v) || bool_decide (v = SCHEDULE_PRESET_CUSTOM)
                              || includes (pre_id <$> schedulePresets props) v = true
  | EvWindowTime j _ _ => j = i ∧ has_custom_schedule r = true
  | EvWeekdays j sel => j = i ∧ has_custom_schedule r = true ∧ weekday_ids sel = true
  | EvRuleUsers j sel => j = i ∧ is_nil (fp_users props) = false ∧ user_ids (fp_users props) sel = true
  | EvEntryText j _ _ | EvAddEntry j _ => j = i ∧ conditionsAllowed r = true
  | EvRemoveEntry j f v => j = i ∧ conditionsAllowed r = true ∧ v ∈ get_field f r
  | _ => False
  end.

Lemma rule_offers i r e :
  offers (rule_view toLocaleString props categories draft i r) e ↔ card_offers i r e.
Proof.
  unfold rule_view. view_simpl.
  rewrite rule_head_offers, rule_row_offers, rule_target_offers, rule_schedule_offers,
    rule_users_offers, rule_conditions_offers.
  destruct e; simpl; tauto.
Qed.

(** The cards are those of the rules that [GroupForm] calls shown. *)
Lemma cards_offer e :
  offers (cards_view toLocaleString props categories draft) e ↔
  ∃ i r, shown_rule draft i = Some r ∧ card_offers i r e.
Proof.
  setoid_rewrite <-rule_offers. unfold cards_view, shown_rule. cbn [offers]. split.
  - intros ([i r] & Hx & H). apply elem_of_lookup_imap_1 in Hx as (j & r' & [= -> ->] & Hl).
    cbn [any_of offers] in H. destruct H as [[Hb [H|[]]]|[]]. exists j, r'.
    by case_bool_decide.
  - intros (i & r & Hs & H). exists (i, r). case_bool_decide as Hb; [done|]. split.
    + apply elem_of_lookup_imap. eauto.
    + cbn [any_of offers]. left. split; [done|by left].
Qed.

Lemma advanced_offers e :
  offers (advanced_view toLocaleString props categories startAdvanced draft) e ↔
    (∃ v, e = EvDescription v) ∨
    (∃ sel, e = EvGroupUsers sel ∧ isDefault draft = false ∧ is_nil (fp_users props) = false ∧
       user_ids (fp_users props) sel = true) ∨
    (∃ i r, shown_rule draft i = Some r ∧ card_offers i r e) ∨ e = EvAddRule.
Proof.
  unfold advanced_view. view_simpl. rewrite cards_offer, andb_true_iff, !negb_true_iff.
  split; intros; view_destruct; simplify_eq; view_find.
Qed.

(** The category switches are those of the categories the page knows. *)
Definition category_listed (e : form_event) : Prop :=
  match e with EvCategory id _ | EvRuleCategory _ id _ => id ∈ cat_id <$> categories | _ => True end.

Lemma on_card_spec j (P : GroupRule → Prop) (p : GroupRule → bool) (Q : Prop) :
  (∀ r, P r ↔ p r = true ∧ Q) →
  (∃ i r, shown_rule draft i = Some r ∧ j = i ∧ P r) ↔
  match shown_rule draft j with Some r => p r | None => false end = true ∧ Q.
Proof.
  intros HP. split.
  - intros (i & r & Hs & -> & H). rewrite Hs. by apply HP.
  - intros [H HQ]. destruct (shown_rule draft j) as [r|] eqn:E; [|done]. exists j, r. by rewrite HP.
Qed.

Definition card_event (e : form_event) : bool :=
  match e with
  | EvName _ | EvDescription _ | EvSafeSearch _ | EvCategory _ _ | EvAddDomains _ _
  | EvRemoveDomain _ _ | EvSetBedtime _ | EvBedtimeTime _ _ | EvBedtimeDays _ | EvGroupUsers _
  | EvAddRule => false
  | _ => true
  end.

Lemma card_offered e :
  (∃ i r, shown_rule draft i = Some r ∧ card_offers i r e) ↔
  card_event e = true ∧ offered props e draft = true ∧ category_listed e.
Proof.
  destruct e; cbn [card_offers card_event category_listed]; unfold offered, user_ids, weekday_ids.
  all: try (split; [by intros (? & ? & ? & [])|by intros [? ?]]).
  all: destruct (shown_rule draft _) as [r|] eqn:Hs;
    [|split; [intros (i & r' & Hs' & H); view_destruct; subst; congruence|by intros (_ & H & _)]].
  2: rewrite andb_true_iff, orb_true_iff, !andb_true_iff, !negb_true_iff, !Nat.eqb_neq, !bool_decide_eq_true.
  all: rewrite ?andb_true_iff, ?negb_true_iff, ?includes_spec.
  all: split; [intros (i & r' & Hs' & H); view_destruct; subst; simplify_eq; tauto
              |intros (_ & H & HQ); exists index, r; tauto].
Qed.

Lemma plain_offered e :
  (offers (basic_view toLocaleString categories draft) e ∨ offers (bedtime_view draft) e ∨
   (∃ v, e = EvDescription v) ∨
   (∃ sel, e = EvGroupUsers sel ∧ isDefault draft = false ∧ is_nil (fp_users props) = false ∧
      user_ids (fp_users props) sel = true) ∨ e = EvAddRule) ↔
  card_event e = false ∧ offered props e draft = true ∧ category_listed e.
Proof.
  rewrite basic_offers, bedtime_offers. unfold is_Some, isDefault, user_ids, weekday_ids.
  destruct e; cbn [card_event category_listed]; unfold offered;
    rewrite ?andb_true_iff, ?negb_true_iff, ?includes_spec;
    try (destruct (bedtime draft ≫= rule_schedule)); naive_solver.
Qed.

(** C10: The controls of the form's template are exactly the inputs that
    [GroupForm.offered] lists, category switches being those of the known
    categories; saving is offered exactly while no save is under way. *)
Theorem form_view_offers e :
  let view := form_view toLocaleString props categories saving startAdvanced draft in
  (offers view (Edit e) ↔ offered props e draft = true ∧ category_listed e) ∧
  (offers view Save ↔ saving = false) ∧ offers view Cancel.
Proof.
  assert (∀ P : form_event → Prop, (∃ e', Edit e = Edit e' ∧ P e') ↔ P e) as He.
  { intros P. split; [by intros (? & [= <-] & ?)|eauto]. }
  unfold form_view. view_simpl. rewrite !offers_embed. split_and!.
  - rewrite !He, advanced_offers, card_offered. pose proof (plain_offered e) as Hp.
    destruct (card_event e); intuition congruence.
  - split; intros; view_destruct; [by destruct saving|done..|]. subst. view_find.
  - done.
  - view_find.
Qed.
End Offers.
