(* ===== verification/PolicyGroups.v ===== *)
(** * The policy page

    [routes/rules/policygroups.svelte]: the page that lists the policies, edits
    one as a draft, assigns devices, saves the gateway's categories and tests a
    site.  [Page] is the component's variables; each handler is a program over
    it.  [load] is [Promise.all] over five requests and [loadSupporting], a chain
    of three reads that never rejects ([Joined]). *)

From S2P Require Import Prelude JsString JsAsync Http Api Busy Joined PolicyModel.
From stdpp Require Import sorting.
Open Scope js_scope.

(** ** State *)

Record TraceStep := MkTraceStep {
  stage : jstr;
  step_action : option jstr;
  step_detail : option jstr;
  step_applied : bool
}.

Record PreviewEvaluation := MkEvaluation {
  pv_action : jstr;
  pv_group_name : jstr;
  pv_reason : jstr;
  pv_safe_search : bool;
  pv_trace : list TraceStep;
  pv_proxy_only : list jstr;
  pv_url_blocked : bool
}.

(** [active] and [identity.explanation] of the answer. *)
Record PreviewResult := MkPreviewResult {
  pr_active : PreviewEvaluation;
  pr_explanation : option jstr
}.

(** What the page reads from the answers of the API, all of it optional. *)
Record PolicyBody := MkBody {
  b_templates : option (list PolicyTemplate);
  b_shared_limitations : option (list jstr);
  b_groups : option (list PartialGroup);
  b_group : option PartialGroup;
  b_categories : option (list CategoryStatus);
  b_assignments : option (list DeviceAssignment);
  b_devices : option (list Device);
  b_presets : option (list SchedulePreset);
  b_users : option (list (option jstr));
  b_Value : option jstr;
  b_refresh_scheduled : bool;
  b_preview : option PreviewResult
}.

Record PreviewRequest := MkPreviewRequest {
  client_ip : jstr;
  protocol : jstr;
  prv_url : option jstr;
  prv_domain : option jstr
}.

(** What it sends through [JSON.stringify]. *)
Inductive PolicyPayload :=
| SendGroup (g : PersistedGroup)
| SendAssignment (group_id : jstr)
| SendCategories (categories : list jstr)
| SendPreview (r : PreviewRequest).

Record Page := MkPage {
  base_path : jstr;
  jwt : option jstr;
  templates : list PolicyTemplate;
  sharedLimitations : list jstr;
  groups : list PolicyGroup;
  categories : list CategoryStatus;
  assignments : list DeviceAssignment;
  devices : list Device;
  gatewaySelection : list jstr;
  schedulePresets : list SchedulePreset;
  users : list jstr;
  timezone : jstr;
  loading : bool;
  saving : bool;
  savingCategories : bool;
  error : jstr;
  success : jstr;
  editingGroupId : jstr;
  draft : PolicyGroup;
  assigningDevices : gmap jstr (list jstr);
  deletingGroup : option PolicyGroup;
  testDevice : jstr;
  testTarget : jstr;
  testLayer : jstr;
  testing : bool;
  testResult : option PreviewResult;
  testError : jstr;
  selectedTab : nat;
  expanded : gmap jstr bool
}.
#[export] Instance Page_eta : Settable Page := fun s =>
  MkPage (base_path s) (jwt s) (templates s) (sharedLimitations s) (groups s) (categories s)
    (assignments s) (devices s) (gatewaySelection s) (schedulePresets s) (users s) (timezone s)
    (loading s) (saving s) (savingCategories s) (error s) (success s) (editingGroupId s) (draft s)
    (assigningDevices s) (deletingGroup s) (testDevice s) (testTarget s) (testLayer s) (testing s)
    (testResult s) (testError s) (selectedTab s) (expanded s).

Definition initialPage (path : jstr) (token : option jstr) : Page := {|
  base_path := path; jwt := token; templates := []; sharedLimitations := []; groups := [];
  categories := []; assignments := []; devices := []; gatewaySelection := [];
  schedulePresets := []; users := []; timezone := js "UTC"; loading := true; saving := false;
  savingCategories := false; error := []; success := []; editingGroupId := []; draft := emptyGroup;
  assigningDevices := ∅; deletingGroup := None; testDevice := []; testTarget := [];
  testLayer := js "dns"; testing := false; testResult := None; testError := [];
  selectedTab := 0; expanded := ∅
|}.

#[local] Abbreviation handler := (prog Page (io_res (P := PolicyPayload) PolicyBody)).

Definition TEMPLATES_API (s : Page) : jstr := base_path s ++ js "/api/policy/templates".
Definition GROUPS_API (s : Page) : jstr := base_path s ++ js "/api/policy/groups".
Definition CATEGORIES_API (s : Page) : jstr := base_path s ++ js "/api/policy/categories".
Definition ASSIGNMENTS_API (s : Page) : jstr := base_path s ++ js "/api/policy/assignments".
Definition PREVIEW_API (s : Page) : jstr := base_path s ++ js "/api/policy/preview".
Definition DEVICES_API (s : Page) : jstr := base_path s ++ js "/api/devices".
Definition PRESETS_API (s : Page) : jstr := base_path s ++ js "/api/policy/schedule-presets".
Definition USERS_API (s : Page) : jstr := base_path s ++ js "/api/users".
Definition TIMEZONE_API (s : Page) : jstr := base_path s ++ js "/api/settings/timezone".

Definition token (s : Page) : jstr := opt_or (jwt s) [].

Definition headers (json : bool) (s : Page) : gmap jstr jstr :=
  let result := {[ js "Authorization" := js "Bearer " ++ token s ]} in
  if json then <[js "Content-Type" := js "application/json"]> result else result.

Definition get_request (s : Page) (url : jstr) : request PolicyPayload :=
  Request url (js "GET") (headers false s) None ∅.

Definition getJSON (url : Page → jstr) : handler PolicyBody :=
  s ← get; fetch_body (get_request s (url s)).

(** ** Loading *)

Definition enabledCategories (l : list CategoryStatus) : list jstr :=
  cat_id <$> List.filter cat_enabled l.

(** [try { field = (await getJSON(url)).member } catch { ... }], three times. *)
Definition loadSupporting : list (side_read Page PolicyPayload PolicyBody) := [
  SideRead (fun s => get_request s (PRESETS_API s)) (fun o s =>
    match o with
    | inr data => s <| schedulePresets := default [] (b_presets data) |>
    | inl _ => s <| schedulePresets := [] |>
    end);
  SideRead (fun s => get_request s (USERS_API s)) (fun o s =>
    match o with
    | inr data => s <| users := List.filter truthy (default [] <$> default [] (b_users data)) |>
    | inl _ => s <| users := [] |>
    end);
  SideRead (fun s => get_request s (TIMEZONE_API s)) (fun o s =>
    match o with
    | inr data => if truthy (default [] (b_Value data)) then s <| timezone := default [] (b_Value data) |> else s
    | inl _ => s
    end)
].

(** The five requests of [load], in the order of its destructuring. *)
Definition load_requests (s : Page) : list (request PolicyPayload) :=
  get_request s <$> [TEMPLATES_API s; GROUPS_API s; CATEGORIES_API s; ASSIGNMENTS_API s; DEVICES_API s].

Definition load_assign (templateData groupData categoryData assignmentData deviceData : option PolicyBody)
    : handler unit :=
  d ← deref templateData;
  templates <~ default [] (b_templates d) ;;
  sharedLimitations <~ default [] (b_shared_limitations d) ;;
  d ← deref groupData;
  groups <~ (copyGroup <$> default [] (b_groups d)) ;;
  d ← deref categoryData;
  categories <~ default [] (b_categories d) ;;
  d ← deref assignmentData;
  assignments <~ default [] (b_assignments d) ;;
  d ← deref deviceData;
  devices <~ default [] (b_devices d) ;;
  modify (fun s => s <| gatewaySelection := enabledCategories (categories s) |>).

(** What follows the [await] of [load]: the rest of the [try], the [catch] and the
    [finally]. *)
Definition load_over (o : result (nat → option PolicyBody)) : handler unit :=
  finally
    (try_catch
       (match o with
        | inl e => Throw e
        | inr got => load_assign (got 0) (got 1) (got 2) (got 3) (got 4)
        end)
       (fun err => error <~ message err))
    (loading <~ false).

Definition load : handler unit :=
  loading <~ true ;;
  error <~ [] ;;
  promise_all_with load_over load_requests loadSupporting.

Definition reloadAssignments : handler unit :=
  data ← getJSON ASSIGNMENTS_API;
  assignments <~ default [] (b_assignments data).

(** ** The editor *)

Definition openCreate (s : Page) : Page := s <| editingGroupId := js "choose" |> <| draft := emptyGroup |>.
Definition beginCreate (s : Page) : Page := s <| editingGroupId := js "new" |> <| draft := emptyGroup |>.

(** A policy of the page read as the [Partial] record [copyGroup] takes. *)
Definition as_partial (group : PolicyGroup) : PartialGroup := as_record_group {|
  out_id := grp_id group;
  out_name := grp_name group;
  out_description := grp_description group;
  out_blocked_categories := blocked_categories group;
  out_blocked_domains := blocked_domains group;
  out_allowed_domains := allowed_domains group;
  out_safe_search := safe_search group;
  out_users := grp_users group;
  out_priority := priority group;
  out_rules := (fun r => MkPersistedRule (rule_id r) (rule_name r) (rule_enabled r) (rule_action r)
    (rule_target r) (url_regexes r) (blocked_content_types r) (rule_schedule r) (rule_users r))
    <$> rules group
|}.

Definition beginEdit (group : PolicyGroup) (s : Page) : Page :=
  s <| editingGroupId := grp_id group |> <| draft := copyGroup (as_partial group) |>.
Definition cancelEdit (s : Page) : Page := s <| editingGroupId := [] |> <| draft := emptyGroup |>.

(** ** Names *)

Definition categoryName (s : Page) (id : jstr) : jstr :=
  match find (fun category => bool_decide (cat_id category = id)) (categories s) with
  | Some found => cat_name found
  | None => id
  end.

Definition groupName (s : Page) (groupID : jstr) : jstr :=
  match find (fun group => bool_decide (grp_id group = groupID)) (groups s) with
  | Some group => str_or (grp_name group) groupID
  | None => groupID
  end.

Definition deviceLabel (device : Device) : jstr :=
  let ipv4 := default [] (dev_ipv4 device) in
  let name :=
    str_or (default [] (display_name device))
      (str_or (default [] (head (default [] (hostnames device)))) (str_or ipv4 (dev_id device))) in
  if truthy ipv4 && negb (bool_decide (name = ipv4))
  then name ++ js " (" ++ ipv4 ++ js ")" else name.

Definition deviceName (s : Page) (deviceID : jstr) : jstr :=
  match find (fun candidate => bool_decide (dev_id candidate = deviceID)) (devices s) with
  | Some device => deviceLabel device
  | None => deviceID
  end.

(** ** Assignments *)

(** [(map[group] ||= []).push(device)]. *)
Definition push_device (map : gmap jstr (list jstr)) (group device : jstr) : gmap jstr (list jstr) :=
  <[group := default [] (map !! group) ++ [device]]> map.

Definition assignmentsByGroup (assigned : list DeviceAssignment) (known : list Device)
    : gmap jstr (list jstr) :=
  let map := foldl (fun map a => push_device map (asg_group_id a) (asg_device_id a))
               {[ DEFAULT_GROUP_ID := [] ]} assigned in
  foldl (fun map device =>
           if includes (asg_device_id <$> assigned) (dev_id device) then map
           else push_device map DEFAULT_GROUP_ID (dev_id device)) map known.

Definition assignedByGroup (s : Page) : gmap jstr (list jstr) :=
  assignmentsByGroup (assignments s) (devices s).

Section Sorted.
(** [localeCompare(a, b) <= 0] of the browser's collation. *)
Context (locale_le : jstr → jstr → bool).

Definition label_le (a b : Device) : Prop := locale_le (deviceLabel a) (deviceLabel b) = true.

#[local] Instance label_le_dec a b : Decision (label_le a b).
Proof. unfold label_le. apply _. Defined.

Definition sortedDevices (s : Page) : list Device := merge_sort label_le (devices s).

Definition devicesNotOn (s : Page) (groupID : jstr) : list Device :=
  let on := default [] (assignedByGroup s !! groupID) in
  List.filter (fun device => negb (includes on (dev_id device))) (sortedDevices s).
End Sorted.

Definition assignment_request (s : Page) (groupID deviceID : jstr) : request PolicyPayload :=
  Request (DEVICES_API s ++ js "/" ++ deviceID ++ js "/assignment") (js "PUT") (headers true s)
    (Some (SendAssignment (if bool_decide (groupID = DEFAULT_GROUP_ID) then [] else groupID))) ∅.

Definition writeDevicePolicy (deviceID groupID : jstr) : handler unit :=
  s ← get;
  r ← fetch_checked (assignment_request s groupID deviceID);
  Ret ().

Definition setDevicePolicy (deviceID groupID : jstr) : handler unit :=
  if negb (truthy deviceID) then Ret () else
  saving <~ true ;; error <~ [] ;; success <~ [] ;;
  finally
    (try_catch
       (writeDevicePolicy deviceID groupID ;;
        reloadAssignments ;;
        modify (fun s => s <| success :=
          deviceName s deviceID ++ js " now uses " ++ groupName s groupID ++ js "." |>))
       (fun err => error <~ message err))
    (saving <~ false).

Definition selectDevices (groupID : jstr) (selectedIds : list jstr) (s : Page) : Page :=
  s <| assigningDevices ::= <[groupID := selectedIds]> |>.

Definition assignSelectedDevices (groupID : jstr) : handler unit :=
  s ← get;
  let selected := default [] (assigningDevices s !! groupID) in
  if is_nil selected then Ret () else
  saving <~ true ;; error <~ [] ;; success <~ [] ;;
  finally
    (try_catch
       (for_of selected (fun deviceID => writeDevicePolicy deviceID groupID) ;;
        reloadAssignments ;;
        modify (fun s => s <| assigningDevices ::= <[groupID := []]> |>) ;;
        modify (fun s => s <| success :=
          of_nat (length selected) ++ js " device" ++
          (if (length selected =? 1)%nat then [] else js "s") ++
          js " now use " ++ groupName s groupID ++ js "." |>))
       (fun err => error <~ message err))
    (saving <~ false).

(** ** Saving *)

Definition group_request (s : Page) : request PolicyPayload :=
  let isNew := bool_decide (editingGroupId s = js "new") in
  Request (if isNew then GROUPS_API s else GROUPS_API s ++ js "/" ++ editingGroupId s)
    (if isNew then js "POST" else js "PUT") (headers true s)
    (Some (SendGroup (persistableGroup (draft s)))) ∅.

(** The page's list with the saved policy: appended when it is new, in place of
    the one with its identifier otherwise. *)
Definition with_saved (isNew : bool) (saved : PolicyGroup) (l : list PolicyGroup) : list PolicyGroup :=
  if isNew then l ++ [saved]
  else (fun group => if bool_decide (grp_id group = grp_id saved) then saved else group) <$> l.

Definition saveGroup : handler unit :=
  s ← get;
  if negb (truthy (trim (grp_name (draft s)))) then error <~ js "A policy needs a name." else
  saving <~ true ;; error <~ [] ;; success <~ [] ;;
  finally
    (try_catch
       (s ← get;
        let isNew := bool_decide (editingGroupId s = js "new") in
        data ← fetch_body (group_request s);
        group ← deref (b_group data);
        let saved := copyGroup group in
        modify (fun s => s <| groups ::= with_saved isNew saved |>) ;;
        success <~ js "Policy saved. It applies to new DNS lookups within a minute." ;;
        modify cancelEdit)
       (fun err => error <~ message err))
    (saving <~ false).

Definition saveGatewayCategories : handler unit :=
  savingCategories <~ true ;; error <~ [] ;; success <~ [] ;;
  finally
    (try_catch
       (s ← get;
        data ← fetch_body (Request (CATEGORIES_API s) (js "PUT") (headers true s)
                             (Some (SendCategories (gatewaySelection s))) ∅);
        categories <~ default [] (b_categories data) ;;
        modify (fun s => s <| gatewaySelection := enabledCategories (categories s) |>) ;;
        success <~ (if b_refresh_scheduled data
          then js "Categories saved. The gateway is downloading the feeds now, so refresh in a moment to see the new counts."
          else js "Categories saved. A download was already running, so the counts update when it finishes."))
       (fun err => error <~ message err))
    (savingCategories <~ false).

Definition openDeleteGroup (group : PolicyGroup) (s : Page) : Page := s <| deletingGroup := Some group |>.
Definition closeDeleteGroup (s : Page) : Page :=
  if negb (saving s) then s <| deletingGroup := None |> else s.

Definition confirmDeleteGroup : handler unit :=
  s ← get;
  match deletingGroup s with
  | None => Ret ()
  | Some group =>
      saving <~ true ;; error <~ [] ;;
      finally
        (try_catch
           (s ← get;
            r ← fetch_checked (Request (GROUPS_API s ++ js "/" ++ grp_id group) (js "DELETE")
                                 (headers false s) None ∅);
            modify (fun s => s <| groups ::=
              List.filter (fun candidate => negb (bool_decide (grp_id candidate = grp_id group))) |>) ;;
            deletingGroup <~ None ;;
            reloadAssignments ;;
            success <~ js "Policy deleted; its devices now use the default policy.")
           (fun err => error <~ message err))
        (saving <~ false)
  end.

Definition applyTemplate (template : PolicyTemplate) : handler unit :=
  saving <~ true ;; error <~ [] ;; success <~ [] ;;
  finally
    (try_catch
       (s ← get;
        data ← fetch_body (Request (TEMPLATES_API s ++ js "/" ++ tpl_id template ++ js "/apply")
                             (js "POST") (headers false s) None ∅);
        group ← deref (b_group data);
        modify (fun s => s <| groups ::= fun l => l ++ [copyGroup group] |>) ;;
        editingGroupId <~ default [] (p_id group) ;;
        draft <~ copyGroup group ;;
        success <~ (tpl_name template ++ js " was added. Review it, then save any changes."))
       (fun err => error <~ message err))
    (saving <~ false).

Definition templateApplied (s : Page) (template : PolicyTemplate) : bool :=
  existsb (fun group => bool_decide (grp_id group = tpl_group_id template)) (groups s).

(** ** The site tester *)

Definition preview_request (s : Page) : PreviewRequest :=
  let target := trim (testTarget s) in
  let device := find (fun candidate => bool_decide (dev_id candidate = testDevice s)) (devices s) in
  let isURL := contains (js "/") target in
  let url := if isURL && negb (contains (js "://") target) then js "https://" ++ target else target in
  {| client_ip := default [] (device ≫= dev_ipv4);
     protocol := testLayer s;
     prv_url := if isURL then Some url else None;
     prv_domain := if isURL then None else Some target |}.

Definition runTest : handler unit :=
  s ← get;
  let target := trim (testTarget s) in
  if negb (truthy target) then Ret () else
  testing <~ true ;; testError <~ [] ;; testResult <~ None ;;
  s ← get;
  finally
    (try_catch
       (r ← fetch_checked (Request (PREVIEW_API s) (js "POST") (headers true s)
                             (Some (SendPreview (preview_request s))) ∅);
        body ← read_json r;
        testResult <~ (body ≫= b_preview))
       (fun err => testError <~ message err))
    (testing <~ false).

Inductive verdict_type := Red | Green | Gray.
#[export] Instance verdict_type_eq_dec : EqDecision verdict_type.
Proof. solve_decision. Defined.

Definition verdict (result : PreviewResult) : jstr * verdict_type :=
  let active := pr_active result in
  if bool_decide (pv_action active = js "block") || pv_url_blocked active
  then (js "Blocked", Red)
  else if bool_decide (pv_action active = js "allow") then (js "Allowed by policy", Green)
  else (js "Not blocked by policy", Gray).

Definition customPolicies (s : Page) : nat :=
  length (List.filter (fun group => negb (bool_decide (grp_id group = DEFAULT_GROUP_ID))) (groups s)).

(** [onMount(load)]. *)
Definition mounted : handler unit := load.

(** ** Saving a policy *)

(** Computes the fields of states given by their assignments, and the requests
    made from them. *)
Ltac page_norm st :=
  eval cbv beta iota zeta delta [update_field base_path jwt templates sharedLimitations groups
    categories assignments devices gatewaySelection schedulePresets users timezone loading saving
    savingCategories error success editingGroupId draft assigningDevices deletingGroup testDevice
    testTarget testLayer testing testResult testError selectedTab expanded cancelEdit
    TEMPLATES_API GROUPS_API CATEGORIES_API ASSIGNMENTS_API PREVIEW_API DEVICES_API PRESETS_API
    USERS_API TIMEZONE_API token headers get_request group_request assignment_request
    groupName deviceName preview_request] in st.
Ltac page_simpl := match goal with |- ?G => let G' := page_norm G in change G' end.
Ltac page_run := run_with page_norm; page_simpl.
Ltac page_answer :=
  match goal with
  | |- context [checked (?f ?l ?q)] => destruct (checked (f l q)) as [?e|?r] eqn:?
  | |- context [body_of (?f ?l ?q)] => destruct (body_of (f l q)) as [?e|?data] eqn:?
  end; page_run.

Lemma with_saved_spec isNew saved l :
  (isNew = true → with_saved isNew saved l = l ++ [saved]) ∧
  (isNew = false → length (with_saved isNew saved l) = length l ∧ ∀ i g, l !! i = Some g →
     with_saved isNew saved l !! i = Some (if bool_decide (grp_id g = grp_id saved) then saved else g)).
Proof.
  unfold with_saved. split; intros ->; [done|]. split; [by rewrite length_fmap|].
  intros i g H. by rewrite list_lookup_fmap, H.
Qed.

Section Handlers.
Context (reply : list (request PolicyPayload) → ∀ q : io_req PolicyPayload, io_res PolicyBody q).

(** C4: Saving a draft with a name sends its persisted form once, to the
    new-policy URL or to the URL of the policy it edits.  When the server
    answers with the saved policy, that policy is appended, or stands where the
    one it replaces stood with every other in its place; the editor closes and
    the page says so.  On any other answer the policies, the draft and the
    editor stay, and the error is shown.  A draft without a name is not sent. *)
Theorem saveGroup_spec s log :
  let isNew := bool_decide (editingGroupId s = js "new") in
  let q := group_request s in
  let failed m s' := s' = s <| saving := false |> <| success := [] |> <| error := m |> in
  let '(r, s', log') := run (history reply) saveGroup s log in
  r = inr () ∧
  rq_url q = GROUPS_API s ++ (if isNew then [] else js "/" ++ editingGroupId s) ∧
  rq_method q = (if isNew then js "POST" else js "PUT") ∧
  rq_body q = Some (SendGroup (persistableGroup (draft s))) ∧
  if truthy (trim (grp_name (draft s))) then
    log' = log ++ [q] ∧
    match body_of (reply log (Fetch q)) with
    | inr data =>
        match copyGroup <$> b_group data with
        | Some saved =>
            ∃ next,
              s' = s <| groups := next |> <| editingGroupId := [] |>
                     <| draft := emptyGroup |> <| saving := false |> <| error := [] |>
                     <| success := js "Policy saved. It applies to new DNS lookups within a minute." |> ∧
              (isNew = true → next = groups s ++ [saved]) ∧
              (isNew = false → length next = length (groups s) ∧ ∀ i g, groups s !! i = Some g →
                 next !! i = Some (if bool_decide (grp_id g = grp_id saved) then saved else g))
        | None => failed (message TypeError) s'
        end
    | inl e => failed (message e) s'
    end
  else log' = log ∧ s' = s <| error := js "A policy needs a name." |>.
Proof.
  destruct s. unfold saveGroup. page_run.
  assert (∀ a : jstr, a = a ++ []) as Hnil by (intros; by rewrite app_nil_r).
  destruct (truthy (trim (grp_name _))); cbn [negb]; page_run;
    [page_answer; [|destruct (b_group data) as [group|]; page_run]|];
    (split; [done|]); (split; [by destruct (bool_decide _)|]); (do 2 (split; [done|])); try done.
  split; [done|]. eexists. split; [done|]. apply with_saved_spec.
Qed.

(** ** Assigning devices *)

Lemma write_run deviceID groupID s log :
  run (history reply) (writeDevicePolicy deviceID groupID) s log =
    let rq := assignment_request s groupID deviceID in
    (match checked (reply log (Fetch rq)) with inl e => inl e | inr _ => inr () end, s, log ++ [rq]).
Proof.
  unfold writeDevicePolicy. rewrite run_bind, run_get, run_bind, fetch_checked_run. cbv zeta.
  by destruct (checked _).
Qed.

(** How the write for the device at place [i] is answered, those before it having
    been sent. *)
Definition write_outcome (groupID : jstr) (selected : list jstr) (s : Page) (log : list (request PolicyPayload))
    (i : nat) : option (result (response PolicyBody)) :=
  (fun d => checked (reply (log ++ (assignment_request s groupID <$> take i selected))
                       (Fetch (assignment_request s groupID d)))) <$> selected !! i.
Definition write_accepted groupID selected s log (i : nat) : Prop :=
  ∃ o, write_outcome groupID selected s log i = Some (inr o).

Lemma write_outcome_cons groupID d l s log i :
  write_outcome groupID (d :: l) s log (S i) = write_outcome groupID l s (log ++ [assignment_request s groupID d]) i.
Proof. unfold write_outcome. cbn. by rewrite <-app_assoc. Qed.

(** The writes stop at the first one the server refuses. *)
Lemma write_all_run groupID selected s log :
  let writes := run (history reply) (for_of selected (fun d => writeDevicePolicy d groupID)) s log in
  (∀ i e, write_outcome groupID selected s log i = Some (inl e) →
     (∀ j, j < i → write_accepted groupID selected s log j) →
     writes = (inl e, s, log ++ (assignment_request s groupID <$> take (S i) selected))) ∧
  ((∀ i, i < length selected → write_accepted groupID selected s log i) →
     writes = (inr (), s, log ++ (assignment_request s groupID <$> selected))).
Proof.
  cbv zeta. revert log. induction selected as [|d l IH]; intros log.
  { split; [done|]. intros _. cbn. by rewrite app_nil_r. }
  destruct (IH (log ++ [assignment_request s groupID d])) as [IH1 IH2].
  assert (write_outcome groupID (d :: l) s log 0 =
    Some (checked (reply log (Fetch (assignment_request s groupID d))))) as H0.
  { unfold write_outcome. cbn. by rewrite app_nil_r. }
  cbn [for_of]. rewrite run_bind, write_run. cbv zeta. split.
  - intros [|i] e He Hj.
    + rewrite H0 in He. injection He as ->. done.
    + destruct (Hj 0) as [o Ho]; [lia|]. rewrite H0 in Ho. injection Ho as ->.
      rewrite write_outcome_cons in He. rewrite (IH1 i e He); [cbn; by rewrite <-app_assoc|].
      intros j Hlt. destruct (Hj (S j)) as [o' Ho']; [lia|]. rewrite write_outcome_cons in Ho'. by exists o'.
  - intros Hall. destruct (Hall 0) as [o Ho]; [simpl; lia|]. rewrite H0 in Ho. injection Ho as ->.
    rewrite IH2; [cbn; by rewrite <-app_assoc|].
    intros i Hi. destruct (Hall (S i)) as [o' Ho']; [simpl; lia|]. rewrite write_outcome_cons in Ho'. by exists o'.
Qed.

Lemma refused_not_accepted groupID selected s log i e :
  write_outcome groupID selected s log i = Some (inl e) →
  (∀ i, i < length selected → write_accepted groupID selected s log i) → False.
Proof.
  intros Hi Hall. destruct (Hall i) as [o Ho]; [|congruence].
  unfold write_outcome in Hi. destruct (selected !! i) eqn:El; [by eapply lookup_lt_Some|done].
Qed.

(** One of the two is the case. *)
Lemma write_all_cases groupID selected s log :
  (∃ i e, write_outcome groupID selected s log i = Some (inl e) ∧
     ∀ j, j < i → write_accepted groupID selected s log j) ∨
  (∀ i, i < length selected → write_accepted groupID selected s log i).
Proof.
  enough (∀ n, n ≤ length selected →
    (∃ i e, write_outcome groupID selected s log i = Some (inl e) ∧
       ∀ j, j < i → write_accepted groupID selected s log j) ∨
    (∀ i, i < n → write_accepted groupID selected s log i)) as H by (by apply H).
  induction n as [|n IH]; intros Hn; [right; lia|].
  destruct IH as [H|H]; [lia|by left|].
  destruct (lookup_lt_is_Some_2 selected n) as [d Hd]; [lia|].
  destruct (write_outcome groupID selected s log n) as [[e|o]|] eqn:E.
  - left. eauto.
  - right. intros i Hi. destruct (decide (i = n)) as [->|]; [by exists o|]. apply H. lia.
  - unfold write_outcome in E. by rewrite Hd in E.
Qed.

Lemma reloadAssignments_run s log :
  run (history reply) reloadAssignments s log =
    let rq := get_request s (ASSIGNMENTS_API s) in
    match body_of (reply log (Fetch rq)) with
    | inl e => (inl e, s, log ++ [rq])
    | inr data => (inr (), s <| assignments := default [] (b_assignments data) |>, log ++ [rq])
    end.
Proof.
  unfold reloadAssignments, getJSON. rewrite run_bind, run_bind, run_get, fetch_body_run. cbv zeta.
  by destruct (body_of _).
Qed.

(** C17: Assigning the selected devices writes them one request at a time, in
    order.  The first write that the server refuses is the last that is sent:
    its message is shown, and the page keeps the selection and the assignments
    it had, though the server has those written before.  When all are accepted
    the assignments are read back, and only if that succeeds is the selection
    emptied and success shown. *)
Theorem assignSelectedDevices_spec groupID s log :
  let selected := default [] (assigningDevices s !! groupID) in
  let reload := get_request s (ASSIGNMENTS_API s) in
  let failed e := s <| saving := false |> <| success := [] |> <| error := message e |> in
  selected ≠ [] →
  let '(r, s', log') := run (history reply) (assignSelectedDevices groupID) s log in
  r = inr () ∧
  (∀ i e, write_outcome groupID selected s log i = Some (inl e) →
     (∀ j, j < i → write_accepted groupID selected s log j) →
     log' = log ++ (assignment_request s groupID <$> take (S i) selected) ∧ s' = failed e) ∧
  ((∀ i, i < length selected → write_accepted groupID selected s log i) →
     let written := log ++ (assignment_request s groupID <$> selected) in
     log' = written ++ [reload] ∧
     match body_of (reply written (Fetch reload)) with
     | inl e => s' = failed e
     | inr data =>
         let n := length selected in
         s' = s <| assignments := default [] (b_assignments data) |> <| saving := false |>
                <| error := [] |> <| assigningDevices ::= <[groupID := []]> |>
                <| success := of_nat n ++ js " device" ++ (if (n =? 1)%nat then [] else js "s")
                              ++ js " now use " ++ groupName s groupID ++ js "." |>
     end).
Proof.
  cbv zeta. intros Hs. set (s0 := s <| saving := true |> <| error := [] |> <| success := [] |>).
  destruct (write_all_run groupID (default [] (assigningDevices s !! groupID)) s0 log) as [H1 H2].
  pose proof (write_all_cases groupID (default [] (assigningDevices s !! groupID)) s0 log) as Hcases.
  destruct s. unfold assignSelectedDevices. run_with page_norm. cbn [assigningDevices] in *.
  page_simpl. page_simpl. destruct (is_nil _) eqn:En; [by destruct (default [] _)|]. clear En.
  run_with page_norm.
  match goal with |- context [run _ (for_of _ _) ?st _] => change st with s0 end.
  destruct Hcases as [(i0 & e0 & Hi0 & Hj0)|Hall].
  - rewrite (H1 i0 e0 Hi0 Hj0). clear H2. unfold s0. page_run. split; [done|]. split.
    + intros i e Hi Hj. pose proof (H1 i e Hi Hj) as E. rewrite (H1 i0 e0 Hi0 Hj0) in E.
      injection E as -> E. split; [exact E|done].
    + intros Hall. by destruct (refused_not_accepted _ _ _ _ _ _ Hi0 Hall).
  - rewrite (H2 Hall). run_with page_norm. rewrite reloadAssignments_run. unfold s0. page_run.
    page_answer; (split; [done|]); (split; [|by intros _]).
    all: intros i e' Hi _; by destruct (refused_not_accepted _ _ _ _ _ _ Hi Hall).
Qed.

Lemma getJSON_run url s log :
  run (history reply) (getJSON url) s log =
    (body_of (reply log (Fetch (get_request s (url s)))), s, log ++ [get_request s (url s)]).
Proof. unfold getJSON. by rewrite run_bind, run_get, fetch_body_run. Qed.

(** ** Deleting, templates, categories, tests *)

Definition delete_request (s : Page) (group : PolicyGroup) : request PolicyPayload :=
  Request (GROUPS_API s ++ js "/" ++ grp_id group) (js "DELETE") (headers false s) None ∅.

(** C19: Confirming the dialog deletes the policy it names, once.  The policy
    leaves the list and the dialog closes exactly when the server has deleted
    it, even if reading the assignments back fails, which is then the error
    shown; if the server refuses, the list and the dialog stay. *)
Theorem confirmDeleteGroup_spec s log group :
  deletingGroup s = Some group →
  let reload := get_request s (ASSIGNMENTS_API s) in
  let log1 := log ++ [delete_request s group] in
  let '(r, s', log') := run (history reply) confirmDeleteGroup s log in
  r = inr () ∧ saving s' = false ∧
  match checked (reply log (Fetch (delete_request s group))) with
  | inl e =>
      log' = log1 ∧ s' = s <| saving := false |> <| error := message e |>
  | inr _ =>
      log' = log1 ++ [reload] ∧
      let deleted := s <| saving := false |> <| deletingGroup := None |>
        <| groups ::= List.filter (fun g => negb (bool_decide (grp_id g = grp_id group))) |> in
      match body_of (reply log1 (Fetch reload)) with
      | inl e => s' = deleted <| error := message e |>
      | inr data =>
          s' = deleted <| error := [] |> <| assignments := default [] (b_assignments data) |>
            <| success := js "Policy deleted; its devices now use the default policy." |>
      end
  end.
Proof.
  intros Hd. destruct s. cbn [deletingGroup] in Hd. subst. unfold confirmDeleteGroup, delete_request.
  page_run. page_run. page_answer; [done|]. rewrite reloadAssignments_run. page_run.
  by page_answer.
Qed.

Definition test_request (s : Page) : request PolicyPayload :=
  Request (PREVIEW_API s) (js "POST") (headers true s) (Some (SendPreview (preview_request s))) ∅.

(** The site tester asks about exactly the trimmed text: as a URL, with a
    scheme, when it has a slash and as a domain otherwise.  An earlier
    verdict is gone before the request is made and stays gone on an error. *)
Theorem runTest_spec s log :
  let target := trim (testTarget s) in
  let q := preview_request s in
  let '(r, s', log') := run (history reply) runTest s log in
  r = inr () ∧
  (target = [] → s' = s ∧ log' = log) ∧
  (target ≠ [] →
     log' = log ++ [test_request s] ∧ testing s' = false ∧
     match checked_json (reply log (Fetch (test_request s))) with
     | inr body => testResult s' = body ≫= b_preview ∧ testError s' = []
     | inl e => testResult s' = None ∧ testError s' = message e
     end) ∧
  (match prv_url q, prv_domain q with
   | Some url, None => contains (js "/") target = true ∧ contains (js "://") url = true
   | None, Some domain => domain = target ∧ contains (js "/") domain = false
   | _, _ => False
   end).
Proof.
  cbv zeta. assert (match prv_url (preview_request s), prv_domain (preview_request s) with
   | Some url, None => contains (js "/") (trim (testTarget s)) = true ∧ contains (js "://") url = true
   | None, Some domain => domain = trim (testTarget s) ∧ contains (js "/") domain = false
   | _, _ => False end) as Hq.
  { unfold preview_request. cbn [prv_url prv_domain].
    destruct (contains (js "/") _) eqn:Eu; [|done].
    destruct (contains (js "://") (trim (testTarget s))) eqn:Es; [by split|].
    split; [done|]. cbn [negb andb]. unfold contains. set (t := trim _).
    destruct (indexOf (js "://") (js "https://" ++ t)) eqn:Ei; [done|].
    by destruct (indexOf_None _ _ (js "https") t Ei). }
  destruct s. unfold runTest, test_request, checked_json. run_with page_norm. cbn [testTarget] in *.
  destruct (truthy (trim _)) eqn:Et; cbn [negb].
  - apply truthy_true in Et. page_run.
    page_answer; [|match goal with |- context [json ?r] => destruct (json r) end; page_run].
    all: (split; [done|]; split; [done|]; split; [by intros _|exact Hq]).
  - apply truthy_false in Et. page_run. split; [done|]. split; [done|]. split; [done|exact Hq].
Qed.
End Handlers.

(** ** Loading the page *)

Section Loading.
Context (pick : list (request PolicyPayload) → nat) (f : request PolicyPayload → result (response PolicyBody)).

Definition supporting_requests (s : Page) : list (request PolicyPayload) :=
  get_request s <$> [PRESETS_API s; USERS_API s; TIMEZONE_API s].

(** The page after the supporting reads: each has what its own answer brought. *)
Definition supported (s : Page) : Page :=
  let read url := body_of (f (get_request s url)) in
  s <| schedulePresets := match read (PRESETS_API s) with inr d => default [] (b_presets d) | inl _ => [] end |>
    <| users := match read (USERS_API s) with
                | inr d => List.filter truthy (default [] <$> default [] (b_users d))
                | inl _ => []
                end |>
    <| timezone := match read (TIMEZONE_API s) with
                   | inr d => str_or (default [] (b_Value d)) (timezone s)
                   | inl _ => timezone s
                   end |>.

Definition load_after (o : result (nat → option PolicyBody)) (s : Page) : Page :=
  (run (answering pick f) (load_over o) s ([], [])).1.2.

Lemma load_over_run o s w : run (answering pick f) (load_over o) s w = (inr (), load_after o s, w).
Proof.
  unfold load_after, load_over, load_assign. destruct o as [e|got]; [done|].
  by destruct (got 0), (got 1), (got 2), (got 3), (got 4).
Qed.

(** Nothing of the chain depends on what [load] assigns when it fails, nor on the
    chain's own answers. *)
Lemma supporting_commutes e r o s : r ∈ loadSupporting →
  sr_done r o (load_after (inl e) s) = load_after (inl e) (sr_done r o s) ∧
  sr_request r (load_after (inl e) s) = sr_request r s.
Proof.
  revert r. apply Forall_forall. destruct s. repeat constructor; destruct o; cbn [sr_done]; try done.
  all: match goal with |- context [truthy ?x] => by destruct (truthy x) end.
Qed.

Lemma supporting_stable r r' o s : r ∈ loadSupporting → r' ∈ loadSupporting →
  sr_request r' (sr_done r o s) = sr_request r' s.
Proof.
  assert (∀ s', base_path s' = base_path s → jwt s' = jwt s → r' ∈ loadSupporting →
    sr_request r' s' = sr_request r' s) as H.
  { intros s' Hb Hj. revert r'. apply Forall_forall. unfold get_request, headers, token.
    repeat constructor; cbn [sr_request]; unfold get_request, headers, token; unfold PRESETS_API, USERS_API, TIMEZONE_API;
      by rewrite Hb, Hj. }
  intros Hr. apply H; revert r Hr; apply Forall_forall; destruct s; repeat constructor; destruct o; cbn [sr_done]; try done;
    match goal with |- context [truthy ?x] => by destruct (truthy x) end.
Qed.

Lemma supporting_state s : side_state f loadSupporting s = supported s.
Proof.
  unfold side_state, supported. unfold loadSupporting at 1. cbn [foldl].
  rewrite !supporting_stable by (unfold loadSupporting; rewrite !elem_of_cons; auto). cbn [sr_request].
  destruct (body_of (f (get_request s (PRESETS_API s)))), (body_of (f (get_request s (USERS_API s)))),
    (body_of (f (get_request s (TIMEZONE_API s)))); destruct s; cbn [sr_done]; unfold str_or; try done.
  all: match goal with |- context [truthy ?x] => by destruct (truthy x) end.
Qed.

(** The chain asks for none of the five. *)
Lemma supporting_apart r s s' : r ∈ loadSupporting → sr_request r s ∉ load_requests s'.
Proof.
  revert r. apply Forall_forall. unfold load_requests. cbn [fmap list_fmap].
  repeat constructor; cbn [sr_request]; rewrite !elem_of_cons, elem_of_nil; intros H;
    repeat destruct H as [H|H]; try done; apply (f_equal (fun q => take 4 (rev (rq_url q)))) in H;
    cbn [get_request rq_url] in H;
    unfold PRESETS_API, USERS_API, TIMEZONE_API, TEMPLATES_API, GROUPS_API, CATEGORIES_API, ASSIGNMENTS_API, DEVICES_API in H;
    rewrite !rev_app_distr in H; vm_compute in H; discriminate H.
Qed.

(** C18: The page reads its five lists, the schedule presets, the users and the
    time zone, of which the lists and the presets are asked for at once.  When
    the five lists arrive the page shows them, each policy as a draft would
    read it; when one does not, it keeps the lists it had and shows the failure
    that came first.  However the answers are ordered, the supporting data is
    read to its end, and no failure of it is an error of the page. *)
Theorem load_spec s w :
  let list_of url := checked_json (f (get_request s url)) in
  let '(r, s', w') := run (answering pick f) load s w in
  ∃ answered, r = inr () ∧ w' = (w.1 ++ load_requests s ++ supporting_requests s, w.2 ++ answered) ∧
  (th_request <$> (advance load s).2 =
     let first := load_requests s ++ [get_request s (PRESETS_API s)] in Some (NextOf first first)) ∧
  (∀ t g c a d,
     list_of (TEMPLATES_API s) = inr (Some t) → list_of (GROUPS_API s) = inr (Some g) →
     list_of (CATEGORIES_API s) = inr (Some c) → list_of (ASSIGNMENTS_API s) = inr (Some a) →
     list_of (DEVICES_API s) = inr (Some d) →
     s' = supported s <| loading := false |> <| error := [] |>
            <| templates := default [] (b_templates t) |>
            <| sharedLimitations := default [] (b_shared_limitations t) |>
            <| groups := copyGroup <$> default [] (b_groups g) |>
            <| categories := default [] (b_categories c) |>
            <| assignments := default [] (b_assignments a) |>
            <| devices := default [] (b_devices d) |>
            <| gatewaySelection := enabledCategories (default [] (b_categories c)) |>) ∧
  (∀ rq e, rq ∈ load_requests s → checked_json (f rq) = inl e →
     ∃ e, first_refused f (load_requests s) answered e ∧
       s' = supported s <| loading := false |> <| error := message e |>) ∧
  ((∀ rq, rq ∈ load_requests s → ∃ b, checked_json (f rq) = inr b) →
   (∃ rq, rq ∈ load_requests s ∧ checked_json (f rq) = inr None) →
     loading s' = false ∧ error s' = message TypeError).
Proof.
  cbv zeta. set (s0 := s <| loading := true |> <| error := [] |>).
  pose proof (promise_all_with_run pick f loadSupporting supporting_stable load_over load_after load_over_run
    (fun e r o s H => proj1 (supporting_commutes e r o s H)) (fun e r s H => proj2 (supporting_commutes e r (inl e) s H))
    load_requests loadSupporting s0 w) as H.
  unfold load. rewrite run_bind, run_modify. cbv beta iota. rewrite run_bind, run_modify. cbv beta iota.
  match goal with |- context [run _ (promise_all_with _ _ _) ?st w] => change st with s0 end.
  destruct (run _ (promise_all_with _ _ _) s0 w) as [[r s'] w'].
  destruct H as (answered & -> & -> & Hout); [done|apply supporting_apart|].
  rewrite supporting_state in Hout. exists answered. split; [done|]. split; [by destruct s|].
  assert (∀ rq, rq ∈ load_requests s ↔ ∃ j, j < 5 ∧ load_requests s !! j = Some rq) as Hrq.
  { intros rq. rewrite list_elem_of_lookup. split; [|by intros (j & _ & H); eauto].
    intros [j Hj]. exists j. split; [|done]. apply lookup_lt_Some in Hj. exact Hj. }
  change (load_requests s0) with (load_requests s) in Hout.
  assert (s0 = s <| loading := true |> <| error := [] |>) as Hs0 by done. clearbody s0.
  split_and!.
  - by destruct s.
  - intros t g c a d H0 H1 H2 H3 H4. destruct Hout as [(got & Hg & ->)|(e & (l1 & rq & l2 & _ & Hin & He & _) & _)].
    + pose proof (Hg 0 _ eq_refl) as E0. pose proof (Hg 1 _ eq_refl) as E1. pose proof (Hg 2 _ eq_refl) as E2.
      pose proof (Hg 3 _ eq_refl) as E3. pose proof (Hg 4 _ eq_refl) as E4.
      rewrite H0 in E0. rewrite H1 in E1. rewrite H2 in E2. rewrite H3 in E3. rewrite H4 in E4.
      injection E0 as E0. injection E1 as E1. injection E2 as E2. injection E3 as E3. injection E4 as E4.
      unfold load_after, load_over, load_assign. rewrite <-E0, <-E1, <-E2, <-E3, <-E4.
      subst s0. by destruct s.
    + exfalso. revert He. apply list_elem_of_fmap in Hin as (url & -> & Hin).
      rewrite !elem_of_cons in Hin. repeat destruct Hin as [->|Hin]; try congruence. by apply elem_of_nil in Hin.
  - intros rq e Hin He. destruct Hout as [(got & Hg & _)|(e' & He' & ->)].
    + apply Hrq in Hin as (j & _ & Hj). apply Hg in Hj. congruence.
    + exists e'. split; [done|]. subst s0. by destruct s.
  - intros Hall (rq & Hin & Hnull). destruct Hout as [(got & Hg & ->)|(e & (l1 & rq' & l2 & _ & Hin' & He & _) & _)].
    + apply Hrq in Hin as (j & Hlt & Hj). apply Hg in Hj. rewrite Hnull in Hj. injection Hj as Hj.
      unfold load_after, load_over, load_assign. destruct j as [|[|[|[|[|]]]]]; try lia.
      all: destruct (got 0) eqn:?, (got 1) eqn:?, (got 2) eqn:?, (got 3) eqn:?, (got 4) eqn:?; done.
    + destruct (Hall rq' Hin') as [b Hb]. congruence.
Qed.
End Loading.

(** ** Every device is on one policy *)

Lemma push_devices_lookup {A} (grp dev : A → jstr) l m g :
  default [] (foldl (fun m a => push_device m (grp a) (dev a)) m l !! g) =
    default [] (m !! g) ++ (dev <$> List.filter (fun a => bool_decide (grp a = g)) l).
Proof.
  revert m. induction l as [|a l IH]; intros m; simpl; [by rewrite app_nil_r|].
  rewrite IH. unfold push_device. case_bool_decide as Hg; subst.
  - rewrite lookup_insert_eq. simpl. by rewrite <-app_assoc.
  - by rewrite lookup_insert_ne.
Qed.

Lemma foldl_skip {A B} (skip : A → bool) (f : B → A → B) l b :
  foldl (fun b a => if skip a then b else f b a) b l = foldl f b (List.filter (fun a => negb (skip a)) l).
Proof. revert b. induction l as [|a l IH]; intros b; simpl; [done|]. destruct (skip a); apply IH. Qed.

Definition unassigned (assigned : list DeviceAssignment) (known : list Device) : list Device :=
  List.filter (fun d => negb (includes (asg_device_id <$> assigned) (dev_id d))) known.

Lemma assignmentsByGroup_lookup assigned known g :
  default [] (assignmentsByGroup assigned known !! g) =
    (asg_device_id <$> List.filter (fun a => bool_decide (asg_group_id a = g)) assigned) ++
    (if bool_decide (g = DEFAULT_GROUP_ID) then dev_id <$> unassigned assigned known else []).
Proof.
  unfold assignmentsByGroup. cbv zeta.
  rewrite (foldl_skip (fun d => includes (asg_device_id <$> assigned) (dev_id d))
    (fun m d => push_device m DEFAULT_GROUP_ID (dev_id d))).
  fold (unassigned assigned known).
  rewrite (push_devices_lookup (fun _ => DEFAULT_GROUP_ID) dev_id).
  rewrite (push_devices_lookup asg_group_id asg_device_id).
  assert (default [] (({[DEFAULT_GROUP_ID := []]} : gmap jstr (list jstr)) !! g) = []) as ->.
  { destruct (decide (g = DEFAULT_GROUP_ID)) as [->|]; [by rewrite lookup_singleton_eq|].
    by rewrite lookup_singleton_ne. }
  simpl. f_equal. case_bool_decide as Hg; subst.
  - f_equal. by apply filter_b_all.
  - rewrite bool_decide_false by congruence. by induction (unassigned assigned known).
Qed.

(** C20: Provided no device is assigned twice or known twice, the page shows every
    device on exactly one policy: the one it is assigned to, or the default one
    when no assignment names it; and it shows no device twice. *)
Theorem assignmentsByGroup_partition assigned known :
  NoDup (asg_device_id <$> assigned) → NoDup (dev_id <$> known) →
  let on g := default [] (assignmentsByGroup assigned known !! g) in
  (∀ a, a ∈ assigned → ∀ g, asg_device_id a ∈ on g ↔ g = asg_group_id a) ∧
  (∀ d, d ∈ unassigned assigned known → ∀ g, dev_id d ∈ on g ↔ g = DEFAULT_GROUP_ID) ∧
  (∀ g, NoDup (on g)) ∧
  (∀ g x, x ∈ on g → x ∈ asg_device_id <$> assigned ∨ x ∈ dev_id <$> known).
Proof.
  intros Ha Hk on.
  assert (∀ d, d ∈ unassigned assigned known → dev_id d ∉ asg_device_id <$> assigned) as Hun.
  { intros d [_ Hd]%elem_of_filter_b. apply negb_true_iff in Hd. by apply includes_false in Hd. }
  assert (∀ a a', a ∈ assigned → a' ∈ assigned → asg_device_id a = asg_device_id a' →
            asg_group_id a = asg_group_id a') as Hinj.
  { intros a a' [i Hi]%list_elem_of_lookup [j Hj]%list_elem_of_lookup He.
    assert (i = j) as ->; [|congruence].
    eapply (NoDup_lookup _ i j (asg_device_id a) Ha); rewrite list_lookup_fmap; [by rewrite Hi|].
    by rewrite Hj, He. }
  assert (∀ g x, x ∈ on g ↔ (∃ a, a ∈ assigned ∧ asg_group_id a = g ∧ asg_device_id a = x) ∨
            (g = DEFAULT_GROUP_ID ∧ ∃ d, d ∈ unassigned assigned known ∧ dev_id d = x)) as Hon.
  { intros g x. unfold on. rewrite assignmentsByGroup_lookup, elem_of_app, list_elem_of_fmap.
    split.
    - intros [(a & -> & [Hin Hg]%elem_of_filter_b)|Hx].
      + left. exists a. apply bool_decide_eq_true in Hg. done.
      + case_bool_decide; [|by apply elem_of_nil in Hx].
        apply list_elem_of_fmap in Hx as (d & -> & ?). right. split; [done|by exists d].
    - intros [(a & Hin & <- & <-)|(-> & d & Hd & <-)].
      + left. exists a. split; [done|]. apply elem_of_filter_b. by rewrite bool_decide_true.
      + right. rewrite bool_decide_true by done. apply list_elem_of_fmap. by exists d. }
  split_and!.
  - intros a Hin g. rewrite Hon. split; [|intros ->; left; by exists a].
    intros [(a' & Hin' & <- & E)|(-> & d & Hd & E)]; [by apply Hinj|].
    destruct (Hun d Hd). rewrite E. apply list_elem_of_fmap. eauto.
  - intros d Hd g. rewrite Hon. split; [|intros ->; right; eauto].
    intros [(a & Hin & <- & E)|(-> & _)]; [|done].
    destruct (Hun d Hd). rewrite <-E. apply list_elem_of_fmap. eauto.
  - intros g. unfold on. rewrite assignmentsByGroup_lookup. apply NoDup_app. split_and!.
    + by apply NoDup_fmap_filter_b.
    + intros x (a & -> & [Hin _]%elem_of_filter_b)%list_elem_of_fmap.
      case_bool_decide; [|apply not_elem_of_nil].
      intros (d & E & Hd)%list_elem_of_fmap. destruct (Hun d Hd). rewrite <-E.
      apply list_elem_of_fmap. eauto.
    + case_bool_decide; [by apply NoDup_fmap_filter_b|constructor].
  - intros g x. rewrite Hon. intros [(a & Hin & _ & <-)|(_ & d & Hd & <-)].
    + left. apply list_elem_of_fmap. eauto.
    + right. apply elem_of_filter_b in Hd as [Hd _]. apply list_elem_of_fmap. eauto.
Qed.

(** ** Examples *)

Definition emptyBody : PolicyBody :=
  MkBody None None None None None None None None None None false None.

(** A server that accepts everything and answers with an empty object. *)
Definition accepting (log : list (request PolicyPayload)) (q : io_req PolicyPayload)
    : io_res PolicyBody q :=
  let r := Response 200 (inr []) None (inr (Some emptyBody)) in
  serve (fun _ => inr r) q.

Definition sample_page : Page :=
  (initialPage [] (Some (js "token")))
    <| assigningDevices := {[ js "kids" := [js "d1"; js "d2"] ]} |>
    <| deletingGroup := Some (emptyGroup <| grp_id := js "kids" |>) |>.

Lemma assignSelectedDevices_spec_witness :
  (run (history accepting) (assignSelectedDevices (js "kids")) sample_page []).1.1 = inr ().
Proof.
  pose proof (assignSelectedDevices_spec accepting (js "kids") sample_page []) as H.
  cbv zeta in H.
  destruct (run (history accepting) (assignSelectedDevices (js "kids")) sample_page []) as [[r s'] log'].
  apply H. vm_compute. discriminate.
Defined.

Lemma confirmDeleteGroup_spec_witness :
  let '(r, s', _) := run (history accepting) confirmDeleteGroup sample_page [] in
  r = inr () ∧ saving s' = false.
Proof.
  pose proof (confirmDeleteGroup_spec accepting sample_page []
    (emptyGroup <| grp_id := js "kids" |>) eq_refl) as H. cbv zeta in H.
  destruct (run (history accepting) confirmDeleteGroup sample_page []) as [[r s'] log'].
  split; apply H.
Defined.

Lemma assignmentsByGroup_partition_witness :
  js "d1" ∈ default [] (assignmentsByGroup [MkAssignment (js "d1") (js "kids")]
              [MkDevice (js "d2") None None None None] !! js "kids").
Proof.
  apply (proj1 (assignmentsByGroup_partition [MkAssignment (js "d1") (js "kids")]
    [MkDevice (js "d2") None None None None] (NoDup_singleton _) (NoDup_singleton _))
    (MkAssignment (js "d1") (js "kids"))); [left|done].
Defined.
