(* ===== verification/PolicyGroupsView.v ===== *)
(** * The template of the policy page, and the page in the event loop

    The markup of [routes/rules/policygroups.svelte] as a tree, and the machine
    it makes of the handlers of [PolicyGroups]: a user raises only what the
    template offers, handlers interleave at their requests, and the server
    answers in any order.  The theorems say what the template's [disabled]
    attributes achieve, and what they do not. *)

From S2P Require Import Prelude JsString JsAsync Http Api Busy View Joined PolicyModel DomainList GroupForm GroupFormView PolicyGroups.
Open Scope js_scope.

(** Looks at the supporting reads one by one. *)
Ltac each_supporting H :=
  unfold loadSupporting in H; repeat (apply elem_of_cons in H as [->|H]); [..|by apply elem_of_nil in H].

(** A flag that loading the page leaves alone. *)
Ltac load_harmless_run :=
  unfold mounted, load;
  do 2 (apply harmless_bind; [apply harmless_modify; intros; first [hnf_eq|reflexivity]|intros _]);
  apply (promise_all_with_harmless _ _ loadSupporting);
  [ intros r Hr o st; each_supporting Hr; destruct o; cbn [sr_done]; repeat case_match; first [hnf_eq|reflexivity]
  | done
  | intros r st Hr; each_supporting Hr; done
  | done
  | intros o; unfold load_over, load_assign; harmless_run; reflexivity ].

Inductive page_event :=
| CloseError
| CloseSuccess
| SelectTab (tab : nat)
| OpenCreate
| CancelEdit
| BeginCreate
| ApplyTemplate (template : PolicyTemplate)
| FormEdit (e : form_event)
| SaveGroup
| ToggleDetails (id : jstr)
| SetDevicePolicy (deviceID groupID : jstr)
| SelectDevices (groupID : jstr) (selectedIds : list jstr)
| AssignSelected (groupID : jstr)
| BeginEdit (group : PolicyGroup)
| OpenDelete (group : PolicyGroup)
| CloseDelete
| ConfirmDelete
| SetTestDevice (value : jstr)
| SetTestTarget (value : jstr)
| SetTestLayer (value : jstr)
| RunTest
| ToggleGateway (id : jstr) (checked : bool)
| SaveCategories.

Definition plural (n : nat) : jstr := if (n =? 1)%nat then [] else js "s".

Section View.
Context (toLocaleString : Z → jstr) (locale_le : jstr → jstr → bool).
(** What [groupform.svelte] keeps from when the form was opened. *)
Context (startAdvanced : bool).

Definition form_event_of (e : form_view_event) : page_event :=
  match e with Edit e => FormEdit e | Save => SaveGroup | Cancel => CancelEdit end.

Definition form_props (s : Page) : FormProps := MkFormProps (schedulePresets s) (timezone s) (users s).

Definition groupform (s : Page) : node page_event :=
  embed form_event_of
    (form_view toLocaleString (form_props s) (categories s) (saving s) startAdvanced (draft s)).

Definition assigned_to (s : Page) (id : jstr) : list jstr := default [] (assignedByGroup s !! id).

(** ** Creating a policy *)

Definition template_tile (s : Page) (template : PolicyTemplate) : node page_event :=
  El "Tile" [] [
    El "h4" [] [Text (tpl_name template)];
    El "p" [] [Text (tpl_description template)];
    shown (negb (is_nil (tpl_categories template))) [
      El "div" [] [
        each (take 3 (tpl_categories template)) (fun category => [
          El "Tag" [lit "type" "red"] [Text (categoryName s category)]]);
        shown (3 <? length (tpl_categories template))%nat [
          El "Tag" [] [txt "+"; Text (of_nat (length (tpl_categories template) - 3)); txt " more"]
        ]
      ]
    ];
    shown (negb (is_nil (limitations template))) [
      El "p" [] [Text (joinStr (js " ") (limitations template))]
    ];
    El "Button" [
      lit "kind" (if templateApplied s template then "ghost" else "secondary");
      Disabled (saving s || negb (available template) || templateApplied s template);
      On "click" (ApplyTemplate template)
    ] [txt (if templateApplied s template then "Already added" else "Use starter")]
  ].

Definition choose_view (s : Page) : node page_event :=
  shown (bool_decide (editingGroupId s = js "choose")) [
    El "div" [] [
      El "div" [] [
        El "div" [] [
          El "h4" [] [txt "Create a policy"];
          El "p" [] [txt "Start with a tested baseline or build one from scratch."]
        ];
        El "Button" [lit "kind" "ghost"; On "click" CancelEdit] [txt "Cancel"]
      ];
      shown (negb (is_nil (sharedLimitations s))) [
        El "InlineNotification" [
          lit "kind" "info"; lit "title" "Starter limitations";
          Attr "subtitle" (joinStr (js " ") (sharedLimitations s))
        ] []
      ];
      El "div" [] [
        each (templates s) (fun template => [template_tile s template]);
        El "Tile" [] [
          El "h4" [] [txt "Blank policy"];
          El "p" [] [txt "Choose every category, domain, schedule, and advanced rule yourself."];
          El "Button" [lit "kind" "tertiary"; On "click" BeginCreate] [txt "Start blank"]
        ]
      ]
    ]
  ].

Definition new_view (s : Page) : node page_event :=
  shown (bool_decide (editingGroupId s = js "new")) [
    El "Tile" [] [El "h4" [] [txt "New policy"]; groupform s]
  ].

(** ** A policy of the list *)

Definition group_title (s : Page) (group : PolicyGroup) : node page_event :=
  let assigned := length (assigned_to s (grp_id group)) in
  let named := length (grp_users group) in
  El "div" [] [
    El "h4" [] [Text (grp_name group)];
    shown (bool_decide (grp_id group = DEFAULT_GROUP_ID)) [El "Tag" [lit "type" "blue"] [txt "default"]];
    El "span" [] [
      Text (of_nat assigned); txt " device"; Text (plural assigned);
      Text (if (named =? 0)%nat then []
            else js " · " ++ of_nat named ++ js " proxy user" ++ plural named)
    ]
  ].

Definition group_details (s : Page) (group : PolicyGroup) : node page_event :=
  shown (default false (expanded s !! grp_id group)) [
    shown (truthy (grp_description group)) [El "p" [] [Text (grp_description group)]];
    shown (negb (is_nil (blocked_categories group)) || negb (is_nil (blocked_domains group))) [
      El "span" [] [txt "Blocks"];
      each (blocked_categories group) (fun category => [
        El "Tag" [lit "type" "red"] [Text (categoryName s category)]]);
      each (blocked_domains group) (fun domain => [El "Tag" [lit "type" "outline"] [Text domain]])
    ];
    shown (negb (is_nil (allowed_domains group))) [
      El "span" [] [txt "Always allows"];
      each (allowed_domains group) (fun domain => [El "Tag" [lit "type" "green"] [Text domain]])
    ];
    shown (negb (is_nil (rules group))) [
      El "ol" [] [
        each (rules group) (fun rule => [
          El "li" [Flag "class:off" (negb (rule_enabled rule))] [
            Text (if truthy (rule_name rule) then rule_name rule ++ js ": " else []);
            Text (ruleSentence rule (categoryName s));
            Text (if rule_enabled rule then [] else js " (off)")
          ]])
      ]
    ];
    shown (negb (is_nil (grp_users group))) [
      El "p" [] [txt "Proxy users: "; Text (joinStr (js ", ") (grp_users group))]
    ]
  ].

Definition assignment_panel (s : Page) (group : PolicyGroup) : node page_event :=
  let assigned := assigned_to s (grp_id group) in
  let selected := default [] (assigningDevices s !! grp_id group) in
  El "div" [] [
    El "h5" [] [txt "Assigned devices"];
    El "span" [] [Text (of_nat (length assigned))];
    alt (negb (is_nil assigned)) [
      each assigned (fun deviceID => [
        alt (bool_decide (grp_id group = DEFAULT_GROUP_ID)) [
          El "Tag" [] [Text (deviceName s deviceID)]
        ] [
          El "Tag" [
            lit "title" "Move to the default policy";
            On "close" (SetDevicePolicy deviceID DEFAULT_GROUP_ID)
          ] [Text (deviceName s deviceID)]
        ]])
    ] [
      El "p" [] [txt "No assigned devices."]
    ];
    shown (negb (bool_decide (grp_id group = DEFAULT_GROUP_ID))
           && negb (is_nil (devicesNotOn locale_le s (grp_id group)))) [
      El "MultiSelect" [
        lit "titleText" "Add devices"; lit "label" "Select devices";
        Items ((fun device => (dev_id device, deviceLabel device)) <$> devicesNotOn locale_le s (grp_id group));
        Ids "selectedIds" selected;
        OnValue "select" (forallb (includes (dev_id <$> devicesNotOn locale_le s (grp_id group))))
          (fun ids => SelectDevices (grp_id group) ids)
      ] [];
      El "Button" [
        lit "kind" "tertiary"; Disabled (saving s || is_nil selected);
        On "click" (AssignSelected (grp_id group))
      ] [txt "Assign selected"]
    ]
  ].

Definition group_actions (s : Page) (group : PolicyGroup) : node page_event :=
  El "div" [] [
    El "Button" [lit "kind" "ghost"; Disabled (saving s); On "click" (BeginEdit group)] [txt "Edit"];
    shown (negb (bool_decide (grp_id group = DEFAULT_GROUP_ID))) [
      El "Button" [lit "kind" "danger-ghost"; Disabled (saving s); On "click" (OpenDelete group)]
        [txt "Delete"]
    ]
  ].

Definition group_view (s : Page) (group : PolicyGroup) : node page_event :=
  El "Tile" [] [
    alt (bool_decide (editingGroupId s = grp_id group)) [
      El "h4" [] [txt "Edit "; Text (grp_name group)];
      groupform s
    ] [
      group_title s group;
      El "p" [] [Text (policySummary group (categoryName s))];
      alt (bool_decide (grp_id group = DEFAULT_GROUP_ID)) [
        El "p" [] [txt "New and unassigned devices use this policy automatically."]
      ] [
        shown (is_nil (assigned_to s (grp_id group)) && is_nil (grp_users group)) [
          El "p" [] [txt "No devices use this policy yet."]
        ]
      ];
      El "button" [On "click" (ToggleDetails (grp_id group))]
        [txt (if default false (expanded s !! grp_id group) then "Hide details" else "View details")];
      group_details s group;
      assignment_panel s group;
      group_actions s group
    ]
  ].

Definition policies_tab (s : Page) : node page_event :=
  El "TabContent" [] [
    El "h3" [] [txt "Policies"];
    El "p" [] [txt "Every device follows one policy. Unassigned devices use the default policy."];
    El "Button" [Disabled (saving s); On "click" OpenCreate] [txt "Create policy"];
    choose_view s;
    new_view s;
    each (groups s) (fun group => [group_view s group])
  ].

(** ** The other tabs *)

Definition result_view (result : PreviewResult) : node page_event :=
  let active := pr_active result in
  El "div" [] [
    El "Tag" [lit "type" (match (verdict result).2 with Red => "red" | Green => "green" | Gray => "gray" end)]
      [Text (verdict result).1];
    El "span" [] [txt "by policy "; Text (pv_group_name active)];
    shown (truthy (pv_reason active)) [
      El "p" [] [txt "Decided by "; Text (pv_reason active); txt "."]
    ];
    shown (pv_url_blocked active) [El "p" [] [txt "The URL matches a blocked pattern of this policy."]];
    shown (negb (is_nil (pv_proxy_only active))) [
      El "p" [] [
        txt "A rule for this site checks ";
        Text (replace (js "user") (js "the proxy login")
          (replace (js "content_type") (js "the response type")
          (replace (js "url_regex") (js "the URL")
             (joinStr (js ", ") (pv_proxy_only active)))));
        txt ", which only the proxy can see. Test the Proxy path with a full URL."
      ]
    ];
    shown (pv_safe_search active) [El "p" [] [txt "Safe search is on for this policy."]];
    El "ol" [] [
      each (pv_trace active) (fun step => [
        El "li" [Flag "class:applied" (step_applied step)] [
          Text (replace_all 95 (js " ") (stage step)); txt ": ";
          Text (if truthy (default [] (step_detail step)) then default [] (step_detail step)
                else printed (step_action step))
        ]])
    ];
    El "p" [] [Text (printed (pr_explanation result))]
  ].

Definition test_tab (s : Page) : node page_event :=
  El "TabContent" [] [
    El "h3" [] [txt "Test a site"];
    El "p" [] [txt "Check whether a site is blocked for a device right now and which setting decides it. Nothing is changed."];
    El "Select" [
      lit "labelText" "Device"; Attr "selected" (testDevice s);
      OnValue "bind:selected" (fun v => negb (truthy v) || includes (dev_id <$> sortedDevices locale_le s) v)
        SetTestDevice
    ] [
      El "SelectItem" [lit "value" ""; lit "text" "An unknown device (default policy)"] [];
      each (sortedDevices locale_le s) (fun device => [
        El "SelectItem" [Attr "value" (dev_id device); Attr "text" (deviceLabel device)] []])
    ];
    El "TextInput" [
      lit "labelText" "Domain or URL"; lit "placeholder" "youtube.com/shorts/abc";
      Attr "value" (testTarget s); OnAny "bind:value" SetTestTarget; On "keydown" RunTest
    ] [];
    El "Select" [
      lit "labelText" "Path"; Attr "selected" (testLayer s);
      OnValue "bind:selected" (fun v => bool_decide (v = js "dns") || bool_decide (v = js "proxy")) SetTestLayer
    ] [
      El "SelectItem" [lit "value" "dns"; lit "text" "DNS"] [];
      El "SelectItem" [lit "value" "proxy"; lit "text" "Proxy"] []
    ];
    El "Button" [Disabled (testing s || negb (truthy (trim (testTarget s)))); On "click" RunTest] [txt "Test"];
    shown (testing s) [El "InlineLoading" [lit "description" "Evaluating..."] []];
    shown (truthy (testError s)) [El "p" [] [Text (testError s)]];
    given (testResult s) (fun result => [result_view result])
  ].

Definition defaults_tab (s : Page) : node page_event :=
  El "TabContent" [] [
    El "h3" [] [txt "Gateway defaults"];
    El "p" [] [txt "These categories are blocked for every device on every policy. A policy's always-allowed domains can still exempt a site."];
    El "Button" [Disabled (savingCategories s); On "click" SaveCategories] [txt "Save categories"];
    categoryselect_view toLocaleString (categories s) (gatewaySelection s) (savingCategories s) false
      (fun id checked => ToggleGateway id checked)
  ].

(** ** The page *)

Definition delete_dialog (s : Page) : node page_event :=
  El "ComposedModal" [
    Open (match deletingGroup s with Some _ => true | None => false end);
    PrimaryDisabled (saving s); On "close" CloseDelete; On "submit" ConfirmDelete
  ] [
    El "ModalHeader" [lit "title" "Delete policy?"; lit "label" "This action cannot be undone"] [];
    El "p" [] [
      txt "Delete "; Text (printed (grp_name <$> deletingGroup s));
      txt "? Devices assigned to it will move to the default policy."
    ];
    El "ModalFooter" [
      lit "primaryButtonText" (if saving s then "Deleting..." else "Delete policy");
      lit "secondaryButtonText" "Cancel"
    ] []
  ].

Definition page_view (s : Page) : list (node page_event) := [
  shown (truthy (error s)) [
    El "InlineNotification" [
      lit "kind" "error"; lit "title" "Error"; Attr "subtitle" (error s); On "close" CloseError
    ] []
  ];
  shown (truthy (success s)) [
    El "InlineNotification" [
      lit "kind" "success"; lit "title" "Done"; Attr "subtitle" (success s); On "close" CloseSuccess
    ] []
  ];
  alt (loading s) [
    El "InlineLoading" [lit "description" "Loading policies..."] []
  ] [
    El "Tabs" [lit "aria-label" "Policy tools"; OnAny "bind:selected" SelectTab] [
      El "Tab" [lit "label" "Policies"] [];
      El "Tab" [lit "label" "Test a site"] [];
      El "Tab" [lit "label" "Gateway defaults"] [];
      policies_tab s;
      test_tab s;
      defaults_tab s
    ]
  ];
  delete_dialog s
].
End View.

(** ** The page in the event loop *)

Section Loop.
Context (toLocaleString : Z → jstr) (locale_le : jstr → jstr → bool) (startAdvanced : bool).

#[local] Abbreviation handler := (prog Page (io_res (P := PolicyPayload) PolicyBody)).

(** The form changes the page's draft in place. *)
Definition edit_draft (e : form_event) : handler unit :=
  s ← get;
  match form_step (form_props s) e (draft s) with
  | inl err => Throw err
  | inr d => draft <~ d
  end.

Definition user_handler (e : page_event) : handler unit :=
  match e with
  | CloseError => error <~ []
  | CloseSuccess => success <~ []
  | SelectTab tab => selectedTab <~ tab
  | OpenCreate => modify openCreate
  | CancelEdit => modify cancelEdit
  | BeginCreate => modify beginCreate
  | ApplyTemplate template => applyTemplate template
  | FormEdit e => edit_draft e
  | SaveGroup => saveGroup
  | ToggleDetails id => modify (fun s => s <| expanded ::= fun m => <[id := negb (default false (m !! id))]> m |>)
  | SetDevicePolicy deviceID groupID => setDevicePolicy deviceID groupID
  | SelectDevices groupID ids => modify (selectDevices groupID ids)
  | AssignSelected groupID => assignSelectedDevices groupID
  | BeginEdit group => modify (beginEdit group)
  | OpenDelete group => modify (openDeleteGroup group)
  | CloseDelete => modify closeDeleteGroup
  | ConfirmDelete => confirmDeleteGroup
  | SetTestDevice v => testDevice <~ v
  | SetTestTarget v => testTarget <~ v
  | SetTestLayer v => testLayer <~ v
  | RunTest => runTest
  | ToggleGateway id checked =>
      s ← get;
      modify (on_change (fun v s => s <| gatewaySelection := v |>)
                (DomainList.toggle (gatewaySelection s) id checked))
  | SaveCategories => saveGatewayCategories
  end.

Definition page_offers (s : Page) (e : page_event) : Prop :=
  any_of (fun n => offers n e) (page_view toLocaleString locale_le startAdvanced s).

Definition enabled (e : page_event) (s : Page) : Prop := page_offers s e.

(** The page from [onMount(load)] on. *)
Definition page_loop (path : jstr) (token : option jstr) :=
  loop_from enabled user_handler mounted (initialPage path token).
End Loop.

(** ** What the template's guards achieve *)

(** Requests that change a policy or an assignment. *)
Definition writes (q : io_req PolicyPayload) : bool :=
  match q with
  | Fetch r => negb (bool_decide (rq_method r = js "GET")) &&
      match rq_body r with Some (SendPreview _) | Some (SendCategories _) => false | _ => true end
  | _ => false
  end.

Lemma form_save_offered toLocaleString startAdvanced s :
  offers (groupform toLocaleString startAdvanced s) SaveGroup → saving s = false.
Proof.
  unfold groupform. rewrite offers_embed. intros ([| |] & [=] & H).
  by apply (form_view_offers _ _ _ _ _ _ EvAddRule) in H.
Qed.

(** What the template demands of the state for an event to be raised. *)
Definition demanded (s : Page) (e : page_event) : Prop :=
  match e with
  | SaveGroup | ApplyTemplate _ | AssignSelected _ | BeginEdit _ | OpenCreate => saving s = false
  | ConfirmDelete => saving s = false ∧ is_Some (deletingGroup s)
  | OpenDelete group => saving s = false ∧ group ∈ groups s ∧ grp_id group ≠ DEFAULT_GROUP_ID
  | SaveCategories | ToggleGateway _ _ => savingCategories s = false
  | _ => True
  end.

Section Demanded.
Context (toLocaleString : Z → jstr) (locale_le : jstr → jstr → bool) (startAdvanced : bool).

Lemma groupform_demanded s e : offers (groupform toLocaleString startAdvanced s) e → demanded s e.
Proof.
  intros H. pose proof (form_save_offered toLocaleString startAdvanced s) as Hs.
  unfold groupform in *. rewrite offers_embed in H. destruct H as ([e'| |] & -> & H); simpl; [done| |done].
  apply Hs. rewrite offers_embed. by exists Save.
Qed.

Ltac guard_cases H :=
  revert H; view_simpl; intros H; view_destruct;
  try match goal with H : offers (groupform _ _ _) _ |- _ => by apply groupform_demanded in H end;
  simplify_eq; cbn [demanded]; try done; split_bools.

Lemma policies_tab_demanded s e :
  offers (policies_tab toLocaleString locale_le startAdvanced s) e → demanded s e.
Proof.
  unfold policies_tab, choose_view, new_view, template_tile, group_view, group_title, group_details,
    assignment_panel, group_actions.
  intros H. guard_cases H. all: by split_and?.
Qed.

Lemma page_demanded s e : page_offers toLocaleString locale_le startAdvanced s e → demanded s e.
Proof.
  unfold page_offers, page_view, delete_dialog, test_tab, defaults_tab, result_view.
  intros H. revert H. view_simpl. rewrite !offers_categoryselect. intros H.
  view_destruct;
    try match goal with H : offers (policies_tab _ _ _ _) _ |- _ => by apply policies_tab_demanded in H end;
    simplify_eq; cbn [demanded]; try done.
  all: split_bools; rewrite ?andb_true_r in *; split_and?; try done.
  destruct (deletingGroup s); [by eexists|done].
Qed.
End Demanded.

(** ** Writes are sent one at a time *)

Section Flight.
Context (toLocaleString : Z → jstr) (locale_le : jstr → jstr → bool) (startAdvanced : bool).

(** The events of the page but for the removal of a device's tag. *)
Definition is_tag_removal (e : page_event) : bool :=
  match e with SetDevicePolicy _ _ => true | _ => false end.
Definition enabled_but_tags (e : page_event) (s : Page) : Prop :=
  page_offers toLocaleString locale_le startAdvanced s e ∧ is_tag_removal e = false.

Lemma mounted_safe s : flag_safe saving writes mounted s.
Proof.
  apply harmless_safe. load_harmless_run.
Qed.

Lemma assignSelectedDevices_safe g s :
  saving s = false → flag_safe saving writes (assignSelectedDevices g) s.
Proof.
  intros Hs. unfold flag_safe, assignSelectedDevices, reloadAssignments, getJSON. guard_run.
  apply guarded_for_of; [done| |].
  - intros d s' Hs'. unfold writeDevicePolicy. guard_run; split_and!; auto. guard_run.
  - intros s' Hs'. guard_run.
Qed.

Lemma events_safe e s : enabled_but_tags e s → flag_safe saving writes (user_handler e) s.
Proof.
  intros [He Ht]. apply page_demanded in He. destruct e; cbn [user_handler demanded is_tag_removal] in *.
  all: try (apply harmless_safe; unfold edit_draft, runTest, saveGatewayCategories;
            harmless_run; first [done|by unfold closeDeleteGroup; case_match|by unfold on_change; case_match]).
  - unfold flag_safe, applyTemplate. guard_run.
  - unfold flag_safe, saveGroup. guard_run.
  - by apply assignSelectedDevices_safe.
  - destruct He as [Hs _]. unfold flag_safe, confirmDeleteGroup, reloadAssignments, getJSON. guard_run.
Qed.

(** C7: As long as no device's tag is removed, the page has at most one
    request under way that changes a policy or an assignment, none while its
    controls are enabled, and its controls are never left disabled with
    nothing under way. *)
Theorem policy_writes_single path token s ts :
  loop_from enabled_but_tags user_handler mounted (initialPage path token) (s, ts) →
  length (List.filter (fun t => writes (th_request t)) ts) ≤ (if saving s then 1 else 0) ∧
  (saving s = true → ts ≠ []).
Proof. apply (single_flight _ _ _ _ events_safe); [done|apply mounted_safe]. Qed.

(** Loading says so until the lists have arrived or one of them has failed. *)
Lemma mounted_clears s : clears loading mounted s.
Proof.
  unfold mounted, load. do 4 right. apply (promise_all_with_clears _ loadSupporting); [| |done].
  - intros r Hr o st. each_supporting Hr; destruct o; cbn [sr_done]; repeat case_match; hnf_eq.
  - intros o s'. unfold load_over. apply wp_finally_modify.
    unfold load_assign. destruct o as [e|got]; [done|].
    by destruct (got 0), (got 1), (got 2), (got 3), (got 4).
Qed.

Definition busy_flags : list (Page → bool) := [saving; testing; savingCategories; loading].

Lemma events_settle e s : Forall (fun flag => settling flag (user_handler e) s) busy_flags.
Proof.
  unfold user_handler, edit_draft, applyTemplate, saveGroup, setDevicePolicy, assignSelectedDevices,
    confirmDeleteGroup, runTest, saveGatewayCategories, reloadAssignments, getJSON, writeDevicePolicy,
    closeDeleteGroup, on_change.
  destruct e; repeat apply Forall_cons_2; try apply Forall_nil_2; settling_run.
Qed.

(** C6: Whatever the user has done, once no more controls are used the page
    comes to rest: it receives finitely many more answers, and when none is
    due nothing on it says "loading", "deleting" or "evaluating" and no control
    is disabled for a save that is over. *)
Theorem policy_page_rests path token c :
  page_loop toLocaleString locale_le startAdvanced path token c →
  Acc (flip answer_step) c ∧
  ∀ s, rtc answer_step c (s, []) →
    Forall (fun flag => flag s = false) busy_flags.
Proof.
  intros Hc. apply (page_rests _ _ _ _ _ busy_flags Hc). apply Forall_forall. intros flag Hf. split.
  - intros e s _. exact (proj1 (Forall_forall _ _) (events_settle e s) flag Hf).
  - repeat (apply elem_of_cons in Hf as [->|Hf]); [| | | |by apply elem_of_nil in Hf].
    1-3: right; split; [done|]; apply eventually_bystander; [|done];
      apply (harmless_bystander _ (fun _ => false)); load_harmless_run.
    left. apply mounted_clears.
Qed.
End Flight.

(** ** The default policy *)

Section Default.
Context (toLocaleString : Z → jstr) (locale_le : jstr → jstr → bool) (startAdvanced : bool).

(** The dialog asks about the default policy. *)
Definition names_default (s : Page) : bool :=
  match deletingGroup s with Some group => bool_decide (grp_id group = DEFAULT_GROUP_ID) | None => false end.

Lemma confirm_keeps s :
  names_default s = false →
  wp (fun s => names_default s = false) confirmDeleteGroup (fun _ s' => names_default s' = false) s.
Proof.
  intros Hs. unfold confirmDeleteGroup, reloadAssignments, getJSON, fetch_body, read_json, deref. wp_run.
  destruct (deletingGroup s); [|done]. wp_run. split; [done|]. intros o s1 H1.
  destruct (checked o); wp_run; [done|]. split; [done|]. intros o' s2 H2.
  destruct (checked o') as [|r']; wp_run; [done|].
  destruct (json r') as [|[|]]; by wp_run.
Qed.

Lemma events_keep e s :
  names_default s = false → enabled toLocaleString locale_le startAdvanced e s →
  wp (fun s => names_default s = false) (user_handler e) (fun _ s' => names_default s' = false) s.
Proof.
  intros Hs He. apply page_demanded in He.
  destruct e; cbn [user_handler demanded] in *; [..|exact (confirm_keeps s Hs)| | | | | |].
  all: try (apply bystander_wp; [|exact Hs];
    unfold edit_draft, applyTemplate, saveGroup, setDevicePolicy, assignSelectedDevices,
      runTest, saveGatewayCategories, reloadAssignments, getJSON, writeDevicePolicy;
    bystander_run; first [done|by unfold on_change; case_match]).
  - destruct He as (_ & _ & Hd). wp_run. unfold openDeleteGroup, names_default. simpl.
    by apply bool_decide_eq_false.
  - wp_run. unfold closeDeleteGroup. by destruct (negb (saving s)).
Qed.

(** C8: The default policy cannot be deleted from the page: whenever the dialog
    offers to delete, it names another policy, and what confirming it sends is
    the deletion of that policy. *)
Theorem default_policy_stays path token s ts :
  page_loop toLocaleString locale_le startAdvanced path token (s, ts) →
  page_offers toLocaleString locale_le startAdvanced s ConfirmDelete →
  ∃ group s' t, deletingGroup s = Some group ∧ grp_id group ≠ DEFAULT_GROUP_ID ∧
    advance confirmDeleteGroup s = (s', Some t) ∧ th_request t = Fetch (delete_request s group) ∧
    rq_url (delete_request s group) ≠ GROUPS_API s ++ js "/" ++ DEFAULT_GROUP_ID.
Proof.
  intros Hr Ho. apply page_demanded in Ho as [_ [group Hg]].
  assert (names_default s = false) as Hn.
  { revert Hr. apply (invariant_loop (fun s => names_default s = false)); [apply events_keep|].
    apply bystander_wp; [|done]. apply (harmless_bystander _ (fun _ => false)). load_harmless_run. }
  unfold names_default in Hn. rewrite Hg in Hn. apply bool_decide_eq_false in Hn.
  unfold confirmDeleteGroup. cbn [mbind prog_bind settle get advance]. rewrite Hg.
  exists group. do 2 eexists. split_and!; [done|done|reflexivity|reflexivity|].
  unfold delete_request. cbn [rq_url]. intros He%app_inv_head%app_inv_head. by apply Hn.
Qed.
End Default.

(** ** What they do not *)

Section Overlap.
Context (toLocaleString : Z → jstr) (locale_le : jstr → jstr → bool) (startAdvanced : bool).

(** The tag of an assigned device can be closed whether or not a save is
    under way. *)
Definition tag_shown (s : Page) (group : PolicyGroup) (d : jstr) : Prop :=
  loading s = false ∧ group ∈ groups s ∧ editingGroupId s ≠ grp_id group ∧
  grp_id group ≠ DEFAULT_GROUP_ID ∧ d ∈ assigned_to s (grp_id group).

Lemma tag_offered s group d :
  tag_shown s group d →
  page_offers toLocaleString locale_le startAdvanced s (SetDevicePolicy d DEFAULT_GROUP_ID).
Proof.
  intros (Hl & Hg & He & Hd & Ha).
  assert (offers (assignment_panel locale_le s group) (SetDevicePolicy d DEFAULT_GROUP_ID)) as Hp.
  { unfold assignment_panel. cbv zeta. view_simpl. split; [done|]. right. right. right. left. left.
    split; [by destruct (assigned_to s (grp_id group)); [apply elem_of_nil in Ha|]|]. left.
    exists d. split; [done|]. left. right. split; [by apply bool_decide_eq_false|].
    left. split; [done|]. left. left. done. }
  unfold page_offers, page_view. cbn [any_of]. right. right. left. view_simpl. right.
  split; [done|]. left. split; [done|]. right. do 3 right. left.
  unfold policies_tab. view_simpl. split; [done|]. do 6 right. left. exists group. split; [done|]. left.
  unfold group_view. view_simpl. split; [done|]. right. left. right.
  split; [by apply bool_decide_eq_false|]. do 5 right. left. exact Hp.
Qed.

Lemma setDevicePolicy_starts s d :
  truthy d = true →
  ∃ t, advance (setDevicePolicy d DEFAULT_GROUP_ID) s =
      (s <| saving := true |> <| error := [] |> <| success := [] |>, Some t) ∧
    writes (th_request t) = true.
Proof. intros Hd. unfold setDevicePolicy. rewrite Hd. eexists. split; [reflexivity|]. done. Qed.

(** Removing the tags of two devices one after the other puts two writes
    of the page under way at once, whatever is under way already: the tags are
    the one control that is not disabled during a save. *)
Theorem tag_removals_overlap path token s ts group d1 d2 :
  page_loop toLocaleString locale_le startAdvanced path token (s, ts) →
  tag_shown s group d1 → tag_shown s group d2 → truthy d1 = true → truthy d2 = true →
  ∃ s' t1 t2,
    page_loop toLocaleString locale_le startAdvanced path token (s', ts ++ [t1; t2]) ∧
    writes (th_request t1) = true ∧ writes (th_request t2) = true ∧ saving s' = true.
Proof.
  intros Hr H1 H2 Hd1 Hd2. destruct (setDevicePolicy_starts s d1 Hd1) as (t1 & Ha1 & Hw1).
  set (s1 := s <| saving := true |> <| error := [] |> <| success := [] |>) in *.
  destruct (setDevicePolicy_starts s1 d2 Hd2) as (t2 & Ha2 & Hw2).
  do 3 eexists. split; [|split; [exact Hw1|split; [exact Hw2|]]].
  - eapply rtc_r; [eapply rtc_r; [exact Hr|]|].
    + apply (step_event _ _ (SetDevicePolicy d1 DEFAULT_GROUP_ID) _ s1 ts (Some t1)); [|exact Ha1].
      by eapply tag_offered.
    + change (ts ++ [t1; t2]) with (ts ++ [t1] ++ option_list (Some t2)). rewrite app_assoc.
      apply (step_event _ _ (SetDevicePolicy d2 DEFAULT_GROUP_ID)); [|exact Ha2].
      by eapply tag_offered.
  - done.
Qed.
End Overlap.

(** A server with one policy of two devices. *)
Definition kids : PartialGroup :=
  MkPartialGroup (Some (js "kids")) (Some (js "Kids")) None None None None None None None None.
Definition kids_body : PolicyBody :=
  MkBody None None (Some [kids]) None None
    (Some [MkAssignment (js "d1") (js "kids"); MkAssignment (js "d2") (js "kids")])
    None None None None false None.
Definition kids_server (log : list (request PolicyPayload)) (q : io_req PolicyPayload) : io_res PolicyBody q :=
  let r := Response 200 (inr []) None (inr (Some kids_body)) in
  serve (fun _ => inr r) q.
Definition kids_page : Page :=
  (run (history kids_server) mounted (initialPage [] (Some (js "token"))) []).1.2.

Lemma kids_tag d : d = js "d1" ∨ d = js "d2" → tag_shown kids_page (copyGroup kids) d.
Proof.
  intros Hd. unfold tag_shown. split_and!.
  - by vm_compute.
  - left.
  - by vm_compute.
  - by vm_compute.
  - destruct Hd as [->| ->]; apply (bool_decide_unpack _); by vm_compute.
Qed.

Lemma tag_removals_overlap_witness :
  ∃ s ts, page_loop of_Z (fun _ _ => true) false [] (Some (js "token")) (s, ts) ∧
    length (List.filter (fun t => writes (th_request t)) ts) = 2.
Proof.
  destruct (tag_removals_overlap of_Z (fun _ _ => true) false [] (Some (js "token")) kids_page []
    (copyGroup kids) (js "d1") (js "d2")) as (s & t1 & t2 & Hr & H1 & H2 & _);
    [apply loop_from_run|by apply kids_tag; left|by apply kids_tag; right|by vm_compute|by vm_compute|].
  exists s, ([] ++ [t1; t2]). split; [exact Hr|]. cbn [app List.filter]. by rewrite H1, H2.
Defined.

(** ** A deletion under way *)

Lemma delete_offered toLocaleString locale_le startAdvanced s group :
  loading s = false → saving s = false → group ∈ groups s → editingGroupId s ≠ grp_id group →
  grp_id group ≠ DEFAULT_GROUP_ID → page_offers toLocaleString locale_le startAdvanced s (OpenDelete group).
Proof.
  intros Hl Hs Hg He Hd.
  assert (offers (group_actions s group) (OpenDelete group)) as Hp.
  { unfold group_actions. view_simpl. split; [done|]. right. right. left.
    split; [by apply negb_true_iff, bool_decide_eq_false|]. left. split; [done|]. left. left.
    split; [by rewrite Hs|done]. }
  unfold page_offers, page_view. cbn [any_of]. right. right. left. view_simpl. right.
  split; [done|]. left. split; [done|]. right. do 3 right. left.
  unfold policies_tab. view_simpl. split; [done|]. do 6 right. left. exists group. split; [done|]. left.
  unfold group_view. view_simpl. split; [done|]. right. left. right.
  split; [by apply bool_decide_eq_false|]. do 6 right. left. exact Hp.
Qed.

Lemma confirm_offered toLocaleString locale_le startAdvanced s :
  is_Some (deletingGroup s) → saving s = false →
  page_offers toLocaleString locale_le startAdvanced s ConfirmDelete.
Proof.
  intros [group Hg] Hs. unfold page_offers, page_view, delete_dialog. cbn [any_of]. do 3 right. left.
  view_simpl. rewrite Hg, Hs. split; [done|]. left. right. by left.
Qed.

Definition asked_page : Page := kids_page <| deletingGroup := Some (copyGroup kids) |>.
Definition deleting_page : Page * list (thread Page (io_res (P := PolicyPayload) PolicyBody)) :=
  let '(s, t) := advance confirmDeleteGroup asked_page in (s, option_list t).

Lemma but_tags_step c c' :
  step (enabled_but_tags of_Z (fun _ _ => true) false) user_handler c c' →
  step (enabled of_Z (fun _ _ => true) false) user_handler c c'.
Proof.
  intros [e s1 s2 ts1 t [He _] Ha|q k r s1 s2 ts1 ts2 t Ha]; [by apply (step_event _ _ e)|by eapply step_answer].
Qed.

Lemma asked_loop :
  loop_from (enabled_but_tags of_Z (fun _ _ => true) false) user_handler mounted
    (initialPage [] (Some (js "token"))) (asked_page, []).
Proof.
  eapply rtc_r; [exact (loop_from_run _ _ (history kids_server) _ _ [])|].
  apply (step_event _ _ (OpenDelete (copyGroup kids)) _ asked_page [] None); [|done].
  split; [|done]. apply delete_offered; [done..|left|by vm_compute|by vm_compute].
Qed.

Lemma deleting_loop :
  loop_from (enabled_but_tags of_Z (fun _ _ => true) false) user_handler mounted
    (initialPage [] (Some (js "token"))) (deleting_page.1, deleting_page.2).
Proof.
  eapply rtc_r; [exact asked_loop|].
  apply (step_event _ _ ConfirmDelete asked_page _ []); [|reflexivity].
  split; [|done]. by apply confirm_offered.
Qed.

(** One deletion is under way, and the page's controls are disabled. *)
Lemma policy_writes_single_witness :
  length (List.filter (fun t => writes (th_request t)) deleting_page.2) = 1 ∧ saving deleting_page.1 = true.
Proof.
  assert (saving deleting_page.1 = true) as Hb by done.
  destruct (policy_writes_single of_Z (fun _ _ => true) false [] (Some (js "token"))
    deleting_page.1 deleting_page.2 deleting_loop) as [H _].
  rewrite Hb in H. split; [|done]. reflexivity.
Defined.

Lemma default_policy_stays_witness :
  ∃ group s' t, deletingGroup asked_page = Some group ∧ grp_id group ≠ DEFAULT_GROUP_ID ∧
    advance confirmDeleteGroup asked_page = (s', Some t).
Proof.
  destruct (default_policy_stays of_Z (fun _ _ => true) false [] (Some (js "token")) asked_page [])
    as (group & s' & t & Hg & Hd & Ha & _).
  - eapply rtc_subrel; [|exact asked_loop]. apply but_tags_step.
  - by apply confirm_offered.
  - by exists group, s', t.
Defined.

Lemma policy_page_rests_witness :
  Acc (flip answer_step) (deleting_page.1, deleting_page.2) ∧ Forall (fun flag => flag kids_page = false) busy_flags.
Proof.
  split; [|destruct (policy_page_rests of_Z (fun _ _ => true) false [] (Some (js "token")) (kids_page, [])) as [_ H];
    [apply loop_from_run|apply H; reflexivity]].
  apply (policy_page_rests of_Z (fun _ _ => true) false [] (Some (js "token"))).
  eapply rtc_subrel; [|exact deleting_loop]. apply but_tags_step.
Defined.
