(* ===== verification/Stats.v ===== *)
(** * The statistics page

    [routes/stats/stats.svelte]: two polls, of the decision summary for the
    selected window and of the proxy traffic.  Requests, timers and user events
    interleave, so the page is a step machine: [stats_step] is one turn of the
    event loop.  A request in flight keeps what its continuation captured. *)

From S2P Require Import Prelude JsString JsAsync Numbers Timers Poll.
From stdpp Require Import sorting.
Open Scope js_scope.

(** ** Data *)

Record Count := MkCount { cnt_key : jstr; cnt_count : option Z }.
Record Bucket := MkBucket { bk_start : Z; bk_total : Z; bk_blocked : Z }.

(** A row of [affected_devices] and of [blocks_by_policy]. *)
Record Affected := MkAffected { aff_ip : jstr; aff_device : jstr; aff_count : option Z }.
Record PolicyBlocks := MkPolicyBlocks { pb_id : jstr; pb_name : jstr; pb_count : option Z }.

Record Summary := MkSummary {
  sum_total : option Z;
  by_action : option (list (jstr * Z));
  by_layer : option (list (jstr * Z));
  top_blocked_domains : option (list Count);
  top_domains : option (list Count);
  top_reasons : option (list Count);
  affected_devices : option (list Affected);
  blocks_by_policy : option (list PolicyBlocks);
  inspection_failures : option Z;
  unique_clients : option Z;
  unique_domains : option Z;
  timeline : option (list Bucket)
}.

Record ProxyTraffic := MkTraffic {
  upload_bytes : Z;
  download_bytes : Z;
  total_bytes : Z;
  started_at : option jstr
}.

Definition windows : list Z := [1; 7]%Z.

(** ** Formatting *)

Definition units : list jstr := [js "B"; js "KiB"; js "MiB"; js "GiB"; js "TiB"].

(** The [while] loop, at most [units.length - 1] turns: dividing an integer
    below [2^53] by 1024 is exact, so [value] is [bytes / 1024 ^ unit]. *)
Fixpoint scale (fuel : nat) (bytes : Z) (unit : Z) : Z :=
  match fuel with
  | 0 => unit
  | S fuel => if (1024 * 1024 ^ unit <=? bytes)%Z then scale fuel bytes (unit + 1) else unit
  end.

Definition byte_unit (bytes : Z) : Z := scale 4 bytes 0.
Definition byte_digits (bytes : Z) : Z :=
  let unit := byte_unit bytes in
  if (unit =? 0)%Z || (100 * 1024 ^ unit <=? bytes)%Z then 0
  else if (10 * 1024 ^ unit <=? bytes)%Z then 1 else 2.

Definition formatBytes (bytes : option Z) : jstr :=
  match bytes with
  | None => js "—"
  | Some b =>
      toFixed (byte_digits b) b (1024 ^ byte_unit b) ++ js " "
      ++ default [] (units !! Z.to_nat (byte_unit b))
  end.

Section Rows.
(** [n.toLocaleString()]. *)
Context (toLocaleString : Z → jstr).

Definition fmt (n : option Z) : jstr :=
  match n with Some n => toLocaleString n | None => js "—" end.
Definition pct (part whole : Z) : jstr := if (0 <? whole)%Z then percentage part whole else js "—".

Definition countRows (items : option (list Count)) (prefix : jstr) : list (jstr * jstr * jstr) :=
  imap (fun i d => (prefix ++ of_nat i, cnt_key d, fmt (cnt_count d))) (default [] items).

Definition more_first (a b : jstr * Z) : Prop := (b.2 <= a.2)%Z.
#[local] Instance more_first_dec a b : Decision (more_first a b).
Proof. unfold more_first. apply _. Defined.

(** The rows of a record of counts, in its entries' order for equal counts. *)
Definition mapRows (m : option (list (jstr * Z))) (names : gmap jstr jstr) (total : Z)
    : list (jstr * jstr * jstr * jstr) :=
  (fun '(k, v) => (k, opt_or (names !! k) k, fmt (Some v), pct v total))
    <$> merge_sort more_first (default [] m).
End Rows.

(** Date strings aside, the points of the chart. *)
Definition chartData (s : Summary) : list (jstr * Z * Z) :=
  default [] (timeline s) ≫= fun b =>
    [(js "Requests", bk_start b, bk_total b); (js "Blocked", bk_start b, bk_blocked b)].

(** ** State *)

Record Stats := MkStats {
  selected : nat;
  summary : option Summary;
  loadError : jstr;
  chart : option (list (jstr * Z * Z));
  chartHolder : bool;
  (* summaryTimer, summaryLoading, summaryRefreshPending, and the window a
     request in flight is for *)
  summary_poll : poll nat;
  traffic : option ProxyTraffic;
  (* trafficTimer, trafficLoading *)
  traffic_poll : poll unit;
  destroyed : bool
}.
#[export] Instance Stats_eta : Settable Stats := fun s =>
  MkStats (selected s) (summary s) (loadError s) (chart s) (chartHolder s) (summary_poll s)
    (traffic s) (traffic_poll s) (destroyed s).

Definition initialStats (holder : bool) : Stats := {|
  selected := 1; summary := None; loadError := []; chart := None; chartHolder := holder;
  summary_poll := idle; traffic := None; traffic_poll := idle; destroyed := false
|}.

Definition drawChart (v : Summary) (s : Stats) : Stats :=
  if negb (chartHolder s) then s else s <| chart := Some (chartData v) |>.

(** [load] up to its [await], which captures the selected window. *)
Definition load (s : Stats) : Stats :=
  s <| summary_poll ::= poll_load (destroyed s) (Some (selected s)) |>.

(** The [try] and [catch] of [load], given how its call settled. *)
Definition load_body (o : result (option Summary)) (requested : nat) (s : Stats) : Stats :=
  if destroyed s || negb (requested =? selected s)%nat then s
  else match o with
       | inl _ => s <| loadError := js "Unable to load statistics." |>
       | inr value =>
           let s := s <| summary := value |> <| loadError := [] |> in
           match value with Some v => drawChart v s | None => s end
       end.

(** Its [finally]. *)
Definition load_finally (s : Stats) : Stats :=
  s <| summary_poll ::= poll_settle (destroyed s) (Some (selected s)) |>.

Definition load_settled (o : result (option Summary)) (s : Stats) : option Stats :=
  match flight (summary_poll s) with
  | None => None
  | Some requested => Some (load_finally (load_body o requested s))
  end.

Definition refreshSummary (s : Stats) : Stats :=
  s <| summary_poll ::= poll_refresh (destroyed s) (Some (selected s)) |>.

Definition loadTraffic (s : Stats) : Stats :=
  s <| traffic_poll ::= poll_load (destroyed s) (Some ()) |>.

Definition traffic_settled (o : result (option ProxyTraffic)) (s : Stats) : option Stats :=
  match flight (traffic_poll s) with
  | None => None
  | Some _ =>
      let s := match o with
               | inr value => if destroyed s then s else s <| traffic := value |>
               | inl _ => s
               end in
      Some (s <| traffic_poll ::= poll_rearm (destroyed s) |>)
  end.

Definition selectWindow (index : nat) (s : Stats) : Stats := refreshSummary (s <| selected := index |>).

Definition onMount (s : Stats) : Stats := loadTraffic (load s).

Definition onDestroy (s : Stats) : Stats :=
  s <| destroyed := true |> <| summary_poll ::= poll_stop |> <| traffic_poll ::= poll_stop |>
    <| chart := None |>.

(** ** The event loop *)

Inductive stats_event :=
| SelectWindow (index : nat)
| Retry
| SummaryAnswer (o : result (option Summary))
| TrafficAnswer (o : result (option ProxyTraffic))
| SummaryTimer (id : nat)
| TrafficTimer (id : nat)
| Destroy.

(** [None]: the event cannot happen.  Once the page is gone only answers
    arrive. *)
Definition stats_step (e : stats_event) (s : Stats) : option Stats :=
  match e with
  | SelectWindow i => if destroyed s || negb (i <? length windows)%nat then None else Some (selectWindow i s)
  | Retry => if destroyed s || negb (truthy (loadError s)) then None else Some (refreshSummary s)
  | SummaryAnswer o => load_settled o s
  | TrafficAnswer o => traffic_settled o s
  | SummaryTimer id =>
      (fun p => s <| summary_poll := p |>)
        <$> poll_fire (destroyed s) (Some (selected s)) id (summary_poll s)
  | TrafficTimer id =>
      (fun p => s <| traffic_poll := p |>) <$> poll_fire (destroyed s) (Some ()) id (traffic_poll s)
  | Destroy => if destroyed s then None else Some (onDestroy s)
  end.

Inductive stats_reachable (holder : bool) : Stats → Prop :=
| stats_mounted : stats_reachable holder (onMount (initialStats holder))
| stats_next s e s' : stats_reachable holder s → stats_step e s = Some s' → stats_reachable holder s'.

(** ** Invariant *)

(** Both polls run while the page is shown, and a request in flight for a
    window that is no longer selected is followed by another. *)
Record stats_ok (s : Stats) : Prop := {
  ok_summary : poll_ok (destroyed s) (summary_poll s);
  ok_traffic : poll_ok (destroyed s) (traffic_poll s);
  ok_no_refresh : refreshPending (traffic_poll s) = false;
  ok_stale : ∀ r, flight (summary_poll s) = Some r → r ≠ selected s →
    refreshPending (summary_poll s) = true
}.

Lemma load_body_frame o r s :
  summary_poll (load_body o r s) = summary_poll s ∧ traffic_poll (load_body o r s) = traffic_poll s ∧
  destroyed (load_body o r s) = destroyed s ∧ selected (load_body o r s) = selected s.
Proof.
  unfold load_body, drawChart. destruct (destroyed s || negb (r =? selected s)); [done|].
  destruct o as [e|[v|]]; simpl; [done| |done]. by destruct (chartHolder s).
Qed.

Lemma settle_flight (k k' : nat) p :
  flight p = Some k → refreshPending p = true → flight (poll_settle false (Some k') p) = Some k'.
Proof. unfold poll_settle, poll_load. simpl. by intros _ ->. Qed.

Lemma settle_flight_selected gone (k : nat) p r :
  flight (poll_settle gone (Some k) p) = Some r → r = k.
Proof.
  unfold poll_settle, poll_load, poll_arm. simpl. destruct gone; simpl; [done|].
  destruct (refreshPending p); simpl; [by intros [= <-]|done].
Qed.

Lemma load_settled_ok o s s' : stats_ok s → load_settled o s = Some s' → stats_ok s'.
Proof.
  intros [Hs Ht Hn Hst] H. unfold load_settled in H.
  destruct (flight (summary_poll s)) as [r|] eqn:Hr; [|done]. apply Some_inj in H as <-.
  destruct (load_body_frame o r s) as (E1 & E2 & E3 & E4). unfold load_finally.
  split; simpl; rewrite ?E1, ?E2, ?E3, ?E4; [by eapply poll_settle_ok|done..|].
  intros r' Hr' Hne. by apply settle_flight_selected in Hr'.
Qed.

Lemma refresh_stale gone (k r : nat) p :
  flight (poll_refresh gone (Some k) p) = Some r → r ≠ k → poll_ok gone p →
  refreshPending (poll_refresh gone (Some k) p) = true.
Proof.
  unfold poll_refresh, poll_load. simpl. intros H Hne Hok. rewrite (ok_busy _ _ Hok) in *.
  destruct (flight p) eqn:Hf; simpl in *; [done|]. destruct gone; simpl in *; congruence.
Qed.

(** A refresh is for the window that is selected, so it may have just changed. *)
Lemma refreshSummary_ok s :
  destroyed s = false → poll_ok (destroyed s) (summary_poll s) → poll_ok (destroyed s) (traffic_poll s) →
  refreshPending (traffic_poll s) = false → stats_ok (refreshSummary s).
Proof.
  intros Hd Hs Ht Hn. unfold refreshSummary.
  split; simpl; rewrite ?Hd in *; [by apply poll_refresh_ok|done..|]. intros r Hr Hne. by eapply refresh_stale.
Qed.

Lemma stats_step_ok e s s' : stats_ok s → stats_step e s = Some s' → stats_ok s'.
Proof.
  intros Hok H. destruct e as [i| |o|o|id|id|]; simpl in H.
  - destruct Hok as [Hs Ht Hn Hst]. destruct (destroyed s) eqn:Hd; [done|]. destruct (negb _); [done|].
    apply Some_inj in H as <-. apply refreshSummary_ok; simpl; rewrite ?Hd in *; done.
  - destruct (destroyed s) eqn:Hd; [done|]. destruct (negb _); [done|].
    apply Some_inj in H as <-. apply refreshSummary_ok; [done|apply Hok..].
  - by eapply load_settled_ok.
  - destruct Hok as [Hs Ht Hn Hst]. unfold traffic_settled in H.
    destruct (flight (traffic_poll s)) as [k|] eqn:Hf; [|done]. apply Some_inj in H as <-.
    assert (poll_ok (destroyed s) (poll_rearm (destroyed s) (traffic_poll s))) as Hp
      by (by eapply poll_rearm_ok).
    destruct o as [e|v]; simpl; [|destruct (destroyed s) eqn:Hd];
      (split; simpl; rewrite ?Hd, ?poll_rearm_pending; done).
  - destruct Hok as [Hs Ht Hn Hst].
    destruct (poll_fire _ _ id (summary_poll s)) as [p|] eqn:Hp; [|done]. apply Some_inj in H as <-.
    destruct (poll_fire_ok _ _ _ _ _ Hs Hp) as (Hok & _ & _ & Hf). split; simpl; try done.
    intros r Hr Hne. congruence.
  - destruct Hok as [Hs Ht Hn Hst].
    destruct (poll_fire _ _ id (traffic_poll s)) as [p|] eqn:Hp; [|done]. apply Some_inj in H as <-.
    destruct (poll_fire_ok _ _ _ _ _ Ht Hp) as (Hok & _). split; simpl; try done.
    unfold poll_fire, poll_load in Hp. destruct (callback_of _ _); simplify_eq; simpl.
    by destruct (_ || _).
  - destruct (destroyed s) eqn:Hd; [done|]. apply Some_inj in H as <-.
    destruct Hok as [Hs Ht Hn Hst]. rewrite Hd in *. split; simpl; try done; by apply poll_stop_ok.
Qed.

Lemma stats_reachable_ok holder s : stats_reachable holder s → stats_ok s.
Proof.
  induction 1 as [|s e s' _ IH H]; [|by eapply stats_step_ok].
  split; simpl; [apply poll_start_ok|apply poll_start_ok|done|]. by intros r [= <-].
Qed.

(** ** What the page promises *)

(** C16: While the page is shown neither poll stops or doubles: each has one request
    in flight and no timer, or no request and exactly one timer, and that timer
    can fire. *)
Theorem stats_polling holder s :
  stats_reachable holder s → destroyed s = false →
  (∃ id, ∀ x, x ∈ armed (clock (summary_poll s)) ↔ flight (summary_poll s) = None ∧ x = (id, ())) ∧
  (∃ id, ∀ x, x ∈ armed (clock (traffic_poll s)) ↔ flight (traffic_poll s) = None ∧ x = (id, ())) ∧
  (∀ id, (id, ()) ∈ armed (clock (summary_poll s)) →
     flight ∘ summary_poll <$> stats_step (SummaryTimer id) s = Some (Some (selected s))).
Proof.
  intros Hr Hd. destruct (stats_reachable_ok _ _ Hr) as [Hs Ht _ _]. rewrite Hd in *.
  split_and!; [by apply poll_alive..|]. intros id Hid. simpl. rewrite Hd.
  destruct (poll_fire false (Some (selected s)) id (summary_poll s)) as [p|] eqn:Hp.
  - simpl. by destruct (poll_fire_ok _ _ _ _ _ Hs Hp) as (_ & _ & _ & ->).
  - unfold poll_fire in Hp. destruct (callback_of id _) eqn:Hcb; [done|].
    by destruct (callback_of_None _ _ () Hcb).
Qed.

Lemma stats_polling_witness :
  ∃ id, ∀ x, x ∈ armed (clock (summary_poll (onMount (initialStats true)))) ↔
    flight (summary_poll (onMount (initialStats true))) = None ∧ x = (id, ()).
Proof.
  apply (stats_polling true (onMount (initialStats true)) (stats_mounted true) eq_refl).
Defined.

(** What is shown is never overwritten by the answer for a window that is no
    longer selected: such an answer changes nothing and is followed at once by
    a request for the window that is.  The answer for the selected window is
    shown, a failed one keeps the figures and says so, and on a page that is
    gone no answer has an effect. *)
Theorem stats_answer holder s o s' :
  stats_reachable holder s → stats_step (SummaryAnswer o) s = Some s' →
  ∃ r, flight (summary_poll s) = Some r ∧ selected s' = selected s ∧
    (destroyed s = true →
       summary s' = summary s ∧ loadError s' = loadError s ∧ chart s' = chart s ∧
       flight (summary_poll s') = None) ∧
    (destroyed s = false → r ≠ selected s →
       summary s' = summary s ∧ loadError s' = loadError s ∧ chart s' = chart s ∧
       flight (summary_poll s') = Some (selected s)) ∧
    (destroyed s = false → r = selected s →
       match o with
       | inr v => summary s' = v ∧ loadError s' = []
       | inl _ => summary s' = summary s ∧ loadError s' = js "Unable to load statistics."
       end).
Proof.
  intros Hr H. destruct (stats_reachable_ok _ _ Hr) as [_ _ _ Hst].
  simpl in H. unfold load_settled in H.
  destruct (flight (summary_poll s)) as [r|] eqn:Er; [|done].
  apply Some_inj in H as <-. exists r. specialize (Hst r eq_refl).
  destruct (load_body_frame o r s) as (E1 & _ & E3 & E4). unfold load_finally. simpl. rewrite E1, E3, E4.
  split; [done|]. split; [done|]. unfold load_body, drawChart.
  destruct (destroyed s) eqn:Hd; simpl; [done|].
  destruct (Nat.eqb_spec r (selected s)) as [->|Hne]; simpl.
  - destruct o as [e|[v|]]; simpl; [|destruct (chartHolder s); simpl|]; done.
  - split_and!; [done| |done]. intros _ _. split_and!; [done..|].
    eapply settle_flight; [exact Er|]. by apply Hst.
Qed.

Lemma stats_answer_witness :
  ∃ s s', stats_step (SelectWindow 0) (onMount (initialStats true)) = Some s ∧
    stats_step (SummaryAnswer (inr None)) s = Some s' ∧ flight (summary_poll s') = Some 0.
Proof.
  destruct (stats_step (SelectWindow 0) (onMount (initialStats true))) as [s|] eqn:E;
    [|vm_compute in E; discriminate E].
  assert (stats_reachable true s) as Hr by (eapply stats_next; [apply stats_mounted|exact E]).
  destruct (stats_step (SummaryAnswer (inr None)) s) as [s'|] eqn:E'.
  - exists s, s'. do 2 (split; [done|]).
    destruct (stats_answer true s (inr None) s' Hr E') as (r & H1 & _ & _ & H2 & _).
    vm_compute in E. injection E as <-. injection H1 as <-. by apply H2.
  - vm_compute in E. injection E as <-. vm_compute in E'. discriminate E'.
Defined.

(** ** Formatting *)

Lemma scale_spec fuel bytes unit :
  (0 <= unit)%Z → (0 <= bytes)%Z → (unit = 0 ∨ 1024 ^ unit <= bytes)%Z →
  let u := scale fuel bytes unit in
  (unit <= u <= unit + Z.of_nat fuel)%Z ∧ (u = 0 ∨ 1024 ^ u <= bytes)%Z ∧
  (bytes < 1024 * 1024 ^ u ∨ u = unit + Z.of_nat fuel)%Z.
Proof.
  revert unit. induction fuel as [|fuel IH]; intros unit Hu Hb Hle; cbn [scale]; [lia|].
  destruct (Z.leb_spec (1024 * 1024 ^ unit) bytes) as [H|H].
  - assert (1024 ^ (unit + 1) = 1024 * 1024 ^ unit)%Z as E by (rewrite Z.pow_add_r by lia; lia).
    destruct (IH (unit + 1)%Z) as (H1 & H2 & H3); [lia|lia|right; lia|]. split_and!; [lia|lia|exact H2|lia].
  - lia.
Qed.

(** C33: A byte count below 2^53 is shown in the largest unit it fills, up to TiB,
    with at most two decimals, and the number shown is within half a unit of
    its last digit of the exact one. *)
Theorem formatBytes_spec b :
  (0 <= b < 2 ^ 53)%Z →
  let u := byte_unit b in let d := byte_digits b in
  (0 <= u <= 4)%Z ∧ (u = 0 ∨ 1024 ^ u <= b)%Z ∧ (b < 1024 * 1024 ^ u ∨ u = 4)%Z ∧ (0 <= d <= 2)%Z ∧
  (Z.abs (2 * (fixed_units d b (1024 ^ u) * 1024 ^ u - b * 10 ^ d)) <= 1024 ^ u)%Z ∧
  ∃ name, units !! Z.to_nat u = Some name ∧
    formatBytes (Some b) = toFixed d b (1024 ^ u) ++ js " " ++ name.
Proof.
  intros Hb. cbv zeta. destruct (scale_spec 4 b 0) as (H1 & H2 & H3); [lia..|].
  fold (byte_unit b) in *. assert (0 <= byte_digits b <= 2)%Z as Hd.
  { unfold byte_digits. destruct (_ || _); [lia|]. destruct (_ <=? _)%Z; lia. }
  split_and!; try lia.
  - apply fixed_units_error; [lia|]. apply Z.pow_pos_nonneg; lia.
  - destruct (lookup_lt_is_Some_2 units (Z.to_nat (byte_unit b))) as [name Hn]; [simpl; lia|].
    exists name. split; [done|]. unfold formatBytes. by rewrite Hn.
Qed.

Lemma formatBytes_spec_witness :
  formatBytes (Some 1536)%Z = js "1.50 KiB" ∧ (0 <= byte_unit 1536 <= 4)%Z.
Proof. split; [reflexivity|]. apply (formatBytes_spec 1536). lia. Defined.
