(* ===== verification/StatsView.v ===== *)
(** * The template of the statistics page

    The markup of [routes/stats/stats.svelte].  The chart's holder is an empty
    element that the chart library draws in. *)

From S2P Require Import Prelude JsString JsAsync Numbers Timers Poll View Layout Stats.
Open Scope js_scope.

(** What a user can do, and the event it is. *)
Inductive stats_control := PressWindow (index : nat) | PressRetry.

Definition raises (c : stats_control) : stats_event :=
  match c with PressWindow index => SelectWindow index | PressRetry => Retry end.

Section View.
Context (translator : jstr → jstr) (toLocaleString : Z → jstr) (toLocaleDate : jstr → jstr).
#[local] Abbreviation tr s := (translator (js s)).
#[local] Abbreviation fmt n := (fmt toLocaleString n).

(** ** The tiles *)

(** [summary?.by_action?.block || 0]. *)
Definition blocked (s : Stats) : Z :=
  match summary s ≫= by_action with
  | Some m => default 0%Z (snd <$> find (fun kv => bool_decide (kv.1 = js "block")) m)
  | None => 0%Z
  end.

Definition tile (label value : jstr) (more : list (node stats_control)) : node stats_control :=
  El "div" [] (El "span" [] [Text label] :: El "span" [] [Text value] :: more).

Definition traffic_tile (s : Stats) : node stats_control :=
  tile (tr "Live proxy traffic") (formatBytes (total_bytes <$> traffic s)) [
    El "span" [] [
      Text (tr "Down"); Text (formatBytes (download_bytes <$> traffic s)); txt " · ";
      Text (tr "Up"); Text (formatBytes (upload_bytes <$> traffic s))
    ];
    let started := opt_or (traffic s ≫= started_at) [] in
    El "span" [] [
      alt (truthy started) [Text (tr "Since GateSentry started"); txt " · "; Text (toLocaleDate started)]
        [Text (tr "Since GateSentry started")]
    ]
  ].

Definition tiles (s : Stats) : node stats_control :=
  El "section" [] [
    tile (tr "Requests") (fmt (summary s ≫= sum_total)) [];
    tile (tr "Blocked") (fmt (Some (blocked s))) [
      El "span" [] [Text (pct (blocked s) (default 0%Z (summary s ≫= sum_total))); Text (tr "of requests")]
    ];
    tile (tr "Active clients") (fmt (summary s ≫= unique_clients)) [];
    tile (tr "Distinct domains") (fmt (summary s ≫= unique_domains)) [];
    tile (tr "Inspection errors") (fmt (summary s ≫= inspection_failures)) [
      shown (0 <? default 0 (summary s ≫= inspection_failures))%Z [
        El "Tag" [lit "type" "red"] [Text (tr "Check the logs")]
      ]
    ];
    traffic_tile s
  ].

(** ** The tables *)

(** A table of two or more columns of texts. *)
Definition plain_table (headers : list jstr) (rows : list (list jstr)) : node stats_control :=
  El "DataTable" [Items ((fun h => ([], h)) <$> headers)] [each rows (fun row => Text <$> row)].

(** A panel with a table, or with a sentence when there is nothing to show. *)
Definition table_panel (title key count none : jstr) (rows : list (list jstr)) : node stats_control :=
  El "section" [] [
    El "h3" [] [Text title];
    alt (negb (is_nil rows)) [plain_table [key; count] rows] [El "p" [] [Text none]]
  ].

Definition count_cells (items : option (list Count)) (prefix : string) : list (list jstr) :=
  (fun '(_, key, count) => [key; count]) <$> countRows toLocaleString items (js prefix).

Definition layerNames : gmap jstr jstr :=
  list_to_map [(js "dns", js "DNS"); (js "explicit_proxy", js "Proxy");
               (js "transparent_proxy", js "Transparent proxy"); (js "content", js "Content inspection")].
Definition actionNames : gmap jstr jstr :=
  list_to_map [(js "allow", js "Allowed"); (js "block", js "Blocked"); (js "inspect", js "Inspected");
               (js "bypass", js "Bypassed"); (js "error", js "Errors"); (js "unknown", js "Other")].

Definition map_cells (m : option (list (jstr * Z))) (names : gmap jstr jstr) (total : option Z) : list (list jstr) :=
  (fun '(_, key, count, share) => [key; count; share]) <$> mapRows toLocaleString m names (default 0%Z total).

Definition device_cells (v : Summary) : list (list jstr) :=
  (fun d => [str_or (aff_device d) (aff_ip d); fmt (aff_count d)]) <$> default [] (affected_devices v).

Definition policy_cells (v : Summary) : list (list jstr) :=
  (fun p => [pb_name p; fmt (pb_count p)]) <$> default [] (blocks_by_policy v).

Definition breakdown (v : Summary) : node stats_control :=
  El "section" [] [
    El "h3" [] [Text (tr "Traffic breakdown")];
    plain_table [tr "Layer"; tr "Requests"; tr "Share"] (map_cells (by_layer v) layerNames (sum_total v));
    plain_table [tr "Outcome"; tr "Requests"; tr "Share"] (map_cells (by_action v) actionNames (sum_total v))
  ].

Definition columns (v : Summary) : list (node stats_control) := [
  El "div" [] [
    table_panel (tr "Most blocked domains") (tr "Domain") (tr "Blocks") (tr "Nothing blocked in this window.")
      (count_cells (top_blocked_domains v) "b");
    table_panel (tr "Most requested domains") (tr "Domain") (tr "Requests") (tr "No requests in this window.")
      (count_cells (top_domains v) "t");
    table_panel (tr "Most active devices") (tr "Device") (tr "Requests") (tr "No device activity in this window.")
      (device_cells v);
    table_panel (tr "Blocks by policy") (tr "Policy") (tr "Blocks") (tr "No policy blocks in this window.")
      (policy_cells v);
    table_panel (tr "Block reasons") (tr "Reason") (tr "Decisions") (tr "No recorded reasons in this window.")
      (count_cells (top_reasons v) "r");
    breakdown v
  ]
].

(** ** The page *)

Definition state_line (s : Stats) : node stats_control :=
  alt (truthy (loadError s)) [
    resource_state Failed (tr "Stats unavailable") (loadError s) (js "Retry") (Some PressRetry) []
  ] [
    alt (bool_decide (summary s = None)) [
      resource_state Loading [] (tr "Loading statistics") (js "Retry") None []
    ] []
  ].

Definition stats_view (s : Stats) : node stats_control :=
  page_shell (tr "Statistics") (tr "Review filtering outcomes, client activity, and live proxy traffic.") false [
    El "Breadcrumb" [] [
      El "BreadcrumbItem" [lit "href" "/"] [Text (tr "Dashboard")];
      El "BreadcrumbItem" [] [Text (tr "Stats")]
    ]
  ] (Some [
    El "ContentSwitcher" [
      Attr "selectedIndex" (of_nat (selected s));
      OnValue "change" (fun i => (i <? length windows)%nat) PressWindow
    ] [
      El "Switch" [Attr "text" (tr "24 hours")] []; El "Switch" [Attr "text" (tr "7 days")] []
    ]
  ]) [
    state_line s;
    tiles s;
    El "section" [] [El "h3" [] [Text (tr "Requests over time")]; El "div" [] []];
    given (summary s) columns
  ].
End View.

(** ** What the page offers *)

Section Offers.
Context (translator : jstr → jstr) (toLocaleString : Z → jstr) (toLocaleDate : jstr → jstr).

Lemma offers_texts (row : list jstr) (e : stats_control) : ¬ any_of (fun c => offers c e) (Text <$> row).
Proof. induction row as [|t row IH]; simpl; [tauto|]. by intros [[]|H]. Qed.

Lemma plain_table_offers headers rows e : ¬ offers (plain_table headers rows) e.
Proof.
  unfold plain_table. view_simpl. intros H. view_destruct. by eapply offers_texts.
Qed.

Lemma columns_offers v e : ¬ any_of (fun c => offers c e) (columns translator toLocaleString v).
Proof.
  unfold columns, table_panel, breakdown. view_simpl. intros H. view_destruct; by eapply plain_table_offers.
Qed.

(** On a page that is shown, what the template offers is exactly what the event
    loop lets a user do. *)
Theorem stats_view_offers s c :
  destroyed s = false →
  offers (stats_view translator toLocaleString toLocaleDate s) c ↔ is_Some (stats_step (raises c) s).
Proof.
  intros Hd. unfold stats_view. rewrite page_shell_offers. cbn [slot_offers any_of].
  assert (offers (state_line translator s) c ↔ truthy (loadError s) = true ∧ c = PressRetry) as ->.
  { unfold state_line. cbn [offers any_of]. rewrite !resource_state_offers. naive_solver. }
  unfold tiles, traffic_tile, tile. view_simpl. split.
  - intros H. view_destruct; try (exfalso; by eapply columns_offers); subst; cbn [raises stats_step]; rewrite Hd.
    + simplify_eq. match goal with H : (_ <? _)%nat = true |- _ => rewrite H end. by eexists.
    + match goal with H : truthy _ = true |- _ => rewrite H end. by eexists.
  - intros [s' Hs]. destruct c as [i|]; cbn [raises stats_step] in Hs; rewrite Hd in Hs.
    + right. left. left. split; [done|]. left. left. split; [done|]. exists i. split; [done|].
      by destruct (i <? length windows)%nat.
    + right. right. left. split; [|done]. by destruct (truthy (loadError s)).
Qed.
End Offers.

Lemma stats_view_offers_witness :
  offers (stats_view (fun t => t) of_Z (fun d => d) (initialStats true)) (PressWindow 0).
Proof. apply stats_view_offers; [done|]. by eexists. Defined.
