(* ===== verification/Logs.v ===== *)
(** * The decision log

    [routes/logs/logs.svelte]: two polls, of the decisions that match the
    filters and of the device names that label them. *)

From S2P Require Import Prelude JsString JsAsync Timers Poll Credentials Uri DeviceNames.
Open Scope js_scope.

(** ** Rows *)

Record Decision := MkDecision {
  d_ip : jstr;
  d_time : Z;
  d_url : jstr;
  d_action : option jstr;
  d_layer : option jstr;
  d_reason : option jstr;
  d_matched_rule : option jstr
}.

Record LogRow := MkRow {
  row_id : jstr;
  row_time : jstr;
  row_client : jstr;
  row_url : jstr;
  row_action : jstr;
  row_layer : jstr;
  row_reason : jstr
}.

Section Rows.
(** [timeago.js] and [_.truncate]. *)
Context (format : Z → jstr) (truncate : jstr → nat → jstr).

Definition log_row (names : gmap jstr jstr) (index : nat) (item : Decision) : LogRow := {|
  row_id := d_ip item ++ of_Z (d_time item) ++ of_nat index ++ d_url item;
  row_time := format (d_time item * 1000);
  row_client := formatDeviceAddress names (d_ip item);
  row_url := truncate (d_url item) 50;
  row_action := opt_or (d_action item) [];
  row_layer := opt_or (d_layer item) [];
  row_reason := truncate (opt_or (d_reason item) (opt_or (d_matched_rule item) [])) 40
|}.

Definition logsToRender (names : gmap jstr jstr) (decisions : list Decision) : list LogRow :=
  imap (log_row names) decisions.
End Rows.

(** ** State *)

Record Logs := MkLogs {
  search : jstr;
  actionFilter : jstr;
  layerFilter : jstr;
  decisions : list Decision;
  deviceNames : gmap jstr jstr;
  (* decisionTimer, decisionsLoading, decisionRefreshPending, and the query of
     a request in flight *)
  decisions_poll : poll jstr;
  (* deviceTimer, devicesLoading *)
  devices_poll : poll unit;
  mounted : bool;
  destroyed : bool;
  activeFilter : jstr;
  initialLoaded : bool;
  loadError : jstr
}.
#[export] Instance Logs_eta : Settable Logs := fun s =>
  MkLogs (search s) (actionFilter s) (layerFilter s) (decisions s) (deviceNames s)
    (decisions_poll s) (devices_poll s) (mounted s) (destroyed s) (activeFilter s)
    (initialLoaded s) (loadError s).

Definition initialLogs : Logs := {|
  search := []; actionFilter := []; layerFilter := []; decisions := []; deviceNames := ∅;
  decisions_poll := idle; devices_poll := idle; mounted := false; destroyed := false;
  activeFilter := []; initialLoaded := false; loadError := []
|}.

(** The parameters of a query; encoding the search text can throw. *)
Definition query_of (search action layer : jstr) : result jstr :=
  match (if truthy search then encodeURIComponent search else inr []) with
  | inl e => inl e
  | inr encoded =>
      let params :=
        (if truthy search then [js "domain=" ++ encoded] else [])
        ++ (if truthy action then [js "action=" ++ action] else [])
        ++ (if truthy layer then [js "layer=" ++ layer] else []) in
      inr (if is_nil params then [] else js "?" ++ joinStr (js "&") params)
  end.

Definition buildQuery (s : Logs) : result jstr := query_of (search s) (actionFilter s) (layerFilter s).

(** What [loadDecisions] captures. *)
Definition query (s : Logs) : option jstr :=
  match buildQuery s with inl _ => None | inr q => Some q end.

Definition loadDecisions (s : Logs) : Logs :=
  s <| decisions_poll ::= poll_load (destroyed s) (query s) |>.

(** The [try] and [catch], given how the call settled; a query that cannot be
    built again throws into the [catch]. *)
Definition decisions_body (o : result (option (option (list Decision)))) (q : jstr) (s : Logs) : Logs :=
  let failed := if negb (destroyed s) && negb (initialLoaded s)
                then s <| loadError := js "Unable to load decisions." |> else s in
  match o with
  | inl _ => failed
  | inr json =>
      if destroyed s then s
      else match buildQuery s with
           | inl _ => failed
           | inr q' =>
               if bool_decide (q = q')
               then s <| decisions := default [] (json ≫= id) |> <| loadError := [] |>
                      <| initialLoaded := true |>
               else s
           end
  end.

Definition decisions_settled (o : result (option (option (list Decision)))) (s : Logs) : option Logs :=
  match flight (decisions_poll s) with
  | None => None
  | Some q =>
      let s := decisions_body o q s in
      Some (s <| decisions_poll ::= poll_settle (destroyed s) (query s) |>)
  end.

Definition loadDevices (s : Logs) : Logs :=
  s <| devices_poll ::= poll_load (destroyed s) (Some ()) |>.

Definition devices_settled (o : result (option (option (list DeviceNameSource)))) (s : Logs) : option Logs :=
  match flight (devices_poll s) with
  | None => None
  | Some _ =>
      let s := match o with
               | inr json => if destroyed s then s
                             else s <| deviceNames := buildDeviceNameMap (json ≫= id) |>
               | inl _ => s
               end in
      Some (s <| devices_poll ::= poll_rearm (destroyed s) |>)
  end.

Definition refreshDecisions (s : Logs) : Logs :=
  s <| decisions_poll ::= poll_refresh (destroyed s) (query s) |>.

Definition clearSearch (s : Logs) : Logs := refreshDecisions (s <| search := [] |>).

Definition filter_key (s : Logs) : jstr := actionFilter s ++ [0%N] ++ layerFilter s.

(** The reactive block. *)
Definition react (s : Logs) : Logs :=
  if mounted s && negb (bool_decide (filter_key s = activeFilter s))
  then refreshDecisions (s <| activeFilter := filter_key s |>) else s.

Definition onMount (s : Logs) : Logs :=
  let s := s <| mounted := true |> in
  loadDevices (loadDecisions (s <| activeFilter := filter_key s |>)).

Definition onDestroy (s : Logs) : Logs :=
  s <| destroyed := true |> <| decisions_poll ::= poll_stop |> <| devices_poll ::= poll_stop |>.

(** ** The event loop *)

Inductive logs_event :=
| TypeSearch (text : jstr)
| ClearSearch
| SelectAction (value : jstr)
| SelectLayer (value : jstr)
| Retry
| DecisionsAnswer (o : result (option (option (list Decision))))
| DevicesAnswer (o : result (option (option (list DeviceNameSource))))
| DecisionTimer (id : nat)
| DeviceTimer (id : nat)
| Destroy.

Definition actions : list jstr := [[]; js "block"; js "allow"; js "bypass"; js "inspect"; js "error"].
Definition layers : list jstr := [[]; js "dns"; js "explicit_proxy"; js "transparent_proxy"; js "content"].

Definition guarded (b : bool) (s : Logs) : option Logs := if b then Some s else None.

Definition logs_step (e : logs_event) (s : Logs) : option Logs :=
  let shown := negb (destroyed s) in
  match e with
  | TypeSearch text => guarded shown (react (s <| search := text |>))
  | ClearSearch => guarded shown (react (clearSearch s))
  | SelectAction v => guarded (shown && includes actions v) (react (s <| actionFilter := v |>))
  | SelectLayer v => guarded (shown && includes layers v) (react (s <| layerFilter := v |>))
  | Retry => guarded (shown && truthy (loadError s)) (react (refreshDecisions s))
  | DecisionsAnswer o => decisions_settled o s
  | DevicesAnswer o => devices_settled o s
  | DecisionTimer id =>
      (fun p => s <| decisions_poll := p |>) <$> poll_fire (destroyed s) (query s) id (decisions_poll s)
  | DeviceTimer id =>
      (fun p => s <| devices_poll := p |>) <$> poll_fire (destroyed s) (Some ()) id (devices_poll s)
  | Destroy => guarded shown (onDestroy s)
  end.

(** Reachable with the search texts that [typed] allows. *)
Inductive logs_reachable (typed : jstr → Prop) : Logs → Prop :=
| logs_mounted : logs_reachable typed (onMount initialLogs)
| logs_next s e s' :
    logs_reachable typed s → logs_step e s = Some s' →
    (∀ text, e = TypeSearch text → typed text) → logs_reachable typed s'.

(** ** Invariant *)

Lemma sep_inj (c : N) (a a' l l' : jstr) :
  c ∉ a → c ∉ a' → a ++ [c] ++ l = a' ++ [c] ++ l' → a = a' ∧ l = l'.
Proof.
  revert a'. induction a as [|x a IH]; intros [|x' a'] Ha Ha' H; simplify_eq/=; [done| | |].
  - destruct Ha'. left.
  - destruct Ha. left.
  - rewrite elem_of_cons in Ha, Ha'. destruct (IH a') as [-> ->]; [tauto|tauto|done|done].
Qed.

Lemma actions_no_nul a : a ∈ actions → (0 : N) ∉ a.
Proof.
  intros Ha. assert (forallb (fun a => negb (includes a 0%N)) actions = true) as H by (vm_compute; done).
  rewrite forallb_forall in H. apply list_elem_of_In in Ha. apply includes_false, negb_true_iff, H, Ha.
Qed.

(** The polls run, the filter the page watches is the one that is selected, and
    a request in flight for other filters is followed by another. *)
Record logs_ok (s : Logs) : Prop := {
  ok_search : lone_surrogate (search s) = false;
  ok_decisions : poll_ok (destroyed s) (decisions_poll s);
  ok_devices : poll_ok (destroyed s) (devices_poll s);
  ok_no_refresh : refreshPending (devices_poll s) = false;
  ok_action : actionFilter s ∈ actions;
  ok_mounted : mounted s = true;
  ok_active : activeFilter s = filter_key s;
  ok_query : ∀ q, flight (decisions_poll s) = Some q →
    (∃ text, query_of text (actionFilter s) (layerFilter s) = inr q) ∨
    refreshPending (decisions_poll s) = true
}.

Lemma query_Some s : lone_surrogate (search s) = false → ∃ q,
  query s = Some q ∧ query_of (search s) (actionFilter s) (layerFilter s) = inr q.
Proof.
  intros H. unfold query, buildQuery, query_of, encodeURIComponent. rewrite H.
  destruct (truthy (search s)); eauto.
Qed.

Lemma refresh_flight {K} gone (k r : K) p :
  poll_ok gone p → flight (poll_refresh gone (Some k) p) = Some r →
  r = k ∨ refreshPending (poll_refresh gone (Some k) p) = true.
Proof.
  unfold poll_refresh, poll_load. simpl. intros Hok. rewrite (ok_busy _ _ Hok).
  destruct (flight p) eqn:Hf; simpl; [by right|]. destruct gone; simpl; [congruence|].
  intros [= <-]. by left.
Qed.

Lemma refreshDecisions_ok s :
  logs_ok s → destroyed s = false → logs_ok (refreshDecisions s).
Proof.
  intros [Hs Hd Hv Hn Ha Hm Hk Hq] Hdes. destruct (query_Some s Hs) as (q & Eq & Eb).
  unfold refreshDecisions. rewrite Eq. rewrite Hdes in *. split; simpl; rewrite ?Hdes; try done.
  - by apply poll_refresh_ok.
  - intros q' Hq'. apply (refresh_flight false) in Hq' as [->|]; [left|right|]; eauto.
Qed.

(** After an assignment to the search text or a filter. *)
Lemma logs_react_ok s action layer text :
  logs_ok s → destroyed s = false → action ∈ actions → lone_surrogate text = false →
  logs_ok (react (s <| search := text |> <| actionFilter := action |> <| layerFilter := layer |>)).
Proof.
  intros [Hs Hd Hv Hn Ha Hm Hk Hq] Hdes Hact Htext.
  unfold react. simpl. rewrite Hm, Hk. simpl. unfold filter_key at 1 2 3. simpl.
  case_bool_decide as Hsame; simpl.
  - apply sep_inj in Hsame as [-> ->]; [|by apply actions_no_nul..]. by split.
  - match goal with |- context [refreshDecisions ?s1] =>
      destruct (query_Some s1) as (q & Eq & Eb); [done|] end.
    unfold refreshDecisions. rewrite Eq. simpl in *. rewrite Hdes in *.
    split; simpl; rewrite ?Hdes; try done.
    + by apply poll_refresh_ok.
    + intros q' Hq'. apply (refresh_flight false) in Hq' as [->|]; [left; eauto|by right|done].
Qed.

Lemma decisions_body_frame o q s :
  let s' := decisions_body o q s in
  decisions_poll s' = decisions_poll s ∧ devices_poll s' = devices_poll s ∧ destroyed s' = destroyed s ∧
  search s' = search s ∧ actionFilter s' = actionFilter s ∧ layerFilter s' = layerFilter s ∧
  mounted s' = mounted s ∧ activeFilter s' = activeFilter s.
Proof.
  cbv zeta. unfold decisions_body. destruct o as [e|v]; [by destruct (negb _ && _)|].
  destruct (destroyed s) eqn:Hd; [done|]. destruct (buildQuery s) as [e|q'].
  - by destruct (negb false && _).
  - by case_bool_decide.
Qed.

Lemma settle_query (q : jstr) p :
  flight (poll_settle false (Some q) p) = Some q ∨ flight (poll_settle false (Some q) p) = None.
Proof.
  unfold poll_settle, poll_load, poll_arm. simpl. destruct (refreshPending p); simpl; [by left|by right].
Qed.

Lemma decisions_settled_ok o s s' : logs_ok s → decisions_settled o s = Some s' → logs_ok s'.
Proof.
  intros [Hs Hd Hv Hn Ha Hm Hk Hq] H. unfold decisions_settled in H.
  destruct (flight (decisions_poll s)) as [q|] eqn:Hf; [|done]. apply Some_inj in H as <-.
  pose proof (decisions_body_frame o q s) as E. cbv zeta in E.
  destruct E as (E1 & E2 & E3 & E4 & E5 & E6 & E7 & E8).
  set (s1 := decisions_body o q s) in *. clearbody s1.
  destruct (query_Some s1) as (q' & Eq & Eb); [by rewrite E4|]. rewrite Eq.
  split; simpl; rewrite ?E1, ?E2, ?E3, ?E4, ?E5, ?E7, ?E8; try done.
  - by eapply poll_settle_ok.
  - unfold filter_key in *. simpl. by rewrite ?E5, ?E6.
  - intros r Hr. rewrite E5, E6 in Eb. rewrite ?E6. left. destruct (destroyed s).
    + unfold poll_settle in Hr. done.
    + destruct (settle_query q' (decisions_poll s)) as [H|H]; rewrite H in Hr; [|done].
      injection Hr as <-. eauto.
Qed.

Lemma devices_settled_ok o s s' : logs_ok s → devices_settled o s = Some s' → logs_ok s'.
Proof.
  intros [Hs Hd Hv Hn Ha Hm Hk Hq] H. unfold devices_settled in H.
  destruct (flight (devices_poll s)) as [k|] eqn:Hf; [|done]. apply Some_inj in H as <-.
  assert (poll_ok (destroyed s) (poll_rearm (destroyed s) (devices_poll s))) as Hp
    by (by eapply poll_rearm_ok).
  destruct o as [e|v]; simpl; [|destruct (destroyed s) eqn:Hdes];
    (split; simpl; rewrite ?Hdes, ?poll_rearm_pending; done).
Qed.

Lemma guarded_Some b s s' : guarded b s = Some s' → b = true ∧ s' = s.
Proof. unfold guarded. destruct b; [|done]. by intros [= <-]. Qed.

Lemma logs_step_ok e s s' :
  logs_ok s → logs_step e s = Some s' →
  (∀ text, e = TypeSearch text → lone_surrogate text = false) → logs_ok s'.
Proof.
  intros Hok H Htext.
  assert (∀ t a l, t = search s → destroyed s = false → a ∈ actions →
    logs_ok (react (s <| search := t |> <| actionFilter := a |> <| layerFilter := l |>))) as Hreact.
  { intros t a l -> ??. apply logs_react_ok; try done. apply Hok. }
  destruct e as [text| |v|v| |o|o|id|id|]; cbn [logs_step] in H; cbv zeta in H;
    try (apply guarded_Some in H as [Hg ->]; split_bools).
  - specialize (Htext text eq_refl). pose proof (logs_react_ok s (actionFilter s) (layerFilter s) text) as Hr.
    destruct s; apply Hr; first [done|apply Hok].
  - assert (logs_ok (refreshDecisions (s <| search := [] |>))) as Hc.
    { apply refreshDecisions_ok; [|done]. destruct Hok as [Hs Hd Hv Hn Ha Hm Hk Hq]. by split. }
    unfold react, clearSearch. destruct Hc as [? ? ? ? ? Hm Hk ?]. rewrite Hm, Hk.
    rewrite bool_decide_true by done. by split.
  - match goal with H : includes actions v = true |- _ => apply includes_spec in H end.
    pose proof (Hreact (search s) v (layerFilter s)) as Hr. destruct s; apply Hr; first [done|apply Hok].
  - pose proof (Hreact (search s) (actionFilter s) v) as Hr. destruct s; apply Hr; first [done|apply Hok].
  - assert (logs_ok (refreshDecisions s)) as Hc by (by apply refreshDecisions_ok).
    unfold react. destruct Hc as [? ? ? ? ? Hm Hk ?]. rewrite Hm, Hk, bool_decide_true by done. by split.
  - by eapply decisions_settled_ok.
  - by eapply devices_settled_ok.
  - destruct Hok as [Hs Hd Hv Hn Ha Hm Hk Hq]. destruct (query_Some s Hs) as (q & Eq & Eb). rewrite Eq in H.
    destruct (poll_fire _ _ id (decisions_poll s)) as [p|] eqn:Hp; [|done]. apply Some_inj in H as <-.
    destruct (poll_fire_ok _ _ _ _ _ Hd Hp) as (Hok & _ & _ & Hf). split; simpl; try done.
    intros q' Hq'. left. assert (q' = q) as -> by congruence. eauto.
  - destruct Hok as [Hs Hd Hv Hn Ha Hm Hk Hq].
    destruct (poll_fire _ _ id (devices_poll s)) as [p|] eqn:Hp; [|done]. apply Some_inj in H as <-.
    destruct (poll_fire_ok _ _ _ _ _ Hv Hp) as (Hok & _). split; simpl; try done.
    unfold poll_fire, poll_load in Hp. destruct (callback_of _ _); simplify_eq; simpl.
    by destruct (_ || _).
  - destruct Hok as [Hs Hd Hv Hn Ha Hm Hk Hq].
    match goal with H : destroyed s = false |- _ => rewrite H in * end.
    split; simpl; try done; by apply poll_stop_ok.
Qed.

Lemma logs_reachable_ok s : logs_reachable (fun t => lone_surrogate t = false) s → logs_ok s.
Proof.
  induction 1 as [|s e s' _ IH H Ht]; [|by eapply logs_step_ok].
  split; try done.
  - apply poll_start_ok.
  - apply poll_start_ok.
  - by left.
  - intros q Hq. left. exists []. vm_compute in Hq. injection Hq as <-. vm_compute. reflexivity.
Qed.

(** ** What the page promises *)

(** C15: For search texts without lone surrogates, both polls of the log keep
    running while the page is shown, each with one request or one timer, and a
    request in flight is for the action and the layer that are selected unless
    a refresh is waiting for it to end.  [lone_surrogate_stops_log]: with such a
    text the poll of the decisions stops. *)
Theorem logs_polling s :
  logs_reachable (fun t => lone_surrogate t = false) s → destroyed s = false →
  (∃ id, ∀ x, x ∈ armed (clock (decisions_poll s)) ↔ flight (decisions_poll s) = None ∧ x = (id, ())) ∧
  (∃ id, ∀ x, x ∈ armed (clock (devices_poll s)) ↔ flight (devices_poll s) = None ∧ x = (id, ())) ∧
  (∀ q, flight (decisions_poll s) = Some q → refreshPending (decisions_poll s) = false →
     ∃ text, query_of text (actionFilter s) (layerFilter s) = inr q).
Proof.
  intros Hr Hd. destruct (logs_reachable_ok s Hr) as [_ H1 H2 _ _ _ _ Hq]. rewrite Hd in *.
  split_and!; [by apply poll_alive..|]. intros q Hf Hp. destruct (Hq q Hf) as [|]; [done|congruence].
Qed.

Lemma logs_polling_witness :
  ∃ id, ∀ x, x ∈ armed (clock (decisions_poll (onMount initialLogs))) ↔
    flight (decisions_poll (onMount initialLogs)) = None ∧ x = (id, ()).
Proof. apply (logs_polling (onMount initialLogs) (logs_mounted _) eq_refl). Defined.

(** C14: For search texts without lone surrogates: an answer is shown when it is to
    the query of the filters and the search text that are shown, and the answer
    to another query changes no row, nor does a failure.  With the answer the
    next request is settled: where a refresh is waiting, as it is whenever the
    answer is for another action or layer than those selected, the request for
    the current query is sent at once and no timer is armed; otherwise, so also
    when only the search text has changed, nothing is sent and one timer is
    armed. *)
Theorem logs_answer s o s' :
  logs_reachable (fun t => lone_surrogate t = false) s → logs_step (DecisionsAnswer o) s = Some s' →
  destroyed s = false →
  ∃ q, flight (decisions_poll s) = Some q ∧
    (∀ v, o = inr v → buildQuery s = inr q →
       decisions s' = default [] (v ≫= id) ∧ loadError s' = [] ∧ initialLoaded s' = true) ∧
    (buildQuery s ≠ inr q → decisions s' = decisions s ∧ initialLoaded s' = initialLoaded s) ∧
    (∀ e, o = inl e → decisions s' = decisions s ∧
       (initialLoaded s = true → loadError s' = loadError s)) ∧
    ((∀ text, query_of text (actionFilter s) (layerFilter s) ≠ inr q) →
       refreshPending (decisions_poll s) = true) ∧
    if refreshPending (decisions_poll s)
    then ∃ q', flight (decisions_poll s') = Some q' ∧ buildQuery s' = inr q' ∧
      armed (clock (decisions_poll s')) = []
    else flight (decisions_poll s') = None ∧ ∃ id, armed (clock (decisions_poll s')) = [(id, ())].
Proof.
  intros Hr H Hd. destruct (logs_reachable_ok s Hr) as [Hs Hpoll _ _ _ _ _ Hq].
  simpl in H. unfold decisions_settled in H.
  destruct (flight (decisions_poll s)) as [q|] eqn:Hf; [|done]. apply Some_inj in H as <-.
  exists q. split; [done|].
  pose proof (decisions_body_frame o q s) as E. cbv zeta in E. destruct E as (E1 & _ & E3 & E4 & E5 & E6 & _).
  split_and!.
  - intros v -> Hb. simpl. unfold decisions_body. rewrite Hd, Hb, bool_decide_true by done. done.
  - intros Hb. simpl. unfold decisions_body. rewrite Hd. destruct o as [e|v].
    + by destruct (initialLoaded s) eqn:Hi; simpl; rewrite ?Hi.
    + destruct (buildQuery s) as [e|q']; [by destruct (initialLoaded s) eqn:Hi; simpl; rewrite ?Hi|].
      rewrite bool_decide_false by congruence. done.
  - intros e ->. simpl. rewrite Hd. by destruct (initialLoaded s) eqn:Hi.
  - intros Hstale. destruct (Hq q eq_refl) as [[text Ht]|Hp]; [by destruct (Hstale text)|done].
  - destruct (query_Some (decisions_body o q s)) as (q' & Eq & Eb); [by rewrite E4|].
    rewrite Hd in Hpoll. pose proof (flight_no_timer _ _ Hpoll Hf) as Ha.
    simpl. rewrite Eq, E1, E3, Hd. unfold poll_settle, poll_load, poll_arm. simpl.
    destruct (refreshPending (decisions_poll s)); simpl.
    + exists q'. split_and!; [done|exact Eb|exact Ha].
    + split; [done|]. rewrite Ha. eauto.
Qed.

Lemma logs_answer_witness :
  ∃ s s', logs_step (SelectAction (js "block")) (onMount initialLogs) = Some s ∧
    logs_step (DecisionsAnswer (inr None)) s = Some s' ∧ decisions s' = decisions s.
Proof.
  destruct (logs_step (SelectAction (js "block")) (onMount initialLogs)) as [s|] eqn:E;
    [|vm_compute in E; discriminate E].
  assert (logs_reachable (fun t => lone_surrogate t = false) s) as Hr
    by (eapply logs_next; [apply logs_mounted|exact E|done]).
  destruct (logs_step (DecisionsAnswer (inr None)) s) as [s'|] eqn:E'.
  - exists s, s'. do 2 (split; [done|]). vm_compute in E. injection E as <-.
    destruct (logs_answer _ (inr None) s' Hr E' eq_refl) as (q & Hf & _ & H & _). apply H.
    injection Hf as <-. by vm_compute.
  - vm_compute in E. injection E as <-. vm_compute in E'. discriminate E'.
Defined.

(** A search text with a lone surrogate ends the poll: the next load throws
    with its flag set, and no request, timer or refresh follows. *)
Theorem lone_surrogate_stops_log :
  ∃ s, logs_reachable (fun _ => True) s ∧ destroyed s = false ∧
    busy (decisions_poll s) = true ∧ flight (decisions_poll s) = None ∧
    armed (clock (decisions_poll s)) = [] ∧
    ∃ s', logs_step ClearSearch s = Some s' ∧ flight (decisions_poll s') = None ∧
      armed (clock (decisions_poll s')) = [].
Proof.
  destruct (logs_step (DecisionsAnswer (inr None)) (onMount initialLogs)) as [s1|] eqn:E1;
    [|vm_compute in E1; discriminate E1].
  destruct (logs_step (TypeSearch [0xD83D%N]) s1) as [s2|] eqn:E2;
    [|vm_compute in E1; injection E1 as <-; vm_compute in E2; discriminate E2].
  destruct (logs_step (DecisionTimer 0) s2) as [s3|] eqn:E3;
    [|vm_compute in E1; injection E1 as <-; vm_compute in E2; injection E2 as <-;
      vm_compute in E3; discriminate E3].
  exists s3. split.
  { eapply logs_next; [|exact E3|done]. eapply logs_next; [|exact E2|done].
    eapply logs_next; [apply logs_mounted|exact E1|done]. }
  vm_compute in E1. injection E1 as <-. vm_compute in E2. injection E2 as <-.
  vm_compute in E3. injection E3 as <-. do 4 (split; [reflexivity|]).
  eexists. split; [vm_compute; reflexivity|]. split; reflexivity.
Qed.
