(* ===== verification/LogsView.v ===== *)
(** * The template of the decision log

    The markup of [routes/logs/logs.svelte]. *)

From S2P Require Import Prelude JsString JsAsync Timers Poll DeviceNames View Layout Logs.
Open Scope js_scope.

(** What a user can do, and the event it is. *)
Inductive logs_control :=
| PressType (text : jstr)
| PressClear
| PressAction (value : jstr)
| PressLayer (value : jstr)
| PressRetry.

Definition raises (c : logs_control) : logs_event :=
  match c with
  | PressType text => TypeSearch text
  | PressClear => ClearSearch
  | PressAction v => SelectAction v
  | PressLayer v => SelectLayer v
  | PressRetry => Retry
  end.

Definition select_item (item : jstr * string) : list (node logs_control) :=
  [El "SelectItem" [Attr "value" item.1; lit "text" item.2] []].

Definition action_items : list (jstr * string) := [
  ([], "All actions"); (js "block", "Block"); (js "allow", "Allow"); (js "bypass", "Bypass");
  (js "inspect", "Inspect"); (js "error", "Error")
]%string.

Definition layer_items : list (jstr * string) := [
  ([], "All layers"); (js "dns", "DNS"); (js "explicit_proxy", "Explicit proxy");
  (js "transparent_proxy", "Transparent proxy"); (js "content", "Content")
]%string.

Definition filters_view (s : Logs) : node logs_control :=
  El "div" [] [
    El "Search" [
      Attr "value" (search s); OnAny "bind:value" PressType; On "clear" PressClear;
      lit "placeholder" "Search by domain"; lit "labelText" "Search decisions"
    ] [];
    El "Select" [
      lit "labelText" "Action"; Attr "selected" (actionFilter s);
      OnValue "bind:selected" (includes (fst <$> action_items)) PressAction
    ] [each action_items select_item];
    El "Select" [
      lit "labelText" "Layer"; Attr "selected" (layerFilter s);
      OnValue "bind:selected" (includes (fst <$> layer_items)) PressLayer
    ] [each layer_items select_item]
  ].

Definition headers : list (jstr * jstr) := [
  (js "time", js "Time"); (js "client", js "Client"); (js "url", js "URL"); (js "action", js "Action");
  (js "layer", js "Layer"); (js "reason", js "Reason")
].

Definition row_cell (row : LogRow) (key : jstr) : list (node logs_control) := [
  Text (if bool_decide (key = js "time") then row_time row
        else if bool_decide (key = js "client") then row_client row
        else if bool_decide (key = js "url") then row_url row
        else if bool_decide (key = js "action") then row_action row
        else if bool_decide (key = js "layer") then row_layer row
        else row_reason row)
].

Section View.
Context (format : Z → jstr) (truncate : jstr → nat → jstr).

Definition rows (s : Logs) : list LogRow := logsToRender format truncate (deviceNames s) (decisions s).

Definition decisions_view (s : Logs) : node logs_control :=
  alt (truthy (loadError s)) [
    resource_state Failed (js "Decisions unavailable") (loadError s) (js "Retry") (Some PressRetry) []
  ] [
    alt (negb (initialLoaded s)) [
      resource_state Loading [] (js "Loading filtering decisions") (js "Retry") None []
    ] [
      alt (is_nil (rows s)) [
        resource_state Empty (js "No decisions found") (js "Try clearing the search or choosing a different filter.")
          (js "Retry") None []
      ] [data_table headers (rows s) [] row_cell]
    ]
  ].

Definition logs_view (s : Logs) : node logs_control :=
  page_shell (js "Decision log")
    (js "Structured filtering decisions from DNS, proxy, and content inspection layers.") false [
    El "Breadcrumb" [] [
      El "BreadcrumbItem" [lit "href" "/"] [txt "Dashboard"]; El "BreadcrumbItem" [] [txt "Logs"]
    ]
  ] None [
    section_panel (js "Filter decisions") (js "Search recent activity or narrow it by outcome and enforcement layer.")
      [] None [filters_view s; decisions_view s]
  ].

Lemma select_items_offer (items : list (jstr * string)) c :
  ¬ ∃ x, x ∈ items ∧ any_of (fun n => offers n c) (select_item x).
Proof. intros (x & _ & H). unfold select_item in H. revert H. view_simpl. tauto. Qed.

Lemma filters_offers s c :
  offers (filters_view s) c ↔
  match c with
  | PressAction v => includes actions v = true
  | PressLayer v => includes layers v = true
  | PressRetry => False
  | _ => True
  end.
Proof.
  change actions with (fst <$> action_items). change layers with (fst <$> layer_items).
  pose proof (select_items_offer action_items c) as Ha. pose proof (select_items_offer layer_items c) as Hl.
  unfold filters_view. view_simpl. split.
  - intros H. view_destruct; subst; try done; by edestruct select_items_offer; eauto.
  - destruct c as [text| |v|v|]; intros H; try done; (split; [done|]); right.
    + left. view_find.
    + left. view_find.
    + right. left. split; [done|]. left. left. split; [done|]. by exists v.
    + right. right. left. split; [done|]. left. left. split; [done|]. by exists v.
Qed.

Lemma decisions_view_offers s c :
  offers (decisions_view s) c ↔ truthy (loadError s) = true ∧ c = PressRetry.
Proof.
  unfold decisions_view. cbn [offers any_of]. rewrite !resource_state_offers, data_table_offers.
  unfold row_cell. view_simpl. naive_solver.
Qed.

(** On a page that is shown, what the template offers is exactly what the event
    loop lets a user do. *)
Theorem logs_view_offers s c :
  destroyed s = false → offers (logs_view s) c ↔ is_Some (logs_step (raises c) s).
Proof.
  intros Hd. unfold logs_view. rewrite page_shell_offers. cbn [slot_offers any_of].
  rewrite section_panel_offers. cbn [slot_offers any_of]. rewrite decisions_view_offers, filters_offers.
  unfold logs_step, guarded. rewrite Hd. cbn [negb andb].
  destruct c as [text| |v|v|]; cbn [raises]; view_simpl.
  1-2: split; [by eexists|tauto].
  - destruct (includes actions v); [|naive_solver]. split; [by eexists|tauto].
  - destruct (includes layers v); [|naive_solver]. split; [by eexists|tauto].
  - destruct (truthy (loadError s)); [|naive_solver]. split; [by eexists|tauto].
Qed.
End View.

Lemma logs_view_offers_witness :
  offers (logs_view (fun _ => []) (fun t _ => t) initialLogs) (PressAction (js "block")).
Proof. apply logs_view_offers; [done|]. by eexists. Defined.
