(* ===== verification/DeviceActivity.v ===== *)
(** * The activity feed of a device

    [routes/devices/devicedetail.svelte]: the poll of the recent activity of the
    device the dialog shows.  Requests of an earlier device, or of an earlier
    opening, may still be answered; [activityGeneration] and the abort
    controller keep them out.  The dialog's other handlers are in
    [DeviceDetail.v]. *)

From S2P Require Import Prelude JsString JsAsync Timers.
Open Scope js_scope.

(** ** State *)

(** A request in flight: what [loadActivity] captured, and whether its
    controller has been aborted.  [fl_id] stands for the controller. *)
Record Flight := MkFlight {
  fl_id : nat;
  requestGeneration : nat;
  requestedDeviceID : jstr;
  aborted : bool
}.

Record Activity (Item : Type) := MkActivity {
  device : option jstr;          (* [device?.id] *)
  open : bool;
  activity : list Item;
  activityLoading : bool;
  activityError : jstr;
  activityLoaded : bool;
  activityTimer : option nat;
  activityController : option nat;
  activityRequestRunning : bool;
  activityGeneration : nat;
  destroyed : bool;
  detailLoadedFor : jstr;
  activityDeviceID : jstr;
  clock : timers unit;
  flights : list Flight;
  next_flight : nat
}.
Arguments MkActivity {Item}.
Arguments device {Item}.
Arguments open {Item}.
Arguments activity {Item}.
Arguments activityLoading {Item}.
Arguments activityError {Item}.
Arguments activityLoaded {Item}.
Arguments activityTimer {Item}.
Arguments activityController {Item}.
Arguments activityRequestRunning {Item}.
Arguments activityGeneration {Item}.
Arguments destroyed {Item}.
Arguments detailLoadedFor {Item}.
Arguments activityDeviceID {Item}.
Arguments clock {Item}.
Arguments flights {Item}.
Arguments next_flight {Item}.
#[export] Instance Activity_eta Item : Settable (Activity Item) := fun s =>
  MkActivity (device s) (open s) (activity s) (activityLoading s) (activityError s) (activityLoaded s)
    (activityTimer s) (activityController s) (activityRequestRunning s) (activityGeneration s)
    (destroyed s) (detailLoadedFor s) (activityDeviceID s) (clock s) (flights s) (next_flight s).

Section Feed.
Context {Item : Type}.
Implicit Types s : Activity Item.

Definition initialActivity (device : option jstr) (open : bool) : Activity Item := {|
  device := device; open := open; activity := []; activityLoading := false; activityError := [];
  activityLoaded := false; activityTimer := None; activityController := None;
  activityRequestRunning := false; activityGeneration := 0; destroyed := false;
  detailLoadedFor := []; activityDeviceID := []; clock := no_timers; flights := []; next_flight := 0
|}.

(** [activityController?.abort()]. *)
Definition abort (controller : option nat) (l : list Flight) : list Flight :=
  (fun f => if bool_decide (controller = Some (fl_id f))
            then MkFlight (fl_id f) (requestGeneration f) (requestedDeviceID f) true else f) <$> l.

Definition stopActivity (resetDevice : bool) s : Activity Item :=
  let s := s <| activityGeneration ::= S |>
             <| clock ::= clearTimeout (activityTimer s) |> <| activityTimer := None |>
             <| flights ::= abort (activityController s) |> <| activityController := None |>
             <| activityRequestRunning := false |> in
  if resetDevice then s <| activityDeviceID := [] |> else s.

(** [loadActivity] up to its [await]. *)
Definition loadActivity s : Activity Item :=
  if activityRequestRunning s || destroyed s || negb (open s) || negb (truthy (activityDeviceID s))
     || negb (bool_decide (device s = Some (activityDeviceID s)))
  then s
  else s <| activityRequestRunning := true |> <| activityLoading := negb (activityLoaded s) |>
         <| activityError := [] |>
         <| activityController := Some (next_flight s) |>
         <| flights ::= fun l => l ++ [MkFlight (next_flight s) (activityGeneration s) (activityDeviceID s) false] |>
         <| next_flight ::= S |>.

(** The answer is for what is being followed. *)
Definition current (f : Flight) s : bool :=
  negb (destroyed s) && open s && (requestGeneration f =? activityGeneration s)%nat
  && bool_decide (requestedDeviceID f = activityDeviceID s).

(** The [try] and [catch], given how the request settled; [inr] is the
    [items] of a 2xx answer. *)
Definition activity_body (f : Flight) (o : result (option (list Item))) s : Activity Item :=
  match o with
  | inr items =>
      if current f s then s <| activity := default [] items |> <| activityLoaded := true |> else s
  | inl err =>
      if current f s && negb (bool_decide (err_name err = js "AbortError"))
      then s <| activityError := message_or err (js "Activity could not be refreshed") |> else s
  end.

Definition activity_finally (f : Flight) s : Activity Item :=
  let s := if (requestGeneration f =? activityGeneration s)%nat
           then s <| activityRequestRunning := false |> <| activityLoading := false |>
                  <| activityController := None |>
           else s in
  if current f s
  then let '(id, c) := setTimeout () (clock s) in s <| activityTimer := Some id |> <| clock := c |>
  else s.

Definition startActivity (deviceID : jstr) s : Activity Item :=
  let s := stopActivity false s in
  loadActivity (s <| activityDeviceID := deviceID |> <| activity := [] |> <| activityLoaded := false |>
                  <| activityError := [] |>).

(** The two reactive statements, in order. *)
Definition react s : Activity Item :=
  let s := match device s with
           | Some id =>
               if open s && truthy id && negb (bool_decide (detailLoadedFor s = id))
               then startActivity id (s <| detailLoadedFor := id |>) else s
           | None => s
           end in
  if negb (open s) && truthy (activityDeviceID s) then stopActivity true s else s.

Definition onDestroy s : Activity Item := stopActivity true (s <| destroyed := true |>).

(** [close()]; the page then unmounts the dialog or passes [open = false]. *)
Definition close s : Activity Item := stopActivity true s.

(** ** The event loop *)

Inductive activity_event :=
| SetProps (device : option jstr) (open : bool)
| Close
| Answer (id : nat) (o : result (option (list Item)))
| TimerFires (id : nat)
| Destroy.

(** A request may be answered in any way, also after it was aborted. *)
Definition activity_step (e : activity_event) s : option (Activity Item) :=
  match e with
  | SetProps d o =>
      if destroyed s then None else Some (react (s <| device := d |> <| open := o |>))
  | Close => if destroyed s || negb (open s) then None else Some (react (close s))
  | Answer id o =>
      match find (fun f => (fl_id f =? id)%nat) (flights s) with
      | None => None
      | Some f =>
          let s := s <| flights ::= List.filter (fun f => negb (fl_id f =? id)%nat) |> in
          let s := activity_finally f (activity_body f o s) in
          Some (if destroyed s then s else react s)
      end
  | TimerFires id =>
      match callback_of id (clock s) with
      | None => None
      | Some _ => Some (react (loadActivity (s <| clock ::= clearTimeout (Some id) |>)))
      end
  | Destroy => if destroyed s then None else Some (onDestroy s)
  end.

(** ** Reachable states *)

(** [owns id item]: the item is part of the activity of device [id].  The page
    mounts the dialog with a device, and the API answers a request with items
    of the device it names. *)
Context (owns : jstr → Item → Prop).

Definition allowed s (e : activity_event) : Prop :=
  match e with
  | SetProps d _ => ∃ id, d = Some id ∧ id ≠ []
  | Answer i (inr (Some items)) =>
      ∀ f, find (fun f => (fl_id f =? i)%nat) (flights s) = Some f →
        Forall (owns (requestedDeviceID f)) items
  | _ => True
  end.

Inductive activity_reachable : Activity Item → Prop :=
| activity_mounted id o : id ≠ [] → activity_reachable (react (initialActivity (Some id) o))
| activity_next s e s' :
    activity_reachable s → allowed s e → activity_step e s = Some s' → activity_reachable s'.

(** ** Invariant *)

(** Of the requests and the timer: the request of the current generation is
    the one that runs, it is for the device followed, and every other has been
    aborted; the timer is armed only between requests, and one of the two is
    there while a device is followed. *)
Record feed_ok s : Prop := {
  ok_ids : NoDup (fl_id <$> flights s);
  ok_next : ∀ f, f ∈ flights s → fl_id f < next_flight s;
  ok_requested : ∀ f, f ∈ flights s → requestedDeviceID f ≠ [];
  ok_generation : ∀ f, f ∈ flights s → requestGeneration f ≤ activityGeneration s;
  ok_current : ∀ f, f ∈ flights s → requestGeneration f = activityGeneration s →
    activityRequestRunning s = true ∧ activityController s = Some (fl_id f) ∧
    requestedDeviceID f = activityDeviceID s ∧ aborted f = false;
  ok_stale : ∀ f, f ∈ flights s → requestGeneration f ≠ activityGeneration s → aborted f = true;
  ok_running : activityRequestRunning s = true →
    ∃ f, f ∈ flights s ∧ requestGeneration f = activityGeneration s;
  ok_clock : timers_wf (clock s);
  ok_timer_id : ∀ i, activityTimer s = Some i → i < next_id (clock s);
  ok_armed : ∀ x, x ∈ armed (clock s) →
    activityTimer s = Some x.1 ∧ activityRequestRunning s = false ∧ activityDeviceID s ≠ [];
  ok_live : activityDeviceID s ≠ [] →
    activityRequestRunning s = true ∨ ∃ i, armed (clock s) = [(i, ())];
  ok_followed : activityDeviceID s = [] ∨ activityDeviceID s = detailLoadedFor s;
  ok_items : Forall (owns (detailLoadedFor s)) (activity s)
}.

(** Of the properties: an open dialog shows the device it has loaded. *)
Record props_ok s : Prop := {
  ok_device : destroyed s = false →
    ∃ id, device s = Some id ∧ id ≠ [] ∧ (open s = true → detailLoadedFor s = id);
  ok_closed : destroyed s = true ∨ open s = false → activityDeviceID s = []
}.

Lemma abort_ids c l : fl_id <$> abort c l = fl_id <$> l.
Proof.
  unfold abort. rewrite <-list_fmap_compose. apply list_fmap_ext. intros i f _. simpl. by case_bool_decide.
Qed.

Lemma elem_of_abort c l f : f ∈ abort c l → ∃ f0, f0 ∈ l ∧ fl_id f = fl_id f0 ∧
  requestGeneration f = requestGeneration f0 ∧ requestedDeviceID f = requestedDeviceID f0 ∧
  aborted f = (if bool_decide (c = Some (fl_id f0)) then true else aborted f0).
Proof.
  intros (f0 & -> & Hin)%list_elem_of_fmap. exists f0. by case_bool_decide.
Qed.

Lemma stop_facts b s : feed_ok s →
  let s' := stopActivity b s in
  NoDup (fl_id <$> flights s') ∧
  (∀ f, f ∈ flights s' → fl_id f < next_flight s' ∧ requestGeneration f < activityGeneration s' ∧
     aborted f = true ∧ requestedDeviceID f ≠ []) ∧
  armed (clock s') = [] ∧ timers_wf (clock s').
Proof.
  intros Hok. cbv zeta.
  assert (flights (stopActivity b s) = abort (activityController s) (flights s) ∧
          clock (stopActivity b s) = clearTimeout (activityTimer s) (clock s) ∧
          next_flight (stopActivity b s) = next_flight s ∧
          activityGeneration (stopActivity b s) = S (activityGeneration s)) as (-> & -> & -> & ->)
    by (unfold stopActivity; by destruct b).
  split_and!.
  - rewrite abort_ids. apply Hok.
  - intros f (f0 & Hin & E1 & E2 & E3 & E4)%elem_of_abort. rewrite E1, E2, E3, E4.
    pose proof (ok_generation _ Hok f0 Hin).
    split_and!; [by apply (ok_next _ Hok)|lia| |by apply (ok_requested _ Hok)].
    destruct (decide (requestGeneration f0 = activityGeneration s)) as [E|E].
    + destruct (ok_current _ Hok f0 Hin E) as (_ & Hc & _). by rewrite bool_decide_true.
    + case_bool_decide; [done|]. by apply (ok_stale _ Hok).
  - destruct (armed (clearTimeout _ _)) as [|x l] eqn:E; [done|]. exfalso.
    assert (x ∈ armed (clearTimeout (activityTimer s) (clock s))) as Hx by (rewrite E; left).
    destruct (activityTimer s) as [i|] eqn:Ht.
    + rewrite elem_of_clear in Hx. destruct Hx as [Hx Hne].
      destruct (ok_armed _ Hok x Hx) as [H _]. congruence.
    + destruct (ok_armed _ Hok x Hx) as [H _]. congruence.
  - apply clearTimeout_wf, Hok.
Qed.

Lemma stop_ok s : feed_ok s → feed_ok (stopActivity true s).
Proof.
  intros Hok. destruct (stop_facts true s Hok) as (H1 & H2 & H3 & H4). unfold stopActivity in *. simpl in *.
  split; simpl; try done.
  - intros f Hf. by apply H2.
  - intros f Hf. by apply H2.
  - intros f Hf. destruct (H2 f Hf). lia.
  - intros f Hf E. destruct (H2 f Hf). lia.
  - intros f Hf _. by apply H2.
  - intros x Hx. rewrite H3 in Hx. by apply elem_of_nil in Hx.
  - by left.
  - apply Hok.
Qed.

(** [startActivity] for the device of an open dialog. *)
Lemma start_ok id s :
  feed_ok s → destroyed s = false → open s = true → device s = Some id → id ≠ [] →
  feed_ok (startActivity id (s <| detailLoadedFor := id |>)).
Proof.
  intros Hok Hd Ho Hdev Hid.
  destruct (stop_facts false s Hok) as (H1 & H2 & H3 & H4). unfold stopActivity in *. simpl in *.
  unfold startActivity, stopActivity, loadActivity. simpl. rewrite Hd, Ho, Hdev. simpl.
  assert (truthy id = true) as -> by (by apply truthy_true). rewrite bool_decide_true by done. simpl.
  split; simpl; try done.
  - rewrite fmap_app. apply NoDup_app. split_and!; [done| |apply NoDup_singleton].
    intros i (f & -> & Hf)%list_elem_of_fmap Hi. apply list_elem_of_singleton in Hi. simpl in Hi.
    destruct (H2 f Hf). lia.
  - intros f [Hf| ->%list_elem_of_singleton]%elem_of_app; [|simpl; lia]. destruct (H2 f Hf). lia.
  - intros f [Hf| ->%list_elem_of_singleton]%elem_of_app; [by apply H2|done].
  - intros f [Hf| ->%list_elem_of_singleton]%elem_of_app; [|simpl; lia]. destruct (H2 f Hf). lia.
  - intros f [Hf| ->%list_elem_of_singleton]%elem_of_app E; [|done]. destruct (H2 f Hf). lia.
  - intros f [Hf| ->%list_elem_of_singleton]%elem_of_app E; [|done]. by apply H2.
  - intros _. eexists. split; [apply elem_of_app; right; left|done].
  - intros x Hx. rewrite H3 in Hx. by apply elem_of_nil in Hx.
  - by left.
  - by right.
Qed.

Lemma start_props id s :
  let s' := startActivity id s in
  open s' = open s ∧ destroyed s' = destroyed s ∧ device s' = device s ∧
  detailLoadedFor s' = detailLoadedFor s.
Proof. unfold startActivity, stopActivity, loadActivity. simpl. by destruct (_ || _). Qed.

Lemma activity_react_ok s :
  feed_ok s → destroyed s = false → (∃ id, device s = Some id ∧ id ≠ []) →
  feed_ok (react s) ∧ props_ok (react s).
Proof.
  intros Hok Hd (id & Hdev & Hid). unfold react. rewrite Hdev.
  assert (truthy id = true) as -> by (by apply truthy_true).
  destruct (open s) eqn:Ho; cbn [andb negb].
  - case_bool_decide as Hl; cbn [andb negb].
    + rewrite Ho. cbn [andb negb]. split; [done|]. split.
      * intros _. exists id. by split_and!.
      * rewrite Hd, Ho. by intros [[=]|[=]].
    + pose proof (start_ok id s Hok Hd Ho Hdev Hid) as Hs.
      destruct (start_props id (s <| detailLoadedFor := id |>)) as (E1 & E2 & E3 & E4).
      rewrite E1. simpl open. rewrite Ho. cbn [andb negb]. split; [exact Hs|]. split.
      * intros _. exists id. rewrite E3, E4. by split_and!.
      * rewrite E1, E2. simpl. rewrite Hd, Ho. by intros [[=]|[=]].
  - rewrite Ho. cbn [andb negb]. destruct (truthy (activityDeviceID s)) eqn:Ht.
    + split; [by apply stop_ok|]. split; unfold stopActivity; simpl; [|done].
      intros _. exists id. rewrite Hdev, Ho. by split_and!.
    + split; [done|]. apply truthy_false in Ht. split; [|done]. intros _. exists id. rewrite Ho. by split_and!.
Qed.

(** ** Steps keep the invariant *)

Lemma flight_unique s f g :
  feed_ok s → f ∈ flights s → g ∈ flights s → fl_id f = fl_id g → f = g.
Proof.
  intros Hok [i Hi]%list_elem_of_lookup [j Hj]%list_elem_of_lookup E.
  assert (i = j) as ->; [|congruence].
  eapply (NoDup_lookup _ i j (fl_id f) (ok_ids _ Hok)); rewrite list_lookup_fmap; [by rewrite Hi|].
  by rewrite Hj, E.
Qed.

(** The answer of a request that is not the current one. *)
Lemma drop_stale_ok s f :
  feed_ok s → f ∈ flights s → requestGeneration f ≠ activityGeneration s →
  feed_ok (s <| flights ::= List.filter (fun g => negb (fl_id g =? fl_id f)%nat) |>).
Proof.
  intros Hok Hf Hne. destruct Hok. split; simpl; try done.
  - by apply NoDup_fmap_filter_b.
  - intros g [Hg _]%elem_of_filter_b. auto.
  - intros g [Hg _]%elem_of_filter_b. auto.
  - intros g [Hg _]%elem_of_filter_b. auto.
  - intros g [Hg _]%elem_of_filter_b. auto.
  - intros g [Hg _]%elem_of_filter_b. auto.
  - intros Hr. destruct (ok_running0 Hr) as (g & Hg & E). exists g. split; [|done].
    apply elem_of_filter_b. split; [done|]. apply negb_true_iff, Nat.eqb_neq. intros Eid.
    assert (g = f) as -> by (by eapply (flight_unique s)). done.
Qed.

(** The request that runs is over, and nothing is armed yet. *)
Record between s : Prop := {
  bt_ids : NoDup (fl_id <$> flights s);
  bt_flights : ∀ f, f ∈ flights s → fl_id f < next_flight s ∧
    requestGeneration f < activityGeneration s ∧ aborted f = true ∧ requestedDeviceID f ≠ [];
  bt_clock : timers_wf (clock s);
  bt_armed : armed (clock s) = [];
  bt_running : activityRequestRunning s = false;
  bt_followed : activityDeviceID s = [] ∨ activityDeviceID s = detailLoadedFor s;
  bt_items : Forall (owns (detailLoadedFor s)) (activity s)
}.

Lemma arm_ok s :
  between s → activityDeviceID s ≠ [] →
  feed_ok (s <| activityTimer := Some (next_id (clock s)) |> <| clock := (setTimeout () (clock s)).2 |>).
Proof.
  intros [H1 H2 H3 H4 H5 H6 H7] Hid. split; cbn -[setTimeout]; try done.
  - intros f Hf. by apply H2.
  - intros f Hf. by apply H2.
  - intros f Hf. destruct (H2 f Hf). lia.
  - intros f Hf E. destruct (H2 f Hf). lia.
  - intros f Hf _. by apply H2.
  - congruence.
  - by apply setTimeout_wf.
  - intros i [= <-]. simpl. lia.
  - intros x. simpl. rewrite H4. intros ->%list_elem_of_singleton. done.
  - intros _. right. exists (next_id (clock s)). simpl. by rewrite H4.
Qed.

Lemma between_quiet s : between s → activityDeviceID s = [] →
  (∀ i, activityTimer s = Some i → i < next_id (clock s)) → feed_ok s.
Proof.
  intros [H1 H2 H3 H4 H5 H6 H7] Hid Ht. split; try done.
  - intros f Hf. by apply H2.
  - intros f Hf. by apply H2.
  - intros f Hf. destruct (H2 f Hf). lia.
  - intros f Hf E. destruct (H2 f Hf). lia.
  - intros f Hf _. by apply H2.
  - congruence.
  - intros x Hx. rewrite H4 in Hx. by apply elem_of_nil in Hx.
Qed.

Lemma current_over s f :
  feed_ok s → f ∈ flights s → requestGeneration f = activityGeneration s →
  between (s <| flights ::= List.filter (fun g => negb (fl_id g =? fl_id f)%nat) |>
             <| activityRequestRunning := false |> <| activityLoading := false |>
             <| activityController := None |>).
Proof.
  intros Hok Hf E. destruct (ok_current _ Hok f Hf E) as (Hr & Hc & _).
  split; simpl; try done; try apply Hok.
  - apply NoDup_fmap_filter_b, Hok.
  - intros g [Hg Hne]%elem_of_filter_b. apply negb_true_iff, Nat.eqb_neq in Hne.
    assert (requestGeneration g ≠ activityGeneration s) as Hgen.
    { intros Eg. destruct (ok_current _ Hok g Hg Eg) as (_ & Hc' & _). congruence. }
    pose proof (ok_generation _ Hok g Hg). 
    split_and!; [by apply (ok_next _ Hok)|lia|by apply (ok_stale _ Hok)|by apply (ok_requested _ Hok)].
  - destruct (armed (clock s)) as [|x l] eqn:Ea; [done|].
    assert (x ∈ armed (clock s)) as Hx by (rewrite Ea; left).
    destruct (ok_armed _ Hok x Hx) as (_ & Hr' & _). congruence.
Qed.

Lemma answer_ok s f o :
  feed_ok s → props_ok s → f ∈ flights s →
  (∀ items, o = inr (Some items) → Forall (owns (requestedDeviceID f)) items) →
  feed_ok (activity_finally f (activity_body f o
    (s <| flights ::= List.filter (fun g => negb (fl_id g =? fl_id f)%nat) |>))).
Proof.
  intros Hok Hp Hf Hitems.
  destruct (decide (requestGeneration f = activityGeneration s)) as [E|E].
  - destruct (ok_current _ Hok f Hf E) as (Hr & Hc & Hdev & _).
    pose proof (current_over s f Hok Hf E) as Hb. pose proof (ok_requested _ Hok f Hf) as Hne.
    assert (destroyed s = false ∧ open s = true) as [Hd Ho].
    { rewrite Hdev in Hne. destruct (destroyed s) eqn:Hd; [by destruct Hne; apply Hp; left|].
      split; [done|]. destruct (open s) eqn:Ho; [done|]. by destruct Hne; apply Hp; right. }
    assert (activityDeviceID s = detailLoadedFor s) as Hl.
    { destruct (ok_followed _ Hok) as [H|H]; [congruence|done]. }
    assert (∀ items loaded err, Forall (owns (detailLoadedFor s)) items →
      feed_ok (activity_finally f (s <| flights ::= List.filter (fun g => negb (fl_id g =? fl_id f)%nat) |>
        <| activity := items |> <| activityLoaded := loaded |> <| activityError := err |>))) as Hfin.
    { intros items loaded err Hi. unfold activity_finally, current. simpl. rewrite E, Nat.eqb_refl. simpl.
      rewrite Hd, Ho, Hdev. simpl. rewrite bool_decide_true by done. simpl. rewrite ?Nat.eqb_refl. simpl.
      assert (between (s <| flights ::= List.filter (fun g => negb (fl_id g =? fl_id f)%nat) |>
        <| activity := items |> <| activityLoaded := loaded |> <| activityError := err |>
        <| activityRequestRunning := false |> <| activityLoading := false |>
        <| activityController := None |>)) as Hb' by (destruct Hb; by split).
      apply arm_ok in Hb'; [|simpl; congruence]. simpl in Hb'. rewrite ?Hd, ?Ho in Hb'. exact Hb'. }
    assert (∀ P : Activity Item → Prop, (∀ items loaded err, Forall (owns (detailLoadedFor s)) items →
      P (s <| flights ::= List.filter (fun g => negb (fl_id g =? fl_id f)%nat) |>
           <| activity := items |> <| activityLoaded := loaded |> <| activityError := err |>)) →
      P (activity_body f o (s <| flights ::= List.filter (fun g => negb (fl_id g =? fl_id f)%nat) |>)))
      as Hbody.
    { intros P HP. pose proof (ok_items _ Hok) as Hold.
      pose proof (HP (activity s) (activityLoaded s) (activityError s) Hold) as Hsame.
      unfold activity_body. destruct o as [err|items].
      - destruct (_ && _); [|by destruct s].
        pose proof (HP (activity s) (activityLoaded s)
          (message_or err (js "Activity could not be refreshed")) Hold) as H. by destruct s.
      - destruct (current f _); [|by destruct s].
        pose proof (HP (default [] items) true (activityError s)) as H.
        assert (Forall (owns (detailLoadedFor s)) (default [] items)) as Hi.
        { destruct items as [items|]; [|constructor]. rewrite <-Hl, <-Hdev. by apply Hitems. }
        specialize (H Hi). by destruct s. }
    apply Hbody. exact Hfin.
  - pose proof (drop_stale_ok s f Hok Hf E) as Hs. apply Nat.eqb_neq in E.
    unfold activity_body, activity_finally, current.
    destruct o; simpl; rewrite ?E, ?andb_false_r; simpl; rewrite ?E, ?andb_false_r; simpl;
      rewrite ?E, ?andb_false_r; exact Hs.
Qed.

Lemma timer_ok s id :
  feed_ok s → props_ok s → (id, ()) ∈ armed (clock s) →
  feed_ok (loadActivity (s <| clock ::= clearTimeout (Some id) |>)).
Proof.
  intros Hok Hp Hin. destruct (ok_armed _ Hok _ Hin) as (Ht & Hr & Hne). simpl in Ht.
  destruct (destroyed s) eqn:Hd; [by destruct Hne; apply Hp; left|].
  destruct (open s) eqn:Ho; [|by destruct Hne; apply Hp; right].
  destruct (ok_device _ Hp Hd) as (i & Hdev & _ & Hl). specialize (Hl Ho).
  destruct (ok_followed _ Hok) as [|Hf]; [done|].
  assert (∀ x, x ∉ armed (clearTimeout (Some id) (clock s))) as Hnone.
  { intros x Hx. rewrite elem_of_clear in Hx. destruct Hx as [Hx Hxid].
    destruct (ok_armed _ Hok x Hx) as (Ht' & _). congruence. }
  unfold loadActivity. simpl. rewrite Hr, Hd, Ho, Hdev. simpl.
  assert (truthy (activityDeviceID s) = true) as -> by (by apply truthy_true).
  rewrite bool_decide_true by congruence. simpl.
  assert (∀ f, f ∈ flights s → requestGeneration f ≠ activityGeneration s) as Hstale.
  { intros f Hfl E. destruct (ok_current _ Hok f Hfl E) as (H & _). congruence. }
  destruct Hok. split; simpl; try done.
  - rewrite fmap_app. apply NoDup_app. split_and!; [done| |apply NoDup_singleton].
    intros j (f & -> & Hfl)%list_elem_of_fmap Hj. apply list_elem_of_singleton in Hj. simpl in Hj.
    specialize (ok_next0 f Hfl). lia.
  - intros f [Hfl| ->%list_elem_of_singleton]%elem_of_app; [|simpl; lia]. specialize (ok_next0 f Hfl). lia.
  - intros f [Hfl| ->%list_elem_of_singleton]%elem_of_app; [auto|done].
  - intros f [Hfl| ->%list_elem_of_singleton]%elem_of_app; [auto|done].
  - intros f [Hfl| ->%list_elem_of_singleton]%elem_of_app E; [|done]. by destruct (Hstale f Hfl).
  - intros f [Hfl| ->%list_elem_of_singleton]%elem_of_app E; [auto|done].
  - intros _. eexists. split; [apply elem_of_app; right; left|done].
  - by apply (clearTimeout_wf (Some id)).
  - intros x Hx. by destruct (Hnone x).
  - by left.
Qed.

Lemma step_ok e s s' :
  feed_ok s → props_ok s → allowed s e → activity_step e s = Some s' → feed_ok s' ∧ props_ok s'.
Proof.
  intros Hok Hp Hal H. destruct e as [d o| |id o|id|]; simpl in H.
  - destruct (destroyed s) eqn:Hd; [done|]. apply Some_inj in H as <-.
    apply activity_react_ok; [|done|exact Hal]. by destruct Hok.
  - destruct (destroyed s) eqn:Hd; [done|]. destruct (negb _); [done|]. apply Some_inj in H as <-.
    destruct (ok_device _ Hp Hd) as (i & Hdev & Hi & _).
    apply activity_react_ok; [by apply stop_ok|done|by exists i].
  - destruct (find _ _) as [f|] eqn:Ef; [|done]. apply Some_inj in H as <-.
    pose proof Ef as Ef'. apply find_Some_elem in Ef' as [Hf Hid]. apply Nat.eqb_eq in Hid. subst id.
    pose proof (answer_ok s f o Hok Hp Hf) as Ha.
    assert (feed_ok (activity_finally f (activity_body f o
      (s <| flights ::= List.filter (fun g => negb (fl_id g =? fl_id f)%nat) |>)))) as Hans.
    { apply Ha. intros items ->. by apply (Hal f). }
    clear Ha.
    assert (∀ s1, s1 = activity_finally f (activity_body f o
      (s <| flights ::= List.filter (fun g => negb (fl_id g =? fl_id f)%nat) |>)) →
      destroyed s1 = destroyed s ∧ device s1 = device s ∧ open s1 = open s ∧
      detailLoadedFor s1 = detailLoadedFor s ∧ activityDeviceID s1 = activityDeviceID s) as Hframe.
    { intros s1 ->. unfold activity_finally, activity_body, current.
      destruct o; repeat case_match; simpl; done. }
    destruct (Hframe _ eq_refl) as (E1 & E2 & E3 & E4 & E5).
    simpl in Hans, E1, E2, E3, E4, E5 |- *.
    set (s1 := activity_finally f _) in *. clearbody s1. rewrite E1.
    destruct (destroyed s) eqn:Hd.
    + split; [done|]. split; [congruence|]. intros _. rewrite E5. apply Hp. by left.
    + destruct (ok_device _ Hp Hd) as (i & Hdev & Hi & _).
      apply activity_react_ok; [done|done|]. exists i. by rewrite E2.
  - destruct (callback_of id (clock s)) as [[]|] eqn:Hcb; [|done]. apply Some_inj in H as <-.
    apply callback_of_Some in Hcb. pose proof (timer_ok s id Hok Hp Hcb) as Ht.
    destruct (ok_armed _ Hok _ Hcb) as (_ & _ & Hne).
    assert (destroyed s = false) as Hd.
    { destruct (destroyed s) eqn:E; [|done]. destruct Hne. apply Hp. by left. }
    destruct (ok_device _ Hp Hd) as (i & Hdev & Hi & _).
    apply activity_react_ok; [exact Ht|..]; unfold loadActivity; repeat case_match; simpl; eauto.
  - destruct (destroyed s) eqn:Hd; [done|]. apply Some_inj in H as <-. split.
    + unfold onDestroy. apply stop_ok. by destruct Hok.
    + by split.
Qed.

Lemma reachable_ok s : activity_reachable s → feed_ok s ∧ props_ok s.
Proof.
  induction 1 as [id o Hid|s e s' _ [IH1 IH2] Ha Hs]; [|by eapply step_ok].
  apply activity_react_ok; [|done|by exists id].
  split; simpl; try done; try (by intros f Hf; apply elem_of_nil in Hf); try (by left);
    try constructor; try apply no_timers_wf; by intros f Hf; apply elem_of_nil in Hf.
Qed.

(** "Loading" is said of a request that runs. *)
Definition loading_ok s : Prop :=
  activityDeviceID s ≠ [] → activityLoading s = true → activityRequestRunning s = true.

Lemma loadActivity_loading s : loading_ok s → loading_ok (loadActivity s).
Proof. unfold loadActivity. destruct (_ || _); [done|]. by intros _ _ _. Qed.

Lemma react_loading s : destroyed s = false → loading_ok s → loading_ok (react s).
Proof.
  intros Hd Hs. unfold react.
  assert (∀ s1, loading_ok s1 → loading_ok (if negb (open s1) && truthy (activityDeviceID s1)
    then stopActivity true s1 else s1)) as Hstop by (intros s1 H1; destruct (_ && _); [by intros []|done]).
  apply Hstop. destruct (device s) as [id|] eqn:Hdev; [|done].
  destruct (open s && truthy id) eqn:Ho; cbn [andb]; [|done]. apply andb_true_iff in Ho as [Ho Hid].
  case_bool_decide; [done|]. unfold startActivity, stopActivity, loadActivity. simpl.
  rewrite Hd, Ho, Hid, Hdev. rewrite bool_decide_true by done. by intros _ _.
Qed.

Lemma answer_loading f o s : loading_ok s → loading_ok (activity_finally f (activity_body f o s)).
Proof.
  intros Hs. assert (loading_ok (activity_body f o s)) as Hb by (unfold activity_body; destruct o; by destruct (_ : bool)).
  revert Hb. generalize (activity_body f o s). intros s1 Hb. unfold activity_finally.
  destruct (requestGeneration f =? activityGeneration s1)%nat; destruct (current f _); done.
Qed.

Lemma activity_step_loading e s s' :
  feed_ok s → props_ok s → loading_ok s → activity_step e s = Some s' → loading_ok s'.
Proof.
  intros Hok Hp Hs H. destruct e as [d o| |id o|id|]; simpl in H.
  - destruct (destroyed s) eqn:Hd; [done|]. apply Some_inj in H as <-. by apply react_loading.
  - destruct (destroyed s) eqn:Hd; [done|]. destruct (negb _); [done|]. apply Some_inj in H as <-.
    apply react_loading; [done|by intros []].
  - destruct (find _ _) as [f|]; [|done]. apply Some_inj in H as <-.
    cbv zeta. match goal with |- context [activity_body f o ?x] =>
      pose proof (answer_loading f o x Hs) as Ha;
      destruct (destroyed (activity_finally f (activity_body f o x))) eqn:Hd end;
      [done|by apply react_loading].
  - destruct (callback_of id (clock s)) as [[]|] eqn:Hcb; [|done]. apply Some_inj in H as <-.
    apply callback_of_Some in Hcb. destruct (ok_armed _ Hok _ Hcb) as (_ & _ & Hne).
    assert (destroyed s = false) as Hd by (destruct (destroyed s) eqn:E; [destruct Hne; apply Hp; by left|done]).
    apply react_loading; [|by apply loadActivity_loading]. unfold loadActivity. by repeat case_match.
  - destruct (destroyed s); [done|]. apply Some_inj in H as <-. by intros [].
Qed.

(** The feed of a dialog that has loaded its device only stops or goes on. *)
Lemma react_settled s :
  (∃ id, device s = Some id ∧ (open s = true → detailLoadedFor s = id)) →
  activityLoading (react s) = activityLoading s.
Proof.
  intros (id & Hdev & Hl). unfold react. rewrite Hdev.
  destruct (open s) eqn:Ho; cbn [andb negb].
  - rewrite bool_decide_true by auto. rewrite andb_false_r, Ho. done.
  - rewrite Ho. by destruct (truthy _).
Qed.

(** What the answer of the current request leaves. *)
Lemma answer_frame f o s :
  requestGeneration f = activityGeneration s →
  let s1 := activity_finally f (activity_body f o s) in
  activityLoading s1 = false ∧ destroyed s1 = destroyed s ∧ open s1 = open s ∧
  detailLoadedFor s1 = detailLoadedFor s ∧ device s1 = device s.
Proof.
  intros E. unfold activity_finally, activity_body, current. destruct o; repeat case_match; simpl in *;
    try done; by (repeat match goal with H : (_ =? _)%nat = false |- _ => apply Nat.eqb_neq in H end).
Qed.

(** While a device is followed, "loading" is said of a request for it that is
    in flight and has not been aborted, and it is no longer said when that
    request has been answered, however it is. *)
Lemma loading_awaits s :
  activity_reachable s → activityDeviceID s ≠ [] → activityLoading s = true →
  ∃ f, f ∈ flights s ∧ aborted f = false ∧ requestedDeviceID f = activityDeviceID s ∧
    ∀ o s', activity_step (Answer (fl_id f) o) s = Some s' → activityLoading s' = false.
Proof.
  intros Hr Hid Hl. destruct (reachable_ok s Hr) as [Hok Hp].
  assert (loading_ok s) as Hload.
  { clear Hid Hl Hok Hp. induction Hr as [id o Hid|s e s' Hr IH Ha Hs]; [apply react_loading; [done|by intros _]|].
    destruct (reachable_ok s Hr). by eapply activity_step_loading. }
  destruct (ok_running _ Hok (Hload Hid Hl)) as (f & Hf & E).
  destruct (ok_current _ Hok f Hf E) as (_ & _ & Hdev & Hab).
  exists f. split_and!; [done..|]. intros o s' Hs. simpl in Hs.
  destruct (find _ _) as [g|] eqn:Eg; [|done]. apply Some_inj in Hs as <-.
  apply find_Some_elem in Eg as [Hg Eid%Nat.eqb_eq].
  assert (g = f) as -> by (by eapply flight_unique).
  destruct (answer_frame f o (s <| flights ::= List.filter (fun g => negb (fl_id g =? fl_id f)%nat) |>))
    as (E1 & E2 & E3 & E4 & E5); [exact E|]. simpl in *.
  set (s1 := activity_finally f _) in *. clearbody s1.
  destruct (destroyed s1) eqn:Hd; [done|]. rewrite react_settled; [done|].
  destruct (ok_device _ Hp) as (id & Hdev' & _ & Hlo); [congruence|].
  exists id. split; [congruence|]. intros Ho. rewrite E4. apply Hlo. congruence.
Qed.

(** ** What the feed promises *)

(** C11: An open dialog lists the activity of the device it shows and of no other,
    whatever answers are still on their way for devices shown before. *)
Theorem activity_of_shown_device s :
  activity_reachable s → destroyed s = false → open s = true →
  ∃ id, device s = Some id ∧ Forall (owns id) (activity s).
Proof.
  intros Hr Hd Ho. destruct (reachable_ok s Hr) as [Hok Hp].
  destruct (ok_device _ Hp Hd) as (id & Hdev & _ & Hl). exists id. split; [done|].
  rewrite <-(Hl Ho). apply Hok.
Qed.

(** C12: While the dialog follows a device its feed neither stops nor doubles: one
    request of the current generation is in flight and no timer is armed, or
    one timer is armed and no such request is in flight.  Every other request
    has been aborted. *)
Theorem activity_live s :
  activity_reachable s → activityDeviceID s ≠ [] →
  (∃ f, (∀ g, g ∈ flights s ∧ aborted g = false ↔ g = f) ∧
     requestedDeviceID f = activityDeviceID s ∧ armed (clock s) = []) ∨
  ((∀ g, g ∈ flights s → aborted g = true) ∧ ∃ i, armed (clock s) = [(i, ())]).
Proof.
  intros Hr Hid. destruct (reachable_ok s Hr) as [Hok Hp].
  destruct (ok_live _ Hok Hid) as [Hrun|[i Hi]].
  - left. destruct (ok_running _ Hok Hrun) as (f & Hf & E). exists f.
    destruct (ok_current _ Hok f Hf E) as (_ & Hc & Hd & Ha). split_and!; [|done|].
    + intros g. split; [|by intros ->]. intros [Hg Hga].
      destruct (decide (requestGeneration g = activityGeneration s)) as [Eg|Eg].
      * destruct (ok_current _ Hok g Hg Eg) as (_ & Hc' & _). apply (flight_unique s); [done..|congruence].
      * rewrite (ok_stale _ Hok g Hg Eg) in Hga. done.
    + destruct (armed (clock s)) as [|x l] eqn:Ea; [done|].
      assert (x ∈ armed (clock s)) as Hx by (rewrite Ea; left).
      destruct (ok_armed _ Hok x Hx) as (_ & H & _). congruence.
  - right. split; [|by exists i]. intros g Hg. apply (ok_stale _ Hok g Hg). intros Eg.
    destruct (ok_current _ Hok g Hg Eg) as (Hrun & _).
    assert ((i, ()) ∈ armed (clock s)) as Hx by (rewrite Hi; left).
    destruct (ok_armed _ Hok _ Hx) as (_ & H & _). congruence.
Qed.

(** A dialog that is closed or gone asks for nothing more: no timer is armed
    and every request still in flight has been aborted. *)
Theorem activity_quiet s :
  activity_reachable s → destroyed s = true ∨ open s = false →
  armed (clock s) = [] ∧ ∀ f, f ∈ flights s → aborted f = true.
Proof.
  intros Hr Hc. destruct (reachable_ok s Hr) as [Hok Hp].
  pose proof (ok_closed _ Hp Hc) as Hid. split.
  - destruct (armed (clock s)) as [|x l] eqn:Ea; [done|].
    assert (x ∈ armed (clock s)) as Hx by (rewrite Ea; left).
    destruct (ok_armed _ Hok x Hx) as (_ & _ & H). congruence.
  - intros f Hf. apply (ok_stale _ Hok f Hf). intros E.
    destruct (ok_current _ Hok f Hf E) as (_ & _ & Hd & _).
    destruct (ok_requested _ Hok f Hf). congruence.
Qed.
End Feed.

Arguments activity_event Item : clear implicits.

(** ** Examples *)

Definition sample_feed : Activity jstr := react (initialActivity (Some (js "d1")) true).

Lemma sample_feed_reachable : activity_reachable (fun id item => item = id) sample_feed.
Proof. by apply activity_mounted. Qed.

Lemma activity_of_shown_device_witness :
  ∃ s, activity_step (Answer 0 (inr (Some [js "d1"]))) sample_feed = Some s ∧
    ∃ id, device s = Some id ∧ Forall (fun item => item = id) (activity s).
Proof.
  destruct (activity_step (Answer 0 (inr (Some [js "d1"]))) sample_feed) as [s|] eqn:E;
    [|vm_compute in E; discriminate E].
  exists s. split; [done|]. apply (activity_of_shown_device (fun id item => item = id)).
  - eapply (activity_next _ _ (Answer 0 (inr (Some [js "d1"])))); [apply sample_feed_reachable| |exact E].
    intros f Hf. vm_compute in Hf. injection Hf as <-. by constructor.
  - vm_compute in E. by injection E as <-.
  - vm_compute in E. by injection E as <-.
Defined.

Lemma activity_live_witness :
  (∃ f, (∀ g, g ∈ flights sample_feed ∧ aborted g = false ↔ g = f) ∧
     requestedDeviceID f = activityDeviceID sample_feed ∧ armed (clock sample_feed) = []) ∨
  ((∀ g, g ∈ flights sample_feed → aborted g = true) ∧ ∃ i, armed (clock sample_feed) = [(i, ())]).
Proof. apply (activity_live _ _ sample_feed_reachable). vm_compute. discriminate. Defined.

Lemma activity_quiet_witness :
  ∃ s, activity_step Destroy sample_feed = Some s ∧
    armed (clock s) = [] ∧ ∀ f, f ∈ flights s → aborted f = true.
Proof.
  destruct (activity_step Destroy sample_feed) as [s|] eqn:E; [|vm_compute in E; discriminate E].
  exists s. split; [done|]. apply (activity_quiet (fun id item => item = id)).
  - eapply (activity_next _ _ Destroy); [apply sample_feed_reachable|exact I|exact E].
  - left. vm_compute in E. by injection E as <-.
Defined.
