(* ===== verification/DeviceDetail.v ===== *)
(** * The device dialog

    [routes/devices/devicedetail.svelte] without its activity feed
    ([DeviceActivity.v]): labels, policy assignment and Tailscale links.
    [dispatched] collects the events the dialog sends to the device list. *)

From S2P Require Import Prelude JsString JsAsync Http Credentials Uri.
Open Scope js_scope.

(** ** State *)

Record TailscaleSuggestion := MkSuggestion {
  sug_device_id : jstr;
  sug_name : jstr;
  reason : jstr;
  sug_confidence : jstr
}.

Record TailscalePeer := MkPeer {
  node_id : jstr;
  peer_name : jstr;
  peer_dns_name : jstr;
  addresses : option (list jstr);
  peer_online : bool;
  peer_last_seen : jstr;
  mapped_device_id : jstr;
  suggestion : option TailscaleSuggestion;
  wol_macs : option (list jstr)
}.

(** The members of the policy view that are only shown. *)
Record Coverage := MkCoverage {
  confidence : option jstr;
  summary : option jstr;
  caveats : option (list jstr)
}.

Record PolicyAddress := MkAddress {
  addr_ip : jstr;
  shared_address : bool;
  stale_observation : bool;
  dns_resolves_device : bool
}.

Record Identity := MkIdentity { identity_source : jstr; explanation : option jstr }.

Record PolicyInfo := MkPolicyInfo {
  pol_name : option jstr;
  pol_default : bool;
  pol_categories : option (list jstr);
  pol_blocked : option (list jstr);
  pol_allowed : option (list jstr);
  pol_rule_count : Z;
  pol_safe_search : bool
}.

(** What the dialog reads from the answers of the API. *)
Record DetailBody := MkDetailBody {
  b_assignment_id : option jstr;      (* [assignment?.id] *)
  b_policy : option PolicyInfo;
  b_groups : option (list (jstr * jstr));
  b_coverage : option Coverage;
  b_identity : option Identity;
  b_addresses : option (list PolicyAddress);
  b_metadata_note : option jstr;
  b_state : jstr;
  b_backend_state : option jstr;
  b_message : option jstr;
  b_peers : option (list TailscalePeer)
}.

Inductive DetailPayload :=
| SendLabels (name owner category : jstr)
| SendGroup (group_id : jstr)
| SendNode (node : jstr).

Inductive DetailEvent := Saved | TailscaleChanged | Closed.

Record Detail := MkDetail {
  base_path : jstr;
  jwt : option jstr;
  device_id : jstr;
  manualName : jstr;
  owner : jstr;
  category : jstr;
  saving : bool;
  error : jstr;
  policyView : option DetailBody;
  policyLoading : bool;
  policyError : jstr;
  groups : list (jstr * jstr);
  selectedGroup : jstr;
  assignmentSaving : bool;
  assignmentError : jstr;
  assignmentSaved : bool;
  tailscalePeers : list TailscalePeer;
  tailscaleState : option DetailBody;
  linkedTailscaleNodes : list TailscalePeer;
  selectedPeerNodeID : jstr;
  tailscaleLoading : bool;
  tailscaleLoaded : bool;
  tailscaleSaving : bool;
  tailscaleError : jstr;
  tailscaleNotice : jstr;
  pendingUnlink : option TailscalePeer;
  selectedTab : nat;
  dispatched : list DetailEvent
}.
#[export] Instance Detail_eta : Settable Detail := fun s =>
  MkDetail (base_path s) (jwt s) (device_id s) (manualName s) (owner s) (category s) (saving s)
    (error s) (policyView s) (policyLoading s) (policyError s) (groups s) (selectedGroup s)
    (assignmentSaving s) (assignmentError s) (assignmentSaved s) (tailscalePeers s)
    (tailscaleState s) (linkedTailscaleNodes s) (selectedPeerNodeID s) (tailscaleLoading s)
    (tailscaleLoaded s) (tailscaleSaving s) (tailscaleError s) (tailscaleNotice s) (pendingUnlink s)
    (selectedTab s) (dispatched s).

#[local] Abbreviation handler := (prog Detail (io_res (P := DetailPayload) DetailBody)).

Definition API_BASE (s : Detail) : jstr := base_path s ++ js "/api/devices".
Definition POLICY_BASE (s : Detail) : jstr := base_path s ++ js "/api/policy".
Definition TAILSCALE_BASE (s : Detail) : jstr := base_path s ++ js "/api/tailscale".

Definition getToken (s : Detail) : jstr := opt_or (jwt s) [].

Definition authHeaders (json : bool) (s : Detail) : gmap jstr jstr :=
  let headers := {[ js "Authorization" := js "Bearer " ++ getToken s ]} in
  if json then <[js "Content-Type" := js "application/json"]> headers else headers.

Definition dispatch (e : DetailEvent) : handler unit :=
  modify (fun s => s <| dispatched ::= fun l => l ++ [e] |>).

(** ** Policy *)

Definition policy_request (s : Detail) : request DetailPayload :=
  Request (API_BASE s ++ js "/" ++ device_id s ++ js "/policy") (js "GET") (authHeaders false s) None ∅.

Definition loadPolicyView : handler unit :=
  policyLoading <~ true ;; policyError <~ [] ;;
  finally
    (try_catch
       (s ← get;
        r ← fetch_checked (policy_request s);
        view ← read_json r;
        policyView <~ view ;;
        selectedGroup <~ opt_or (view ≫= b_assignment_id) [])
       (fun err => policyError <~ message_or err (js "Policy could not be loaded")))
    (policyLoading <~ false).

Definition loadGroups : handler unit :=
  try_catch
    (s ← get;
     data ← fetch_body (Request (POLICY_BASE s ++ js "/groups") (js "GET") (authHeaders false s) None ∅);
     groups <~ default [] (b_groups data))
    (fun err => modify (fun s => s <| policyError :=
       str_or (policyError s) (message_or err (js "Policies could not be loaded")) |>)).

Definition assignment_request (s : Detail) : request DetailPayload :=
  Request (API_BASE s ++ js "/" ++ device_id s ++ js "/assignment") (js "PUT") (authHeaders true s)
    (Some (SendGroup (selectedGroup s))) ∅.

Definition saveAssignment : handler unit :=
  s ← get;
  if assignmentSaving s then Ret () else
  assignmentSaving <~ true ;; assignmentError <~ [] ;; assignmentSaved <~ false ;;
  finally
    (try_catch
       (s ← get;
        r ← fetch_checked (assignment_request s);
        loadPolicyView ;;
        assignmentSaved <~ true)
       (fun err => assignmentError <~ message_or err (js "Policy assignment could not be saved")))
    (assignmentSaving <~ false).

(** ** Labels *)

Definition labels_request (s : Detail) : request DetailPayload :=
  Request (API_BASE s ++ js "/" ++ device_id s ++ js "/name") (js "POST") (authHeaders true s)
    (Some (SendLabels (manualName s) (owner s) (category s))) ∅.

Definition save : handler unit :=
  s ← get;
  if saving s then Ret () else
  saving <~ true ;; error <~ [] ;;
  finally
    (try_catch
       (s ← get;
        r ← fetch_checked (labels_request s);
        dispatch Saved)
       (fun err => error <~ message_or err (js "Labels could not be saved")))
    (saving <~ false).

(** ** Tailscale *)

Definition peers_request (s : Detail) : request DetailPayload :=
  Request (TAILSCALE_BASE s ++ js "/peers") (js "GET") (authHeaders false s) None ∅.

Definition connected (data : DetailBody) : bool := bool_decide (b_state data = js "connected").

Definition linked_to (device : jstr) (peers : list TailscalePeer) : list TailscalePeer :=
  List.filter (fun peer => bool_decide (mapped_device_id peer = device)) peers.

Definition loadTailscalePeers : handler unit :=
  tailscaleLoading <~ true ;; tailscaleError <~ [] ;;
  finally
    (try_catch
       (s ← get;
        data ← fetch_body (peers_request s);
        tailscaleState <~ Some data ;;
        tailscalePeers <~ (if connected data then default [] (b_peers data) else []) ;;
        when (connected data)
          (modify (fun s => s <| linkedTailscaleNodes := linked_to (device_id s) (tailscalePeers s) |>)) ;;
        tailscaleLoaded <~ true)
       (fun err =>
          tailscaleState <~ None ;; tailscalePeers <~ [] ;;
          tailscaleError <~ message_or err (js "Tailscale peers failed")))
    (tailscaleLoading <~ false).

Definition link_request (s : Detail) : request DetailPayload :=
  Request (API_BASE s ++ js "/" ++ device_id s ++ js "/tailscale") (js "PUT") (authHeaders true s)
    (Some (SendNode (selectedPeerNodeID s))) ∅.

Definition linkTailscalePeer : handler unit :=
  s ← get;
  if negb (truthy (selectedPeerNodeID s)) || tailscaleSaving s then Ret () else
  tailscaleSaving <~ true ;; tailscaleError <~ [] ;; tailscaleNotice <~ [] ;;
  finally
    (try_catch
       (s ← get;
        r ← fetch_checked (link_request s);
        selectedPeerNodeID <~ [] ;;
        tailscaleNotice <~ js "Tailscale peer linked." ;;
        loadTailscalePeers ;;
        dispatch TailscaleChanged)
       (fun err => tailscaleError <~ message_or err (js "Peer could not be linked")))
    (tailscaleSaving <~ false).

Definition requestUnlink (peer : TailscalePeer) (s : Detail) : Detail := s <| pendingUnlink := Some peer |>.

Definition unlink_request (s : Detail) (node : jstr) : request DetailPayload :=
  Request (API_BASE s ++ js "/" ++ device_id s ++ js "/tailscale/" ++ node) (js "DELETE")
    (authHeaders false s) None ∅.

Definition without_node (peer : TailscalePeer) (l : list TailscalePeer) : list TailscalePeer :=
  List.filter (fun node => negb (bool_decide (node_id node = node_id peer))) l.

Definition confirmUnlink : handler unit :=
  s ← get;
  match pendingUnlink s with
  | None => Ret ()
  | Some peer =>
      if tailscaleSaving s then Ret () else
      tailscaleSaving <~ true ;; tailscaleError <~ [] ;; tailscaleNotice <~ [] ;;
      finally
        (try_catch
           (s ← get;
            node ← of_result (encodeURIComponent (node_id peer));
            r ← fetch_checked (unlink_request s node);
            modify (fun s => s <| linkedTailscaleNodes ::= without_node peer |>) ;;
            pendingUnlink <~ None ;;
            tailscaleNotice <~ js "Tailscale peer unlinked." ;;
            loadTailscalePeers ;;
            dispatch TailscaleChanged)
           (fun err => tailscaleError <~ message_or err (js "Peer could not be unlinked")))
        (tailscaleSaving <~ false)
  end.

Definition availableTailscalePeers (s : Detail) : list TailscalePeer :=
  List.filter (fun peer => negb (truthy (mapped_device_id peer))) (tailscalePeers s).

Definition close : handler unit := dispatch Closed.

(** ** Labels of states *)

Inductive kind := Success | Warning | Failure | Info.

Definition tailscaleStateKind (state : jstr) : kind :=
  if bool_decide (state = js "connected") then Success
  else if bool_decide (state = js "degraded") || bool_decide (state = js "connecting") then Warning
  else if bool_decide (state = js "unavailable") || bool_decide (state = js "stopped") then Failure
  else Info.

Definition tailscaleStateTitle (state : jstr) : jstr :=
  if bool_decide (state = js "connected") then js "Tailscale connected"
  else if bool_decide (state = js "degraded") then js "Tailscale data degraded"
  else if bool_decide (state = js "unavailable") then js "Tailscale unavailable"
  else if bool_decide (state = js "connecting") then js "Tailscale connecting"
  else if bool_decide (state = js "disabled") then js "Tailscale disabled"
  else js "Tailscale status".

Definition peerName (peer : TailscalePeer) : jstr :=
  str_or (peer_name peer) (str_or (peer_dns_name peer) (node_id peer)).

Definition confidenceTagType (confidence : jstr) : jstr :=
  if bool_decide (confidence = js "high") then js "green"
  else if bool_decide (confidence = js "medium") then js "teal"
  else if bool_decide (confidence = js "low") then js "magenta"
  else js "red".

Definition confidenceLabel (confidence : jstr) : jstr :=
  if bool_decide (confidence = js "high") then js "High confidence"
  else if bool_decide (confidence = js "medium") then js "Medium confidence"
  else if bool_decide (confidence = js "low") then js "Low confidence"
  else js "No protection signal".

Definition counted (o : option (list jstr)) (one many : jstr) : list jstr :=
  match o with
  | None | Some [] => []
  | Some l => [of_nat (length l) ++ (if (length l =? 1)%nat then one else many)]
  end.

Definition policySummary (policy : option PolicyInfo) : jstr :=
  match policy with
  | None => []
  | Some p =>
      let parts :=
        counted (pol_categories p) (js " blocked category") (js " blocked categories")
        ++ counted (pol_blocked p) (js " blocked domain") (js " blocked domains")
        ++ counted (pol_allowed p) (js " allowed domain") (js " allowed domains")
        ++ (if (pol_rule_count p =? 0)%Z then []
            else [of_Z (pol_rule_count p) ++ (if (pol_rule_count p =? 1)%Z then js " rule" else js " rules")])
        ++ (if pol_safe_search p then [js "safe search"] else []) in
      if is_nil parts then js "blocks nothing of its own" else joinStr (js ", ") parts
  end.

(** ** What the handlers do *)

(** Computes the fields of states given by their assignments, and the requests
    made from them. *)
Ltac detail_norm st :=
  eval cbv beta iota zeta delta [update_field base_path jwt device_id manualName owner category saving
    error policyView policyLoading policyError groups selectedGroup assignmentSaving assignmentError
    assignmentSaved tailscalePeers tailscaleState linkedTailscaleNodes selectedPeerNodeID
    tailscaleLoading tailscaleLoaded tailscaleSaving tailscaleError tailscaleNotice pendingUnlink
    selectedTab dispatched API_BASE POLICY_BASE TAILSCALE_BASE getToken authHeaders policy_request
    assignment_request labels_request peers_request link_request unlink_request] in st.
Ltac detail_simpl := match goal with |- ?G => let G' := detail_norm G in change G' end.
Ltac detail_run := run_with detail_norm; detail_simpl.
Ltac detail_answer :=
  match goal with
  | |- context [checked (?f ?l ?q)] => destruct (checked (f l q)) as [?e|?r] eqn:?
  | |- context [body_of (?f ?l ?q)] => destruct (body_of (f l q)) as [?e|?data] eqn:?
  end; detail_run.

(** The dialog once the peers have been asked for. *)
Definition after_peers (o : result DetailBody) (s : Detail) : Detail :=
  match o with
  | inl e =>
      s <| tailscaleState := None |> <| tailscalePeers := [] |> <| tailscaleLoading := false |>
        <| tailscaleError := message_or e (js "Tailscale peers failed") |>
  | inr data =>
      let peers := if connected data then default [] (b_peers data) else [] in
      s <| tailscaleState := Some data |> <| tailscalePeers := peers |> <| tailscaleError := [] |>
        <| tailscaleLoaded := true |> <| tailscaleLoading := false |>
        <| linkedTailscaleNodes ::= fun l => if connected data then linked_to (device_id s) peers else l |>
  end.

Section Handlers.
Context (reply : list (request DetailPayload) → ∀ q : io_req DetailPayload, io_res DetailBody q).

Lemma loadTailscalePeers_run s log :
  run (history reply) loadTailscalePeers s log =
    (inr (), after_peers (body_of (reply log (Fetch (peers_request s)))) s, log ++ [peers_request s]).
Proof.
  destruct s. unfold loadTailscalePeers, after_peers. detail_run. detail_answer; [done|].
  destruct (connected data); detail_run; done.
Qed.

Lemma loadPolicyView_run s log :
  ∃ s', run (history reply) loadPolicyView s log = (inr (), s', log ++ [policy_request s]) ∧
    (∃ view selected err, s' = s <| policyView := view |> <| selectedGroup := selected |>
       <| policyError := err |> <| policyLoading := false |>) ∧
    match checked_json (reply log (Fetch (policy_request s))) with
    | inl e => policyError s' = message_or e (js "Policy could not be loaded") ∧
               selectedGroup s' = selectedGroup s
    | inr view => policyView s' = view ∧ selectedGroup s' = opt_or (view ≫= b_assignment_id) []
    end.
Proof.
  destruct s. unfold loadPolicyView, checked_json. detail_run. detail_answer.
  - eexists. split; [reflexivity|]. split; [by do 3 eexists|done].
  - destruct (json r) as [e|view]; detail_run.
    + eexists. split; [reflexivity|]. split; [by do 3 eexists|done].
    + eexists. split; [reflexivity|]. split; [by do 3 eexists|done].
Qed.

(** Linking a peer asks once, for the peer selected and only when no other
    link is being changed.  When the server has linked it the selection is
    emptied, the peers are read again and the device list is told, even if
    that read fails; when it refuses, the selection and the links stay. *)
Theorem linkTailscalePeer_spec s log :
  let '(r, s', log') := run (history reply) linkTailscalePeer s log in
  r = inr () ∧
  if negb (truthy (selectedPeerNodeID s)) || tailscaleSaving s then s' = s ∧ log' = log
  else match checked (reply log (Fetch (link_request s))) with
       | inl e =>
           log' = log ++ [link_request s] ∧
           s' = s <| tailscaleSaving := false |> <| tailscaleNotice := [] |>
                  <| tailscaleError := message_or e (js "Peer could not be linked") |>
       | inr _ =>
           let log1 := log ++ [link_request s] in
           log' = log1 ++ [peers_request s] ∧
           s' = after_peers (body_of (reply log1 (Fetch (peers_request s))))
                  (s <| tailscaleSaving := false |> <| selectedPeerNodeID := [] |>
                     <| tailscaleNotice := js "Tailscale peer linked." |>
                     <| dispatched ::= fun l => l ++ [TailscaleChanged] |>)
       end.
Proof.
  destruct s. unfold linkTailscalePeer. detail_run.
  destruct (negb _ || _); [done|]. detail_run. detail_answer; [done|].
  rewrite loadTailscalePeers_run. detail_simpl.
  match goal with |- context [body_of ?x] => destruct (body_of x) as [e|data] end; unfold after_peers;
    detail_run; [done|]. destruct (connected data); done.
Qed.

(** C34: Unlinking deletes the link of the peer that was confirmed; the peer is
    gone from the dialog exactly when the server has unlinked it. *)
Theorem confirmUnlink_spec s log peer node :
  pendingUnlink s = Some peer → tailscaleSaving s = false →
  encodeURIComponent (node_id peer) = inr node →
  let '(r, s', log') := run (history reply) confirmUnlink s log in
  r = inr () ∧ tailscaleSaving s' = false ∧
  match checked (reply log (Fetch (unlink_request s node))) with
  | inl e =>
      log' = log ++ [unlink_request s node] ∧ linkedTailscaleNodes s' = linkedTailscaleNodes s ∧
      pendingUnlink s' = Some peer ∧ dispatched s' = dispatched s ∧
      tailscaleError s' = message_or e (js "Peer could not be unlinked")
  | inr _ =>
      let log1 := log ++ [unlink_request s node] in
      log' = log1 ++ [peers_request s] ∧ pendingUnlink s' = None ∧
      dispatched s' = dispatched s ++ [TailscaleChanged] ∧
      match body_of (reply log1 (Fetch (peers_request s))) with
      | inl _ => linkedTailscaleNodes s' = without_node peer (linkedTailscaleNodes s)
      | inr data =>
          linkedTailscaleNodes s' =
            if connected data then linked_to (device_id s) (default [] (b_peers data))
            else without_node peer (linkedTailscaleNodes s)
      end
  end.
Proof.
  intros Hp Hs Hn. destruct s. cbn [pendingUnlink tailscaleSaving] in *. subst. unfold confirmUnlink.
  detail_run. detail_run. rewrite Hn. unfold of_result. detail_run.
  match goal with |- context [run _ (Ret ?x) ?st ?w] =>
    change (run (history reply) (Ret x) st w) with (@inr jserr _ x, st, w) end.
  detail_run. detail_answer; [done|].
  rewrite loadTailscalePeers_run. detail_simpl.
  match goal with |- context [body_of ?x] => destruct (body_of x) as [e|data] end; unfold after_peers;
    detail_run; [done|]. destruct (connected data); done.
Qed.

(** Saving the assignment sends the policy selected, once, unless a save is
    under way; "saved" is shown exactly when the server has accepted it, with
    the policy then in force read back, or the reason it could not be. *)
Theorem saveAssignment_spec s log :
  let '(r, s', log') := run (history reply) saveAssignment s log in
  r = inr () ∧
  if assignmentSaving s then s' = s ∧ log' = log
  else assignmentSaving s' = false ∧
    match checked (reply log (Fetch (assignment_request s))) with
    | inl e =>
        log' = log ++ [assignment_request s] ∧ assignmentSaved s' = false ∧
        selectedGroup s' = selectedGroup s ∧
        assignmentError s' = message_or e (js "Policy assignment could not be saved")
    | inr _ =>
        let log1 := log ++ [assignment_request s] in
        log' = log1 ++ [policy_request s] ∧ assignmentSaved s' = true ∧ assignmentError s' = [] ∧
        match checked_json (reply log1 (Fetch (policy_request s))) with
        | inl e => policyError s' = message_or e (js "Policy could not be loaded") ∧
                   selectedGroup s' = selectedGroup s
        | inr view => policyView s' = view ∧ selectedGroup s' = opt_or (view ≫= b_assignment_id) []
        end
    end.
Proof.
  destruct s. unfold saveAssignment. detail_run.
  destruct assignmentSaving0; [done|]. detail_run. detail_answer; [done|].
  match goal with |- context [run _ loadPolicyView ?st ?w] =>
    destruct (loadPolicyView_run st w) as (s' & -> & (view & selected & err & ->) & H) end.
  detail_run. do 5 (split; [done|]). exact H.
Qed.
End Handlers.

(** ** Example *)

(** A server that accepts everything and knows no peer. *)
Definition accepting (log : list (request DetailPayload)) (q : io_req DetailPayload) : io_res DetailBody q :=
  let r := Response 200 (inr []) None (inr (Some (MkDetailBody None None None None None None None (js "connected") None None None))) in
  serve (fun _ => inr r) q.

Definition sample_peer : TailscalePeer := MkPeer (js "node/1") (js "laptop") [] None true [] (js "d1") None None.

Definition sample_detail : Detail :=
  MkDetail [] (Some (js "token")) (js "d1") [] [] [] false [] None false [] [] [] false [] false
    [sample_peer] None [sample_peer] [] false true false [] [] (Some sample_peer) 0 [].

Lemma confirmUnlink_spec_witness :
  let '(r, s', _) := run (history accepting) confirmUnlink sample_detail [] in
  r = inr () ∧ tailscaleSaving s' = false.
Proof.
  assert (encodeURIComponent (node_id sample_peer) = inr (js "node%2F1")) as Hn by (vm_compute; reflexivity).
  pose proof (confirmUnlink_spec accepting sample_detail [] sample_peer (js "node%2F1") eq_refl eq_refl Hn) as H.
  destruct (run (history accepting) confirmUnlink sample_detail []) as [[r s'] log'].
  split; apply H.
Defined.
