(* ===== verification/App.v ===== *)
(** * The application shell and signing in

    [App.svelte], [components/globalheader.svelte],
    [components/headerrightnav.svelte] and [routes/login/login.svelte], which
    share the session, the browser's location and the state that decides
    whether the administration pages are shown.  [rawNavigate] is
    svelte-routing's [navigate]: the location after it, from the path and the
    [replace] option it is given and the location before. *)

From S2P Require Import Prelude JsString JsAsync Http Api Navigation Notifications.
Open Scope js_scope.

Inductive AppState := Checking | SetupNeeded | LoginNeeded | Authenticated | Failed.

(** [Validated] in the answer to a sign in, which is compared with [true] and
    with ["true"]. *)
Inductive json_flag := Bool (b : bool) | Str (s : jstr) | Absent.

Record ShellBody := MkShellBody {
  b_complete : bool;
  b_Validated : json_flag;
  b_Jwtoken : option jstr;
  b_Username : option jstr;
  b_version : option jstr
}.

Inductive ShellPayload := SendLogin (username pass : jstr).

Record Shell := MkShell {
  injected : option jstr;
  location : jstr;
  sess : Session;
  shown_notifications : list Notification;
  (* App.svelte *)
  state : AppState;
  isSideNavOpen : bool;
  userProfilePanelOpen : bool;
  pathname : jstr;
  windowWidth : Z;
  menu_toggle_focus : nat;
  (* headerrightnav.svelte and globalheader.svelte *)
  modalOpen : bool;
  password_updates : nat;
  version : jstr;
  (* login.svelte *)
  username : jstr;
  password : jstr;
  invalidMessage : jstr;
  invalid : bool;
  submitting : bool
}.
#[export] Instance Shell_eta : Settable Shell := fun s =>
  MkShell (injected s) (location s) (sess s) (shown_notifications s) (state s) (isSideNavOpen s)
    (userProfilePanelOpen s) (pathname s) (windowWidth s) (menu_toggle_focus s) (modalOpen s)
    (password_updates s) (version s) (username s) (password s) (invalidMessage s) (invalid s)
    (submitting s).

#[export] Instance Shell_session : HasSession Shell :=
  {| session := sess; on_session f s := s <| sess ::= f |>; session_on_session f s := eq_refl;
     on_session_twice f g s := eq_refl; on_session_const f s := eq_refl |}.
#[export] Instance Shell_notifications : HasNotifications Shell :=
  {| shown := shown_notifications; on_shown f s := s <| shown_notifications ::= f |>;
     shown_on_shown f s := eq_refl |}.

#[local] Abbreviation handler := (prog Shell (io_res (P := ShellPayload) ShellBody)).

(** The route shown for the browser's location. *)
Definition route (s : Shell) : jstr := routePath (injected s) (location s).

(** ** App.svelte *)

Definition navigationBreakpoint : Z := 1056.

Definition isCompactNavigation (s : Shell) : bool := (windowWidth s <? navigationBreakpoint)%Z.
Definition sideNavVisible (s : Shell) : bool := negb (isCompactNavigation s) || isSideNavOpen s.

Definition syncPathname (s : Shell) : Shell := s <| pathname := route s |> <| isSideNavOpen := false |>.

(** The focus is moved in the next animation frame. *)
Definition closeSideNavigation (s : Shell) : Shell :=
  let s := s <| isSideNavOpen := false |> in
  if isCompactNavigation s then s <| menu_toggle_focus ::= Datatypes.S |> else s.

(** The pages of the [Router], and [None] for [NotFound]. *)
Definition pages : list (jstr * jstr) :=
  (fun '(path, component) => (js path, js component)) <$>
  [("/dns", "Dns"); ("/logs", "Logs"); ("/settings", "Settings");
   ("/blockedkeywords", "Filter blockedkeywords"); ("/blockedfiletypes", "Filter blockedfiletypes");
   ("/excludeurls", "Filter excludeurls"); ("/excludehosts", "Filter excludehosts");
   ("/services", "Services"); ("/rules", "Rules"); ("/devices", "Devices"); ("/stats", "Stats");
   ("/ai", "AI"); ("/users", "Users"); ("/", "Home")]%string.

(** A [Route] shows for a path that is its own but for slashes at either end. *)
Definition matches (path own : jstr) : bool := bool_decide (strip_slashes path = strip_slashes own).

Definition page_of (path : jstr) : option jstr :=
  snd <$> find (fun page => matches path page.1) pages.

Inductive view := CheckingView | ErrorView | SetupView | LoginView | Blank | Frame (page : option jstr).

Definition view_of (s : Shell) : view :=
  match state s with
  | Checking => CheckingView
  | Failed => ErrorView
  | SetupNeeded => if matches (route s) (js "/setup") then SetupView else Blank
  | LoginNeeded => if matches (route s) (js "/login") then LoginView else Blank
  | Authenticated => Frame (page_of (route s))
  end.

Section Router.
Context (rawNavigate : jstr → bool → jstr → jstr).

Definition goto (to : jstr) (replace : bool) (s : Shell) : Shell :=
  s <| location ::= rawNavigate (gsNavigate (injected s) to) replace |>.

Definition status_request (s : Shell) : request ShellPayload :=
  Request (getBasePath (injected s) ++ js "/api/setup/status") (js "GET") ∅ None ∅.

Definition checkSession : handler unit :=
  state <~ Checking ;;
  try_catch
    (s ← get;
     response ← fetch (status_request s);
     (if negb (ok response) then Throw (Error (js "setup status failed")) else
      body ← read_json response;
      status ← deref body;
      if negb (b_complete status) then
        modify (on_session logout) ;;
        state <~ SetupNeeded ;;
        s ← get;
        when (bool_decide (route s ≠ js "/setup")) (modify (goto (js "/setup") true))
      else
        valid ← verifyToken b_Username;
        if (valid : bool) then
          modify (on_session refresh) ;;
          state <~ Authenticated ;;
          s ← get;
          when (bool_decide (route s = js "/login") || bool_decide (route s = js "/setup"))
            (modify (goto slash true))
        else
          state <~ LoginNeeded ;;
          s ← get;
          when (bool_decide (route s ≠ js "/login")) (modify (goto (js "/login") true))))
    (fun _ => state <~ Failed).

(** The [then] on the translations, which checks the session once they are
    loaded. *)
Definition start (localization : result unit) : handler unit :=
  try_catch (of_result localization ;; checkSession) (fun _ => state <~ Failed).

(** ** The header *)

(** [logout] of headerrightnav.svelte; [loggedout] reaches App.svelte. *)
Definition signOut (s : Shell) : Shell :=
  (goto (js "/login") true
    ((on_session logout s) <| userProfilePanelOpen := false |> <| modalOpen := false |>))
  <| state := LoginNeeded |>.

Definition savePassword (s : Shell) : Shell :=
  s <| modalOpen := false |> <| password_updates ::= Datatypes.S |>.

Definition loadVersion : handler unit :=
  try_catch
    (data ← doCall (js "/about") (js "get") None ∅;
     version <~ opt_or (data ≫= b_version) [])
    (fun _ => version <~ []).

(** A link of the menu. *)
Definition followLink (href : jstr) (s : Shell) : Shell :=
  closeSideNavigation (goto href false s).

(** ** login.svelte *)

Section Login.
Context (translator : jstr → jstr).

Definition validated (data : option ShellBody) : bool :=
  match data with
  | Some b =>
      match b_Validated b with
      | Bool v => v
      | Str v => bool_decide (v = js "true")
      | Absent => false
      end
  | None => false
  end.

(** [localStorage.setItem("jwt", data.Jwtoken)] writes the string
    ["undefined"] for a missing token. *)
Definition store_token (token : option jstr) (a : Session) : Session :=
  a <| localStorage ::= fun l => <[js "jwt" := default (js "undefined") token]> (delete (js "jwt") l) |>.

Definition openLogin (s : Shell) : Shell :=
  s <| sess ::= fun a => a <| localStorage ::= fun l =>
         delete (js "rememberMe") (delete (js "password") l) |> |>.

Definition handleLogin : handler unit :=
  invalid <~ false ;;
  invalidMessage <~ [] ;;
  submitting <~ true ;;
  finally
    (try_catch
       (s ← get;
        data ← doCall (js "/auth/token") (js "post") (Some (SendLogin (username s) (password s))) ∅;
        if validated data then
          body ← deref data;
          modify (on_session (store_token (b_Jwtoken body))) ;;
          password <~ [] ;;
          modify (on_session (loginSuccesful (b_Jwtoken body) (opt_or (b_Username body) []))) ;;
          state <~ Authenticated ;;
          modify (goto slash true)
        else
          invalidMessage <~ translator (js "Invalid username or password") ;;
          invalid <~ true)
       (fun _ => notify (createNotificationError translator
          (subtitle_only (translator (js "Unable to contact GateSentry. Try again."))))))
    (submitting <~ false).

Definition cancel (s : Shell) : Shell :=
  s <| username := [] |> <| password := [] |> <| invalid := false |> <| invalidMessage := [] |>.

Definition signInDisabled (s : Shell) : bool :=
  submitting s || negb (truthy (username s)) || negb (truthy (password s)).
End Login.
End Router.

(** ** What the handlers do *)

Ltac shell_norm st :=
  eval cbv beta iota zeta delta [update_field injected location sess shown_notifications state
    isSideNavOpen userProfilePanelOpen pathname windowWidth menu_toggle_focus modalOpen
    password_updates version username password invalidMessage invalid submitting
    session on_session Shell_session shown on_shown Shell_notifications after_headers
    status_request route] in st.
Ltac shell_simpl := match goal with |- ?G => let G' := shell_norm G in change G' end.
Ltac shell_run := run_with shell_norm; shell_simpl.

Section Handlers.
Context (rawNavigate : jstr → bool → jstr → jstr).
(** svelte-routing goes where it is told. *)
Context (router : ∀ to replace from, rawNavigate to replace from = to).
Context (reply : list (request ShellPayload) → ∀ q : io_req ShellPayload, io_res ShellBody q).

(** The setup status in an answer. *)
Definition setup_complete (o : result (response ShellBody)) : option bool :=
  match o with
  | inr r => if ok r then match json r with inr (Some b) => Some (b_complete b) | _ => None end
             else None
  | inl _ => None
  end.

Definition verify_request (s : Shell) : request ShellPayload :=
  raw_request s (js "/auth/verify") (js "get") None.

Lemma route_goto to b s :
  startsWith slash to = true → route (goto rawNavigate to b s) = to.
Proof. intros H. unfold route, goto. shell_simpl. rewrite router. by apply routePath_gsNavigate. Qed.

(** [if (routePath() !== to) gsNavigate(to, { replace: true })]. *)
Lemma run_go_unless to s log :
  startsWith slash to = true →
  ∃ s', run (history reply)
          (t ← get; when (bool_decide (route t ≠ to)) (modify (goto rawNavigate to true))) s log
        = (inr (), s', log) ∧
    route s' = to ∧ state s' = state s ∧ sess s' = sess s.
Proof.
  intros H. rewrite run_bind, run_get. case_bool_decide as E; simpl.
  - eexists. split; [reflexivity|]. by rewrite route_goto.
  - eexists. split; [reflexivity|]. split; [|done]. by destruct (decide (route s = to)).
Qed.

Lemma run_go_home s log :
  ∃ s', run (history reply)
          (t ← get; when (bool_decide (route t = js "/login") || bool_decide (route t = js "/setup"))
                      (modify (goto rawNavigate slash true))) s log
        = (inr (), s', log) ∧
    route s' = (if bool_decide (route s ∈ [js "/login"; js "/setup"]) then slash else route s) ∧
    state s' = state s ∧ sess s' = sess s.
Proof.
  rewrite run_bind, run_get.
  assert (bool_decide (route s ∈ [js "/login"; js "/setup"])
          = bool_decide (route s = js "/login") || bool_decide (route s = js "/setup")) as ->.
  { apply eq_true_iff_eq. rewrite orb_true_iff, !bool_decide_eq_true, !elem_of_cons, elem_of_nil. tauto. }
  destruct (_ || _) eqn:E; simpl; (eexists; split; [reflexivity|]); [|done].
  by rewrite route_goto.
Qed.

(** C2: Checking the session never throws, and what it shows agrees with the
    path: the setup page on "/setup" with nobody signed in as long as the
    setup is open; the sign-in page on "/login" and no stored token when the
    server does not accept the token; otherwise the administration frame, on
    the page asked for, unless that is the sign-in or setup page.  Any other
    answer shows the error and leaves the path. *)
Theorem checkSession_spec s log :
  let '(r, s', log') := run (history reply) (checkSession rawNavigate) s log in
  let log1 := log ++ [status_request s] in
  r = inr () ∧
  match setup_complete (reply log (Fetch (status_request s))) with
  | None => state s' = Failed ∧ location s' = location s ∧ sess s' = sess s ∧ log' = log1
  | Some false =>
      view_of s' = SetupView ∧ jwt_of (sess s') = None ∧ loggedIn (api (sess s')) = Some false ∧
      log' = log1
  | Some true =>
      log' = log1 ++ [verify_request s] ∧
      match verify_result (reply log1 (Fetch (verify_request s))) with
      | inl _ => state s' = Failed ∧ location s' = location s ∧ jwt_of (sess s') = jwt_of (sess s)
      | inr true =>
          loggedIn (api (sess s')) = Some true ∧ jwt_of (sess s') = jwt_of (sess s) ∧
          view_of s' = Frame (page_of (if bool_decide (route s ∈ [js "/login"; js "/setup"])
                                       then slash else route s))
      | inr false => view_of s' = LoginView ∧ jwt_of (sess s') = None
      end
  end.
Proof.
  unfold checkSession. rewrite run_bind, run_modify, run_try_catch, run_bind, run_get, run_bind, fetch_run.
  set (s1 := update_field state (fun _ => Checking) s). change (status_request s1) with (status_request s).
  unfold history at 1. unfold setup_complete.
  destruct (reply log (Fetch (status_request s))) as [e|o]; [by split_and!|].
  destruct (ok o); cbn [negb]; [|by split_and!].
  rewrite run_bind, run_read_json. destruct (json o) as [e|[b|]]; [by split_and!| |by split_and!].
  rewrite run_bind, run_deref. destruct (b_complete b); cbn [negb].
  - rewrite run_bind, verifyToken_run. change (raw_request s1 _ _ _) with (verify_request s).
    simpl requests_of. unfold history at 1.
    destruct (reply _ (Fetch (verify_request s))) as [e|r]; [by split_and!|]. simpl requests_of.
    unfold verify_result, verify_state. destruct (status r =? 200)%Z.
    + destruct (json r) as [e|[d|]]; [by split_and!| |by split_and!].
      rewrite run_bind, run_modify, run_bind, run_modify.
      edestruct run_go_home as (s' & -> & Hr & Hst & Hse). do 2 (split; [done|]).
      unfold view_of. rewrite Hr, Hst, Hse. by split_and!.
    + rewrite run_bind, run_modify.
      edestruct (run_go_unless (js "/login")) as (s' & -> & Hr & Hst & Hse); [done|].
      do 2 (split; [done|]). unfold view_of. rewrite Hr, Hst, Hse. split; [done|]. apply jwt_logout.
  - rewrite run_bind, run_modify, run_bind, run_modify.
    edestruct (run_go_unless (js "/setup")) as (s' & -> & Hr & Hst & Hse); [done|].
    split; [done|]. unfold view_of. rewrite Hr, Hst, Hse. split_and!; try done. apply jwt_logout.
Qed.
Definition login_request (s : Shell) : request ShellPayload :=
  call_request s (js "/auth/token") (js "post") (Some (SendLogin (username s) (password s))) ∅.

(** C21: Signing in asks once and never throws.  A validated answer stores the
    token, forgets the password and shows the home page of the
    administration frame; an answer that is not validated marks the form and
    changes no session; a failed call shows an error and keeps the form. *)
Theorem handleLogin_spec translator s log :
  let '(r, s', log') := run (history reply) (handleLogin rawNavigate translator) s log in
  let answer := reply log (Fetch (login_request s)) in
  r = inr () ∧ log' = log ++ [login_request s] ∧ submitting s' = false ∧ username s' = username s ∧
  match call_result answer with
  | inl _ =>
      state s' = state s ∧ location s' = location s ∧ password s' = password s ∧
      invalid s' = false ∧ sess s' = sess (call_state answer (after_headers s)) ∧
      ∃ n, shown_notifications s' = shown_notifications s ++ [n] ∧ n_kind n = js "error"
  | inr data =>
      shown_notifications s' = shown_notifications s ∧
      if validated data then
        view_of s' = Frame (Some (js "Home")) ∧ password s' = [] ∧ invalid s' = false ∧
        loggedIn (api (sess s')) = Some true ∧
        jwt_of (sess s') = Some (default (js "undefined") (data ≫= b_Jwtoken))
      else
        state s' = state s ∧ location s' = location s ∧ password s' = password s ∧
        jwt_of (sess s') = jwt_of (sess s) ∧
        invalid s' = true ∧ invalidMessage s' = translator (js "Invalid username or password")
  end.
Proof.
  unfold handleLogin.
  rewrite run_bind, run_modify, run_bind, run_modify, run_bind, run_modify, run_finally_modify,
    run_try_catch, run_bind, run_get, run_bind, doCall_run.
  set (s1 := update_field submitting _ _).
  change (call_request s1 _ _ _ _) with (login_request s). unfold history at 1. simpl requests_of.
  destruct (call_result _) as [e|data] eqn:E.
  - unfold notify. rewrite run_modify. unfold call_state.
    destruct (reply log (Fetch (login_request s))) as [e'|o]; simpl.
    + split_and!; try done. by eexists.
    + destruct (status o =? 401)%Z; simpl; split_and!; try done; by eexists.
  - assert (call_state (reply log (Fetch (login_request s))) (after_headers s1) = after_headers s1) as ->.
    { unfold call_state, call_result in *. destruct (reply _ _) as [e|o]; [done|].
      by destruct (status o =? 401)%Z. }
    destruct (validated data) eqn:Ev.
    + destruct data as [b|]; [|done].
      rewrite run_bind, run_deref, run_bind, run_modify, run_bind, run_modify, run_bind, run_modify,
        run_bind, run_modify, run_modify.
      split_and!; try done.
      * unfold view_of. cbn -[route goto page_of].
        change (route _) with (route (goto rawNavigate slash true s)). by rewrite route_goto.
      * unfold jwt_of. simpl. by rewrite lookup_insert_eq.
    + rewrite run_bind, run_modify, run_modify. by split_and!.
Qed.

(** Signing out drops the token and shows the sign-in page. *)
Theorem signOut_spec s :
  let s' := signOut rawNavigate s in
  view_of s' = LoginView ∧ jwt_of (sess s') = None ∧ loggedIn (api (sess s')) = Some false ∧
  userProfilePanelOpen s' = false ∧ modalOpen s' = false ∧
  ∀ ep m d x, rq_headers (call_request (P := ShellPayload) s' ep m d x) !! js "Authorization"
                = Some (js "Bearer null").
Proof.
  intros s'. unfold s'. split_and!; try done.
  - unfold view_of, route. simpl. rewrite router.
    rewrite (routePath_gsNavigate _ (js "/login")) by done. done.
  - apply jwt_logout.
  - intros. rewrite authorization_sent. unfold bearer.
    change (session (signOut _ _)) with (logout (sess s)). by rewrite jwt_logout.
Qed.

(** C23: When the server answers a call of any page with 401, the store's session
    ends and the token is gone, but the shell goes on showing the same view:
    it does not look at the session again. *)
Theorem unauthorized_keeps_view endpoint method data extra s log :
  onUnauthorizedcallMe (api (sess s)) = StoreLogout →
  (∃ o, reply log (Fetch (call_request s endpoint method data extra)) = inr o ∧ status o = 401%Z) →
  let '(r, s', _) := run (history reply) (doCall endpoint method data extra) s log in
  view_of s' = view_of s ∧ loggedIn (api (sess s')) = Some false ∧ jwt_of (sess s') = None.
Proof.
  intros Hcb (o & Ho & H401). rewrite doCall_run. unfold history. rewrite Ho.
  unfold call_state. rewrite H401. simpl. unfold run_unauthorized. simpl. rewrite Hcb.
  split_and!; [done|done|]. apply jwt_logout.
Qed.

(** Following a link of the menu shows a page of the administration frame,
    the one of that link, under every base path. *)
Theorem menu_links_have_pages l s :
  l ∈ links → state s = Authenticated →
  ∃ page, view_of (followLink rawNavigate (href l) s) = Frame (Some page) ∧
          (href l, page) ∈ pages.
Proof.
  intros Hl Hs.
  assert (route (followLink rawNavigate (href l) s) = href l) as Hr.
  { transitivity (route (goto rawNavigate (href l) false s));
      [|by apply route_goto, one_segment_absolute, links_one_segment].
    unfold followLink, closeSideNavigation. by destruct (isCompactNavigation _). }
  assert (state (followLink rawNavigate (href l) s) = Authenticated) as Hst
    by (unfold followLink, closeSideNavigation; by destruct (isCompactNavigation _)).
  unfold view_of. rewrite Hst, Hr. unfold page_of.
  assert (Forall (fun l => fst <$> find (fun page => matches (href l) page.1) pages = Some (href l)) links)
    as HF by (apply (bool_decide_unpack _); by vm_compute).
  rewrite Forall_forall in HF. specialize (HF l Hl).
  destruct (find _ pages) as [[path page]|] eqn:E; [|done]. exists page. split; [done|].
  apply find_Some_elem in E as [E1 _]. injection HF as <-. done.
Qed.
End Handlers.

(** ** Witnesses *)

Definition goes (to : jstr) (replace : bool) (from : jstr) : jstr := to.

(** A browser on "/dns" under the base path "/gs", with a token. *)
Definition opened : Shell :=
  MkShell (Some (js "/gs")) (js "/gs/dns") (apistore (js "/gs") {[ js "jwt" := js "t" ]}) [] Checking
    false false [] 1200 0 false 0 [] (js "admin") (js "secret") [] false false.

(** A server whose setup is done and that accepts every token. *)
Definition accepting (l : list (request ShellPayload)) (q : io_req ShellPayload) : io_res ShellBody q :=
  let r := Response 200 (inr []) None
             (inr (Some (MkShellBody true (Bool true) (Some (js "t2")) (Some (js "admin")) None))) in
  serve (fun _ => inr r) q.

(** A server that refuses every request. *)
Definition refusing (l : list (request ShellPayload)) (q : io_req ShellPayload) : io_res ShellBody q :=
  serve (fun _ => inr (Response 401 (inr []) None (inr None))) q.

Lemma checkSession_spec_witness :
  let '(_, s', _) := run (history accepting) (checkSession goes) opened [] in
  view_of s' = Frame (Some (js "Dns")).
Proof.
  pose proof (checkSession_spec goes (fun _ _ _ => eq_refl) accepting opened []) as H.
  destruct (run _ _ _ _) as [[r s'] log']. destruct H as (_ & H).
  simpl setup_complete in H. cbv iota in H. destruct H as (_ & H).
  simpl verify_result in H. destruct H as (_ & _ & ->). by vm_compute.
Defined.

Lemma handleLogin_spec_witness :
  let '(_, s', _) := run (history accepting) (handleLogin goes id) opened [] in
  jwt_of (sess s') = Some (js "t2").
Proof.
  pose proof (handleLogin_spec goes (fun _ _ _ => eq_refl) accepting id opened []) as H.
  destruct (run _ _ _ _) as [[r s'] log']. destruct H as (_ & _ & _ & _ & _ & H).
  simpl validated in H. cbv iota in H. by destruct H as (_ & _ & _ & _ & H).
Defined.

Lemma signOut_spec_witness : view_of (signOut goes opened) = LoginView.
Proof. apply (signOut_spec goes (fun _ _ _ => eq_refl)). Defined.

Lemma unauthorized_keeps_view_witness :
  let '(_, s', _) := run (history refusing) (doCall (js "/users") (js "get") None ∅)
                       (opened <| state := Authenticated |>) [] in
  view_of s' = Frame (Some (js "Dns")) ∧ jwt_of (sess s') = None.
Proof.
  pose proof (unauthorized_keeps_view refusing (js "/users") (js "get") None ∅
    (opened <| state := Authenticated |>) [] eq_refl) as H.
  destruct (run _ _ _ _) as [[r s'] log']. destruct H as (H & _ & ?); [by eexists|].
  split; [|done]. rewrite H. by vm_compute.
Defined.

Lemma menu_links_have_pages_witness :
  ∃ page, view_of (followLink goes (js "/rules") (opened <| state := Authenticated |>)) = Frame (Some page).
Proof.
  destruct (menu_links_have_pages goes (fun _ _ _ => eq_refl) (MkLink (js "Policies") (js "/rules"))
    (opened <| state := Authenticated |>)) as (page & H & _).
  - vm_compute. repeat first [left|right].
  - done.
  - by exists page.
Defined.
