(* ===== verification/AppView.v ===== *)
(** * The templates of the shell

    The markup of [App.svelte], [components/globalheader.svelte],
    [components/headerrightnav.svelte] and [routes/login/login.svelte].  The
    pages are leaves named after their components. *)

From S2P Require Import Prelude JsString JsAsync Http Api Navigation Notifications View Layout App.
Open Scope js_scope.

Inductive shell_event :=
| RetryStatus
| FollowLink (href : jstr)
| FollowSideLink (href : jstr)
| ToggleSideNav
| ToggleAccount
| ChangePassword
| LogOut
| SavePassword
| ClosePassword
| Dismiss (notification : Notification)
| SetUsername (value : jstr)
| SetPassword (value : jstr)
| Clear
| SignIn.

Section View.
Context (translator : jstr → jstr).
#[local] Abbreviation tr s := (translator (js s)).

(** ** login.svelte *)

Definition login_form (s : Shell) : node shell_event :=
  El "Form" [PrimaryDisabled (signInDisabled s); On "submit" SignIn] [
    El "TextInput" [
      Flag "invalid" (invalid s); Attr "labelText" (tr "User name"); Attr "placeholder" (tr "Enter user name");
      Flag "required" true; Attr "value" (username s); Attr "invalidText" (invalidMessage s);
      OnAny "bind:value" SetUsername
    ] [];
    El "PasswordInput" [
      Flag "invalid" (invalid s); Flag "required" true; Attr "labelText" (tr "Password");
      Attr "placeholder" (tr "Enter password"); Attr "value" (password s); Attr "invalidText" (invalidMessage s);
      OnAny "bind:value" SetPassword
    ] [];
    El "ButtonSet" [] [
      El "Button" [
        lit "kind" "secondary"; lit "type" "button";
        Disabled (submitting s || (negb (truthy (username s)) && negb (truthy (password s)))); On "click" Clear
      ] [Text (tr "Clear")];
      El "Button" [lit "type" "submit"; Disabled (signInDisabled s)] [
        Text (if submitting s then tr "Signing in…" else tr "Sign in")
      ]
    ]
  ].

Definition login_view (s : Shell) : node shell_event :=
  auth_shell (tr "Sign in") (tr "Manage protection, policies, and connected devices.") None [
    login_form s;
    El "div" [] [El "DownloadCertificateLink" [lit "kind" "ghost"] []]
  ].

(** ** headerrightnav.svelte *)

Definition account_menu (s : Shell) : node shell_event :=
  El "HeaderAction" [Attr "text" (tr "Account"); On "bind:isOpen" ToggleAccount] [
    shown (userProfilePanelOpen s) [
      El "HeaderPanelLinks" [] [
        El "HeaderPanelDivider" [] [
          Text (if truthy (Api.username (api (sess s)))
                then js "Logged in as " ++ Api.username (api (sess s)) else js "Logged in")
        ];
        El "HeaderPanelLink" [On "click" ChangePassword] [Text (tr "Change password")];
        El "HeaderPanelLink" [On "click" LogOut] [Text (tr "Log out")]
      ]
    ]
  ].

Definition password_dialog (s : Shell) : node shell_event :=
  El "ComposedModal" [Open (modalOpen s); On "submit" SavePassword; On "bind:open" ClosePassword] [
    El "ModalHeader" [Attr "title" (tr "Update password")] [];
    El "ConnectedGeneralSettingInputs" [
      lit "keyName" "admin_password"; Attr "helperText" (tr "Leave blank to keep the current password");
      lit "type" "password"; Attr "title" (tr "Password"); Attr "labelText" (tr "Password"); Flag "disableOnblur" true
    ] [];
    El "ModalFooter" [
      Attr "secondaryButtonText" (tr "Cancel"); Attr "primaryButtonText" (tr "Update password");
      On "click:button--secondary" ClosePassword
    ] []
  ].

Definition headerrightnav_view (s : Shell) : node shell_event :=
  El "HeaderUtilities" [] [account_menu s; password_dialog s].

(** ** globalheader.svelte *)

Definition active (s : Shell) : jstr := activePath (injected s) (Some (location s)) (pathname s).

Definition globalheader_view (s : Shell) : node shell_event :=
  El "Header" [
    lit "company" "GateSentry"; Attr "platformName" (version s); Attr "href" (routeHref (injected s) slash);
    Flag "persistentHamburgerMenu" true; On "bind:isSideNavOpen" ToggleSideNav
  ] [
    El "SkipToContent" [] [];
    headermenu_view (injected s) FollowLink (active s);
    headerrightnav_view s
  ].

(** ** App.svelte *)

(** The [Route] that matches, or [NotFound]. *)
Definition content_view (s : Shell) : node shell_event :=
  El "Content" [] [
    El (match page_of (route s) with Some _ => "Route" | None => "NotFound" end)
      [Attr "component" (default (js "NotFound") (page_of (route s)))] []
  ].

(** [inert] keeps the user out of the side navigation while it is hidden. *)
Definition sidenav_view (s : Shell) : node shell_event :=
  El "SideNav" [lit "ariaLabel" "Primary navigation"; Flag "aria-hidden" (negb (sideNavVisible s)); Open (sideNavVisible s)] [
    sidenavmenu_view (injected s) FollowSideLink (active s)
  ].

Definition frame_view (s : Shell) : node shell_event :=
  El "div" [] [
    globalheader_view s;
    sidenav_view s;
    content_view s;
    notifications_view Dismiss (shown_notifications s)
  ].

Definition checking_view : node shell_event :=
  auth_shell (js "GateSentry") (js "Checking this installation…") None [
    resource_state Layout.Loading [] (js "Checking setup and session status") (js "Retry") None []
  ].

Definition error_view : node shell_event :=
  auth_shell (js "GateSentry") (js "The administration interface is unavailable.") None [
    resource_state Layout.Failed (js "Unable to read GateSentry setup status.")
      (js "Check that the GateSentry service is running, then try again.") (js "Retry status check")
      (Some RetryStatus) []
  ].

Definition app_view (s : Shell) : node shell_event :=
  match state s with
  | Checking => checking_view
  | Failed => error_view
  | SetupNeeded => shown (matches (route s) (js "/setup")) [El "Setup" [] []]
  | LoginNeeded => shown (matches (route s) (js "/login")) [login_view s]
  | Authenticated => frame_view s
  end.

(** ** What the shell offers *)

Lemma login_form_offers s e :
  offers (login_form s) e ↔
  match e with
  | SetUsername _ | SetPassword _ => True
  | Clear => submitting s = false ∧ (username s ≠ [] ∨ password s ≠ [])
  | SignIn => signInDisabled s = false
  | _ => False
  end.
Proof.
  unfold login_form. view_simpl. split.
  - intros H. view_destruct; subst; try done.
    + by destruct (signInDisabled s).
    + split_bools. split; [done|]. rewrite <-!truthy_true. destruct (truthy (username s)); [by left|].
      simpl in *. destruct (truthy (password s)); [by right|done].
  - destruct e; try done; intros H.
    + split; [done|]. right. left. view_find.
    + split; [done|]. right. right. left. view_find.
    + split; [done|]. right. do 2 right. left. split; [done|]. right. left. split; [done|]. left. left.
      destruct H as [-> H]. rewrite <-!truthy_true in H. split; [|done]. simpl.
      by destruct (truthy (username s)), (truthy (password s)), H.
    + split; [done|]. left. left. by rewrite H.
Qed.

Lemma globalheader_offers s e :
  offers (globalheader_view s) e ↔
  match e with
  | FollowLink h => ∃ l, l ∈ links ∧ h = href l
  | ToggleSideNav | ToggleAccount => True
  | ChangePassword | LogOut => userProfilePanelOpen s = true
  | SavePassword | ClosePassword => modalOpen s = true
  | _ => False
  end.
Proof.
  unfold globalheader_view, headerrightnav_view, account_menu, password_dialog. cbn [offers any_of].
  rewrite (proj1 (menus_offer_links _ _ _ e)). view_simpl. rewrite andb_true_r. split.
  - intros H. view_destruct; subst; eauto.
  - destruct e; intros H; try done; (split; [done|]); try (left; left; by split); right.
    + right. left. destruct H as (l & Hl & ->). by exists l.
    + do 2 right. left. split; [done|]. right. left. split; [done|]. left. left. by split.
    + do 2 right. left. split; [done|]. right. left. split; [done|]. right. left. split; [done|]. left.
      split; [done|]. right. right. left. view_find.
    + do 2 right. left. split; [done|]. right. left. split; [done|]. right. left. split; [done|]. left.
      split; [done|]. right. do 2 right. left. view_find.
    + do 2 right. left. split; [done|]. right. right. left. split; [done|]. left. left. by split.
    + do 2 right. left. split; [done|]. right. right. left. split; [done|]. left. right. left. by split.
Qed.

Lemma frame_offers s e :
  offers (frame_view s) e ↔
  offers (globalheader_view s) e ∨
  (sideNavVisible s = true ∧ ∃ l, l ∈ links ∧ e = FollowSideLink (href l)) ∨
  ∃ n, n ∈ shown_notifications s ∧ e = Dismiss n.
Proof.
  unfold frame_view, sidenav_view, notifications_view, content_view. cbn [offers any_of].
  rewrite (proj2 (menus_offer_links _ _ _ e)). view_simpl. rewrite andb_true_r. naive_solver.
Qed.

(** C22: The controls of the shell and when each can be used: signing in only with a
    name and a password and not while it is under way, leaving only from the
    administration frame. *)
Theorem app_offers s e :
  offers (app_view s) e ↔
  match e with
  | RetryStatus => state s = Failed
  | FollowLink h => state s = Authenticated ∧ ∃ l, l ∈ links ∧ h = href l
  | FollowSideLink h => state s = Authenticated ∧ sideNavVisible s = true ∧ ∃ l, l ∈ links ∧ h = href l
  | ToggleSideNav | ToggleAccount => state s = Authenticated
  | ChangePassword | LogOut => state s = Authenticated ∧ userProfilePanelOpen s = true
  | SavePassword | ClosePassword => state s = Authenticated ∧ modalOpen s = true
  | Dismiss n => state s = Authenticated ∧ n ∈ shown_notifications s
  | SetUsername _ | SetPassword _ => state s = LoginNeeded ∧ matches (route s) (js "/login") = true
  | Clear => state s = LoginNeeded ∧ matches (route s) (js "/login") = true ∧ submitting s = false ∧
             (username s ≠ [] ∨ password s ≠ [])
  | SignIn => state s = LoginNeeded ∧ matches (route s) (js "/login") = true ∧ signInDisabled s = false
  end.
Proof.
  unfold app_view. destruct (state s) eqn:Hs.
  - unfold checking_view. rewrite auth_shell_offers. cbn [slot_offers any_of]. rewrite resource_state_offers.
    destruct e; naive_solver.
  - view_simpl. destruct e; naive_solver.
  - unfold login_view. cbn [offers any_of]. rewrite auth_shell_offers. cbn [slot_offers any_of].
    rewrite login_form_offers. view_simpl. generalize (js "/login"). intros l.
    destruct e; naive_solver.
  - rewrite frame_offers, globalheader_offers. destruct e; naive_solver.
  - unfold error_view. rewrite auth_shell_offers. cbn [slot_offers any_of]. rewrite resource_state_offers.
    destruct e; naive_solver.
Qed.

(** ** Messages of the sign-in page *)

(** The notifications are part of the administration frame: outside it none is
    on the page, so the one that a sign-in raises when GateSentry cannot be
    reached is not seen until somebody has signed in. *)
Theorem notices_need_frame s l :
  state s ≠ Authenticated → app_view (s <| shown_notifications := l |>) = app_view s.
Proof. intros Hs. unfold app_view. by destruct (state s) eqn:E; simpl; rewrite ?E. Qed.
End View.

Lemma notices_need_frame_witness :
  app_view (fun t => t) (opened <| shown_notifications := [] |>) = app_view (fun t => t) opened.
Proof. apply notices_need_frame. by vm_compute. Defined.
