(* ===== verification/SessionSpec.v ===== *)
(** * The session as a machine

    What [lib/api.ts], [store/apistore.ts], [App.svelte], [login.svelte] and the
    header promise together about signing in: an abstract machine of the
    session and of the requests that are waiting, and a proof that the shell's
    event loop implements it.  The machine knows nothing of the header object,
    of [localStorage] or of callbacks; the shell's handlers suspend at every
    request and interleave freely, and calls of any page are among them. *)

From S2P Require Import Prelude JsString JsAsync Http Api Navigation Notifications App.
Open Scope js_scope.

(** ** Events *)

(** [PageCall] is any [doCall] of a page, whose use of the answer is the page's
    own affair. *)
Inductive shell_event :=
| Start (localization : result unit)
| OpenLogin
| Typed (name pass : jstr)
| SubmitLogin
| CancelLogin
| SignOut
| SavePassword
| Mounted
| FollowLink (href : jstr)
| PageCall (endpoint method : jstr) (data : option ShellPayload) (extra : gmap jstr jstr).

(** ** The machine *)

Module Spec.

(** The stored token, whether the store knows the user to be signed in
    ([None] before the first check), and as whom. *)
Record auth := MkAuth { token : option jstr; signed : option bool; who : jstr }.

Definition signed_out : auth := MkAuth None (Some false) [].

(** What a request without an answer asks for. *)
Inductive question := AskSetup | AskVerify | AskSignIn | AskData.

(** The [Authorization] a request is sent with. *)
Definition carries (q : question) (a : auth) : option jstr :=
  match q with AskSetup => None | _ => Some (bearer (token a)) end.

(** What an answer does to the session, and what is asked next. *)
Definition after (q : question) (o : result (response ShellBody)) (a : auth) : auth * option question :=
  match q with
  | AskSetup =>
      match setup_complete o with
      | None => (a, None)
      | Some false => (signed_out, None)
      | Some true => (a, Some AskVerify)
      end
  | AskVerify =>
      match o with
      | inl _ => (a, None)
      | inr r =>
          if (status r =? 200)%Z then
            match json r with
            | inr (Some data) => (MkAuth (token a) (Some true) (opt_or (b_Username data) []), None)
            | _ => (a, None)
            end
          else (signed_out, None)
      end
  | AskSignIn | AskData =>
      match o with
      | inl _ => (a, None)
      | inr r =>
          if (status r =? 401)%Z then (signed_out, None)
          else match q, call_result o with
               | AskSignIn, inr (Some data) =>
                   if validated (Some data)
                   then (MkAuth (Some (default (js "undefined") (b_Jwtoken data))) (Some true)
                           (opt_or (b_Username data) []), None)
                   else (a, None)
               | _, _ => (a, None)
               end
      end
  end.

(** A request that waits, with the [Authorization] it was sent with. *)
Definition waiting : Type := question * option jstr.

Definition ask (a : auth) (q : question) : waiting := (q, carries q a).

(** What an event does to the session, and what it asks. *)
Definition moves (e : shell_event) (a : auth) : auth * option question :=
  match e with
  | Start (inr _) => (a, Some AskSetup)
  | SubmitLogin => (a, Some AskSignIn)
  | Mounted | PageCall _ _ _ _ => (a, Some AskData)
  | SignOut => (signed_out, None)
  | Start (inl _) | OpenLogin | Typed _ _ | CancelLogin | SavePassword | FollowLink _ => (a, None)
  end.

(** An event, or an answer to one of the waiting requests. *)
Inductive label := Did (e : shell_event) | Answered (i : nat) (o : result (response ShellBody)).

Definition exec (l : label) (m : auth * list waiting) : option (auth * list waiting) :=
  let '(a, ws) := m in
  match l with
  | Did e => let '(a', q) := moves e a in Some (a', ws ++ option_list (ask a' <$> q))
  | Answered i o =>
      match ws !! i with
      | None => None
      | Some (q, _) =>
          let '(a', next) := after q o a in
          Some (a', take i ws ++ option_list (ask a' <$> next) ++ drop (Datatypes.S i) ws)
      end
  end.

Definition exec_all (ls : list label) (m : auth * list waiting) : option (auth * list waiting) :=
  foldl (fun m l => m ≫= exec l) (Some m) ls.

Lemma exec_all_snoc ls l m : exec_all (ls ++ [l]) m = exec_all ls m ≫= exec l.
Proof. unfold exec_all. by rewrite foldl_app. Qed.
End Spec.
Import Spec.

(** ** The shell's event loop *)

Section Refinement.
Context (rawNavigate : jstr → bool → jstr → jstr) (translator : jstr → jstr).

#[local] Abbreviation handler := (prog Shell (io_res (P := ShellPayload) ShellBody)).
#[local] Abbreviation shell_thread := (thread Shell (io_res (P := ShellPayload) ShellBody)).

Definition on_event (e : shell_event) : handler unit :=
  match e with
  | Start localization => start rawNavigate localization
  | OpenLogin => modify openLogin
  | Typed name pass => username <~ name ;; password <~ pass
  | SubmitLogin => handleLogin rawNavigate translator
  | CancelLogin => modify cancel
  | SignOut => modify (signOut rawNavigate)
  | SavePassword => modify savePassword
  | Mounted => loadVersion
  | FollowLink href => modify (followLink rawNavigate href)
  | PageCall endpoint method data extra => doCall endpoint method data extra ;; Ret ()
  end.

Definition enabled (e : shell_event) (s : Shell) : Prop :=
  match e with SubmitLogin => signInDisabled s = false | _ => True end.

(** The machine's view of the shell, and the wiring of [store/apistore.ts]. *)
Definition abs (s : Shell) : auth :=
  MkAuth (jwt_of (sess s)) (loggedIn (api (sess s))) (Api.username (api (sess s))).

Definition wired (s : Shell) : Prop := onUnauthorizedcallMe (api (sess s)) = StoreLogout.

Definition authorization (t : shell_thread) : option jstr :=
  match th_request t with
  | Fetch q => rq_headers q !! js "Authorization"
  | _ => None
  end.

(** A suspended handler does what the machine says of its question, whenever it
    is resumed; [n] bounds the questions that can follow. *)
Fixpoint behaves (n : nat) (t : shell_thread) (w : waiting) : Prop :=
  match n with
  | 0 => False
  | S n =>
      authorization t = w.2 ∧
      match th_request t as q return (io_res (P := ShellPayload) ShellBody q → handler unit) → Prop with
      | FetchAll _ | NextOf _ _ | Within _ => fun _ => False
      | Fetch _ => fun k => ∀ o s, wired s →
          let '(s', t') := advance (k o) s in
          let '(a', next) := after w.1 o (abs s) in
          wired s' ∧ abs s' = a' ∧
          match t', next with
          | None, None => True
          | Some t', Some q => behaves n t' (ask a' q)
          | _, _ => False
          end
      end (th_resume t)
  end.

Definition simulates (c : Shell * list shell_thread) (m : auth * list waiting) : Prop :=
  wired c.1 ∧ abs c.1 = m.1 ∧ Forall2 (fun t w => ∃ n, behaves n t w) c.2 m.2.

(** [p] does to the session what [move] says, and suspends at its question. *)
Definition one_step (n : nat) (p : handler unit) (move : auth → auth * option question) (s : Shell) : Prop :=
  let '(s', t) := advance p s in
  let '(a', next) := move (abs s) in
  wired s' ∧ abs s' = a' ∧
  match t, next with
  | None, None => True
  | Some t, Some q => behaves n t (ask a' q)
  | _, _ => False
  end.

(** ** Handlers *)

(** Runs a handler to its next suspension, on a state given by its fields. *)
Ltac shell_code st :=
  eval cbv beta iota zeta delta [negb advance settle of_result th_request th_resume behaves one_step moves authorization rq_headers
    verifyToken doCallRaw doCall take_headers url_of fetch check_response read_json deref notify when
    try_catch finally modify get mbind prog_bind start checkSession handleLogin loadVersion on_event
    call_state call_result verify_state verify_result abs wired after ask carries fst snd
    update_field injected location sess shown_notifications state
    isSideNavOpen userProfilePanelOpen pathname windowWidth menu_toggle_focus modalOpen
    password_updates version username password invalidMessage invalid submitting
    session on_session Shell_session shown on_shown Shell_notifications status_request
    getHeaders jwt_of api localStorage headers loggedIn jwtToken Api.username baseURL
    onUnauthorizedcallMe run_unauthorized logout setLoggedOut setLoggedIn loginSuccesful setup_complete
    store_token refresh goto token signed who signed_out] in st.
Ltac shell_advance := match goal with |- ?G => let G' := shell_code G in change G' end.

(** A handler that starts with [doCall], up to the body of an ok answer. *)
Ltac ask_call Hs :=
  match type of Hs with wired ?s => destruct s as [? ? [? []]] end;
  shell_advance; split; [exact Hs|]; split; [done|]; split; [by rewrite lookup_insert_eq|];
  let s2 := fresh "s2" in let Hs2 := fresh "Hs2" in let r := fresh "r" in
  intros [?|r] s2 Hs2; destruct s2 as [? ? [? []]]; unfold wired in Hs2; simpl in Hs2; subst; [by shell_advance|];
  shell_advance; destruct (status r =? 401)%Z; [shell_advance; by rewrite lookup_delete_eq|];
  destruct (ok r); [|by shell_advance].

Lemma start_asks u s : wired s → one_step 2 (on_event (Start (inr u))) (moves (Start (inr u))) s.
Proof.
  intros Hs. destruct s as [? ? [? []]]. shell_advance. split; [exact Hs|]. split; [done|]. split; [done|].
  intros o s2 Hs2. destruct s2 as [? ? [? []]]. destruct o as [e|r]; [by shell_advance|].
  destruct (ok r); [|by shell_advance]. destruct (json r) as [e|[b|]]; [by shell_advance| |by shell_advance].
  destruct (b_complete b).
  - shell_advance. split; [exact Hs2|]. split; [done|]. split; [by rewrite lookup_insert_eq|].
    intros o s3 Hs3. destruct s3 as [? ? [? []]]. destruct o as [e|r3]; [by shell_advance|].
    shell_advance. destruct (status r3 =? 200)%Z.
    + destruct (json r3) as [e|[d|]]; [by shell_advance| |by shell_advance].
      shell_advance. destruct (bool_decide _ || bool_decide _); by shell_advance.
    + shell_advance. destruct (bool_decide _); shell_advance; by rewrite lookup_delete_eq.
  - shell_advance. destruct (bool_decide _); shell_advance; by rewrite lookup_delete_eq.
Qed.

Lemma sign_in_asks s : wired s → one_step 1 (on_event SubmitLogin) (moves SubmitLogin) s.
Proof.
  intros Hs. ask_call Hs. destruct (json _) as [e|[d|]]; [by shell_advance| |by shell_advance].
  shell_advance. destruct (validated (Some d)); shell_advance; [by rewrite lookup_insert_eq|done].
Qed.

(** The [doCall] of any handler that leaves the session alone. *)
Lemma data_asks endpoint method data extra s :
  wired s → (let e := PageCall endpoint method data extra in one_step 1 (on_event e) (moves e) s).
Proof.
  intros Hs. ask_call Hs. by destruct (json _); shell_advance.
Qed.

Lemma version_asks s : wired s → one_step 1 (on_event Mounted) (moves Mounted) s.
Proof.
  intros Hs. ask_call Hs. by destruct (json _); shell_advance.
Qed.

Lemma behaves_S n t w : behaves n t w → behaves (S n) t w.
Proof.
  revert t w. induction n as [|n IH]; [done|]. intros [[q|q|q l|q] k] w; [|by intros [_ []]..].
  intros [Ha Hk]. split; [exact Ha|]. intros o s Hs. specialize (Hk o s Hs). simpl th_resume in Hk.
  simpl th_resume. destruct (advance (k o) s) as [s' [t'|]], (after w.1 o (abs s)) as [a' [q'|]];
    destruct Hk as (H1 & H2 & H3); (do 2 (split; [done|])); try done. by apply IH.
Qed.

Lemma one_step_S n p move s : one_step n p move s → one_step (Datatypes.S n) p move s.
Proof.
  unfold one_step. destruct (advance p s) as [s' [t|]], (move (abs s)) as [a' [q|]];
    intros (H1 & H2 & H3); (do 2 (split; [done|])); try done. by apply behaves_S.
Qed.

(** An event without a request. *)
Lemma modify_one_step f move s :
  wired (f s) → move (abs s) = (abs (f s), None) → one_step 2 (modify f) move s.
Proof. unfold one_step. simpl. by intros ? ->. Qed.

Lemma event_one_step e s : wired s → one_step 2 (on_event e) (moves e) s.
Proof.
  intros Hs. destruct e as [[e|u]| | | | | | | | |].
  - by destruct s.
  - by apply start_asks.
  - apply modify_one_step; [done|]. unfold abs, jwt_of. simpl. by rewrite !lookup_delete_ne.
  - by destruct s.
  - by apply one_step_S, sign_in_asks.
  - by apply modify_one_step.
  - apply modify_one_step; [done|]. unfold abs, jwt_of. simpl. by rewrite lookup_delete_eq.
  - by apply modify_one_step.
  - by apply one_step_S, version_asks.
  - unfold on_event, followLink, closeSideNavigation.
    by apply modify_one_step; destruct (isCompactNavigation _).
  - by apply one_step_S, data_asks.
Qed.

(** ** Refinement *)

(** The event loop with its labels. *)
Inductive trace (s0 : Shell) : list label → Shell * list shell_thread → Prop :=
| trace_nil : trace s0 [] (s0, [])
| trace_event ls e s ts s' t :
    trace s0 ls (s, ts) → enabled e s → advance (on_event e) s = (s', t) →
    trace s0 (ls ++ [Did e]) (s', ts ++ option_list t)
| trace_answer ls q (k : io_res (P := ShellPayload) ShellBody (Fetch q) → handler unit) o s ts1 ts2 s' t :
    trace s0 ls (s, ts1 ++ Thread (Fetch q) k :: ts2) → advance (k o) s = (s', t) →
    trace s0 (ls ++ [Answered (length ts1) o]) (s', ts1 ++ option_list t ++ ts2).

Lemma event_simulated e s ts s' t ws :
  advance (on_event e) s = (s', t) → simulates (s, ts) (abs s, ws) →
  ∃ m', exec (Did e) (abs s, ws) = Some m' ∧ simulates (s', ts ++ option_list t) m'.
Proof.
  intros Ha (Hw & _ & Hts). pose proof (event_one_step e s Hw) as H. unfold one_step in H. rewrite Ha in H.
  simpl. destruct (moves e (abs s)) as [a' next]. eexists. split; [done|].
  destruct H as (Hw' & <- & Hn). split_and!; [done..|]. apply Forall2_app; [done|].
  destruct t, next; try done; repeat constructor. eauto.
Qed.

Lemma answer_simulated q (k : io_res (P := ShellPayload) ShellBody (Fetch q) → handler unit) o s ts1 ts2 s' t ws :
  advance (k o) s = (s', t) → simulates (s, ts1 ++ Thread (Fetch q) k :: ts2) (abs s, ws) →
  ∃ m', exec (Answered (length ts1) o) (abs s, ws) = Some m' ∧ simulates (s', ts1 ++ option_list t ++ ts2) m'.
Proof.
  intros Ha (Hw & _ & Hts). simpl in Hts. apply Forall2_app_inv_l in Hts as (ws1 & ws2' & H1 & H2 & ->).
  apply Forall2_cons_inv_l in H2 as ([p h] & ws2 & [[|n] Hb] & H2 & ->); [done|]. destruct Hb as [_ Hb].
  specialize (Hb o s Hw). simpl in Hb. rewrite Ha in Hb. simpl.
  rewrite (Forall2_length _ _ _ H1), list_lookup_middle, take_app_length by done.
  rewrite drop_app_ge, Nat.sub_succ_l, Nat.sub_diag by lia. simpl. rewrite drop_0.
  destruct (after p o (abs s)) as [a' next]. eexists. split; [done|].
  destruct Hb as (Hw' & <- & Hn). split_and!; [done..|].
  apply Forall2_app; [done|]. apply Forall2_app; [|done].
  destruct t, next; try done; repeat constructor. eauto.
Qed.

Lemma trace_simulated s0 ls c :
  wired s0 → trace s0 ls c → ∃ m, exec_all ls (abs s0, []) = Some m ∧ simulates c m.
Proof.
  intros H0. induction 1 as [|ls e s ts s' t _ (m & Hm & Hs) _ Ha|ls q k o s ts1 ts2 s' t _ (m & Hm & Hs) Ha].
  - by exists (abs s0, []).
  - rewrite exec_all_snoc, Hm. destruct m as [a ws]. pose proof Hs as (_ & Habs & _). simpl in Habs. subst a.
    by apply event_simulated.
  - rewrite exec_all_snoc, Hm. destruct m as [a ws]. pose proof Hs as (_ & Habs & _). simpl in Habs. subst a.
    by eapply answer_simulated.
Qed.

(** The labels miss no step: the shell only waits for single requests. *)
Lemma reachable_trace s0 c :
  wired s0 → JsAsync.reachable enabled on_event s0 c → ∃ ls, trace s0 ls c.
Proof.
  intros H0. induction 1 as [|c c' _ [ls Hls] Hstep]; [exists []; apply trace_nil|].
  inversion Hstep as [e s s' ts t He Ha|q k r s s' ts1 ts2 t Ha]; simplify_eq.
  - eexists. by eapply trace_event.
  - destruct (trace_simulated _ _ _ H0 Hls) as ([a ws] & _ & _ & _ & Hts). simpl in Hts.
    apply Forall2_app_inv_l in Hts as (ws1 & ws2 & _ & H2 & _).
    apply Forall2_cons_inv_l in H2 as (w & ws' & [[|n] Hb] & _); [done|].
    destruct Hb as [_ Hb], q as [q|q|q l|q]; [|by destruct Hb..]. eexists. by eapply trace_answer.
Qed.

(** C3: The shell refines the machine.  Each turn of the event loop is an event
    or the answer to one waiting request; replaying those on the machine gives
    the session that the store holds, and the machine's waiting requests are
    the shell's, each sent with the [Authorization] of the machine's token at
    the time.  So a session ends only by a sign-out, an unfinished setup, a
    refused token or a 401, and begins only by an accepted one. *)
Theorem session_refines s0 s ts :
  onUnauthorizedcallMe (api (sess s0)) = StoreLogout →
  (JsAsync.reachable enabled on_event s0 (s, ts) → ∃ ls, trace s0 ls (s, ts)) ∧
  (∀ ls, trace s0 ls (s, ts) →
     ∃ ws, exec_all ls (abs s0, []) = Some (abs s, ws) ∧
           Forall2 (fun t w => authorization t = w.2) ts ws).
Proof.
  intros H0. split; [by apply reachable_trace|]. intros ls Hls.
  destruct (trace_simulated _ _ _ H0 Hls) as ([a ws] & Hm & _ & Ha & Hts). simpl in Ha, Hts. subst a.
  exists ws. split; [done|]. eapply Forall2_impl; [exact Hts|]. intros t w [[|n] Hb]; [done|]. by destruct Hb.
Qed.

(** ** A late answer *)

Lemma reach_event s0 s ts e s' t :
  JsAsync.reachable enabled on_event s0 (s, ts) → enabled e s → advance (on_event e) s = (s', t) →
  JsAsync.reachable enabled on_event s0 (s', ts ++ option_list t).
Proof. intros Hr He Ha. eapply JsAsync.reach_step; [exact Hr|]. by eapply JsAsync.step_event. Qed.

(** A question that is answered for good. *)
Lemma answer_last n t q h o s ts1 ts2 :
  behaves n t (q, h) → wired s → (after q o (abs s)).2 = None →
  ∃ s', JsAsync.step enabled on_event (s, ts1 ++ t :: ts2) (s', ts1 ++ ts2) ∧ wired s' ∧
        abs s' = (after q o (abs s)).1.
Proof.
  destruct n as [|n]; [done|]. destruct t as [[rq|rq|rq l|rq] k]; [|by intros [_ []]..].
  intros [_ Hb] Hw Hlast. specialize (Hb o s Hw). simpl th_resume in Hb. simpl fst in Hb.
  destruct (advance (k o) s) as [s' t'] eqn:Ha, (after q o (abs s)) as [a' next].
  simpl in Hlast. subst next. destruct Hb as (Hw' & Habs & Ht). destruct t' as [t'|]; [done|].
  exists s'. split; [|done]. exact (JsAsync.step_answer _ _ (Fetch rq) k o s s' ts1 ts2 None Ha).
Qed.

End Refinement.

Lemma session_refines_witness :
  exec_all [Did SignOut] (abs opened, []) = Some (signed_out, []) ∧
  jwt_of (sess (signOut goes opened)) = None.
Proof.
  split; [done|].
  destruct (session_refines goes id opened (signOut goes opened) [] eq_refl) as [_ H].
  destruct (H [Did SignOut]) as (ws & Hws & _).
  - exact (trace_event goes id opened [] SignOut opened [] _ None (trace_nil _ _ _) I eq_refl).
  - symmetry. exact (f_equal (fun m => from_option (fun m => token m.1) None m) Hws).
Defined.

