(* ===== verification/Setup.v ===== *)
(** * First-run setup

    [routes/setup/setup.svelte].  [assigned] is the page
    [window.location.assign] was asked to load. *)

From S2P Require Import Prelude JsString JsAsync Http Credentials Navigation.
Open Scope js_scope.

Record SetupBody := MkSetupBody { b_complete : bool }.

Inductive SetupPayload := SendAccount (username password : jstr).

Record Setup := MkSetup {
  injected : option jstr;
  location : jstr;
  assigned : option jstr;
  username : jstr;
  password : jstr;
  confirmation : jstr;
  error : jstr;
  submitting : bool;
  statusLoaded : bool;
  statusFailed : bool
}.
#[export] Instance Setup_eta : Settable Setup := fun s =>
  MkSetup (injected s) (location s) (assigned s) (username s) (password s) (confirmation s)
    (error s) (submitting s) (statusLoaded s) (statusFailed s).

#[local] Abbreviation handler := (prog Setup (io_res (P := SetupPayload) SetupBody)).

(** ** Why the button is disabled *)

Definition passwordLengthValid (s : Setup) : bool := passwordHasValidByteLength (password s).
Definition passwordLengthError (s : Setup) : bool :=
  truthy (password s) && negb (passwordLengthValid s).
Definition passwordLengthMessage (s : Setup) : jstr :=
  js "Password must contain between " ++ of_Z MIN_PASSWORD_BYTES ++ js " and "
  ++ of_Z MAX_PASSWORD_BYTES ++ js " UTF-8 bytes (currently " ++ of_Z (utf8ByteLength (password s))
  ++ js ").".
Definition confirmationMismatch (s : Setup) : bool :=
  truthy (confirmation s) && bool_decide (password s ≠ confirmation s).

Inductive field := NoField | PasswordField | ConfirmationField.

#[export] Instance field_eq_dec : EqDecision field.
Proof. solve_decision. Defined.

Record Blocker := MkBlocker { blocker_message : jstr; blocker_field : field }.

Definition blocker (s : Setup) : Blocker :=
  if negb (truthy (username s)) then MkBlocker (js "Enter an administrator username.") NoField
  else if negb (truthy (password s)) then MkBlocker (js "Enter a password.") NoField
  else if passwordLengthError s then MkBlocker (passwordLengthMessage s) PasswordField
  else if negb (truthy (confirmation s)) then
    MkBlocker (js "Re-enter the password to confirm it.") NoField
  else if confirmationMismatch s then MkBlocker (js "Passwords do not match.") ConfirmationField
  else MkBlocker [] NoField.

Definition blockingReason (s : Setup) : jstr := blocker_message (blocker s).
Definition hintMessage (s : Setup) : jstr :=
  if bool_decide (blocker_field (blocker s) = NoField) then blocker_message (blocker s) else [].

(** What the page prints below its inputs and beside them. *)
Definition hint_shown (s : Setup) : jstr :=
  if statusLoaded s && truthy (hintMessage s) then hintMessage s else [].
Definition password_invalid (s : Setup) : jstr :=
  if passwordLengthError s then passwordLengthMessage s else [].
Definition confirmation_invalid (s : Setup) : jstr :=
  if confirmationMismatch s then js "Passwords do not match." else [].

Definition submitDisabled (s : Setup) : bool :=
  negb (statusLoaded s) || submitting s || truthy (blockingReason s).

(** ** Handlers *)

Definition status_request (s : Setup) : request SetupPayload :=
  Request (getBasePath (injected s) ++ js "/api/setup/status") (js "GET") ∅ None ∅.

Definition account_request (s : Setup) : request SetupPayload :=
  Request (getBasePath (injected s) ++ js "/api/setup") (js "POST")
    {[ js "Content-Type" := js "application/json" ]} (Some (SendAccount (username s) (password s))) ∅.

Section Router.
(** svelte-routing's [navigate]: path, [replace] option, location before. *)
Context (rawNavigate : jstr → bool → jstr → jstr).

Definition loadStatus : handler unit :=
  statusFailed <~ false ;; error <~ [] ;;
  try_catch
    (s ← get;
     response ← fetch (status_request s);
     (if negb (ok response) then Throw (Error (js "setup status failed")) else
      body ← read_json response;
      status ← deref body;
      if b_complete status then
        modify (fun s => s <| location ::= rawNavigate (gsNavigate (injected s) (js "/login")) false |>)
      else
        statusLoaded <~ true))
    (fun _ => statusFailed <~ true ;; error <~ js "Unable to read setup status.").

Definition submit : handler unit :=
  error <~ [] ;;
  s ← get;
  if negb (passwordLengthValid s) then
    error <~ js "Password must contain between " ++ of_Z MIN_PASSWORD_BYTES ++ js " and "
             ++ of_Z MAX_PASSWORD_BYTES ++ js " UTF-8 bytes."
  else if bool_decide (password s ≠ confirmation s) then
    error <~ js "Passwords do not match."
  else
    submitting <~ true ;;
    finally
      (try_catch
         (s ← get;
          response ← fetch (account_request s);
          (if negb (ok response) then
             error <~ (if (status response =? 409)%Z
                       then js "Setup was already completed. Sign in instead."
                       else js "Setup could not be completed.")
           else
             password <~ [] ;; confirmation <~ [] ;;
             s ← get;
             assigned <~ Some (getBasePath (injected s) ++ js "/login")))
         (fun _ => error <~ js "Unable to contact GateSentry."))
      (submitting <~ false).
End Router.

(** ** What the handlers do *)

Lemma valid_truthy p : passwordHasValidByteLength p = true → truthy p = true.
Proof. by destruct p. Qed.

(** The button is enabled exactly when the status is known, nothing is being
    sent and the account is complete: a name, a password whose UTF-8 length is
    within the bounds, typed twice alike. *)
Theorem submit_enabled_spec s :
  submitDisabled s = false ↔
    statusLoaded s = true ∧ submitting s = false ∧ username s ≠ [] ∧
    (12 <= utf8ByteLength (password s) <= 72)%Z ∧ confirmation s = password s.
Proof.
  unfold submitDisabled, blockingReason, blocker, passwordLengthError, confirmationMismatch,
    passwordLengthValid.
  rewrite !orb_false_iff, negb_false_iff.
  assert ((12 <= utf8ByteLength (password s) <= 72)%Z ↔ passwordHasValidByteLength (password s) = true)
    as -> by (unfold passwordHasValidByteLength, MIN_PASSWORD_BYTES, MAX_PASSWORD_BYTES; lia).
  destruct (truthy (username s)) eqn:Hu;
    [apply truthy_true in Hu | apply truthy_false in Hu; simpl; rewrite Hu; naive_solver]. simpl.
  destruct (truthy (password s)) eqn:Hp; simpl.
  2:{ split; [by intros [_ ?]|]. intros (_ & _ & _ & H & _). apply valid_truthy in H. congruence. }
  destruct (passwordHasValidByteLength (password s)) eqn:Hv; simpl;
    [|by split; [intros [_ ?]|intros (_ & _ & _ & ? & _)]].
  destruct (truthy (confirmation s)) eqn:Hc; simpl.
  - case_bool_decide as E; simpl; split.
    + by intros [_ ?].
    + intros (_ & _ & _ & _ & H). by destruct E.
    + intros [[-> ->] _]. split_and!; auto.
    + tauto.
  - split; [by intros [_ ?]|]. intros (_ & _ & _ & _ & H). congruence.
Qed.

(** C29: Once the status is known and nothing is being sent, a disabled button is
    explained: the page shows the reason in one place and only one, as the hint
    or at the input it concerns. *)
Theorem disabled_is_explained s :
  statusLoaded s = true → submitting s = false →
  submitDisabled s = true →
  truthy (blockingReason s) = true ∧
  match blocker_field (blocker s) with
  | NoField => hint_shown s = blockingReason s
  | PasswordField => hint_shown s = [] ∧ password_invalid s = blockingReason s
  | ConfirmationField =>
      hint_shown s = [] ∧ password_invalid s = [] ∧ confirmation_invalid s = blockingReason s
  end.
Proof.
  unfold submitDisabled. intros Hl Hs. rewrite Hl, Hs. simpl. intros H. split; [done|].
  unfold hint_shown, hintMessage. fold (blockingReason s). rewrite Hl.
  unfold blockingReason, password_invalid, confirmation_invalid, blocker in *.
  split_matches; simplify_eq/=; try done.
Qed.

Lemma disabled_is_explained_witness :
  hint_shown (MkSetup None (js "/setup") None (js "owner") [] [] [] false true false)
    = js "Enter a password.".
Proof.
  apply (disabled_is_explained (MkSetup None (js "/setup") None (js "owner") [] [] [] false true false));
    reflexivity.
Defined.

Ltac setup_norm st :=
  eval cbv beta iota zeta delta [update_field injected location assigned username password
    confirmation error submitting statusLoaded statusFailed account_request status_request
    passwordLengthValid] in st.
Ltac setup_simpl := match goal with |- ?G => let G' := setup_norm G in change G' end.
Ltac setup_run := repeat (progress run_with setup_norm || rewrite fetch_run); setup_simpl.

Section Handlers.
Context (rawNavigate : jstr → bool → jstr → jstr).
Context (reply : list (request SetupPayload) → ∀ q : io_req SetupPayload, io_res SetupBody q).

(** C30: The account is sent at most once, and only when the password passes both
    tests.  When the server creates it, both secrets leave the form and the
    sign-in page is loaded; in every other case the form is kept, the page
    stays and the error says why. *)
Theorem setup_submit_spec s log :
  let '(r, s', log') := run (history reply) submit s log in
  r = inr () ∧ username s' = username s ∧ location s' = location s ∧
  let refused := error s' ≠ [] ∧ assigned s' = assigned s ∧
                 password s' = password s ∧ confirmation s' = confirmation s in
  if negb (passwordHasValidByteLength (password s)) || bool_decide (password s ≠ confirmation s)
  then refused ∧ log' = log ∧ submitting s' = submitting s
  else
    log' = log ++ [account_request s] ∧ submitting s' = false ∧
    match reply log (Fetch (account_request s)) with
    | inr answer =>
        if ok answer then
          password s' = [] ∧ confirmation s' = [] ∧ error s' = [] ∧
          assigned s' = Some (getBasePath (injected s) ++ js "/login")
        else refused ∧
             (status answer = 409%Z ↔ error s' = js "Setup was already completed. Sign in instead.")
    | inl _ => refused
    end.
Proof.
  destruct s. unfold submit. setup_run.
  destruct (passwordHasValidByteLength _); cbn [negb orb]; setup_run; [|by split_and!].
  case_bool_decide; setup_run; [by split_and!|]. unfold history at 1. simpl requests_of.
  destruct (reply log _) as [e|o]; setup_run; [by split_and!|].
  destruct (ok o); cbn [negb]; setup_run; [by split_and!|].
  do 5 (split; [done|]).
  destruct (Z.eqb_spec (status o) 409) as [E|E]; (split; [by split_and!|]); [done|].
  split; [intros H'; by destruct (E H')|]. intros H'. by vm_compute in H'.
Qed.

(** Reading the status never throws.  The form opens only when the server
    says that the setup is not complete; a completed setup leads to the
    sign-in page, and anything else is an error with the form closed as it
    was. *)
Theorem loadStatus_spec s log :
  let '(r, s', log') := run (history reply) (loadStatus rawNavigate) s log in
  r = inr () ∧ log' = log ++ [status_request s] ∧
  let failed := statusFailed s' = true ∧ error s' = js "Unable to read setup status." ∧
                statusLoaded s' = statusLoaded s ∧ location s' = location s in
  match reply log (Fetch (status_request s)) with
  | inr answer =>
      if ok answer then
        match json answer with
        | inr (Some b) =>
            statusFailed s' = false ∧ error s' = [] ∧
            statusLoaded s' = (if b_complete b then statusLoaded s else true) ∧
            location s' = (if b_complete b
                           then rawNavigate (gsNavigate (injected s) (js "/login")) false (location s)
                           else location s)
        | _ => failed
        end
      else failed
  | inl _ => failed
  end.
Proof.
  destruct s. unfold loadStatus. setup_run. unfold history at 1. simpl requests_of.
  destruct (reply log _) as [e|o]; setup_run; [by split_and!|].
  destruct (ok o); cbn [negb]; setup_run; [|by split_and!].
  destruct (json o) as [e|[b|]]; setup_run; [by split_and!| |by split_and!].
  destruct (b_complete b); setup_run; by split_and!.
Qed.
End Handlers.
