(* ===== verification/SetupView.v ===== *)
(** * The template of the first-run setup, and the form in the event loop

    The markup of [routes/setup/setup.svelte]. *)

From S2P Require Import Prelude JsString JsAsync Http Api Busy Credentials Navigation View Layout Setup.
Open Scope js_scope.

Inductive setup_event :=
| RetryStatus
| SetUsername (value : jstr)
| SetPassword (value : jstr)
| SetConfirmation (value : jstr)
| Submit.

Definition byte_bounds : jstr :=
  js "Use " ++ of_Z MIN_PASSWORD_BYTES ++ js " to " ++ of_Z MAX_PASSWORD_BYTES ++ js " UTF-8 bytes.".

Definition setup_form (s : Setup) : node setup_event :=
  El "FluidForm" [PrimaryDisabled (submitDisabled s); On "submit" Submit] [
    shown (truthy (error s)) [El "p" [lit "role" "alert"] [Text (error s)]];
    shown (statusFailed s) [
      El "Button" [lit "type" "button"; lit "kind" "secondary"; On "click" RetryStatus] [txt "Retry status check"]
    ];
    El "TextInput" [
      Flag "required" true; lit "labelText" "Administrator username"; Attr "value" (username s);
      OnAny "bind:value" SetUsername
    ] [];
    El "PasswordInput" [
      Flag "required" true; lit "labelText" "Password"; Attr "helperText" byte_bounds;
      Flag "invalid" (passwordLengthError s); Attr "invalidText" (passwordLengthMessage s);
      Attr "value" (password s); OnAny "bind:value" SetPassword
    ] [];
    El "PasswordInput" [
      Flag "required" true; lit "labelText" "Confirm password"; Flag "invalid" (confirmationMismatch s);
      lit "invalidText" "Passwords do not match."; Attr "value" (confirmation s);
      OnAny "bind:value" SetConfirmation
    ] [];
    shown (statusLoaded s && truthy (hintMessage s)) [El "p" [lit "aria-live" "polite"] [Text (hintMessage s)]];
    El "Button" [lit "type" "submit"; Disabled (submitDisabled s)] [
      txt (if submitting s then "Completing setup…" else "Complete setup")
    ]
  ].

Definition setup_view (s : Setup) : node setup_event :=
  auth_shell (js "Set up GateSentry") (js "Create the administrator account for this installation.") None
    [setup_form s].

(** What the form offers: typing always, a retry after a failed read of the
    status, and submitting exactly while the button is enabled. *)
Theorem setup_offers s e :
  offers (setup_view s) e ↔
  match e with
  | RetryStatus => statusFailed s = true
  | Submit => submitDisabled s = false
  | _ => True
  end.
Proof.
  unfold setup_view. rewrite auth_shell_offers. cbn [slot_offers any_of]. unfold setup_form. view_simpl.
  assert (negb (submitDisabled s && true) && true = negb (submitDisabled s)) as -> by by destruct (submitDisabled s).
  rewrite negb_true_iff. split.
  - intros H. view_destruct; subst; done.
  - destruct e; intros H; right; left; (split; [done|]); [right|right|right|right|left; left; by split].
    + right. left. view_find.
    + right. right. left. view_find.
    + do 3 right. left. view_find.
    + do 4 right. left. view_find.
Qed.

(** ** The event loop *)

Section Loop.
Context (rawNavigate : jstr → bool → jstr → jstr).
#[local] Abbreviation handler := (prog Setup (io_res (P := SetupPayload) SetupBody)).

Definition on_event (e : setup_event) : handler unit :=
  match e with
  | RetryStatus => loadStatus rawNavigate
  | SetUsername v => username <~ v
  | SetPassword v => password <~ v
  | SetConfirmation v => confirmation <~ v
  | Submit => submit
  end.

Definition initialSetup (base : option jstr) (at_ : jstr) : Setup :=
  MkSetup base at_ None [] [] [] [] false false false.

Definition setup_loop (base : option jstr) (at_ : jstr) :=
  loop_from (fun e s => offers (setup_view s) e) on_event (loadStatus rawNavigate) (initialSetup base at_).

Definition creates (q : io_req SetupPayload) : bool :=
  match q with Fetch r => bool_decide (rq_method r = js "POST") | _ => false end.

Lemma setup_event_safe e s : offers (setup_view s) e → flag_safe submitting creates (on_event e) s.
Proof.
  intros He. destruct e; cbn [on_event]; try (apply harmless_safe; unfold loadStatus; solve [harmless_run]).
  apply setup_offers in He. unfold submitDisabled in He. split_bools.
  unfold flag_safe, submit. guard_run.
Qed.

(** However the form is used and its requests answered, at most one account is
    being created at any time, and when no more is done the form comes to rest
    and is not submitting. *)
Theorem setup_at_rest base at_ s ts :
  setup_loop base at_ (s, ts) →
  length (List.filter (fun t => creates (th_request t)) ts) ≤ (if submitting s then 1 else 0) ∧
  Acc (flip answer_step) (s, ts) ∧
  ∀ s', rtc answer_step (s, ts) (s', []) → Forall (fun flag => flag s' = false) [submitting].
Proof.
  intros Hr. split.
  - eapply single_flight in Hr as [H _]; [exact H|intros; by apply setup_event_safe|done|].
    apply harmless_safe. unfold loadStatus. harmless_run.
  - apply (page_rests _ _ _ _ _ [submitting] Hr). apply Forall_cons. split; [|done]. split.
    + intros e s0 _. unfold on_event, loadStatus, submit. destruct e; settling_run.
    + right. split; [done|]. unfold loadStatus. settling_run.
Qed.
End Loop.
