(* ===== verification/DeviceList.v ===== *)
(** * The device inventory

    [routes/devices/devicelist.svelte] and [components/ConfirmDialog.svelte]:
    the table of devices, the removal of a device and the notice that follows a
    change.  [now] is the browser's clock and [getTime] is
    [new Date(text).getTime()], with [None] for [NaN]. *)

From S2P Require Import Prelude JsString JsAsync Timers Http Navigation.
Open Scope js_scope.

(** ** Data *)

Record TailscaleNode := MkNode {
  node_id : jstr;
  node_name : jstr;
  node_dns_name : jstr;
  node_online : bool
}.

(** A string the server leaves out is the empty one: the page tests each with
    [||]. *)
Record Device := MkDevice {
  id : jstr;
  dev_display_name : jstr;
  dns_name : jstr;
  manual_name : jstr;
  ipv4 : jstr;
  ipv6 : jstr;
  source : jstr;
  last_seen : jstr;
  online : bool;
  owner : jstr;
  category : jstr;
  tailscale_nodes : option (list TailscaleNode)
}.

Record DeviceRow := MkRow {
  row_device : Device;
  row_status : jstr;
  display_name : jstr;
  address_display : jstr;
  tailscale_display : jstr;
  last_seen_display : jstr
}.

Record ListBody := MkListBody { b_devices : option (list Device) }.

Record Inventory := MkInventory {
  injected : option jstr;
  jwt : option jstr;
  now : Z;
  devices : list DeviceRow;
  loading : bool;
  loaded : bool;
  error : jstr;
  success : jstr;
  selectedDevice : option DeviceRow;
  detailOpen : bool;
  pendingRemoval : option DeviceRow;
  removing : bool;
  refreshInterval : bool;
  noticeTimer : option nat;
  clock : timers unit
}.
#[export] Instance Inventory_eta : Settable Inventory := fun s =>
  MkInventory (injected s) (jwt s) (now s) (devices s) (loading s) (loaded s) (error s) (success s)
    (selectedDevice s) (detailOpen s) (pendingRemoval s) (removing s) (refreshInterval s)
    (noticeTimer s) (clock s).

#[local] Abbreviation handler := (prog Inventory (io_res (P := Empty_set) ListBody)).

Definition API_BASE (s : Inventory) : jstr := getBasePath (injected s) ++ js "/api/devices".
Definition getToken (s : Inventory) : jstr := opt_or (jwt s) [].
Definition authHeader (s : Inventory) : gmap jstr jstr :=
  {[ js "Authorization" := js "Bearer " ++ getToken s ]}.

(** ** Rows *)

Section Rows.
Context (getTime : jstr → option Z).

Definition formatTimeAgo (isoDate : jstr) (now : Z) : jstr :=
  if negb (truthy isoDate) then js "Never" else
  match getTime isoDate with
  | None => js "NaNd ago"
  | Some date =>
      let diffSec := ((now - date) / 1000)%Z in
      if (diffSec <? 60)%Z then js "Just now" else
      let diffMin := (diffSec / 60)%Z in
      if (diffMin <? 60)%Z then of_Z diffMin ++ js "m ago" else
      let diffHr := (diffMin / 60)%Z in
      if (diffHr <? 24)%Z then of_Z diffHr ++ js "h ago" else
      of_Z (diffHr / 24) ++ js "d ago"
  end.

Definition formatDevice (now : Z) (d : Device) : DeviceRow := {|
  row_device := d;
  row_status := if online d then js "online" else js "offline";
  display_name := str_or (manual_name d) (str_or (dev_display_name d) (str_or (dns_name d) (js "Unknown")));
  address_display := str_or (ipv4 d) (str_or (ipv6 d) (js "—"));
  tailscale_display :=
    match tailscale_nodes d with
    | None | Some [] => js "—"
    | Some nodes => joinStr (js ", ") ((fun n => str_or (node_name n) (node_dns_name n)) <$> nodes)
    end;
  last_seen_display := formatTimeAgo (last_seen d) now
|}.

(** ** Handlers *)

Definition showSuccess (message : jstr) (s : Inventory) : Inventory :=
  let s := s <| success := message |> <| clock ::= clearTimeout (noticeTimer s) |> in
  let '(id, c) := setTimeout () (clock s) in
  s <| noticeTimer := Some id |> <| clock := c |>.

Definition list_request (s : Inventory) : request Empty_set :=
  Request (API_BASE s) (js "GET") (authHeader s) None ∅.

Definition loadDevices : handler unit :=
  loading <~ true ;; error <~ [] ;;
  finally
    (try_catch
       (s ← get;
        if negb (truthy (getToken s)) then Throw (Error (js "Please login first to view devices"))
        else
          response ← fetch (list_request s);
          if (status response =? 401)%Z then
            Throw (Error (js "Authentication failed. Please login again"))
          else if (status response =? 503)%Z then devices <~ []
          else if negb (ok response) then
            errorText ← read_text response;
            Throw (Error (js "Failed to load devices: " ++ of_Z (status response) ++ js " - " ++ errorText))
          else
            body ← read_json response;
            data ← deref body;
            modify (fun s => s <| devices := formatDevice (now s) <$> default [] (b_devices data) |>))
       (fun err => error <~ message_or err (js "Devices could not be loaded")))
    (modify (fun s => s <| loading := false |> <| loaded := true |>)).

Definition openDetail (device : DeviceRow) (s : Inventory) : Inventory :=
  s <| selectedDevice := Some device |> <| detailOpen := true |>.

Definition closeDetail (s : Inventory) : Inventory :=
  s <| detailOpen := false |> <| selectedDevice := None |>.

Definition handleNameSaved : handler unit :=
  modify closeDetail ;;
  modify (showSuccess (js "Device updated successfully")) ;;
  loadDevices.

Definition requestRemoval (row : DeviceRow) (s : Inventory) : Inventory :=
  s <| pendingRemoval := Some row |>.

(** The dialog's [close] event, and its cancel button, which is refused by
    the dialog itself while [busy]. *)
Definition closeRemoval (s : Inventory) : Inventory :=
  if removing s then s else s <| pendingRemoval := None |>.

Definition removal_request (device : DeviceRow) (s : Inventory) : request Empty_set :=
  Request (API_BASE s ++ js "/" ++ id (row_device device)) (js "DELETE") (authHeader s) None ∅.

Definition confirmRemoval : handler unit :=
  s ← get;
  match pendingRemoval s with
  | None => Ret ()
  | Some device =>
      if removing s then Ret () else
      removing <~ true ;; error <~ [] ;;
      finally
        (try_catch
           (s ← get;
            response ← fetch (removal_request device s);
            if negb (ok response) then
              errorText ← read_text response;
              Throw (Error (js "Failed to remove device: " ++ errorText))
            else
              pendingRemoval <~ None ;;
              modify (showSuccess ([34%N] ++ display_name device ++ [34%N] ++ js " removed")) ;;
              loadDevices)
           (fun err => error <~ message_or err (js "Device could not be removed")))
        (removing <~ false)
  end.

Definition onMount : handler unit :=
  modify (fun s => s <| refreshInterval := true |>) ;; loadDevices.

Definition onDestroy (s : Inventory) : Inventory :=
  s <| refreshInterval := false |> <| clock ::= clearTimeout (noticeTimer s) |>.

Definition noticeFired (timer : nat) (s : Inventory) : Inventory :=
  s <| success := [] |> <| clock ::= clearTimeout (Some timer) |>.

(** ** The page *)

Inductive inventory_view := LoadingView | ErrorView (message : jstr) | EmptyView | Table (rows : list DeviceRow).

Definition view_of (s : Inventory) : inventory_view :=
  if loading s && negb (loaded s) then LoadingView
  else if truthy (error s) && is_nil (devices s) then ErrorView (error s)
  else if is_nil (devices s) then EmptyView
  else Table (devices s).

(** The events of the mounted page and what runs on each: [Interval] is the
    30 second timer, and time passes between events. *)
Inductive inventory_event :=
| Refresh
| Interval
| OpenDetail (row : DeviceRow)
| CloseDetail
| NameSaved
| TailscaleChanged
| RequestRemoval (row : DeviceRow)
| CloseRemoval
| ConfirmRemoval
| DismissNotice
| DismissError
| NoticeFired (timer : nat)
| Tick (ms : N)
| Destroy.

Definition enabled (e : inventory_event) (s : Inventory) : Prop :=
  match e with
  | Interval => refreshInterval s = true
  | OpenDetail row | RequestRemoval row => row ∈ devices s
  | CloseDetail | NameSaved | TailscaleChanged => detailOpen s = true
  | NoticeFired timer => callback_of timer (clock s) = Some ()
  | _ => True
  end.

Definition on_event (e : inventory_event) : handler unit :=
  match e with
  | Refresh | Interval | TailscaleChanged => loadDevices
  | OpenDetail row => modify (openDetail row)
  | CloseDetail => modify closeDetail
  | NameSaved => handleNameSaved
  | RequestRemoval row => modify (requestRemoval row)
  | CloseRemoval => modify closeRemoval
  | ConfirmRemoval => confirmRemoval
  | DismissNotice => success <~ []
  | DismissError => error <~ []
  | NoticeFired timer => modify (noticeFired timer)
  | Tick ms => modify (fun s => s <| now ::= fun t => (t + Z.of_N ms)%Z |>)
  | Destroy => modify onDestroy
  end.
End Rows.

(** The page once [setInterval] has been called. *)
Definition mounted (injected jwt : option jstr) (now : Z) : Inventory := {|
  injected := injected; jwt := jwt; now := now; devices := []; loading := false; loaded := false;
  error := []; success := []; selectedDevice := None; detailOpen := false; pendingRemoval := None;
  removing := false; refreshInterval := true; noticeTimer := None; clock := no_timers
|}.

(** ** Elapsed time *)

Inductive unit_of_time : jstr → Z → Z → Z → Prop :=
| Minutes : unit_of_time (js "m ago") 60 1 59
| Hours : unit_of_time (js "h ago") 3600 1 23
| Days n : (1 <= n)%Z → unit_of_time (js "d ago") 86400 1 n.

(** A device seen under a minute ago, or in the future, is "Just now"; every
    other time is shown in the largest unit of which at least one has passed,
    rounded down. *)
Theorem formatTimeAgo_spec getTime isoDate now date :
  isoDate ≠ [] → getTime isoDate = Some date →
  if (now - date <? 60000)%Z then formatTimeAgo getTime isoDate now = js "Just now"
  else ∃ n label seconds most,
    formatTimeAgo getTime isoDate now = of_Z n ++ label ∧
    unit_of_time label seconds 1 most ∧ (1 <= n <= most)%Z ∧
    (n * seconds * 1000 <= now - date < (n + 1) * seconds * 1000)%Z.
Proof.
  intros Hne Hdate. unfold formatTimeAgo. apply truthy_true in Hne. rewrite Hne, Hdate. simpl negb.
  cbv iota zeta.
  assert (((now - date) / 1000 <? 60)%Z = (now - date <? 60000)%Z) as ->.
  { destruct (Z.ltb_spec (now - date) 60000); [apply Z.ltb_lt|apply Z.ltb_ge].
    - apply Z.div_lt_upper_bound; lia.
    - apply Z.div_le_lower_bound; lia. }
  destruct (Z.ltb_spec (now - date) 60000) as [|Hge]; [done|].
  rewrite !Z.div_div by lia. change (1000 * 60)%Z with 60000%Z.
  change (60000 * 60)%Z with 3600000%Z. change (3600000 * 24)%Z with 86400000%Z.
  pose proof (fun d => Z.div_mod (now - date) d) as Hdiv.
  pose proof (fun d => Z.mod_pos_bound (now - date) d) as Hmod.
  pose proof (Hdiv 60000%Z ltac:(lia)). pose proof (Hmod 60000%Z ltac:(lia)).
  pose proof (Hdiv 3600000%Z ltac:(lia)). pose proof (Hmod 3600000%Z ltac:(lia)).
  pose proof (Hdiv 86400000%Z ltac:(lia)). pose proof (Hmod 86400000%Z ltac:(lia)).
  clear Hdiv Hmod.
  destruct (Z.ltb_spec ((now - date) / 60000) 60).
  { exists ((now - date) / 60000)%Z, (js "m ago"), 60%Z, 59%Z. split_and!; [reflexivity|constructor|lia..]. }
  destruct (Z.ltb_spec ((now - date) / 3600000) 24).
  { exists ((now - date) / 3600000)%Z, (js "h ago"), 3600%Z, 23%Z. split_and!; [reflexivity|constructor|lia..]. }
  exists ((now - date) / 86400000)%Z, (js "d ago"), 86400%Z, ((now - date) / 86400000)%Z.
  split_and!; [reflexivity|constructor|..]; lia.
Qed.

Lemma formatTimeAgo_spec_witness :
  formatTimeAgo (fun _ => Some 0%Z) (js "1970-01-01T00:00:00Z") 7200000 = js "2h ago".
Proof.
  pose proof (formatTimeAgo_spec (fun _ => Some 0%Z) (js "1970-01-01T00:00:00Z") 7200000 0
    ltac:(done) eq_refl) as H.
  simpl in H. destruct H as (n & label & seconds & most & H & Hu & Hn & Hb). rewrite H.
  inversion Hu; subst.
  - lia.
  - by replace n with 2%Z by lia.
  - lia.
Defined.

(** ** What the handlers do *)

Ltac inv_norm st :=
  eval cbv beta iota zeta delta [update_field injected jwt now devices loading loaded error success
    selectedDevice detailOpen pendingRemoval removing refreshInterval noticeTimer clock
    API_BASE getToken authHeader list_request removal_request] in st.
Ltac inv_simpl := match goal with |- ?G => let G' := inv_norm G in change G' end.
Ltac inv_run := repeat (progress run_with inv_norm || rewrite fetch_run); inv_simpl.

Section Handlers.
Context (getTime : jstr → option Z).
Context (reply : list (request Empty_set) → ∀ q : io_req Empty_set, io_res ListBody q).

Definition listed (o : result (response ListBody)) : result (list Device) :=
  match o with
  | inl e => inl e
  | inr r =>
      if (status r =? 401)%Z then inl (Error (js "Authentication failed. Please login again"))
      else if (status r =? 503)%Z then inr []
      else if ok r then
        match json r with
        | inl e => inl e
        | inr None => inl TypeError
        | inr (Some b) => inr (default [] (b_devices b))
        end
      else match text r with
           | inl e => inl e
           | inr t => inl (Error (js "Failed to load devices: " ++ of_Z (status r) ++ js " - " ++ t))
           end
  end.

Definition after_list (o : result (list Device)) (s : Inventory) : Inventory :=
  match o with
  | inl e => s <| error := message_or e (js "Devices could not be loaded") |>
  | inr l => s <| devices := formatDevice getTime (now s) <$> l |> <| error := [] |>
  end <| loading := false |> <| loaded := true |>.

(** How [loadDevices] ends: it asks only with a token. *)
Definition reloaded (s : Inventory) (log : list (request Empty_set)) : Inventory * list (request Empty_set) :=
  if truthy (getToken s)
  then (after_list (listed (reply log (Fetch (list_request s)))) s, log ++ [list_request s])
  else (after_list (inl (Error (js "Please login first to view devices"))) s, log).

Lemma loadDevices_run s log :
  run (history reply) (loadDevices getTime) s log = (inr (), (reloaded s log).1, (reloaded s log).2).
Proof.
  destruct s. unfold loadDevices, reloaded, after_list, listed. inv_run.
  destruct (truthy _); cbn [negb]; inv_run; [|done]. unfold history at 1. simpl requests_of.
  destruct (reply log _) as [e|r]; inv_run; [done|].
  destruct (status r =? 401)%Z; inv_run; [done|].
  destruct (status r =? 503)%Z; inv_run; [done|].
  destruct (ok r); cbn [negb]; inv_run.
  - destruct (json r) as [e|[b|]]; inv_run; done.
  - destruct (text r) as [e|t]; inv_run; done.
Qed.

(** What is sent when a removal is confirmed, and what the page shows after
    it.  A device is removed once, and not while another removal runs.  When
    the server refuses, the question stays open under the error, the table
    is kept and nothing else is asked; when it agrees, the question is closed
    and the inventory is read again, so the table is what the server then
    lists.  It never throws. *)
Theorem confirmRemoval_spec s log :
  let '(r, s', log') := run (history reply) (confirmRemoval getTime) s log in
  r = inr () ∧
  match pendingRemoval s with
  | None => s' = s ∧ log' = log
  | Some device =>
      if removing s then s' = s ∧ log' = log else
      let refused e :=
        error s' = message_or e (js "Device could not be removed") ∧
        pendingRemoval s' = Some device ∧ devices s' = devices s ∧ success s' = success s ∧
        log' = log ++ [removal_request device s] in
      removing s' = false ∧
      match reply log (Fetch (removal_request device s)) with
      | inl e => refused e
      | inr answer =>
          if ok answer then
            let '(shown, log1) := reloaded s (log ++ [removal_request device s]) in
            log' = log1 ∧ pendingRemoval s' = None ∧ devices s' = devices shown ∧
            success s' = [34%N] ++ display_name device ++ [34%N] ++ js " removed" ∧
            error s' = error shown
          else refused (match text answer with
                        | inl e => e
                        | inr t => Error (js "Failed to remove device: " ++ t)
                        end)
      end
  end.
Proof.
  destruct s as [i j nw ds ld lo er su sel dop pend rem ri nt c].
  unfold confirmRemoval. inv_run. destruct pend as [device|]; [|done].
  destruct rem; inv_run; [done|]. unfold history at 1. simpl requests_of.
  destruct (reply log _) as [e|o]; inv_run; [done|].
  destruct (ok o); cbn [negb]; inv_run.
  - unfold showSuccess. cbn [setTimeout]. rewrite loadDevices_run. unfold reloaded. inv_simpl.
    unfold after_list. destruct (truthy _); [destruct (listed _) as [e|l]|];
      inv_simpl; split_and!; reflexivity.
  - destruct (text o) as [e|t]; inv_run; done.
Qed.
End Handlers.

(** ** The event loop *)

(** [given q r]: [r] is one of the answers that the server gives to [q]. *)
Section Loop.
Context (getTime : jstr → option Z).
Context (given : ∀ q : io_req Empty_set, io_res ListBody q → Prop).

Definition inventory_reachable (s0 s : Inventory) (ts : list (thread Inventory (io_res (P := Empty_set) ListBody))) : Prop :=
  reachable_given enabled (on_event getTime) given s0 (s, ts).

(** The server has listed the device in an answer that the page asked for. *)
Definition from_server (d : Device) : Prop :=
  ∃ w r l, rq_method w = js "GET" ∧ given (Fetch w) r ∧ listed r = inr l ∧ d ∈ l.

(** A row of the table shows a device that the server listed, as it was at
    some past time. *)
Definition genuine (s : Inventory) (row : DeviceRow) : Prop :=
  ∃ t d, (t <= now s)%Z ∧ from_server d ∧ row = formatDevice getTime t d.

Record inventory_ok (s : Inventory) : Prop := {
  ok_clock : timers_wf (clock s);
  ok_timer : ∀ x, x ∈ armed (clock s) → noticeTimer s = Some x.1;
  ok_notice : refreshInterval s = true → success s ≠ [] → armed (clock s) ≠ [];
  ok_dialog : detailOpen s = true ↔ is_Some (selectedDevice s);
  ok_rows : ∀ row, row ∈ devices s ∨ selectedDevice s = Some row ∨ pendingRemoval s = Some row →
    genuine s row
}.

#[local] Abbreviation keeps_ok p s := (wp_given given inventory_ok p (fun _ s' => inventory_ok s') s).

Lemma showSuccess_ok m s : inventory_ok s → inventory_ok (showSuccess m s).
Proof.
  intros [Hc Ht Hn Hd Hr]. unfold showSuccess. simpl.
  assert (armed (clearTimeout (noticeTimer s) (clock s)) = []) as Hnil.
  { destruct (armed (clearTimeout _ _)) as [|x l] eqn:E; [done|].
    assert (x ∈ armed (clearTimeout (noticeTimer s) (clock s))) as Hx by (rewrite E; left).
    destruct (noticeTimer s) as [id|] eqn:Hid.
    - apply elem_of_clear in Hx as [Hx Hne]. apply Ht in Hx. congruence.
    - apply Ht in Hx. congruence. }
  split; simpl; try done.
  - exact (setTimeout_wf () _ (clearTimeout_wf (noticeTimer s) _ Hc)).
  - rewrite Hnil. intros x Hx. by apply list_elem_of_singleton in Hx as ->.
  - by rewrite Hnil.
Qed.

Lemma devices_ok l s : Forall from_server l → inventory_ok s →
  inventory_ok (s <| devices := formatDevice getTime (now s) <$> l |>).
Proof.
  intros Hl [Hc Ht Hn Hd Hr]. split; simpl; try done.
  intros row [(d & -> & Hin)%list_elem_of_fmap|H]; [|by apply Hr; right].
  exists (now s), d. simpl. split_and!; [lia|by eapply Forall_forall in Hin|done].
Qed.

Lemma no_devices_ok s : inventory_ok s → inventory_ok (s <| devices := [] |>).
Proof. intros [Hc Ht Hn Hd Hr]. split; simpl; try done. intros row [[]%elem_of_nil|H]. exact (Hr row (or_intror H)). Qed.

(** The part of the state that the invariant reads. *)
Definition core (s : Inventory) :=
  (now s, clock s, noticeTimer s, refreshInterval s, success s,
   (detailOpen s, selectedDevice s, devices s, pendingRemoval s)).

Lemma inventory_core_ok s s' : core s = core s' → inventory_ok s → inventory_ok s'.
Proof.
  unfold core. intros H Hs. simplify_eq. destruct s, s'; simpl in *; subst.
  by destruct Hs.
Qed.

Lemma loadDevices_ok s : inventory_ok s → keeps_ok (loadDevices getTime) s.
Proof.
  intros Hs. unfold loadDevices. wp_run.
  destruct (truthy _); wp_run; [|by apply (inventory_core_ok s)].
  split; [by apply (inventory_core_ok s)|]. intros o s' Hs' Hg.
  assert (∀ l, listed o = inr l → Forall from_server l) as Hl.
  { intros l Hl. apply Forall_forall. intros d Hd. by exists (list_request (s <| loading := true |> <| error := [] |>)), o, l. }
  destruct o as [e|r]; wp_run; [by apply (inventory_core_ok s')|]. unfold listed in Hl.
  destruct (status r =? 401)%Z; wp_run; [by apply (inventory_core_ok s')|].
  destruct (status r =? 503)%Z; wp_run; [by eapply inventory_core_ok; [|exact (no_devices_ok _ Hs')]|].
  destruct (ok r); wp_run.
  - unfold read_json. destruct (json r) as [e|[b|]]; wp_run; [by apply (inventory_core_ok s')| |by apply (inventory_core_ok s')].
    by eapply inventory_core_ok; [|exact (devices_ok (default [] (b_devices b)) _ (Hl _ eq_refl) Hs')].
  - unfold read_text. destruct (text r); wp_run; by apply (inventory_core_ok s').
Qed.

Lemma confirmRemoval_ok s : inventory_ok s → keeps_ok (confirmRemoval getTime) s.
Proof.
  intros Hs. unfold confirmRemoval. wp_run.
  destruct (pendingRemoval s) as [device|] eqn:Hp; wp_run; [|done].
  destruct (removing s); wp_run; [done|].
  split; [by apply (inventory_core_ok s)|]. intros [e|r] s' Hs' _; wp_run; [by apply (inventory_core_ok s')|].
  destruct (ok r); wp_run.
  - eapply wp_mono; [|apply loadDevices_ok, showSuccess_ok].
    { intros [e|[]] s'' Hs''; wp_run; by apply (inventory_core_ok s''). }
    destruct Hs' as [Hc Ht Hn Hd Hr]. split; simpl; try done.
    intros row [H|[H|H]]; [by apply Hr; left|by apply Hr; right; left|done].
  - unfold read_text. destruct (text r); wp_run; by apply (inventory_core_ok s').
Qed.

Lemma closeDetail_ok s : inventory_ok s → inventory_ok (closeDetail s).
Proof.
  intros [Hc Ht Hn Hd Hr]. split; simpl; try done.
  intros row [H|[H|H]]; [by apply Hr; left|done|by apply Hr; right; right].
Qed.

Lemma drop_timer_ok o s : inventory_ok s →
  (refreshInterval s = true → success s = []) →
  inventory_ok (s <| clock ::= clearTimeout o |>).
Proof.
  intros [Hc Ht Hn Hd Hr] H. split; simpl; try done.
  - by apply clearTimeout_wf.
  - intros x Hx. apply Ht. destruct o; [by apply elem_of_clear in Hx as [? _]|done].
  - intros Hi Hne. by destruct (Hne (H Hi)).
Qed.

Lemma inventory_event_ok e s : inventory_ok s → enabled e s → keeps_ok (on_event getTime e) s.
Proof.
  intros Hs He. destruct e; simpl on_event.
  1-2,6: by apply loadDevices_ok.
  - wp_run. destruct Hs as [Hc Ht Hn Hd Hr]. split; simpl; try done.
    intros r [H|[[= <-]|H]]; [by apply Hr; left|by apply Hr; left|by apply Hr; right; right].
  - wp_run. by apply closeDetail_ok.
  - unfold handleNameSaved. wp_run. by apply loadDevices_ok, showSuccess_ok, closeDetail_ok.
  - wp_run. destruct Hs as [Hc Ht Hn Hd Hr]. split; simpl; try done.
    intros r [H|[H|[= <-]]]; [by apply Hr; left|by apply Hr; right; left|by apply Hr; left].
  - wp_run. unfold closeRemoval. destruct (removing s); [done|].
    destruct Hs as [Hc Ht Hn Hd Hr]. split; simpl; try done.
    intros r [H|[H|H]]; [by apply Hr; left|by apply Hr; right; left|done].
  - by apply confirmRemoval_ok.
  - wp_run. destruct Hs as [Hc Ht Hn Hd Hr]. by split.
  - wp_run. by apply (inventory_core_ok s).
  - wp_run. apply (drop_timer_ok (Some timer) (s <| success := [] |>)); [|done].
    destruct Hs as [Hc Ht Hn Hd Hr]. by split.
  - wp_run. destruct Hs as [Hc Ht Hn Hd Hr]. split; simpl; try done.
    intros row Hrow. destruct (Hr row Hrow) as (t & d & Ht' & Hd' & ->). exists t, d. simpl. split_and!; [lia|done..].
  - wp_run. apply (drop_timer_ok (noticeTimer s) (s <| refreshInterval := false |>)); [|done].
    destruct Hs as [Hc Ht Hn Hd Hr]. by split.
Qed.

Lemma mounted_ok i j t : inventory_ok (mounted i j t).
Proof.
  split; simpl; try done.
  - apply no_timers_wf.
  - intros x Hx. by apply elem_of_nil in Hx.
  - intros row [[]%elem_of_nil|[?|?]]; done.
Qed.

Lemma inventory_reachable_ok i j t s ts :
  inventory_reachable (mounted i j t) s ts → inventory_ok s.
Proof.
  intros H. eapply (invariant_given given inventory_ok); [|apply mounted_ok|exact H].
  intros e s' Hs' He. by apply inventory_event_ok.
Qed.

(** C25: Whatever the user does and in whatever order the requests are answered,
    on the mounted page: a notice that is shown has its timer running, the
    one that [noticeTimer] names and no other, so it goes away by itself and
    never takes a later notice with it; the device dialog is open exactly
    when a device is selected; and every row, also the one in the dialog or
    in the question about removing it, is what [formatDevice] makes, at some
    time that is past, of a device in the list of an answer that the server
    gave to a request for the inventory. *)
Theorem inventory_invariant i j t s ts :
  inventory_reachable (mounted i j t) s ts →
  (refreshInterval s = true → success s ≠ [] →
     ∃ id, noticeTimer s = Some id ∧ armed (clock s) = [(id, ())]) ∧
  (detailOpen s = true ↔ is_Some (selectedDevice s)) ∧
  ∀ row, row ∈ devices s ∨ selectedDevice s = Some row ∨ pendingRemoval s = Some row →
    ∃ t d w r l, (t <= now s)%Z ∧ row = formatDevice getTime t d ∧
      rq_method w = js "GET" ∧ given (Fetch w) r ∧ listed r = inr l ∧ d ∈ l.
Proof.
  intros Hr%inventory_reachable_ok. destruct Hr as [[Hnd _] Ht Hn Hd Hr].
  split_and!; [|done|]; [|intros row Hrow; destruct (Hr row Hrow) as (u & d & Hu & (w & r & l & H) & ->);
    by exists u, d, w, r, l]. intros Hi Hs. specialize (Hn Hi Hs).
  destruct (armed (clock s)) as [|[id []] l]; [done|]. exists id.
  pose proof (Ht (id, ()) ltac:(left)) as Hid. split; [done|]. destruct l as [|x l]; [done|].
  exfalso. pose proof (Ht x ltac:(right; left)) as Hx. rewrite Hid in Hx. injection Hx as Hx.
  simpl in Hnd. apply NoDup_cons in Hnd as [Hnd _]. apply Hnd. rewrite Hx. left.
Qed.

(** A [loadDevices] that has asked, and how it ends when the inventory [l]
    comes back. *)
Lemma load_thread s :
  truthy (getToken s) = true →
  ∃ k, advance (loadDevices getTime) s
         = (s <| loading := true |> <| error := [] |>, Some (Thread (Fetch (list_request s)) k)) ∧
    ∀ l s', ∃ r : result (response ListBody),
      advance (k r) s' = (s' <| devices := formatDevice getTime (now s') <$> l |>
                             <| loading := false |> <| loaded := true |>, None).
Proof.
  intros Ht. eexists. split.
  - unfold loadDevices. simpl. change (getToken _) with (getToken s). rewrite Ht. reflexivity.
  - intros l s'. exists (inr (Response 200 (inr []) None (inr (Some (MkListBody (Some l)))))). done.
Qed.

(** [loadDevices] does not wait for a reload that is already running: of two
    overlapping reloads the answer that arrives last is the one shown, also
    when it belongs to the earlier request, and the page stops saying that it
    is loading at the first. *)
Theorem overlapping_reloads s older newer :
  truthy (getToken s) = true → refreshInterval s = true →
  ∃ s1 t1 s2 t2 s3 s4,
    step enabled (on_event getTime) (s, []) (s1, [t1]) ∧
    step enabled (on_event getTime) (s1, [t1]) (s2, [t1; t2]) ∧
    step enabled (on_event getTime) (s2, [t1; t2]) (s3, [t1]) ∧
    devices s3 = formatDevice getTime (now s) <$> newer ∧ loading s3 = false ∧
    step enabled (on_event getTime) (s3, [t1]) (s4, []) ∧
    devices s4 = formatDevice getTime (now s) <$> older.
Proof.
  intros Ht Hi. destruct (load_thread s Ht) as (k1 & H1 & Hk1).
  set (s1 := update_field error _ _) in H1.
  destruct (load_thread s1 Ht) as (k2 & H2 & Hk2).
  set (s2 := update_field error _ s1 <| loading := true |>) in H2.
  destruct (Hk2 newer s2) as (r2 & Hr2). set (s3 := update_field loaded _ _) in Hr2.
  destruct (Hk1 older s3) as (r1 & Hr1). set (s4 := update_field loaded _ _) in Hr1.
  exists s1, (Thread _ k1), s2, (Thread _ k2), s3, s4. split_and!; try done.
  - by apply (step_event enabled (on_event getTime) Interval s s1 [] (Some (Thread _ k1))).
  - by apply (step_event enabled (on_event getTime) Interval s1 s2 [_] (Some (Thread _ k2))).
  - by apply (step_answer enabled (on_event getTime) _ k2 r2 s2 s3 [_] [] None).
  - by apply (step_answer enabled (on_event getTime) _ k1 r1 s3 s4 [] [] None).
Qed.
End Loop.

Definition laptop : Device :=
  MkDevice (js "d1") (js "Laptop") [] [] (js "10.0.0.2") [] (js "dns") (js "1970-01-01T00:00:00Z") true [] [] None.

Definition sample : Inventory :=
  mounted None (Some (js "t")) 5000.

(** A server that lists the laptop, and the page when it has asked once. *)
Definition one_device (q : io_req Empty_set) : io_res ListBody q → Prop :=
  match q with
  | Fetch w => fun r => r = inr (Response 200 (inr []) None (inr (Some (MkListBody (Some [laptop])))))
  | _ => fun _ => True
  end.

Definition once_loaded : Inventory :=
  sample <| loading := false |> <| loaded := true |>
         <| devices := [formatDevice (fun _ => None) 5000 laptop] |>.

Lemma once_loaded_reachable : inventory_reachable (fun _ => None) one_device sample once_loaded [].
Proof.
  eapply reach_given_step; [eapply reach_given_step; [apply reach_given_init|]|].
  - apply (given_event _ _ one_device Interval sample (sample <| loading := true |>) [] (advance (on_event (fun _ => None) Interval) sample).2); reflexivity.
  - eapply (given_answer _ _ one_device (Fetch _) _ (inr (Response 200 (inr []) None (inr (Some (MkListBody (Some [laptop])))))) _ _ [] [] None); reflexivity.
Defined.

Lemma inventory_invariant_witness :
  (detailOpen once_loaded = true ↔ is_Some (selectedDevice once_loaded)) ∧
  ∃ t d w r l, formatDevice (fun _ => None) 5000 laptop = formatDevice (fun _ => None) t d ∧
    one_device (Fetch w) r ∧ listed r = inr l ∧ d ∈ l.
Proof.
  destruct (inventory_invariant (fun _ => None) one_device None (Some (js "t")) 5000 once_loaded []
    once_loaded_reachable) as (_ & H1 & H2). split; [exact H1|].
  destruct (H2 (formatDevice (fun _ => None) 5000 laptop)) as (t & d & w & r & l & _ & Hd & _ & Hg & Hl & Hin);
    [left; left|]. by exists t, d, w, r, l.
Defined.

Lemma overlapping_reloads_witness :
  ∃ s, devices s = [formatDevice (fun _ => None) 5000 laptop].
Proof.
  destruct (overlapping_reloads (fun _ => None) sample [laptop] [] eq_refl eq_refl)
    as (s1 & t1 & s2 & t2 & s3 & s4 & _ & _ & _ & _ & _ & _ & H).
  by exists s4.
Defined.
