(* ===== verification/DeviceListView.v ===== *)
(** * The template of the device inventory, and the inventory in the event
    loop

    The markup of [routes/devices/devicelist.svelte].  The device panel is the
    component of [DeviceDetail] and [DeviceActivity]; here it is the three
    events it sends. *)

From S2P Require Import Prelude JsString JsAsync Timers Http Busy View Layout Navigation DeviceList.
Open Scope js_scope.

Section View.
Context (translator : jstr → jstr).

Definition headers : list (jstr * jstr) := [
  (js "status", js "Status"); (js "display_name", js "Device"); (js "address_display", js "Address");
  (js "tailscale_display", js "Tailscale"); (js "last_seen_display", js "Last seen"); (js "actions", [])
].

Definition online_tag (b : bool) (content : list (node inventory_event)) : node inventory_event :=
  El "Tag" [lit "type" (if b then "green" else "warm-gray")] content.

(** [openDetailRow] and [requestRemoval] get the row of the cell. *)
Definition openDetailRow (row : DeviceRow) : inventory_event := OpenDetail row.

Definition name_cell (row : DeviceRow) : list (node inventory_event) :=
  let d := row_device row in [
  El "button" [On "click" (openDetailRow row)] [Text (display_name row)];
  shown (negb (truthy (manual_name d)) && negb (bool_decide (source d = js "manual"))) [
    El "Tag" [lit "type" "cyan"] [txt "Automatic"]
  ];
  shown (truthy (owner d) || truthy (category d)) [
    El "span" [] [Text (joinStr (js " · ") (List.filter truthy [owner d; category d]))]
  ]
].

Definition tailscale_cell (row : DeviceRow) : list (node inventory_event) := [
  alt (negb (is_nil (default [] (tailscale_nodes (row_device row))))) [
    El "div" [] [
      each (default [] (tailscale_nodes (row_device row))) (fun node => [
        online_tag (node_online node) [Text (str_or (str_or (node_name node) (node_dns_name node)) (node_id node))]])
    ]
  ] [txt "—"]
].

Definition actions_cell (row : DeviceRow) : list (node inventory_event) := [
  El "OverflowMenu" [lit "aria-label" "Device actions"] [
    El "OverflowMenuItem" [lit "text" "View details"; On "click" (openDetailRow row)] [];
    El "OverflowMenuItem" [lit "text" "Manage Tailscale links"; On "click" (openDetailRow row)] [];
    El "OverflowMenuItem" [lit "text" "Remove"; On "click" (RequestRemoval row)] []
  ]
].

Definition cell (row : DeviceRow) (key : jstr) : list (node inventory_event) := [
  alt (bool_decide (key = js "status"))
    [online_tag (online (row_device row)) [txt (if online (row_device row) then "Online" else "Offline")]] [
  alt (bool_decide (key = js "display_name")) (name_cell row) [
  alt (bool_decide (key = js "tailscale_display")) (tailscale_cell row) [
  alt (bool_decide (key = js "actions")) (actions_cell row) [
  Text (str_or (if bool_decide (key = js "address_display") then address_display row else last_seen_display row)
          (js "—"))]]]]
].

Definition table (s : Inventory) : node inventory_event :=
  data_table headers (devices s) [
    El "Toolbar" [] [El "ToolbarContent" [] [El "ToolbarSearch" [lit "placeholder" "Search devices…"] []]]
  ] cell.

Definition inventory_body (s : Inventory) : node inventory_event :=
  match view_of s with
  | LoadingView => resource_state Loading [] (js "Loading network devices…") [] None []
  | ErrorView message =>
      resource_state Failed (js "Unable to load network devices") message (js "Retry") (Some Refresh) []
  | EmptyView =>
      resource_state Empty (js "No devices discovered yet")
        (js "GateSentry will list devices after it observes DNS or proxy traffic.") [] None []
  | Table rows =>
      Frag [
        El "div" [lit "aria-label" "Discovered device inventory"] [table s];
        El "p" [] [
          Text (of_nat (length (devices s))); txt " device";
          txt (if (length (devices s) =? 1)%nat then "" else "s"); txt " discovered · ";
          Text (of_nat (length (List.filter (fun row => online (row_device row)) (devices s)))); txt " online"
        ]
      ]
  end.

(** What [devicedetail.svelte] tells its parent. *)
Definition detail_panel (s : Inventory) : node inventory_event :=
  shown (detailOpen s && bool_decide (is_Some (selectedDevice s))) [
    El "DeviceDetail" [
      Open (detailOpen s); On "close" CloseDetail; On "saved" NameSaved; On "tailscaleChanged" TailscaleChanged
    ] []
  ].

Definition removal_dialog (s : Inventory) : node inventory_event :=
  confirm_dialog (bool_decide (is_Some (pendingRemoval s))) (js "Remove device?") (js "Confirm inventory change")
    (js "Remove device") (js "Cancel") (removing s) ConfirmRemoval CloseRemoval [
    El "p" [] [
      txt "Remove ";
      El "strong" [] [Text (opt_or (display_name <$> pendingRemoval s) (js "this device"))];
      txt " from the inventory? GateSentry may discover it again when it next sends traffic."
    ]
  ].

Definition inventory_node (s : Inventory) : list (node inventory_event) := [
  shown (truthy (error s) && negb (is_nil (devices s))) [
    El "InlineNotification" [
      lit "kind" "error"; lit "title" "Device action failed"; Attr "subtitle" (error s); On "close" DismissError
    ] []
  ];
  shown (truthy (success s)) [
    El "InlineNotification" [
      lit "kind" "success"; lit "title" "Device inventory updated"; Attr "subtitle" (success s);
      On "close" DismissNotice
    ] []
  ];
  section_panel (js "Device inventory")
    (js "Devices discovered on your network, including peers you explicitly linked from Tailscale.") []
    (Some [
      El "Button" [lit "kind" "ghost"; Disabled (loading s); On "click" Refresh]
        [txt (if loading s then "Refreshing…" else "Refresh")]
    ])
    [inventory_body s];
  detail_panel s;
  removal_dialog s
].

Definition inventory_offers (e : inventory_event) (s : Inventory) : Prop :=
  any_of (fun n => offers n e) (inventory_node s).
End View.

(** ** What the page offers *)

(** The columns are different ones. *)
Lemma columns_NoDup : NoDup headers.*1.
Proof. apply (bool_decide_unpack _). by vm_compute. Qed.

Lemma name_cell_offers row e : any_of (fun n => offers n e) (name_cell row) ↔ e = OpenDetail row.
Proof. unfold name_cell, openDetailRow. view_simpl. naive_solver. Qed.

Lemma tailscale_cell_offers row e : any_of (fun n => offers n e) (tailscale_cell row) ↔ False.
Proof. unfold tailscale_cell, online_tag. view_simpl. naive_solver. Qed.

Lemma actions_cell_offers row e :
  any_of (fun n => offers n e) (actions_cell row) ↔ e = OpenDetail row ∨ e = RequestRemoval row.
Proof. unfold actions_cell, openDetailRow. view_simpl. naive_solver. Qed.

Lemma cell_offers row key e :
  any_of (fun n => offers n e) (cell row key) ↔
  (e = OpenDetail row ∧ (key = js "display_name" ∨ key = js "actions")) ∨
  (e = RequestRemoval row ∧ key = js "actions").
Proof.
  pose proof columns_NoDup as Hk. revert Hk. unfold cell, headers. cbn [fmap list_fmap fst].
  rewrite !any_of_single, !offers_alt_dec, !any_of_single, !offers_alt_dec, !any_of_single, !offers_alt_dec,
    !any_of_single, !offers_alt_dec, name_cell_offers, tailscale_cell_offers, actions_cell_offers.
  unfold online_tag. view_simpl.
  generalize (js "status") (js "display_name") (js "address_display") (js "tailscale_display")
    (js "last_seen_display") (js "actions").
  intros k1 k2 k3 k4 k5 k6 Hk. rewrite !NoDup_cons, !not_elem_of_cons in Hk.
  destruct Hk as ((? & ? & ? & ? & ? & _) & (? & ? & ? & ? & _) & (? & ? & ? & _) & (? & ? & _) & (? & _) & _).
  destruct (decide (key = k1)), (decide (key = k2)), (decide (key = k4)), (decide (key = k6)); naive_solver.
Qed.

(** Before the first answer there is only the word that it loads. *)
Definition first_load (s : Inventory) : bool := loading s && negb (loaded s).

(** The controls of the page, one by one. *)
Definition available (e : inventory_event) (s : Inventory) : Prop :=
  match e with
  | Refresh => loading s = false ∨ (first_load s = false ∧ truthy (error s) = true ∧ devices s = [])
  | OpenDetail row | RequestRemoval row => row ∈ devices s ∧ first_load s = false
  | CloseDetail | NameSaved | TailscaleChanged => detailOpen s = true ∧ is_Some (selectedDevice s)
  | CloseRemoval => is_Some (pendingRemoval s)
  | ConfirmRemoval => is_Some (pendingRemoval s) ∧ removing s = false
  | DismissNotice => truthy (success s) = true
  | DismissError => truthy (error s) = true ∧ devices s ≠ []
  | Interval | NoticeFired _ | Tick _ | Destroy => False
  end.

Lemma table_offers s e :
  offers (table s) e ↔ match e with OpenDetail row | RequestRemoval row => row ∈ devices s | _ => False end.
Proof.
  unfold table. rewrite data_table_offers. split.
  - intros [H|(row & Hr & key & Hk & H)]; [revert H; view_simpl; tauto|].
    apply cell_offers in H as [[-> _]|[-> _]]; done.
  - intros H. right. destruct e; try done; eexists; (split; [exact H|]); exists (js "actions");
      (split; [unfold headers; set_solver|]); apply cell_offers; naive_solver.
Qed.

Lemma inventory_body_offers s e :
  offers (inventory_body s) e ↔
  match e with
  | Refresh => first_load s = false ∧ truthy (error s) = true ∧ devices s = []
  | OpenDetail row | RequestRemoval row => row ∈ devices s ∧ first_load s = false
  | _ => False
  end.
Proof.
  unfold inventory_body, view_of, first_load. destruct (loading s && negb (loaded s));
    [rewrite resource_state_offers; destruct e; naive_solver|].
  destruct (devices s) as [|r l] eqn:Hd; cbn [is_nil]; rewrite ?andb_true_r, ?andb_false_r.
  - destruct (truthy (error s)); rewrite resource_state_offers; cbn [any_of];
      destruct e; rewrite ?elem_of_nil; naive_solver.
  - view_simpl. rewrite table_offers, Hd. destruct e; naive_solver.
Qed.

(** Every control of the page and when it can be used. *)
Theorem inventory_offers_available e s : inventory_offers e s ↔ available e s.
Proof.
  unfold inventory_offers, inventory_node. cbn [any_of]. unfold removal_dialog.
  rewrite section_panel_offers, confirm_dialog_offers, any_of_single, inventory_body_offers.
  cbn [slot_offers]. unfold detail_panel. view_simpl.
  rewrite !andb_true_iff, !negb_true_iff, !bool_decide_eq_true.
  assert (is_nil (devices s) = false ↔ devices s ≠ []) as -> by (by destruct (devices s)).
  destruct e; cbn [available]; naive_solver.
Qed.

(** ** The page in the event loop *)

Section Loop.
Context (getTime : jstr → option Z).

(** Timers, the passing of time and the end of the page. *)
Definition from_outside (e : inventory_event) : bool :=
  match e with Interval | NoticeFired _ | Tick _ | Destroy => true | _ => false end.

Definition page_enabled (e : inventory_event) (s : Inventory) : Prop :=
  inventory_offers e s ∨ (from_outside e = true ∧ enabled e s).

(** What the page offers is what the invariants of [DeviceList] allow. *)
Lemma page_enabled_enabled e s : page_enabled e s → enabled e s.
Proof.
  intros [H|[_ H]]; [|done]. apply inventory_offers_available in H. destruct e; simpl in *; naive_solver.
Qed.

(** The page before [onMount]. *)
Definition initialInventory (injected jwt : option jstr) (now : Z) : Inventory :=
  (mounted injected jwt now) <| refreshInterval := false |>.

Definition inventory_loop (injected jwt : option jstr) (now : Z) :=
  loop_from page_enabled (on_event getTime) (onMount getTime) (initialInventory injected jwt now).

Definition removes (q : io_req Empty_set) : bool :=
  match q with Fetch r => bool_decide (rq_method r = js "DELETE") | _ => false end.

Lemma loadDevices_harmless : harmless removing removes (loadDevices getTime).
Proof. unfold loadDevices. harmless_run. Qed.

Lemma inventory_event_safe e s : flag_safe removing removes (on_event getTime e) s.
Proof.
  destruct e; cbn [on_event]; unfold handleNameSaved;
    try (apply harmless_safe; unfold closeRemoval; harmless_run; try apply loadDevices_harmless; done).
  unfold flag_safe, confirmRemoval. guard_run.
  apply harmless_guarded; [apply loadDevices_harmless|busy_known|].
  intros [e|[]] s2 Hs2; guard_run.
Qed.

Lemma loadDevices_settles s :
  settling removing (loadDevices getTime) s ∧ settling loading (loadDevices getTime) s.
Proof. unfold loadDevices. split; settling_run. Qed.

Lemma confirmRemoval_settles s :
  settling removing (confirmRemoval getTime) s ∧ settling loading (confirmRemoval getTime) s.
Proof. unfold confirmRemoval, loadDevices. split; settling_run. Qed.

Lemma inventory_event_settles e s :
  settling removing (on_event getTime e) s ∧ settling loading (on_event getTime e) s.
Proof.
  destruct e; cbn [on_event];
    lazymatch goal with
    | |- context [loadDevices] => apply loadDevices_settles
    | |- context [confirmRemoval] => apply confirmRemoval_settles
    | |- context [handleNameSaved] => unfold handleNameSaved
    | _ => unfold closeRemoval; split; settling_run
    end.
  destruct (loadDevices_settles (showSuccess (js "Device updated successfully") (closeDetail s))) as [H1 H2].
  split; (apply settling_modify; [hnf_eq|]; apply settling_modify; [hnf_eq|]; assumption).
Qed.

(** C26: However clicks, reloads of the timer and answers interleave, at most one
    removal of a device is under way, and none while the question about it can
    be answered.  When no more events come, the page comes to rest and says
    neither that it is removing nor that it is loading. *)
Theorem inventory_at_rest i j t s ts :
  inventory_loop i j t (s, ts) →
  length (List.filter (fun t => removes (th_request t)) ts) ≤ (if removing s then 1 else 0) ∧
  (removing s = true → ¬ inventory_offers ConfirmRemoval s) ∧
  Acc (flip answer_step) (s, ts) ∧
  ∀ s', rtc answer_step (s, ts) (s', []) → Forall (fun flag => flag s' = false) [removing; loading].
Proof.
  intros Hr. split; [|split].
  - eapply single_flight in Hr as [H _]; [exact H|intros; apply inventory_event_safe|done|].
    apply harmless_safe. unfold onMount. harmless_run. apply loadDevices_harmless.
  - intros Hb H. apply inventory_offers_available in H as [_ H]. congruence.
  - apply (page_rests _ _ _ _ _ [removing; loading] Hr).
    apply Forall_cons; split; [|apply Forall_cons; split; [|done]];
      (split; [intros e s0 _; apply inventory_event_settles|]); unfold onMount.
    + right. split; [done|]. apply settling_modify; [done|]. apply loadDevices_settles.
    + left. unfold loadDevices. clearing_run.
Qed.
End Loop.

(** A server whose DNS is off. *)
Definition without_dns (log : list (request Empty_set)) (q : io_req Empty_set) : io_res ListBody q :=
  serve (fun _ => inr (Response 503 (inr []) None (inr None))) q.

Lemma inventory_at_rest_witness :
  Forall (fun flag => flag (run (history without_dns) (onMount (fun _ => None))
    (initialInventory None (Some (js "t")) 0) []).1.2 = false) [removing; loading].
Proof.
  edestruct (inventory_at_rest (fun _ => None) None (Some (js "t")) 0) as (_ & _ & _ & H);
    [apply (loop_from_run _ _ (history without_dns) _ _ [])|]. apply H. reflexivity.
Defined.
