(* ===== verification/DeviceDetailView.v ===== *)
(** * The template of the device dialog, and the dialog in the event loop

    The markup of [routes/devices/devicedetail.svelte] over the states of
    [DeviceDetail] and [DeviceActivity].  [toLocaleDate] prints the date of a
    text, [toLocaleTime] that of a time in milliseconds. *)

From S2P Require Import Prelude JsString JsAsync Http Busy View Layout DeviceActivity DeviceDetail.
Open Scope js_scope.

(** What the dialog reads of the [device] it is given, besides its id; a
    missing text is the empty one, since each is tested with [||]. *)
Record ShownDevice := MkShown {
  display_name : jstr;
  online : bool;
  source : jstr;
  first_seen : jstr;
  last_seen : jstr;
  manual_name : jstr;
  device_owner : jstr;
  device_category : jstr;
  dns_name : jstr;
  ipv4 : jstr;
  ipv6 : jstr;
  hostnames : option (list jstr);
  mdns_names : option (list jstr);
  macs : option (list jstr);
  tailscale_nodes : option (list TailscalePeer)
}.

(** A row of the activity list. *)
Record ActivityItem := MkItem {
  item_time : Z;
  item_type : jstr;
  dnsResponseType : jstr;
  proxyResponseType : jstr;
  item_url : jstr;
  item_ip : jstr
}.

Inductive detail_event :=
| CloseDialog
| SaveLabels
| CloseLabelError
| SelectTab (tab : nat)
| SetName (value : jstr)
| SetOwner (value : jstr)
| SetCategory (value : jstr)
| SetGroup (value : jstr)
| SaveAssignment
| RequestUnlink (peer : TailscalePeer)
| SelectPeer (value : jstr)
| LinkPeer
| RefreshPeers
| CloseUnlink
| ConfirmUnlink.

Section View.
Context (toLocaleDate : jstr → jstr) (toLocaleTime : Z → jstr) (logs_href : jstr).

Definition formatDate (isoDate : jstr) : jstr :=
  if negb (truthy isoDate) then js "—" else toLocaleDate isoDate.

Definition formatActivityTime (seconds : Z) : jstr :=
  if (seconds =? 0)%Z then js "—" else toLocaleTime (seconds * 1000).

(** ** Overview *)

Definition discovery_row (label : string) (value : list (node detail_event)) : node detail_event :=
  El "StructuredListRow" [] [El "StructuredListCell" [] [txt label]; El "StructuredListCell" [] value].

Definition list_head (first : string) : node detail_event :=
  El "StructuredListHead" [] [
    El "StructuredListRow" [] [
      El "StructuredListCell" [] [txt first]; El "StructuredListCell" [] [txt "Observed value"]
    ]
  ].

Definition online_tag (b : bool) : node detail_event :=
  El "Tag" [lit "type" (if b then "green" else "warm-gray")] [txt (if b then "Online" else "Offline")].

Definition overview_tab (s : Detail) (d : ShownDevice) : node detail_event :=
  El "TabContent" [] [
    El "section" [] [
      El "div" [] [El "h3" [] [txt "Overview"]; online_tag (online d)];
      El "p" [] [txt "Add labels that make this device easier to recognize. These fields are descriptive and do not select protection."];
      El "FormGroup" [lit "legendText" "Naming and metadata"] [
        El "TextInput" [
          lit "labelText" "Display name"; lit "placeholder" "e.g., Vivienne's iPad";
          Attr "value" (manualName s); OnAny "bind:value" SetName
        ] [];
        El "TextInput" [
          lit "labelText" "Owner"; lit "helperText" "Descriptive label only — it does not change filtering.";
          lit "placeholder" "e.g., Vivienne, Dad"; Attr "value" (owner s); OnAny "bind:value" SetOwner
        ] [];
        El "TextInput" [
          lit "labelText" "Category"; lit "helperText" "Descriptive label only — it does not change filtering.";
          lit "placeholder" "e.g., kids, adults, iot"; Attr "value" (category s); OnAny "bind:value" SetCategory
        ] []
      ];
      El "StructuredList" [] [
        list_head "Discovery";
        El "StructuredListBody" [] [
          discovery_row "Primary source" [El "Tag" [lit "type" "outline"] [Text (str_or (source d) (js "Unknown"))]];
          discovery_row "First seen" [Text (formatDate (first_seen d))];
          discovery_row "Last seen" [Text (formatDate (last_seen d))]
        ]
      ]
    ]
  ].

(** ** Policy *)

Definition not_default (group : jstr * jstr) : bool := negb (bool_decide (group.1 = js "default")).

Definition offered_groups (s : Detail) : list (jstr * jstr) := List.filter not_default (groups s).

Definition message_view (kind title : string) (message : jstr) : node detail_event :=
  shown (truthy message) [
    El "InlineNotification" [lit "kind" kind; lit "title" title; Attr "subtitle" message] []
  ].

Definition protection_view (view : DetailBody) : node detail_event :=
  let level := default [] (b_coverage view ≫= confidence) in
  Frag [
    El "div" [] [
      El "Tag" [Attr "type" (confidenceTagType level)] [Text (confidenceLabel level)];
      El "span" [] [Text (printed (b_coverage view ≫= summary))]
    ];
    given (b_policy view) (fun policy => [
      El "p" [] [
        El "strong" [] [Text (printed (pol_name policy)); txt ":"];
        Text (policySummary (Some policy))
      ];
      shown (pol_default policy) [
        El "p" [] [txt "No policy of its own is assigned, so the default policy applies."]
      ]]);
    El "ul" [] [
      each (default [] (b_coverage view ≫= caveats)) (fun caveat => [El "li" [] [Text caveat]])
    ];
    El "p" [] [Text (opt_or (b_metadata_note view) (js "Owner and category are descriptive labels only."))]
  ].

Definition policy_tab (s : Detail) : node detail_event :=
  El "TabContent" [] [
    El "section" [] [
      El "h3" [] [txt "Policy"];
      El "p" [] [txt "A device without a policy of its own uses the default policy. Owner and category are metadata and never change filtering."];
      message_view "error" "Unable to save policy" (assignmentError s);
      shown (assignmentSaved s) [
        El "InlineNotification" [
          lit "kind" "success"; lit "title" "Policy saved";
          lit "subtitle" "The selected policy now applies to this device identity."
        ] []
      ];
      El "Select" [
        lit "labelText" "Policy";
        lit "helperText" "Applies to DNS immediately; proxy paths use it when identity resolves.";
        Attr "selected" (selectedGroup s); Disabled (assignmentSaving s);
        OnValue "bind:selected" (fun v => negb (truthy v) || includes (offered_groups s).*1 v) SetGroup
      ] [
        El "SelectItem" [lit "value" ""; lit "text" "Default policy"] [];
        each (offered_groups s) (fun group => [
          El "SelectItem" [Attr "value" group.1; Attr "text" (str_or group.2 group.1)] []])
      ];
      El "Button" [lit "kind" "primary"; Disabled (assignmentSaving s); On "click" SaveAssignment]
        [txt (if assignmentSaving s then "Saving…" else "Save policy")];
      El "h4" [] [txt "Effective protection"];
      match policyView s with
      | Some view => protection_view view
      | None =>
          alt (policyLoading s) [
            El "InlineLoading" [lit "description" "Loading protection view…"] []
          ] [message_view "error" "Protection view unavailable" (policyError s)]
      end
    ]
  ].

(** ** Connections *)

Definition addresses_view (peer : TailscalePeer) : node detail_event :=
  shown (negb (is_nil (default [] (addresses peer)))) [
    El "span" [] [Text (joinStr (js ", ") (default [] (addresses peer)))]
  ].

Definition seen_view (peer : TailscalePeer) : node detail_event :=
  El "span" [] [txt "Last seen: "; Text (formatDate (peer_last_seen peer))].

Definition linked_peer (s : Detail) (peer : TailscalePeer) : node detail_event :=
  El "article" [] [
    El "div" [] [
      El "div" [] [El "strong" [] [Text (peerName peer)]; online_tag (peer_online peer)];
      El "Button" [lit "kind" "danger-tertiary"; Disabled (tailscaleSaving s); On "click" (RequestUnlink peer)]
        [txt "Unlink"]
    ];
    El "div" [] [
      El "span" [] [Text (str_or (peer_dns_name peer) (node_id peer))];
      addresses_view peer;
      seen_view peer
    ];
    shown (negb (is_nil (default [] (wol_macs peer)))) [
      El "div" [] [
        El "span" [] [txt "Informational WoL MAC:"];
        each (default [] (wol_macs peer)) (fun mac => [El "Tag" [lit "type" "outline"] [Text mac]])
      ]
    ]
  ].

Definition suggestion_view (sug : TailscaleSuggestion) : node detail_event :=
  El "p" [] [
    txt "Suggested match: "; Text (str_or (sug_name sug) (sug_device_id sug));
    txt " ("; Text (str_or (sug_confidence sug) (js "unknown")); txt " confidence) — ";
    Text (str_or (reason sug) (js "No reason supplied"));
    txt ". Review and choose the peer above to link it."
  ].

Definition available_peer (peer : TailscalePeer) : node detail_event :=
  El "article" [] [
    El "div" [] [El "strong" [] [Text (peerName peer)]; online_tag (peer_online peer)];
    El "div" [] [
      shown (truthy (peer_dns_name peer)) [El "span" [] [Text (peer_dns_name peer)]];
      addresses_view peer;
      seen_view peer
    ];
    given (suggestion peer) (fun sug => [suggestion_view sug])
  ].

Definition link_view (s : Detail) : node detail_event :=
  Frag [
    El "h4" [] [txt "Link a peer"];
    El "Select" [
      lit "labelText" "Tailscale peer"; lit "helperText" "Choose an unlinked peer, then confirm the link.";
      Attr "selected" (selectedPeerNodeID s); Disabled (tailscaleSaving s || tailscaleLoading s);
      OnValue "bind:selected" (fun v => negb (truthy v) || includes (node_id <$> availableTailscalePeers s) v)
        SelectPeer
    ] [
      El "SelectItem" [lit "value" ""; lit "text" "Choose a peer"] [];
      each (availableTailscalePeers s) (fun peer => [
        El "SelectItem" [
          Attr "value" (node_id peer);
          Attr "text" (peerName peer ++ js (if peer_online peer then " (online)" else " (offline)"))
        ] []])
    ];
    El "Button" [
      lit "kind" "primary"; Disabled (tailscaleSaving s || negb (truthy (selectedPeerNodeID s)));
      On "click" LinkPeer
    ] [txt (if tailscaleSaving s then "Saving…" else "Link peer")];
    alt (negb (is_nil (availableTailscalePeers s))) [
      El "div" [] [each (availableTailscalePeers s) (fun peer => [available_peer peer])]
    ] [
      shown (tailscaleLoaded s) [El "p" [] [txt "No unlinked Tailscale peers are available."]]
    ]
  ].

Definition kind_name (k : kind) : string :=
  match k with Success => "success" | Warning => "warning" | Failure => "error" | Info => "info" end.

Definition state_view (s : Detail) : node detail_event :=
  given (tailscaleState s) (fun state => [
    El "InlineNotification" [
      lit "kind" (kind_name (tailscaleStateKind (b_state state)));
      Attr "title" (tailscaleStateTitle (b_state state));
      Attr "subtitle" (str_or (default [] (b_message state)) (default [] (b_backend_state state)))
    ] []]).

Definition is_connected (s : Detail) : bool :=
  match tailscaleState s with Some state => connected state | None => false end.

Definition connections_tab (s : Detail) : node detail_event :=
  El "TabContent" [] [
    El "section" [] [
      El "h3" [] [txt "Connections"];
      El "p" [] [txt "Linking is always manual. Suggestions are shown as hints only and never select or link a peer automatically."];
      El "p" [] [txt "Tailscale normally does not provide a hardware MAC address. Wake-on-LAN MAC addresses shown here are informational and are not used to match or link devices."];
      message_view "error" "Tailscale action failed" (tailscaleError s);
      message_view "success" "Tailscale links updated" (tailscaleNotice s);
      alt (tailscaleLoading s && negb (tailscaleLoaded s)) [
        El "InlineLoading" [lit "description" "Loading Tailscale peers…"] []
      ] [
        state_view s;
        El "h4" [] [txt "Linked peers"];
        alt (negb (is_nil (linkedTailscaleNodes s))) [
          El "div" [] [each (linkedTailscaleNodes s) (fun peer => [linked_peer s peer])]
        ] [El "p" [] [txt "No Tailscale peers are linked to this device."]];
        shown (is_connected s) [link_view s];
        El "Button" [
          lit "kind" "tertiary"; Disabled (tailscaleSaving s || tailscaleLoading s); On "click" RefreshPeers
        ] [txt "Refresh Tailscale status"]
      ]
    ]
  ].

(** ** Identity and activity *)

Definition tags_or_dash (type : string) (l : option (list jstr)) : list (node detail_event) := [
  alt (negb (is_nil (default [] l)))
    [each (default [] l) (fun value => [El "Tag" [lit "type" type] [Text value]])] [txt "—"]
].

Definition view_addresses (s : Detail) : list PolicyAddress := default [] (policyView s ≫= b_addresses).

Definition address_tags (address : PolicyAddress) : list (node detail_event) := [
  shown (shared_address address) [El "Tag" [lit "type" "magenta"] [txt "shared address"]];
  shown (stale_observation address) [El "Tag" [lit "type" "warm-gray"] [txt "stale observation"]]
].

Definition ipv4_cell (s : Detail) (d : ShownDevice) : list (node detail_event) := [
  Text (str_or (ipv4 d) (js "—"));
  each (view_addresses s) (fun address => [
    shown (bool_decide (addr_ip address = ipv4 d)) (address_tags address ++ [
      shown (negb (dns_resolves_device address))
        [El "Tag" [lit "type" "red"] [txt "DNS does not resolve to this device"]]
    ])])
].

Definition ipv6_cell (s : Detail) (d : ShownDevice) : list (node detail_event) := [
  El "span" [] [Text (str_or (ipv6 d) (js "—"))];
  each (view_addresses s) (fun address => [
    shown (bool_decide (addr_ip address = ipv6 d) && truthy (ipv6 d)) (address_tags address)])
].

Definition identity_cell (s : Detail) : list (node detail_event) := [
  match policyView s ≫= b_identity with
  | Some identity =>
      Frag [
        El "Tag" [lit "type" "blue"] [Text (identity_source identity)];
        Text (default [] (explanation identity))
      ]
  | None => txt "—"
  end
].

Definition activity_item (item : ActivityItem) : node detail_event :=
  let outcome := str_or (dnsResponseType item) (proxyResponseType item) in
  El "li" [] [
    El "span" [] [Text (formatActivityTime (item_time item))];
    El "Tag" [lit "type" (if bool_decide (item_type item = js "dns") then "blue" else "purple")]
      [Text (item_type item)];
    shown (truthy outcome) [
      El "Tag" [lit "type" (if bool_decide (outcome = js "blocked") then "red" else "gray")] [Text outcome]
    ];
    El "span" [] [Text (item_url item)];
    El "span" [] [txt "from "; Text (item_ip item)]
  ].

Definition activity_view (a : Activity ActivityItem) : node detail_event :=
  Frag [
    El "h4" [] [txt "Recent activity (decision history)"];
    alt (activityLoading a && negb (activityLoaded a)) [
      El "InlineLoading" [lit "description" "Loading device activity…"] []
    ] [
      alt (is_nil (activity a)) [
        El "p" [] [txt "No logged decisions for this device's current addresses in the last 24 hours."]
      ] [
        El "ul" [] [each (activity a) (fun item => [activity_item item])]
      ]
    ];
    shown (truthy (activityError a)) [
      El "p" [] [txt "Live refresh unavailable: "; Text (activityError a)]
    ];
    El "p" [] [El "a" [Attr "href" logs_href] [txt "View full decision history"]]
  ].

Definition identity_tab (s : Detail) (a : Activity ActivityItem) (d : ShownDevice) : node detail_event :=
  El "TabContent" [] [
    El "section" [] [
      El "h3" [] [txt "Identity & activity"];
      El "p" [] [txt "These observed identifiers explain how GateSentry recognizes this device. Shared address and stale observation signals can reduce confidence in device-specific protection."];
      El "StructuredList" [] [
        list_head "Property";
        El "StructuredListBody" [] [
          discovery_row "Policy identity" (identity_cell s);
          discovery_row "DNS name" [Text (str_or (dns_name d) (js "—"))];
          discovery_row "IPv4" (ipv4_cell s d);
          discovery_row "IPv6" (ipv6_cell s d);
          discovery_row "Hostnames" (tags_or_dash "outline" (hostnames d));
          discovery_row "mDNS names" (tags_or_dash "blue" (mdns_names d));
          discovery_row "MAC addresses" (tags_or_dash "warm-gray" (macs d));
          discovery_row "Device ID" [El "code" [] [Text (str_or (device_id s) (js "—"))]]
        ]
      ];
      activity_view a
    ]
  ].

(** ** The dialog *)

Definition unlink_dialog (s : Detail) : node detail_event :=
  confirm_dialog (bool_decide (is_Some (pendingUnlink s))) (js "Unlink Tailscale peer?")
    (js "Confirm identity change") (js "Unlink peer") (js "Cancel") (tailscaleSaving s) ConfirmUnlink CloseUnlink [
    El "p" [] [
      txt "Unlink ";
      El "strong" [] [Text (from_option peerName (js "this peer") (pendingUnlink s))];
      txt " from this device? The peer will remain available to link again."
    ]
  ].

Definition detail_view (s : Detail) (a : Activity ActivityItem) (d : ShownDevice) : list (node detail_event) := [
  El "ComposedModal" [
    Open (DeviceActivity.open a); PrimaryDisabled (saving s); On "close" CloseDialog; On "submit" SaveLabels
  ] [
    El "ModalHeader" [lit "title" "Device details"; Attr "label" (str_or (display_name d) (js "Unknown device"))] [];
    El "ModalBody" [] [
      shown (truthy (error s)) [
        El "InlineNotification" [
          lit "kind" "error"; lit "title" "Unable to save device labels"; Attr "subtitle" (error s);
          On "close" CloseLabelError
        ] []
      ];
      El "Tabs" [lit "aria-label" "Device details"; OnAny "bind:selected" SelectTab] [
        El "Tab" [lit "label" "Overview"] [];
        El "Tab" [lit "label" "Policy"] [];
        El "Tab" [lit "label" "Connections"] [];
        El "Tab" [lit "label" "Identity & activity"] [];
        overview_tab s d;
        policy_tab s;
        connections_tab s;
        identity_tab s a d
      ]
    ];
    El "ModalFooter" [
      lit "primaryButtonText" (if saving s then "Saving…" else "Save labels");
      lit "secondaryButtonText" "Close"
    ] []
  ];
  unlink_dialog s
].

Definition detail_offers (e : detail_event) (s : Detail) (a : Activity ActivityItem) (d : ShownDevice) : Prop :=
  any_of (fun n => offers n e) (detail_view s a d).
End View.

(** ** The dialog in the event loop *)

Section Loop.
Context (toLocaleDate : jstr → jstr) (toLocaleTime : Z → jstr) (logs_href : jstr) (d : ShownDevice).
#[local] Abbreviation handler := (prog Detail (io_res (P := DetailPayload) DetailBody)).

(** The [open] block assigns the labels and the links, starts three reads
    ([opened] is the assignments and the first), and starts the activity feed
    ([startActivity], which [react] runs).  The dialog is its own variables, the
    requests of its own that are at their [await], and the feed with its
    requests and its timer. *)
Definition fill (s : Detail) : Detail :=
  s <| manualName := manual_name d |> <| owner := device_owner d |> <| category := device_category d |>
    <| linkedTailscaleNodes := default [] (tailscale_nodes d) |>.

Inductive dialog_event := StartGroups | StartPeers | Raised (e : detail_event).

Definition opened : handler unit := modify fill ;; loadPolicyView.

Definition closeUnlink (s : Detail) : Detail :=
  if tailscaleSaving s then s else s <| pendingUnlink := None |>.

Definition on_event (e : detail_event) : handler unit :=
  match e with
  | CloseDialog => close
  | SaveLabels => save
  | CloseLabelError => error <~ []
  | SelectTab tab => selectedTab <~ tab
  | SetName v => manualName <~ v
  | SetOwner v => owner <~ v
  | SetCategory v => category <~ v
  | SetGroup v => selectedGroup <~ v
  | SaveAssignment => saveAssignment
  | RequestUnlink peer => modify (requestUnlink peer)
  | SelectPeer v => selectedPeerNodeID <~ v
  | LinkPeer => linkTailscalePeer
  | RefreshPeers => loadTailscalePeers
  | CloseUnlink => modify closeUnlink
  | ConfirmUnlink => confirmUnlink
  end.

Definition dialog_handler (e : dialog_event) : handler unit :=
  match e with
  | StartGroups => loadGroups
  | StartPeers => loadTailscalePeers
  | Raised e => on_event e
  end.

Definition dialog_enabled (e : dialog_event) (s : Detail) : Prop :=
  match e with
  | Raised e => ∃ a, detail_offers toLocaleDate toLocaleTime logs_href e s a d
  | _ => True
  end.

(** The dialog when it is created for a device. *)
Definition initialDetail (base : jstr) (token : option jstr) (id : jstr) : Detail :=
  MkDetail base token id [] [] [] false [] None false [] [] [] false [] false [] None [] [] false false
    false [] [] None 0 [].

Definition panel : Type := Detail * list (thread Detail (io_res (P := DetailPayload) DetailBody)) * Activity ActivityItem.

Definition open_block (id : jstr) (s : Detail) : panel :=
  let '(s, policy) := advance opened s in
  let '(s, groups) := advance loadGroups s in
  let '(s, peers) := advance loadTailscalePeers s in
  (s, option_list policy ++ option_list groups ++ option_list peers, react (initialActivity (Some id) true)).

(** [close()] also stops the feed. *)
Definition feed_after (e : detail_event) (a : Activity ActivityItem) : Activity ActivityItem :=
  match e with CloseDialog => react (DeviceActivity.close a) | _ => a end.

(** What the feed does by itself. *)
Definition by_itself (e : activity_event ActivityItem) : Prop :=
  match e with Answer _ _ | TimerFires _ => True | _ => False end.

(** A control that the dialog offers is used; a request of the dialog is
    answered; a request of the feed is, or its timer fires; the page takes the
    dialog away. *)
Inductive panel_step : panel → panel → Prop :=
| panel_raise e s s' ts t a :
    detail_offers toLocaleDate toLocaleTime logs_href e s a d → destroyed a = false →
    advance (on_event e) s = (s', t) →
    panel_step (s, ts, a) (s', ts ++ option_list t, feed_after e a)
| panel_answer s ts s' ts' a :
    answer_step (s, ts) (s', ts') → panel_step (s, ts, a) (s', ts', a)
| panel_feed e s ts a a' :
    by_itself e → activity_step e a = Some a' → panel_step (s, ts, a) (s, ts, a')
| panel_gone s ts a a' :
    activity_step Destroy a = Some a' → panel_step (s, ts, a) (s, ts, a').

Definition panel_loop (base : jstr) (token : option jstr) (id : jstr) : panel → Prop :=
  rtc panel_step (open_block id (initialDetail base token id)).

(** Nobody uses the dialog: the steps of the feed, and the answers of the
    dialog's own requests. *)
Inductive feed_step : panel → panel → Prop :=
| feed_by_itself e s ts a a' :
    by_itself e → activity_step e a = Some a' → feed_step (s, ts, a) (s, ts, a').

Inductive own_answer : panel → panel → Prop :=
| own_answered s ts s' ts' a : answer_step (s, ts) (s', ts') → own_answer (s, ts, a) (s', ts', a).

Definition unattended (c c' : panel) : Prop := feed_step c c' ∨ own_answer c c'.

(** An answer to the dialog, whatever the feed has done before it. *)
Definition next_answer (c c' : panel) : Prop := ∃ m, rtc feed_step c m ∧ own_answer m c'.

(** The dialog alone, in the shape of the other pages: the two reads that the
    block starts after the first are events of it. *)
Definition dialog_loop (base : jstr) (token : option jstr) (id : jstr) :=
  loop_from dialog_enabled dialog_handler opened (initialDetail base token id).

Lemma open_block_dialog base token id :
  dialog_loop base token id (open_block id (initialDetail base token id)).1.
Proof.
  unfold dialog_loop, loop_from, open_block.
  destruct (advance opened _) as [s1 t1] eqn:E1. destruct (advance loadGroups s1) as [s2 t2] eqn:E2.
  destruct (advance loadTailscalePeers s2) as [s3 t3] eqn:E3. cbn [fst snd].
  eapply rtc_l; [by apply (step_event _ _ StartGroups s1 s2 _ t2)|].
  eapply rtc_once. rewrite (assoc_L (++)). by apply (step_event _ _ StartPeers s2 s3 _ t3).
Qed.

Lemma panel_dialog base token id c : panel_loop base token id c → dialog_loop base token id c.1.
Proof.
  intros Hr. unfold panel_loop in Hr. apply rtc_ind_r with (P := fun c => dialog_loop base token id c.1) (3 := Hr);
    [apply open_block_dialog|]. clear. intros c c' _ Hs IH. unfold dialog_loop, loop_from in *.
  destruct Hs as [e s s' ts t a He Hd Ha|s ts s' ts' a Ha|e s ts a a' He Ha|s ts a a' Ha]; cbn [fst] in *; try done.
  - eapply rtc_r; [exact IH|]. apply (step_event _ _ (Raised e) s s' ts t); [by exists a|done].
  - eapply rtc_r; [exact IH|]. inversion Ha; subst. by eapply step_answer.
Qed.

(** The feed of the panel runs as it does in [DeviceActivity]. *)
Definition any_item : jstr → ActivityItem → Prop := fun _ _ => True.

Lemma allowed_any a e : by_itself e ∨ e = Destroy ∨ e = Close → allowed any_item a e.
Proof.
  intros [H|[->| ->]]; [|done..]. destruct e as [| |i [e|[items|]]|j|]; try done.
  intros f _. by apply Forall_forall.
Qed.

Lemma close_offered_open s a :
  detail_offers toLocaleDate toLocaleTime logs_href CloseDialog s a d → DeviceActivity.open a = true.
Proof.
  intros [[H _]|[H|[]]].
  - cbn [is_open forallb] in H. by destruct (DeviceActivity.open a).
  - unfold unlink_dialog in H. cbn in H. naive_solver.
Qed.

Lemma panel_activity base token id c : id ≠ [] → panel_loop base token id c → activity_reachable any_item c.2.
Proof.
  intros Hid Hr. unfold panel_loop in Hr.
  apply rtc_ind_r with (P := fun c => activity_reachable any_item c.2) (3 := Hr).
  { unfold open_block. do 3 destruct (advance _ _). by apply activity_mounted. }
  clear Hr. intros c0 c' _ Hs IH.
  destruct Hs as [e s s' ts t a He Hd Ha|s ts s' ts' a Ha|e s ts a a' He Ha|s ts a a' Ha]; cbn [snd] in *; try done.
  - unfold feed_after. destruct e; try done. apply (activity_next _ a Close); [done|done|].
    simpl. rewrite Hd. by rewrite (close_offered_open _ _ He).
  - eapply activity_next; [exact IH|by apply allowed_any; left|exact Ha].
  - eapply activity_next; [exact IH|by apply allowed_any; right; left|exact Ha].
Qed.

(** The feed leaves the dialog alone. *)
Lemma feed_steps_dialog c c' : rtc feed_step c c' → c'.1 = c.1.
Proof. induction 1 as [|c c1 c2 Hs _ IH]; [done|]. rewrite IH. by destruct Hs. Qed.

Lemma next_answer_dialog c c' : next_answer c c' → answer_step c.1 c'.1.
Proof. intros (m & Hf%feed_steps_dialog & Ha). destruct Ha. cbn [fst] in *. by rewrite <-Hf. Qed.

Lemma unattended_dialog c c' : rtc unattended c c' → rtc answer_step c.1 c'.1.
Proof.
  induction 1 as [|c c1 c2 [Hs|Hs] _ IH]; [done|..]; destruct Hs; cbn [fst] in *; [done|by eapply rtc_l].
Qed.

Lemma unattended_panel base token id c c' :
  panel_loop base token id c → rtc unattended c c' → panel_loop base token id c'.
Proof.
  intros Hr Hu. unfold panel_loop in *. etrans; [exact Hr|]. clear Hr.
  induction Hu as [|c c1 c2 [Hs|Hs] _ IH]; [done|..]; (eapply rtc_l; [|exact IH]); destruct Hs;
    [by eapply panel_feed|by apply panel_answer].
Qed.

(** ** One change at a time *)

Definition sends_labels (q : io_req DetailPayload) : bool :=
  match q with Fetch r => match rq_body r with Some (SendLabels _ _ _) => true | _ => false end | _ => false end.
Definition sends_group (q : io_req DetailPayload) : bool :=
  match q with Fetch r => match rq_body r with Some (SendGroup _) => true | _ => false end | _ => false end.
(** Linking and unlinking. *)
Definition changes_links (q : io_req DetailPayload) : bool :=
  match q with
  | Fetch r => bool_decide (rq_method r = js "DELETE") || match rq_body r with Some (SendNode _) => true | _ => false end
  | _ => false
  end.

Ltac dialog_unfold :=
  unfold dialog_handler, on_event, close, save, saveAssignment, linkTailscalePeer, confirmUnlink,
    loadGroups, loadTailscalePeers, loadPolicyView, dispatch, closeUnlink.

Lemma labels_safe e s : flag_safe saving sends_labels (dialog_handler e) s.
Proof.
  destruct e as [| |[]]; dialog_unfold; try (apply harmless_safe; solve [harmless_run]).
  unfold flag_safe. guard_run.
Qed.

Lemma group_safe e s : flag_safe assignmentSaving sends_group (dialog_handler e) s.
Proof.
  destruct e as [| |[]]; dialog_unfold; try (apply harmless_safe; solve [harmless_run]).
  unfold flag_safe. guard_run.
Qed.

Lemma links_safe e s : flag_safe tailscaleSaving changes_links (dialog_handler e) s.
Proof.
  destruct e as [| |[]]; dialog_unfold; try (apply harmless_safe; solve [harmless_run]).
  - unfold flag_safe. guard_run.
    match goal with H : _ || _ = false |- _ => apply orb_false_iff in H as [_ H] end. guard_run.
  - unfold flag_safe. guard_run.
Qed.

Definition busy_flags : list (Detail → bool) :=
  [saving; assignmentSaving; policyLoading; tailscaleLoading; tailscaleSaving].

Lemma dialog_settles e s : Forall (fun flag => settling flag (dialog_handler e) s) busy_flags.
Proof.
  destruct e as [| |[]]; dialog_unfold; repeat apply Forall_cons_2; try apply Forall_nil_2; settling_run.
Qed.

Lemma dialog_rests base token id s ts :
  dialog_loop base token id (s, ts) →
  Acc (flip answer_step) (s, ts) ∧
  ∀ s', rtc answer_step (s, ts) (s', []) → Forall (fun flag => flag s' = false) busy_flags.
Proof.
  intros Hr. apply (page_rests _ _ _ _ _ busy_flags Hr). unfold busy_flags, opened, loadPolicyView.
  apply Forall_forall. intros flag Hf. split.
  - intros e s0 _. exact (proj1 (Forall_forall _ _) (dialog_settles e s0) flag Hf).
  - right. repeat (apply elem_of_cons in Hf as [->|Hf]; [split; [done|settling_run]|]).
    by apply elem_of_nil in Hf.
Qed.

(** C13: However the controls of the open dialog are used, and however its own
    requests, those of its activity feed and the feed's timer interleave, at
    most one change of the labels, one of the policy and one of the links is
    under way at any time.  The feed asks again every five seconds, so the
    dialog as a whole does not come to rest; but when it is used no more, the
    answers to its own requests come to an end, whatever the feed does between
    them, and after the last of them nothing of the dialog says "saving" or
    "loading".  While the feed follows a device it says "loading" only of a
    request for that device which is in flight and not aborted, and no more
    when that request has been answered. *)
Theorem dialog_at_rest base token id s ts a :
  id ≠ [] → panel_loop base token id (s, ts, a) →
  let under_way sends := length (List.filter (fun t => sends (th_request t)) ts) in
  under_way sends_labels ≤ (if saving s then 1 else 0) ∧
  under_way sends_group ≤ (if assignmentSaving s then 1 else 0) ∧
  under_way changes_links ≤ (if tailscaleSaving s then 1 else 0) ∧
  Acc (flip next_answer) (s, ts, a) ∧
  ∀ s' ts' a', rtc unattended (s, ts, a) (s', ts', a') →
    (ts' = [] → Forall (fun flag => flag s' = false) busy_flags) ∧
    (activityDeviceID a' ≠ [] → activityLoading a' = true →
       ∃ f, f ∈ flights a' ∧ aborted f = false ∧ requestedDeviceID f = activityDeviceID a' ∧
         ∀ o a'', activity_step (Answer (fl_id f) o) a' = Some a'' → activityLoading a'' = false).
Proof.
  intros Hid Hp. cbv zeta. pose proof (panel_dialog base token id _ Hp) as Hr. cbn [fst] in Hr.
  split; [|split; [|split]].
  1-3: eapply single_flight in Hr as [H _];
    [exact H|intros; first [apply labels_safe|apply group_safe|apply links_safe]|done|
     apply harmless_safe; unfold opened, loadPolicyView; harmless_run].
  destruct (dialog_rests base token id s ts Hr) as [Hacc Hrest]. split.
  - eapply (Acc_simulation next_answer answer_step (fun c => c.1)); [apply next_answer_dialog|exact Hacc].
  - intros s' ts' a' Hu. split.
    + intros ->. apply Hrest. exact (unattended_dialog _ _ Hu).
    + apply (loading_awaits any_item). exact (panel_activity base token id _ Hid (unattended_panel _ _ _ _ _ Hp Hu)).
Qed.

(** ** Saving a policy that has not been read *)

Lemma assignment_offered s a :
  assignmentSaving s = false → DeviceActivity.open a = true →
  detail_offers toLocaleDate toLocaleTime logs_href SaveAssignment s a d.
Proof.
  intros Hs Ho. unfold detail_offers, detail_view. cbn [any_of]. left.
  cbn [offers is_open forallb any_of attr_offers]. rewrite Ho. split; [done|]. right. right. left.
  split; [done|]. right. right. left. split; [done|]. right. do 5 right. left.
  unfold policy_tab. cbn [offers is_open forallb any_of attr_offers lit]. split; [done|]. right. left.
  split; [done|]. right. do 5 right. left. split; [done|]. left. left. split; [|done].
  cbn. by rewrite Hs.
Qed.

(** What the dialog has asked for when it has been opened. *)
Lemma opened_starts id s : ∃ policy groups peers s',
  open_block id s = (s', [policy; groups; peers], react (initialActivity (Some id) true)) ∧
  th_request policy = Fetch (policy_request s) ∧
  assignmentSaving s' = assignmentSaving s ∧ assignment_request s' = assignment_request s.
Proof. do 4 eexists. split; [reflexivity|]. by split_and!. Qed.

Lemma saveAssignment_starts s :
  assignmentSaving s = false →
  ∃ s' t, advance saveAssignment s = (s', Some t) ∧ th_request t = Fetch (assignment_request s).
Proof.
  intros Hs. do 2 eexists. split.
  - unfold saveAssignment. cbn [mbind prog_bind settle get advance]. rewrite Hs. reflexivity.
  - reflexivity.
Qed.

Lemma react_open id : let a := react (initialActivity (Item := ActivityItem) (Some id) true) in
  DeviceActivity.open a = true ∧ destroyed a = false.
Proof. unfold react, startActivity, stopActivity, loadActivity. cbn. by repeat case_match. Qed.

(** The policy can be saved before the policy of the device has been read: what
    is saved then is no policy, and the device falls back to the default one,
    whatever it was assigned to. *)
Theorem early_assignment_unassigns base token id :
  ∃ s policy groups peers assign a,
    panel_loop base token id (s, [policy; groups; peers; assign], a) ∧
    th_request policy = Fetch (policy_request (initialDetail base token id)) ∧
    th_request assign = Fetch (assignment_request (initialDetail base token id)) ∧
    rq_body (assignment_request (initialDetail base token id)) = Some (SendGroup []).
Proof.
  destruct (opened_starts id (initialDetail base token id)) as (policy & groups & peers & s & E & Hq & Hs & Ha).
  destruct (saveAssignment_starts s) as (s' & assign & H4 & Hq4); [by rewrite Hs|].
  exists s', policy, groups, peers, assign, (react (initialActivity (Some id) true)).
  split; [|split; [exact Hq|split; [by rewrite Hq4, Ha|reflexivity]]].
  unfold panel_loop. rewrite E. apply rtc_once. destruct (react_open id) as [Ho Hd].
  apply (panel_raise SaveAssignment _ _ [policy; groups; peers] (Some assign)); [|exact Hd|exact H4].
  by apply assignment_offered.
Qed.
End Loop.

(** The dialog of a device, opened against a server that answers its three
    reads; the feed is still waiting for its first answer. *)
Definition shown : ShownDevice := MkShown [] true [] [] [] [] [] [] [] [] [] None None None None.

Lemma dialog_at_rest_witness :
  ∃ s a, rtc unattended (open_block shown (js "d1") (initialDetail [] (Some (js "token")) (js "d1"))) (s, [], a) ∧
    Forall (fun flag => flag s = false) busy_flags ∧ activityLoading a = true ∧
    ∃ f, f ∈ flights a ∧ aborted f = false ∧ requestedDeviceID f = js "d1".
Proof.
  edestruct (dialog_at_rest id (fun _ => []) [] shown [] (Some (js "token")) (js "d1"))
    as (_ & _ & _ & _ & H); [discriminate|apply rtc_refl|].
  assert (∃ s, rtc unattended (open_block shown (js "d1") (initialDetail [] (Some (js "token")) (js "d1")))
    (s, [], react (initialActivity (Some (js "d1")) true))) as [s Hs].
  { eexists. do 3 (eapply rtc_l; [right; apply own_answered;
      eapply (answer_one (Fetch _) _ (inl (Error (js "offline"))) _ _ [] _ None); reflexivity|]).
    apply rtc_refl. }
  destruct (H _ _ _ Hs) as [H1 H2]. exists s, (react (initialActivity (Some (js "d1")) true)).
  split; [exact Hs|]. split; [by apply H1|]. split; [reflexivity|].
  destruct H2 as (f & Hf & Ha & Hd & _); [discriminate|reflexivity|]. by exists f.
Defined.
