(* ===== verification/Home.v ===== *)
(** * The overview page

    [routes/home/home.svelte]: the setup progress, the notices about it and the
    protection check.  The numbers and dates the page prints go through
    [toLocaleString] and are left out, except for the test that decides what is
    printed. *)

From S2P Require Import Prelude JsString JsAsync Http Api.
Open Scope js_scope.

(** ** Data *)

Record CheckStep := MkStep { step_state : jstr; step_action : option jstr; step_detail : option jstr }.
Record OnboardingStep := MkOnboarding { name : jstr; state : jstr }.

Record OnboardingStatus := MkStatus {
  dns_running : bool;
  listen_addr : jstr;
  listen_port : jstr;
  upstream : jstr;
  blocked_domains : Z;
  device_count : Z;
  bind : CheckStep;
  resolver : CheckStep;
  blocklist : CheckStep;
  steps : list OnboardingStep;
  first_explained_protection_at : option jstr
}.

Record Summary := MkSummary {
  total : Z;
  by_action : option (gmap jstr Z);
  unique_clients : Z;
  top_blocked_domains : list (jstr * Z)
}.

Record ProtectionCheck := MkCheck {
  check_domain : jstr;
  check_rcode : jstr;
  check_cname : option jstr;
  check_upstream : jstr
}.

Record Notice := MkNotice { key : jstr; title : jstr; subtitle : jstr }.

(** One answer object, as each caller reads it. *)
Record HomeBody := MkHomeBody {
  b_status : OnboardingStatus;
  b_summary : Summary;
  b_Value : option jstr;
  b_check : ProtectionCheck;
  b_state : jstr;
  b_detail : jstr;
  b_action : option jstr
}.

Record Home := MkHome {
  sess : Session;
  status : option OnboardingStatus;
  summary : option Summary;
  httpsOn : option bool;
  statusError : jstr;
  check : option ProtectionCheck;
  checkState : jstr;
  checkDetail : jstr;
  checkAction : jstr;
  checking : bool
}.
#[export] Instance Home_eta : Settable Home := fun s =>
  MkHome (sess s) (status s) (summary s) (httpsOn s) (statusError s) (check s) (checkState s)
    (checkDetail s) (checkAction s) (checking s).
#[export] Instance Home_session : HasSession Home :=
  {| session := sess; on_session f s := s <| sess ::= f |>; session_on_session f s := eq_refl;
     on_session_twice f g s := eq_refl; on_session_const f s := eq_refl |}.

#[local] Abbreviation handler := (prog Home (io_res (P := unit) HomeBody)).

(** ** Handlers *)

Definition loadStatus : handler unit :=
  statusError <~ [] ;;
  try_catch
    (data ← doCall (js "/onboarding/status") (js "get") None ∅;
     status <~ b_status <$> data)
    (fun _ => statusError <~ js "Unable to load the gateway status.").

Definition loadSummary : handler unit :=
  try_catch
    (data ← doCall (js "/decisions/summary?days=1") (js "get") None ∅;
     summary <~ b_summary <$> data)
    (fun _ => summary <~ None).

Definition loadHttps : handler unit :=
  try_catch
    (res ← doCall (js "/settings/enable_https_filtering") (js "get") None ∅;
     httpsOn <~ Some (bool_decide ((res ≫= b_Value) = Some (js "true"))))
    (fun _ => httpsOn <~ None).

(** The three calls of [refresh], which [Promise.all] starts together. *)
Definition refresh : list (handler unit) := [loadStatus; loadSummary; loadHttps].

Definition runProtectionCheck : handler unit :=
  checking <~ true ;; checkDetail <~ [] ;; checkAction <~ [] ;; checkState <~ [] ;;
  finally
    (try_catch
       (data ← doCall (js "/onboarding/protection-check") (js "post") (Some ()) ∅;
        response ← deref data;
        check <~ Some (b_check response) ;;
        checkState <~ b_state response ;;
        checkDetail <~ b_detail response ;;
        checkAction <~ opt_or (b_action response) [] ;;
        loadStatus)
       (fun _ =>
          checkState <~ js "failed" ;;
          checkDetail <~ js "The protection check did not complete." ;;
          checkAction <~ js "Verify the DNS listener and upstream resolver, then retry the check."))
    (checking <~ false).

(** ** What the page derives *)

Definition measuredSteps : list jstr :=
  js <$> ["resolver"; "blocklist"; "first_device"; "protection_check"]%string.

Definition unreachableHosts : list jstr :=
  js <$> [""; "0.0.0.0"; "::"; "[::]"; "127.0.0.1"; "::1"]%string.

Definition dnsHost (s : Home) : jstr :=
  let addr := default [] (listen_addr <$> status s) in
  if includes unreachableHosts addr then js "<gatesentry-host-ip>" else addr.

Definition readiness (s : Home) : list OnboardingStep :=
  List.filter (fun step => includes measuredSteps (name step)) (default [] (steps <$> status s)).

Definition step_ok (step : OnboardingStep) : bool := bool_decide (state step = js "ok").

(** [None] is [-1]. *)
Definition pendingIndex (s : Home) : option nat := findIndex (fun step => negb (step_ok step)) (readiness s).

Definition setupDone (s : Home) : bool :=
  negb (is_nil (readiness s)) && match pendingIndex s with None => true | Some _ => false end.

Definition protectedYet (s : Home) : bool :=
  truthy (opt_or (status s ≫= first_explained_protection_at) []).

Definition blocked24 (s : Home) : Z :=
  default 0%Z (summary s ≫= fun v => by_action v ≫= fun m => m !! js "block").

Section Notices.
Context (translator : jstr → jstr).

Definition step_action_of (c : CheckStep) : jstr := opt_or (step_action c) [].

Definition collectNotices (current : OnboardingStatus) : list Notice :=
  (if bool_decide (step_state (bind current) = js "ok") then []
   else [MkNotice (js "bind") (translator (js "DNS listener is not ready"))
           (joinStr (js " ") (List.filter truthy
              [opt_or (step_detail (bind current)) []; step_action_of (bind current)]))])
  ++ (if bool_decide (step_state (resolver current) ≠ js "ok") && truthy (step_action_of (resolver current))
      then [MkNotice (js "resolver") (translator (js "Upstream resolver is not reachable"))
              (step_action_of (resolver current))] else [])
  ++ (if bool_decide (step_state (blocklist current) ≠ js "ok") && truthy (step_action_of (blocklist current))
      then [MkNotice (js "blocklist") (translator (js "Blocklist empty"))
              (step_action_of (blocklist current))] else []).

Definition notices (s : Home) : list Notice :=
  match status s with Some current => collectNotices current | None => [] end.

Definition stepLabel (step : jstr) : jstr :=
  if bool_decide (step = js "resolver") then translator (js "Resolver and listener")
  else if bool_decide (step = js "blocklist") then translator (js "Blocklists loaded")
  else if bool_decide (step = js "first_device") then translator (js "First device discovered")
  else translator (js "Protection verified").

Context (toLocaleString : jstr → jstr).

Definition stepDetail (step : jstr) (s : Home) : jstr :=
  match status s with
  | None => []
  | Some v =>
      if bool_decide (step = js "resolver") then opt_or (step_detail (resolver v)) []
      else if bool_decide (step = js "blocklist") then opt_or (step_detail (blocklist v)) []
      else if bool_decide (step = js "first_device") then
        of_Z (device_count v) ++ js " " ++ translator (js "devices discovered")
      else if protectedYet s then
        translator (js "Verified") ++ js " "
        ++ toLocaleString (default [] (first_explained_protection_at v))
      else translator (js "Not verified yet")
  end.
End Notices.

(** ** Properties *)

(** The setup panel is complete exactly when the server reports a measured step
    and all it reports are ok; otherwise the step marked as current is the first
    one that is not. *)
Theorem setup_progress_spec s :
  let measured step := step ∈ default [] (steps <$> status s) ∧ name step ∈ measuredSteps in
  (setupDone s = true ↔
     (∃ step, measured step) ∧ ∀ step, measured step → state step = js "ok") ∧
  match pendingIndex s with
  | Some i => ∃ step, readiness s !! i = Some step ∧ state step ≠ js "ok" ∧
                ∀ j earlier, j < i → readiness s !! j = Some earlier → state earlier = js "ok"
  | None => ∀ step, measured step → state step = js "ok"
  end.
Proof.
  intros measured.
  assert (∀ step, step ∈ readiness s ↔ measured step) as Hm.
  { intros step. unfold readiness, measured. by rewrite elem_of_filter_b, includes_spec. }
  assert (∀ step, negb (step_ok step) = false ↔ state step = js "ok") as Hok.
  { intros step. unfold step_ok. by rewrite negb_false_iff, bool_decide_eq_true. }
  unfold setupDone. destruct (pendingIndex s) as [i|] eqn:E; unfold pendingIndex in E.
  - apply findIndex_Some in E as (step & Hi & Hf & Hmin). split.
    + rewrite andb_false_r. split; [done|]. intros [_ H].
      assert (negb (step_ok step) = false) as Hs; [|congruence].
      apply Hok, H, Hm. by eapply list_elem_of_lookup_2.
    + exists step. split_and!; [done| |].
      * intros Hs. apply Hok in Hs. congruence.
      * intros j earlier Hj He. apply Hok. by eapply Hmin.
  - pose proof (findIndex_None _ _ E) as Hn. rewrite andb_true_r. split.
    + split.
      * intros H. split.
        -- destruct (readiness s) as [|step l]; [done|]. exists step. apply Hm. left.
        -- intros step Hs. by apply Hok, Hn, Hm.
      * intros [[step Hs] _]. apply Hm in Hs. by destruct (readiness s); [apply elem_of_nil in Hs|].
    + intros step Hs. by apply Hok, Hn, Hm.
Qed.

(** A listener problem is always reported, and a resolver or blocklist problem
    whenever the server says what to do about it; a healthy part never is, and
    no two notices have the same key. *)
Theorem notices_spec translator current :
  let l := collectNotices translator current in
  NoDup (key <$> l) ∧
  (js "bind" ∈ key <$> l ↔ step_state (bind current) ≠ js "ok") ∧
  (js "resolver" ∈ key <$> l ↔
     step_state (resolver current) ≠ js "ok" ∧ step_action_of (resolver current) ≠ []) ∧
  (js "blocklist" ∈ key <$> l ↔
     step_state (blocklist current) ≠ js "ok" ∧ step_action_of (blocklist current) ≠ []).
Proof.
  unfold collectNotices.
  rewrite <-!truthy_true.
  destruct (decide (step_state (bind current) = js "ok")) as [Hb|Hb];
    [rewrite (bool_decide_true _ Hb) | rewrite (bool_decide_false _ Hb)];
  (destruct (decide (step_state (resolver current) = js "ok")) as [Hr|Hr];
    [rewrite (bool_decide_false (step_state (resolver current) ≠ _)) by tauto
    |rewrite (bool_decide_true (step_state (resolver current) ≠ _) Hr)]);
  (destruct (decide (step_state (blocklist current) = js "ok")) as [Hl|Hl];
    [rewrite (bool_decide_false (step_state (blocklist current) ≠ _)) by tauto
    |rewrite (bool_decide_true (step_state (blocklist current) ≠ _) Hl)]);
  destruct (truthy (step_action_of (resolver current)));
  destruct (truthy (step_action_of (blocklist current))); simpl;
  (split; [apply (bool_decide_unpack _); by vm_compute|]);
  rewrite ?elem_of_cons, ?elem_of_nil;
  assert (js "bind" ≠ js "resolver") as H1 by (by vm_compute);
  assert (js "bind" ≠ js "blocklist") as H2 by (by vm_compute);
  assert (js "resolver" ≠ js "blocklist") as H3 by (by vm_compute);
  intuition congruence.
Qed.

(** ** What the handlers do *)

Ltac home_norm st :=
  eval cbv beta iota zeta delta [update_field sess status summary httpsOn statusError check checkState
    checkDetail checkAction checking session on_session Home_session] in st.
Ltac home_simpl := match goal with |- ?G => let G' := home_norm G in change G' end.
Ltac home_run := repeat (progress run_with home_norm || rewrite run_call); home_simpl.

Section Handlers.
Context (reply : list (request unit) → ∀ q : io_req unit, io_res HomeBody q).

(** The page after the status has been asked for. *)
Definition after_status (o : result (option HomeBody)) (s : Home) : Home :=
  match o with
  | inl _ => s <| statusError := js "Unable to load the gateway status." |>
  | inr data => s <| status := b_status <$> data |> <| statusError := [] |>
  end.

Definition status_request (a : Session) : request unit :=
  session_request a (js "/onboarding/status") (js "get") None ∅.

Lemma loadStatus_run s log :
  run (history reply) loadStatus s log =
    (inr (), let o := reply log (Fetch (status_request (sess s))) in
             after_status (call_result o) (on_session (session_after o) s), log ++ [status_request (sess s)]).
Proof.
  destruct s. unfold loadStatus, after_status, status_request. home_run. by destruct (call_result _); home_run.
Qed.

Definition check_request (a : Session) : request unit :=
  session_request a (js "/onboarding/protection-check") (js "post") (Some ()) ∅.

(** The check asks the server once and always leaves a verdict.  The verdict
    shown is the server's, with its explanation, and the status is read again
    under the session as the first call left it; when that read fails the
    verdict stays.  A call that fails is a failed check, without a second
    request. *)
Theorem runProtectionCheck_spec s log :
  let '(r, s', log') := run (history reply) runProtectionCheck s log in
  let answer := reply log (Fetch (check_request (sess s))) in
  let log1 := log ++ [check_request (sess s)] in
  let q2 := status_request (session_after answer (sess s)) in
  r = inr () ∧ checking s' = false ∧
  match call_result answer with
  | inr (Some b) =>
      check s' = Some (b_check b) ∧ checkState s' = b_state b ∧ checkDetail s' = b_detail b ∧
      checkAction s' = opt_or (b_action b) [] ∧ log' = log1 ++ [q2] ∧
      match call_result (reply log1 (Fetch q2)) with
      | inr data => status s' = b_status <$> data ∧ statusError s' = []
      | inl _ => status s' = status s ∧ statusError s' = js "Unable to load the gateway status."
      end
  | _ =>
      check s' = check s ∧ checkState s' = js "failed" ∧ checkAction s' ≠ [] ∧
      status s' = status s ∧ log' = log1
  end.
Proof.
  destruct s. unfold runProtectionCheck, check_request.
  home_run. destruct (call_result _) as [e|[b|]]; home_run; [by split_and!| |by split_and!].
  rewrite loadStatus_run. unfold after_status. destruct (call_result _) as [e|data]; home_run; by split_and!.
Qed.
End Handlers.
