(* ===== verification/HomeView.v ===== *)
(** * The template of the overview, and the page in the event loop

    The markup of [routes/home/home.svelte].  [setInterval] is an event that
    may always happen. *)

From S2P Require Import Prelude JsString JsAsync Numbers Http Api Busy View Layout Home.
Open Scope js_scope.

Inductive home_event :=
| Refresh
| CloseStatusError
| RunCheck
| Go (path : jstr).

Section View.
Context (translator : jstr → jstr) (toLocaleDate : jstr → jstr) (toLocaleString : Z → jstr).
#[local] Abbreviation tr s := (translator (js s)).
#[local] Abbreviation handler := (prog Home (io_res (P := unit) HomeBody)).

Definition fmt (n : option Z) : jstr := match n with Some n => toLocaleString n | None => js "—" end.

Definition blockRate (s : Home) : jstr :=
  match summary s with
  | Some v => if (0 <? total v)%Z then percentage (blocked24 s) (total v) else js "—"
  | None => js "—"
  end.

(** ** The tiles *)

Definition tile (label : jstr) (value : node home_event) (foot : jstr) : node home_event :=
  El "div" [] [El "span" [] [Text label]; value; El "span" [] [Text foot]].

Definition number (n : option Z) : node home_event := El "span" [] [Text (fmt n)].

Definition status_tiles (s : Home) (v : OnboardingStatus) : node home_event :=
  El "section" [Attr "aria-label" (tr "Gateway status")] [
    tile (tr "Protection")
      (El "Tag" [lit "type" (if protectedYet s then "green" else "red")] [
        Text (if protectedYet s then tr "Protected" else tr "Not verified")
      ])
      (if dns_running v then tr "DNS server running" else tr "DNS server stopped");
    tile (tr "Devices") (number (Some (device_count v))) (tr "discovered on the network");
    tile (tr "Blocklist") (number (Some (blocked_domains v))) (tr "domains loaded");
    tile (tr "HTTPS inspection")
      (El "Tag" [lit "type" (if default false (httpsOn s) then "blue" else "gray")] [
        Text (if default false (httpsOn s) then tr "On" else tr "Off")
      ])
      (tr "optional; needs the certificate")
  ].

(** ** The last day *)

Definition metric (value : option Z) (foot : list (node home_event)) : node home_event :=
  El "div" [] [number value; El "span" [] foot].

Definition most_blocked (s : Home) : node home_event :=
  let top := default [] (top_blocked_domains <$> summary s) in
  alt (negb (is_nil top)) [
    El "h4" [] [Text (tr "Most blocked")];
    El "StructuredList" [] [
      each (take 5 top) (fun item => [
        El "StructuredListRow" [] [
          El "StructuredListCell" [] [Text item.1];
          El "StructuredListCell" [] [Text (fmt (Some item.2))]
        ]
      ])
    ]
  ] [
    given (summary s) (fun _ => [El "p" [] [Text (tr "No blocked requests in the last 24 hours.")]])
  ].

Definition day_panel (s : Home) : node home_event :=
  El "section" [] [
    El "div" [] [
      El "h3" [] [Text (tr "Last 24 hours")];
      El "Button" [lit "kind" "ghost"; On "click" (Go (js "/stats"))] [Text (tr "View stats")]
    ];
    El "div" [] [
      metric (total <$> summary s) [Text (tr "requests")];
      metric (Some (blocked24 s)) [Text (tr "blocked"); txt "("; Text (blockRate s); txt ")"];
      metric (unique_clients <$> summary s) [Text (tr "active clients")]
    ];
    most_blocked s
  ].

(** ** Setup and the protection check *)

Definition progress_step (s : Home) (step : OnboardingStep) : node home_event :=
  El "ProgressStep" [
    Flag "complete" (step_ok step); Flag "invalid" (bool_decide (state step = js "failed"));
    Attr "label" (stepLabel translator (name step));
    Attr "secondaryLabel" (stepDetail translator toLocaleDate (name step) s)
  ] [].

Definition check_row (label value : jstr) : node home_event :=
  El "StructuredListRow" [] [
    El "StructuredListCell" [Flag "noWrap" true] [Text label];
    El "StructuredListCell" [] [Text value]
  ].

Definition check_result (s : Home) : node home_event :=
  shown (truthy (checkState s)) [
    El "div" [] [
      El "Tag" [lit "type" (if bool_decide (checkState s = js "ok") then "green" else "red")] [
        Text (if bool_decide (checkState s = js "ok") then tr "Protected" else tr "Not protected")
      ];
      El "p" [] [Text (checkDetail s)];
      given (check s) (fun check => [
        El "StructuredList" [] [
          check_row (tr "Test domain") (check_domain check);
          check_row (tr "Answer") (check_rcode check);
          shown (truthy (default [] (check_cname check))) [
            check_row (tr "Explanation") (default [] (check_cname check))
          ];
          check_row (tr "Upstream") (check_upstream check)
        ]
      ]);
      shown (truthy (checkAction s)) [
        El "InlineNotification" [
          lit "kind" "error"; Flag "hideCloseButton" true;
          Attr "title" (tr "Protection check failed"); Attr "subtitle" (checkAction s)
        ] []
      ]
    ]
  ].

Definition check_button (s : Home) (v : OnboardingStatus) : node home_event :=
  El "Button" [On "click" RunCheck; Disabled (checking s || negb (dns_running v))] [
    Text (if checking s then tr "Checking..." else tr "Run protection check")
  ].

Definition setup_panel (s : Home) (v : OnboardingStatus) : node home_event :=
  El "section" [] [
    El "div" [] [
      El "h3" [] [Text (tr "Setup")];
      shown (setupDone s) [El "Tag" [lit "type" "green"] [Text (tr "Complete")]]
    ];
    shown (negb (is_nil (readiness s))) [
      El "ProgressIndicator" [
        Flag "vertical" true; Flag "preventChangeOnClick" true;
        Attr "currentIndex" (match pendingIndex s with Some i => of_nat i | None => js "-1" end)
      ] [each (readiness s) (fun step => [progress_step s step])]
    ];
    El "p" [] [
      Text (tr "The protection check asks the running DNS server to resolve a controlled test domain and records the decision it made.")
    ];
    check_button s v;
    check_result s
  ].

(** ** Connecting a device *)

Definition connect_panel (s : Home) (v : OnboardingStatus) : node home_event :=
  El "section" [] [
    El "h3" [] [Text (tr "Connect a device")];
    El "p" [] [
      Text (tr "Set the DNS server on a device, or in your router's DHCP settings, to the GateSentry address. Devices that use another resolver are not filtered.")
    ];
    El "StructuredList" [] [
      check_row (tr "DNS listener") (listen_addr v ++ js ":" ++ listen_port v);
      check_row (tr "Upstream resolver") (upstream v)
    ];
    El "p" [] [Text (tr "Test from a device:")];
    El "CodeSnippet" [lit "type" "single"; Attr "code" (js "dig @" ++ dnsHost s ++ js " example.com")] [];
    El "div" [] [
      El "Button" [lit "kind" "tertiary"; On "click" (Go (js "/rules"))] [Text (tr "Policies")];
      El "Button" [lit "kind" "ghost"; On "click" (Go (js "/devices"))] [Text (tr "Devices")];
      El "Button" [lit "kind" "ghost"; On "click" (Go (js "/dns"))] [Text (tr "DNS settings")]
    ]
  ].

Definition notice_view (notice : Notice) : list (node home_event) := [
  El "InlineNotification" [
    lit "kind" "error"; Flag "hideCloseButton" true; Attr "title" (title notice); Attr "subtitle" (subtitle notice)
  ] []
].

Definition home_view (s : Home) : node home_event :=
  page_shell (tr "Overview")
    (tr "GateSentry is a self-hosted internet safety gateway. Devices that use it for DNS, or send traffic through its proxy, are filtered by your policies.")
    false []
    (Some [El "Button" [lit "kind" "ghost"; On "click" Refresh] [Text (tr "Refresh")]]) [
    shown (truthy (statusError s)) [
      El "InlineNotification" [
        lit "kind" "error"; Attr "title" (tr "Status unavailable"); Attr "subtitle" (statusError s);
        On "close" CloseStatusError
      ] []
    ];
    given (status s) (fun v => [
      each (notices translator s) notice_view;
      status_tiles s v;
      day_panel s;
      El "div" [] [setup_panel s v; connect_panel s v]
    ])
  ].

(** ** The event loop *)

(** [refresh] starts three reads, of which the first is the event itself; the
    interval starts the second alone. *)
Inductive page_event := StartSummary | StartHttps | Raised (e : home_event).

Definition page_handler (e : page_event) : handler unit :=
  match e with
  | StartSummary => loadSummary
  | StartHttps => loadHttps
  | Raised Refresh => loadStatus
  | Raised CloseStatusError => statusError <~ []
  | Raised RunCheck => runProtectionCheck
  | Raised (Go _) => Ret ()
  end.

Definition page_enabled (e : page_event) (s : Home) : Prop :=
  match e with Raised e => offers (home_view s) e | _ => True end.

Definition initialHome (a : Session) : Home := MkHome a None None None [] None [] [] [] false.

Definition home_loop (a : Session) := loop_from page_enabled page_handler loadStatus (initialHome a).
End View.

(** ** What the page offers *)

Section Offers.
Context (translator : jstr → jstr) (toLocaleDate : jstr → jstr) (toLocaleString : Z → jstr).

Lemma check_result_offers s e : ¬ offers (check_result translator s) e.
Proof. unfold check_result, check_row. view_simpl. intros H. view_destruct. Qed.

(** The controls of the page and when each can be used. *)
Theorem home_offers s e :
  offers (home_view translator toLocaleDate toLocaleString s) e ↔
  match e with
  | Refresh => True
  | CloseStatusError => truthy (statusError s) = true
  | RunCheck => checking s = false ∧ ∃ v, status s = Some v ∧ dns_running v = true
  | Go path => is_Some (status s) ∧ path ∈ js <$> ["/stats"; "/rules"; "/devices"; "/dns"]%string
  end.
Proof.
  unfold home_view. rewrite page_shell_offers. cbn [slot_offers].
  unfold notice_view, status_tiles, day_panel, setup_panel, connect_panel, tile, metric, number, most_blocked,
    progress_step, check_button, check_row. view_simpl.
  split.
  - intros H. view_destruct; try (exfalso; by eapply check_result_offers); subst; try done.
    all: try (split; [by eexists|]; cbn [fmap list_fmap]; set_solver).
    all: split_bools. all: eauto.
  - destruct e as [| | |path].
    + intros _. right. left. left. view_find.
    + intros H. right. right. left. split; [done|]. left. split; [done|]. left. left. view_find.
    + intros (Hc & v & Hs & Hd). do 3 right. left. exists v. split; [done|]. do 3 right. left. split; [done|].
      right. left. split; [done|]. right. do 3 right. left. split; [done|]. left. left. by rewrite Hc, Hd.
    + intros ([v Hs] & Hp). do 3 right. left. exists v. split; [done|].
      cbn [fmap list_fmap] in Hp. repeat apply elem_of_cons in Hp as [->|Hp]; [..|by apply elem_of_nil in Hp].
      * do 2 right. left. view_find.
      * do 3 right. left. split; [done|]. right. right. left. view_find.
      * do 3 right. left. split; [done|]. right. right. left. view_find.
      * do 3 right. left. split; [done|]. right. right. left. view_find.
Qed.

(** ** One check at a time *)

Definition checks (q : io_req unit) : bool :=
  match q with Fetch r => bool_decide (rq_method r = js "post") | _ => false end.

Lemma home_event_safe e s :
  page_enabled translator toLocaleDate toLocaleString e s → flag_safe checking checks (page_handler e) s.
Proof.
  intros He. destruct e as [| |[| | |path]]; cbn [page_handler];
    try (apply harmless_safe; unfold loadSummary, loadHttps, loadStatus; solve [harmless_run]).
  cbn [page_enabled] in He. rewrite home_offers in He. destruct He as [Hc _].
  unfold flag_safe, runProtectionCheck, loadStatus. guard_run.
Qed.

Lemma home_event_settles e s : settling checking (page_handler e) s.
Proof. unfold page_handler, runProtectionCheck, loadStatus, loadSummary, loadHttps. destruct e as [| |[]]; settling_run. Qed.

(** However the page is used and its requests answered, at most one protection
    check is under way, and none while another can be started; when no more is
    done and the interval does not fire, the page comes to rest and does not
    say that it is checking. *)
Theorem home_at_rest a s ts :
  home_loop translator toLocaleDate toLocaleString a (s, ts) →
  length (List.filter (fun t => checks (th_request t)) ts) ≤ (if checking s then 1 else 0) ∧
  Acc (flip answer_step) (s, ts) ∧
  ∀ s', rtc answer_step (s, ts) (s', []) → Forall (fun flag => flag s' = false) [checking].
Proof.
  intros Hr. split.
  - eapply single_flight in Hr as [H _]; [exact H|intros; by apply home_event_safe|done|].
    apply harmless_safe. unfold loadStatus. harmless_run.
  - apply (page_rests _ _ _ _ _ [checking] Hr). apply Forall_cons. split; [|done]. split.
    + intros e s0 _. apply home_event_settles.
    + right. split; [done|]. unfold loadStatus. settling_run.
Qed.
End Offers.
