(* ===== verification/FilterEditor.v ===== *)
(** * The inspection list editor

    [components/filtereditor.svelte].  A score is a JavaScript number as the
    editor meets it: [None] is [NaN]. *)

From Stdlib Require Import QArith.
From S2P Require Import Prelude JsString JsAsync Http Api Notifications.
Open Scope js_scope.

(** ** Data *)

Record FilterRow := MkRow {
  id : nat;
  content : jstr;
  score : option Q;
  draft : bool
}.
#[export] Instance FilterRow_eta : Settable FilterRow := fun r =>
  MkRow (id r) (content r) (score r) (draft r).

(** [b_Entries]: the [Entries] of the first list of an answer that is an array
    of objects with one; [b_Value] and [b_error]: those members. *)
Record FilterBody := MkFilterBody {
  b_Entries : option (list (jstr * option Q));
  b_response : jstr;
  b_error : jstr;
  b_Value : option jstr
}.

(** The [Content] and [Score] of every row. *)
Inductive FilterPayload := SendRows (rows : list (jstr * option Q)).

Record Editor := MkEditor {
  sess : Session;
  shown_notifications : list Notification;
  filterId : jstr;
  showColumns : list jstr;
  data : list FilterRow;
  loading : bool;
  saving : bool;
  loadError : jstr;
  saveError : jstr;
  editingRowId : option nat;
  pendingDelete : option FilterRow;
  nextId : nat
}.
#[export] Instance Editor_eta : Settable Editor := fun s =>
  MkEditor (sess s) (shown_notifications s) (filterId s) (showColumns s) (data s) (loading s)
    (saving s) (loadError s) (saveError s) (editingRowId s) (pendingDelete s) (nextId s).
#[export] Instance Editor_session : HasSession Editor :=
  {| session := sess; on_session f s := s <| sess ::= f |>; session_on_session f s := eq_refl;
     on_session_twice f g s := eq_refl; on_session_const f s := eq_refl |}.
#[export] Instance Editor_notifications : HasNotifications Editor :=
  {| shown := shown_notifications; on_shown f s := s <| shown_notifications ::= f |>;
     shown_on_shown f s := eq_refl |}.

#[local] Abbreviation handler := (prog Editor (io_res (P := FilterPayload) FilterBody)).

Definition initialEditor (a : Session) (filterId : jstr) (showColumns : list jstr) : Editor := {|
  sess := a; shown_notifications := []; filterId := filterId; showColumns := showColumns; data := [];
  loading := true; saving := false; loadError := []; saveError := []; editingRowId := None;
  pendingDelete := None; nextId := 1
|}.

(** ** What the table derives *)

Definition editingRow (s : Editor) : option FilterRow :=
  find (fun item => bool_decide (Some (id item) = editingRowId s)) (data s).

Definition canSaveEditing (s : Editor) : bool :=
  match editingRow s with
  | Some row =>
      truthy (trim (content row)) && (negb (includes (showColumns s) (js "score")) || bool_decide (is_Some (score row)))
  | None => false
  end.

(** ** Editing *)

Definition change (i : nat) (f : FilterRow → FilterRow) (l : list FilterRow) : list FilterRow :=
  (fun item => if (id item =? i)%nat then f item else item) <$> l.

Definition handleContentChange (i : nat) (value : jstr) (s : Editor) : Editor :=
  s <| data ::= change i (fun item => item <| content := value |>) |>.

Definition handleScoreChange (i : nat) (value : option Q) (s : Editor) : Editor :=
  s <| data ::= change i (fun item => item <| score := value |>) |>.

Definition editRow (i : nat) (s : Editor) : Editor := s <| editingRowId := Some i |> <| saveError := [] |>.

Definition without (i : nat) (l : list FilterRow) : list FilterRow :=
  List.filter (fun item => negb (id item =? i)%nat) l.

Definition cancelEditing (s : Editor) : Editor :=
  let s := match editingRow s with
           | Some row => if draft row then s <| data ::= without (id row) |> else s
           | None => s
           end in
  s <| editingRowId := None |> <| saveError := [] |>.

Definition addRow (s : Editor) : Editor :=
  match editingRowId s with
  | Some _ => s
  | None =>
      let row := MkRow (nextId s) [] (Some 0%Q) true in
      s <| nextId ::= Datatypes.S |> <| data ::= fun l => l ++ [row] |> <| editingRowId := Some (id row) |>
  end.

Definition askDelete (i : nat) (s : Editor) : Editor :=
  s <| pendingDelete := find (fun item => (id item =? i)%nat) (data s) |>.

Definition closeDelete (s : Editor) : Editor := s <| pendingDelete := None |>.

(** ** Loading and saving *)

Section Save.
Context (translator : jstr → jstr).

Definition list_url (s : Editor) : jstr := js "/filters/" ++ filterId s.

Definition rows_of (entries : list (jstr * option Q)) : list FilterRow :=
  imap (fun index item => MkRow (index + 1) item.1 (Some (default 0%Q item.2)) false) entries.

Definition loadAPIData : handler unit :=
  loading <~ true ;; loadError <~ [] ;;
  finally
    (try_catch
       (s ← get;
        answer ← doCall (list_url s) (js "get") None ∅;
        data <~ rows_of (default [] (answer ≫= b_Entries)) ;;
        modify (fun s => s <| nextId := length (data s) + 1 |>) ;;
        editingRowId <~ None)
       (fun caught => loadError <~ nonempty_message_or caught
          (translator (js "This inspection list could not be loaded."))))
    (loading <~ false).

Definition notifySaved : handler unit :=
  notify (MkBuilt (js "success") (translator (js "Inspection list updated"))
            (translator (js "The filter was saved successfully.")) 3000).

Definition payload_of (rows : list FilterRow) : FilterPayload :=
  SendRows ((fun item => (content item, score item)) <$> rows).

Definition saveData (next : list FilterRow) : handler bool :=
  s ← get;
  if saving s then Ret false else
  saving <~ true ;; saveError <~ [] ;;
  finally
    (try_catch
       (s ← get;
        answer ← doCall (list_url s) (js "post") (Some (payload_of next)) ∅;
        if negb (contains (js "Ok") (default [] (b_response <$> answer))) then
          Throw (Error (str_or (default [] (b_error <$> answer))
            (translator (js "The filter service did not confirm the save."))))
        else
          notifySaved ;;
          loadAPIData ;;
          Ret true)
       (fun caught =>
          saveError <~ nonempty_message_or caught
            (translator (js "This inspection list could not be saved.")) ;;
          Ret false))
    (saving <~ false).

Definition saveEditingRow : handler unit :=
  s ← get;
  match editingRow s with
  | None => Ret ()
  | Some _ =>
      if negb (canSaveEditing s) then Ret ()
      else saveData ((fun item => item <| draft := false |>) <$> data s) ;; Ret ()
  end.

Definition confirmDelete : handler unit :=
  s ← get;
  match pendingDelete s with
  | None => Ret ()
  | Some target =>
      if saving s then Ret () else
      saved ← saveData (without (id target) (data s));
      when saved (pendingDelete <~ None)
  end.

(** ** Events *)

Inductive editor_event :=
| Load | AddRow | EditRow (i : nat) | ContentChange (i : nat) (value : jstr)
| ScoreChange (i : nat) (value : option Q) | Cancel | Save | AskDelete (i : nat) | CloseDelete
| ConfirmDelete | CloseLoadError | CloseSaveError.

(** The menu of a row offers its identifier; only the row being edited has
    inputs. *)
Definition enabled (e : editor_event) (s : Editor) : Prop :=
  match e with
  | EditRow i | AskDelete i => i ∈ id <$> data s
  | ContentChange i _ | ScoreChange i _ => editingRowId s = Some i
  | _ => True
  end.

Definition on_event (e : editor_event) : handler unit :=
  match e with
  | Load => loadAPIData
  | AddRow => modify addRow
  | EditRow i => modify (editRow i)
  | ContentChange i v => modify (handleContentChange i v)
  | ScoreChange i v => modify (handleScoreChange i v)
  | Cancel => modify cancelEditing
  | Save => saveEditingRow
  | AskDelete i => modify (askDelete i)
  | CloseDelete => modify closeDelete
  | ConfirmDelete => confirmDelete
  | CloseLoadError => loadError <~ []
  | CloseSaveError => saveError <~ []
  end.
End Save.

(** ** Identifiers *)

(** Identifiers are distinct and below the next one, and the row being edited is
    in the table. *)
Record editor_ok (s : Editor) : Prop := {
  ok_ids : NoDup (id <$> data s);
  ok_next : ∀ row, row ∈ data s → id row < nextId s;
  ok_editing : ∀ i, editingRowId s = Some i → i ∈ id <$> data s
}.

Lemma change_ids i f l : (∀ row, id (f row) = id row) → id <$> change i f l = id <$> l.
Proof.
  intros Hf. unfold change. rewrite <-list_fmap_compose. apply list_fmap_ext. intros _ row _. simpl.
  by destruct (id row =? i)%nat.
Qed.

Lemma elem_of_ids i (l : list FilterRow) : i ∈ id <$> l ↔ ∃ row, row ∈ l ∧ id row = i.
Proof. rewrite list_elem_of_fmap. naive_solver. Qed.

(** The invariant as a statement about the identifiers alone. *)
Lemma editor_ok_ids s : editor_ok s ↔
  NoDup (id <$> data s) ∧ (∀ i, i ∈ id <$> data s → i < nextId s) ∧
  ∀ i, editingRowId s = Some i → i ∈ id <$> data s.
Proof.
  split.
  - intros [H1 H2 H3]. split_and!; [done| |done]. intros i (row & Hr & <-)%elem_of_ids. auto.
  - intros (H1 & H2 & H3). split; [done| |done]. intros row Hr. apply H2, elem_of_ids. eauto.
Qed.

Lemma change_ok i f s : (∀ row, id (f row) = id row) → editor_ok s → editor_ok (s <| data ::= change i f |>).
Proof. intros Hf. rewrite !editor_ok_ids. simpl. by rewrite change_ids. Qed.

Lemma addRow_ok s : editor_ok s → editor_ok (addRow s).
Proof.
  unfold addRow. destruct (editingRowId s) eqn:E; [done|].
  rewrite !editor_ok_ids. simpl. rewrite fmap_app. simpl. intros (H1 & H2 & H3). split_and!.
  - apply NoDup_app. split_and!; [done| |apply NoDup_singleton].
    intros j Hj ->%list_elem_of_singleton. specialize (H2 _ Hj). lia.
  - intros j [Hj|Hj]%elem_of_app; [specialize (H2 _ Hj); lia|].
    apply list_elem_of_singleton in Hj as ->. lia.
  - intros j [= <-]. apply elem_of_app. right. left.
Qed.

Lemma without_ids i j l : i ∈ id <$> without j l → i ∈ id <$> l.
Proof. rewrite !elem_of_ids. intros (row & Hr & <-). apply elem_of_filter_b in Hr as [? _]. eauto. Qed.

Lemma cancelEditing_ok s : editor_ok s → editor_ok (cancelEditing s).
Proof.
  rewrite !editor_ok_ids. intros (H1 & H2 & H3). unfold cancelEditing.
  destruct (editingRow s) as [row|]; [destruct (draft row)|]; simpl; split_and!; try done.
  - by apply NoDup_fmap_filter_b.
  - intros i Hi. by eapply H2, without_ids.
Qed.

Lemma rows_of_ids entries : id <$> rows_of entries = seq 1 (length entries).
Proof.
  unfold rows_of. apply list_eq. intros k. rewrite list_lookup_fmap, list_lookup_imap.
  destruct (entries !! k) as [item|] eqn:E; simpl.
  - apply lookup_lt_Some in E. rewrite lookup_seq_lt by done. f_equal. lia.
  - apply lookup_ge_None in E. by rewrite lookup_seq_ge.
Qed.

Lemma loaded_ok entries s :
  editor_ok (s <| data := rows_of entries |> <| nextId := length (rows_of entries) + 1 |> <| editingRowId := None |>).
Proof.
  apply editor_ok_ids. simpl. rewrite rows_of_ids. split_and!; [apply NoDup_seq| |done].
  intros i Hi%elem_of_seq. unfold rows_of. rewrite length_imap. lia.
Qed.

Section Loop.
Context (translator : jstr → jstr).

#[local] Abbreviation keeps_ok p s := (wp editor_ok p (fun _ s' => editor_ok s') s).

Lemma editor_core_ok s s' :
  (data s, editingRowId s, nextId s) = (data s', editingRowId s', nextId s') →
  editor_ok s → editor_ok s'.
Proof. intros [= H1 H2 H3]. rewrite !editor_ok_ids. by rewrite H1, H2, H3. Qed.

Lemma editor_load_ok s : editor_ok s → keeps_ok (loadAPIData translator) s.
Proof.
  intros Hs. unfold loadAPIData. wp_run. apply wp_doCall; [by intros g s0; apply editor_core_ok|by apply (editor_core_ok s)|].
  intros [e|answer] s' Hs'; wp_run; [by apply (editor_core_ok s')|].
  eapply editor_core_ok; [|exact (loaded_ok (default [] (answer ≫= b_Entries)) s')]. done.
Qed.

Lemma saveData_ok next s : editor_ok s → keeps_ok (saveData translator next) s.
Proof.
  intros Hs. unfold saveData. wp_run. destruct (saving s); wp_run; [done|].
  apply wp_doCall; [by intros g s0; apply editor_core_ok|by apply (editor_core_ok s)|].
  intros [e|answer] s' Hs'; wp_run; [by apply (editor_core_ok s')|].
  destruct (contains _ _); wp_run; [|by apply (editor_core_ok s')].
  unfold notifySaved, notify. wp_run. eapply wp_mono; [|by apply editor_load_ok, (editor_core_ok s')].
  intros [e|[]] s'' Hs''; wp_run; by apply (editor_core_ok s'').
Qed.

Lemma editor_event_ok e s : editor_ok s → enabled e s → keeps_ok (on_event translator e) s.
Proof.
  intros Hs He. destruct e; simpl on_event; try (wp_run; by apply (editor_core_ok s)).
  - by apply editor_load_ok.
  - wp_run. by apply addRow_ok.
  - wp_run. apply editor_ok_ids in Hs as (? & ? & ?). apply editor_ok_ids.
    split_and!; [done..|]. by intros j [= <-].
  - wp_run. by apply change_ok.
  - wp_run. by apply change_ok.
  - wp_run. by apply cancelEditing_ok.
  - unfold saveEditingRow. wp_run. destruct (editingRow s); wp_run; [|done].
    destruct (canSaveEditing s); wp_run; [|done].
    eapply wp_mono; [|by apply saveData_ok]. intros [e|b] s' Hs'; by wp_run.
  - unfold confirmDelete. wp_run. destruct (pendingDelete s); wp_run; [|done].
    destruct (saving s); wp_run; [done|].
    eapply wp_mono; [|by apply saveData_ok]. intros [e|[]] s' Hs'; wp_run; try done.
    by apply (editor_core_ok s').
Qed.

(** C27: Whatever the user does while requests are in flight, the rows of the table
    have distinct identifiers, and the row being edited is one of them, so
    its inputs and its buttons are always shown; a new row never takes the
    identifier of another. *)
Theorem editor_invariant a f cols s ts :
  reachable enabled (on_event translator) (initialEditor a f cols) (s, ts) →
  NoDup (id <$> data s) ∧ (nextId s ∉ (id <$> data s)) ∧
  (is_Some (editingRowId s) ↔ is_Some (editingRow s)).
Proof.
  intros Hr. assert (editor_ok s) as [H1 H2 H3].
  { eapply (invariant_reachable editor_ok); [|split|exact Hr]; simpl; try done.
    - intros e s' Hs' He. by apply editor_event_ok.
    - constructor.
    - intros row Hrow. by apply elem_of_nil in Hrow. }
  split_and!; [done| |].
  - intros (row & Hrow & Hid)%elem_of_ids. specialize (H2 row Hrow). lia.
  - unfold editingRow. split.
    + intros [i Hi]. destruct (find _ _) eqn:E; [done|].
      destruct (proj1 (elem_of_ids _ _) (H3 i Hi)) as (row & Hrow & Hid).
      pose proof (find_None_elem _ _ _ E Hrow) as Hn. apply bool_decide_eq_false in Hn. congruence.
    + intros [row Hf]. apply find_Some_elem in Hf as [_ Hf]. apply bool_decide_eq_true in Hf.
      rewrite <-Hf. eauto.
Qed.
End Loop.

Ltac editor_norm st :=
  eval cbv beta iota zeta delta [update_field sess shown_notifications filterId showColumns data
    loading saving loadError saveError editingRowId pendingDelete nextId
    session on_session Editor_session shown on_shown Editor_notifications after_headers list_url] in st.
Ltac editor_simpl := match goal with |- ?G => let G' := editor_norm G in change G' end.
Ltac editor_run := unfold notify; repeat (progress run_with editor_norm || rewrite run_call); editor_simpl.

Section Handlers.
Context (translator : jstr → jstr).
Context (reply : list (request FilterPayload) → ∀ q : io_req FilterPayload, io_res FilterBody q).

Definition load_request (s : Editor) : request FilterPayload :=
  session_request (sess s) (list_url s) (js "get") None ∅.

Definition save_request (s : Editor) (next : list FilterRow) : request FilterPayload :=
  session_request (sess s) (list_url s) (js "post") (Some (payload_of next)) ∅.

(** The editor once its list has been asked for. *)
Definition after_load (o : result (option FilterBody)) (s : Editor) : Editor :=
  match o with
  | inl e => s <| loadError := nonempty_message_or e (translator (js "This inspection list could not be loaded.")) |>
  | inr answer =>
      let rows := rows_of (default [] (answer ≫= b_Entries)) in
      s <| data := rows |> <| nextId := length rows + 1 |> <| editingRowId := None |> <| loadError := [] |>
  end <| loading := false |>.

Lemma filters_load_run s log :
  run (history reply) (loadAPIData translator) s log =
    (inr (), let o := reply log (Fetch (load_request s)) in
             after_load (call_result o) (on_session (session_after o) s), log ++ [load_request s]).
Proof.
  destruct s. unfold loadAPIData, after_load, load_request, list_url. editor_run.
  by destruct (call_result _); editor_run.
Qed.

(** Why a save failed, when it did. *)
Definition refusal (o : result (option FilterBody)) : option jserr :=
  match o with
  | inl e => Some e
  | inr answer =>
      if contains (js "Ok") (default [] (b_response <$> answer)) then None
      else Some (Error (str_or (default [] (b_error <$> answer))
             (translator (js "The filter service did not confirm the save."))))
  end.

(** A save sends the whole list, and says whether the service confirmed it.
    Once confirmed the list is read again and replaces the table, with no row
    being edited; refused, the table and the row being edited stay. *)
Lemma saveData_spec next s log :
  saving s = false →
  let '(r, s', log') := run (history reply) (saveData translator next) s log in
  let answer := reply log (Fetch (save_request s next)) in
  let log1 := log ++ [save_request s next] in
  saving s' = false ∧ pendingDelete s' = pendingDelete s ∧
  match refusal (call_result answer) with
  | Some e =>
      r = inr false ∧ log' = log1 ∧ data s' = data s ∧ editingRowId s' = editingRowId s ∧
      saveError s' = nonempty_message_or e (translator (js "This inspection list could not be saved.")) ∧
      shown_notifications s' = shown_notifications s
  | None =>
      r = inr true ∧ saveError s' = [] ∧
      (∃ n, shown_notifications s' = shown_notifications s ++ [n] ∧ n_kind n = js "success") ∧
      ∃ q, log' = log1 ++ [q] ∧ rq_url q = rq_url (load_request s) ∧
        match call_result (reply log1 (Fetch q)) with
        | inr list =>
            data s' = rows_of (default [] (list ≫= b_Entries)) ∧ editingRowId s' = None
        | inl _ => data s' = data s ∧ editingRowId s' = editingRowId s
        end
  end.
Proof.
  intros Hs. destruct s. simpl in Hs. subst. unfold saveData, notifySaved, save_request, load_request, list_url, refusal.
  editor_run. editor_run. destruct (call_result _) as [e|answer]; editor_run; [by split_and!|].
  destruct (contains _ _); cbn [negb run]; editor_run; [|by split_and!].
  rewrite filters_load_run. unfold after_load.
  destruct (call_result _) as [e|list] eqn:E; editor_run; (split_and!; [done..| |]);
    [by eexists| |by eexists|]; eexists; (split; [done|]); (split; [|by rewrite E]).
  all: unfold load_request, session_request; simpl; by rewrite baseURL_session_after.
Qed.
(** Confirming a removal sends every other row as the table shows it, whether
    or not it has been saved before, and nothing when no removal is pending
    or a save is running.  The question is closed when the service confirms,
    and the list then read is shown; refused, the question and the table stay
    under the error. *)
Theorem filter_delete_spec s log :
  let '(r, s', log') := run (history reply) (confirmDelete translator) s log in
  r = inr () ∧
  match pendingDelete s with
  | None => s' = s ∧ log' = log
  | Some target =>
      if saving s then s' = s ∧ log' = log else
      let q := save_request s (without (id target) (data s)) in
      saving s' = false ∧ rq_body q = Some (payload_of (without (id target) (data s))) ∧
      match refusal (call_result (reply log (Fetch q))) with
      | Some e =>
          log' = log ++ [q] ∧ pendingDelete s' = Some target ∧ data s' = data s ∧
          saveError s' = nonempty_message_or e (translator (js "This inspection list could not be saved."))
      | None =>
          pendingDelete s' = None ∧
          ∃ q2, log' = log ++ [q; q2] ∧
            match call_result (reply (log ++ [q]) (Fetch q2)) with
            | inr list => data s' = rows_of (default [] (list ≫= b_Entries)) ∧ editingRowId s' = None
            | inl _ => data s' = data s
            end
      end
  end.
Proof.
  unfold confirmDelete. rewrite run_bind, run_get.
  destruct (pendingDelete s) as [target|] eqn:Hp; [|done].
  destruct (saving s) eqn:Hs; [done|]. rewrite run_bind.
  pose proof (saveData_spec (without (id target) (data s)) s log Hs) as H.
  destruct (run _ (saveData _ _) s log) as [[r s'] log'].
  destruct H as (H1 & H2 & H). destruct (refusal _) as [e|].
  - destruct H as (-> & -> & Hd & He & Hse & Hn). rewrite run_when. rewrite H2, Hp. by split_and!.
  - destruct H as (-> & Hse & _ & q & -> & Hq & H). rewrite run_when, run_modify. split; [done|].
    split; [done|]. split; [done|]. split; [done|]. exists q. rewrite <-app_assoc. split; [done|].
    destruct (call_result _); tauto.
Qed.
End Handlers.

(** ** Cancelling *)

(** Cancelling an edit drops a new row, but of a row that was there before it
    keeps what was typed: the table goes on showing the edited text, and the
    next save of any row, or removal of another, sends it. *)
Theorem cancel_keeps_edits s row value :
  editor_ok s → row ∈ data s → editingRowId s = Some (id row) →
  let s' := cancelEditing (handleContentChange (id row) value s) in
  editingRowId s' = None ∧
  if draft row then data s' = without (id row) (data s)
  else data s' = change (id row) (fun item => item <| content := value |>) (data s) ∧
       row <| content := value |> ∈ data s' ∧
       ∀ i, i ≠ id row → row <| content := value |> ∈ without i (data s').
Proof.
  intros [Hnd Hlt He] Hrow Hed s'. unfold s', cancelEditing.
  assert (row <| content := value |> ∈ change (id row) (fun item => item <| content := value |>) (data s)) as Hin.
  { unfold change. apply list_elem_of_fmap. exists row. by rewrite Nat.eqb_refl. }
  assert (NoDup (id <$> change (id row) (fun item => item <| content := value |>) (data s))) as Hnd'
    by (by rewrite change_ids).
  assert (editingRow (handleContentChange (id row) value s) = Some (row <| content := value |>)) as ->.
  { unfold editingRow. destruct (find _ _) as [row'|] eqn:E.
    - apply find_Some_elem in E as [Hin' Hid]. apply bool_decide_eq_true in Hid.
      change (row' ∈ change (id row) (fun item => item <| content := value |>) (data s)) in Hin'.
      change (Some (id row') = editingRowId s) in Hid. rewrite Hed in Hid. injection Hid as Hid. f_equal.
      apply list_elem_of_lookup in Hin as [i Hi]. apply list_elem_of_lookup in Hin' as [j Hj].
      assert (j = i) as ->; [|congruence].
      apply (NoDup_lookup _ _ _ (id row) Hnd'); rewrite list_lookup_fmap; [rewrite Hj|rewrite Hi]; simpl; congruence.
    - pose proof (find_None_elem _ _ _ E Hin) as Hf. apply bool_decide_eq_false in Hf.
      by destruct Hf. }
  change (draft (row <| content := value |>)) with (draft row).
  destruct (draft row); (split; [done|]).
  - simpl. unfold without, change. clear. induction (data s) as [|x l IH]; simpl; [done|].
    destruct (id x =? id row)%nat eqn:E; simpl; rewrite E; simpl; [done|]. by f_equal.
  - split; [done|]. split; [exact Hin|]. intros i Hi. unfold without. apply elem_of_filter_b.
    split; [exact Hin|]. simpl. apply negb_true_iff, Nat.eqb_neq. congruence.
Qed.

Definition two_rows : Editor :=
  (initialEditor (apistore [] ∅) (js "list") [js "content"; js "actions"])
    <| data := [MkRow 1 (js "ads") (Some 0%Q) false; MkRow 2 (js "video") (Some 0%Q) false] |>
    <| nextId := 3 |> <| editingRowId := Some 1 |>.

Lemma cancel_keeps_edits_witness :
  MkRow 1 (js "typo") (Some 0%Q) false
    ∈ without 2 (data (cancelEditing (handleContentChange 1 (js "typo") two_rows))).
Proof.
  apply (cancel_keeps_edits two_rows (MkRow 1 (js "ads") (Some 0%Q) false) (js "typo")).
  - apply editor_ok_ids. split_and!.
    + apply (bool_decide_unpack _). by vm_compute.
    + intros i Hi. simpl in *. repeat (apply elem_of_cons in Hi as [->|Hi]; [lia|]). by apply elem_of_nil in Hi.
    + intros i [= <-]. left.
  - left.
  - done.
  - done.
Defined.

Lemma editor_invariant_witness :
  is_Some (editingRowId (addRow (initialEditor (apistore [] ∅) [] []))).
Proof.
  apply (editor_invariant (fun s => s) (apistore [] ∅) [] [] (addRow (initialEditor (apistore [] ∅) [] [])) []).
  - apply (reach_step enabled (on_event (fun s => s)) _ (initialEditor (apistore [] ∅) [] [], [])); [constructor|].
    by apply (step_event enabled (on_event (fun s => s)) AddRow _ _ [] None).
  - by eexists.
Defined.
