(* ===== verification/FilterEditorView.v ===== *)
(** * The template of the inspection list editor, and the editor in the event
    loop

    The markup of [components/filtereditor.svelte].  How the browser prints a
    score is the parameter [printed]. *)

From Stdlib Require Import QArith.
From S2P Require Import Prelude JsString JsAsync Http Api Busy Notifications View Layout FilterEditor.
Open Scope js_scope.

Section View.
Context (translator : jstr → jstr) (printed : option Q → jstr).
#[local] Abbreviation tr s := (translator (js s)).

Definition allHeaders : list (jstr * jstr) := [
  (js "content", tr "Content"); (js "score", tr "Score"); (js "actions", tr "Actions")
].

Definition headers (s : Editor) : list (jstr * jstr) :=
  List.filter (fun item => includes (showColumns s) item.1) allHeaders.

Definition add_button (s : Editor) (disabled : bool) : node editor_event :=
  El "Button" [Disabled disabled; On "click" AddRow] [Text (tr "Add entry")].

Definition is_editing (s : Editor) (row : FilterRow) : bool := bool_decide (editingRowId s = Some (id row)).

Definition actions_cell (s : Editor) (row : FilterRow) : node editor_event :=
  alt (is_editing s row) [
    El "div" [] [
      El "Button" [Disabled (negb (canSaveEditing s) || saving s); On "click" Save]
        [Text (if saving s then tr "Saving…" else tr "Save")];
      El "Button" [lit "kind" "ghost"; Disabled (saving s); On "click" Cancel] [Text (tr "Cancel")]
    ]
  ] [
    El "OverflowMenu" [Attr "iconDescription" (tr "Entry actions")] [
      El "OverflowMenuItem" [Attr "text" (tr "Edit"); On "click" (EditRow (id row))] [];
      El "OverflowMenuItem" [Attr "text" (tr "Delete"); On "click" (AskDelete (id row))] []
    ]
  ].

Definition input_cell (row : FilterRow) (key : jstr) : node editor_event :=
  alt (bool_decide (key = js "score")) [
    El "TextInput" [
      lit "type" "number"; Attr "labelText" (tr "Score");
      Flag "invalid" (negb (bool_decide (is_Some (score row))));
      Attr "invalidText" (tr "Score must be a number.");
      Attr "value" (printed (score row)); OnAny "input" (ScoreChange (id row))
    ] []
  ] [
    El "TextInput" [
      Attr "labelText" (tr "Content"); Flag "invalid" (negb (truthy (trim (content row))));
      Attr "invalidText" (tr "Content is required.");
      Attr "value" (content row); OnAny "input" (ContentChange (id row))
    ] []
  ].

Definition cell (s : Editor) (row : FilterRow) (key : jstr) : list (node editor_event) := [
  alt (bool_decide (key = js "actions")) [actions_cell s row] [
    alt (is_editing s row) [input_cell row key]
      [Text (if bool_decide (key = js "score") then printed (score row) else content row)]
  ]
].

Definition toolbar (s : Editor) : node editor_event :=
  El "Toolbar" [] [
    El "ToolbarContent" [] [
      El "ToolbarSearch" [lit "value" ""; Attr "placeholder" (tr "Search entries")] [];
      add_button s (bool_decide (is_Some (editingRowId s)) || saving s)
    ]
  ].

Definition table (s : Editor) : node editor_event :=
  data_table (headers s) (data s) [toolbar s] (cell s).

Definition list_view (s : Editor) : node editor_event :=
  alt (loading s && is_nil (data s)) [
    resource_state Loading [] (tr "Loading inspection list…") [] None []
  ] [
    alt (is_nil (data s) && negb (bool_decide (is_Some (editingRowId s)))) [
      resource_state Empty (tr "No list entries")
        (tr "Add an entry when this inspection rule should match content or a host.") [] None
        [add_button s false]
    ] [
      El "div" [] [table s]
    ]
  ].

Definition delete_dialog (s : Editor) : node editor_event :=
  confirm_dialog (bool_decide (is_Some (pendingDelete s)))
    (tr "Delete inspection-list entry?") (tr "HTTPS inspection") (tr "Delete entry") (tr "Cancel")
    (saving s) ConfirmDelete CloseDelete [
    El "p" [] [
      Text (tr "Remove"); El "strong" [] [Text (default [] (content <$> pendingDelete s))];
      Text (tr "from this inspection list?")
    ]
  ].

Definition editor_view (s : Editor) : list (node editor_event) := [
  shown (truthy (loadError s)) [
    El "InlineNotification" [
      lit "kind" "error"; Attr "title" (tr "Inspection list unavailable");
      Attr "subtitle" (loadError s); On "close" CloseLoadError
    ] []
  ];
  shown (truthy (saveError s)) [
    El "InlineNotification" [
      lit "kind" "error"; Attr "title" (tr "Inspection list not saved");
      Attr "subtitle" (saveError s); On "close" CloseSaveError
    ] []
  ];
  list_view s;
  delete_dialog s
].

Definition editor_offers (e : editor_event) (s : Editor) : Prop := any_of (fun n => offers n e) (editor_view s).

Definition editor_loop (a : Session) (filterId : jstr) (showColumns : list jstr) :=
  loop_from editor_offers (on_event translator) (loadAPIData translator) (initialEditor a filterId showColumns).
End View.

(** ** Saves *)

(** The request replaces the list at the server. *)
Definition replaces (q : io_req FilterPayload) : bool :=
  match q with Fetch r => bool_decide (rq_method r = js "post") | _ => false end.

Section Saves.
Context (translator : jstr → jstr) (printed : option Q → jstr).

Lemma editor_load_harmless : harmless saving replaces (loadAPIData translator).
Proof. unfold loadAPIData. harmless_run. Qed.

Lemma saveData_guarded next (K : result bool → bool → Editor → Prop) s :
  (∀ o s', K o false s') → guarded saving replaces (saveData translator next) false K s.
Proof.
  intros HK. unfold saveData, notifySaved, notify. guard_run; try apply HK.
  apply harmless_guarded; [apply editor_load_harmless|busy_known|].
  intros [e|[]] s2 Hs2; guard_run; apply HK.
Qed.

Lemma editor_event_safe e s : flag_safe saving replaces (on_event translator e) s.
Proof.
  destruct e; cbn [on_event]; try (apply harmless_safe; first
    [apply editor_load_harmless|unfold addRow, cancelEditing; solve [harmless_run]]).
  - unfold flag_safe, saveEditingRow. guard_run. apply saveData_guarded. intros [e|b] s'; guard_run.
  - unfold flag_safe, confirmDelete. guard_run. apply saveData_guarded. intros [e|[]] s'; guard_run.
Qed.

Lemma editor_event_settles e s :
  settling saving (on_event translator e) s ∧ settling loading (on_event translator e) s.
Proof.
  unfold on_event, saveEditingRow, confirmDelete, saveData, loadAPIData, notifySaved, notify, addRow,
    cancelEditing.
  destruct e; split; settling_run.
Qed.

(** Whatever is clicked and in whatever order the server answers, at most one
    request that replaces the list is under way, and none while the editor is
    not saving.  Once nothing more is clicked the editor comes to rest, and
    then it neither says that it is loading nor that it is saving. *)
Theorem editor_at_rest a f cols s ts :
  editor_loop translator printed a f cols (s, ts) →
  length (List.filter (fun t => replaces (th_request t)) ts) ≤ (if saving s then 1 else 0) ∧
  Acc (flip answer_step) (s, ts) ∧
  ∀ s', rtc answer_step (s, ts) (s', []) → Forall (fun flag => flag s' = false) [saving; loading].
Proof.
  intros Hr. split.
  - eapply single_flight in Hr as [H _]; [exact H|intros; apply editor_event_safe|done|].
    apply harmless_safe, editor_load_harmless.
  - apply (page_rests _ _ _ _ _ [saving; loading] Hr).
    apply Forall_cons; split; [|apply Forall_cons; split; [|done]];
      (split; [intros e s0 _; apply editor_event_settles|]); unfold loadAPIData.
    + right. split; [done|settling_run].
    + left. clearing_run.
Qed.
End Saves.

(** ** A list that could not be read *)

Section Unread.
Context (translator : jstr → jstr) (printed : option Q → jstr).

Lemma editor_headers_keys s key :
  key ∈ [js "content"; js "score"; js "actions"] → includes (showColumns s) key = true →
  key ∈ (headers translator s).*1.
Proof.
  intros Hk Hi. apply list_elem_of_fmap. unfold headers.
  assert (∃ v, (key, v) ∈ allHeaders translator) as [v Hv].
  { unfold allHeaders. repeat (apply elem_of_cons in Hk as [->|Hk]; [eexists; repeat constructor|]).
    by apply elem_of_nil in Hk. }
  exists (key, v). split; [done|]. by apply elem_of_filter_b.
Qed.

Lemma editor_cell_offered s row key e :
  row ∈ data s → key ∈ (headers translator s).*1 → any_of (fun n => offers n e) (cell translator printed s row key) →
  editor_offers translator printed e s.
Proof.
  intros Hr Hk H. assert (is_nil (data s) = false) as Hn by (destruct (data s); [by apply elem_of_nil in Hr|done]).
  unfold editor_offers, editor_view. cbn [any_of]. right. right. left. unfold list_view.
  cbn [offers any_of]. rewrite Hn, andb_false_r. right. split; [done|]. left. right. split; [done|]. left.
  split; [done|]. right. left. apply data_table_offers. right. eauto.
Qed.

Lemma editor_add_offered s :
  data s = [] → loading s = false → editingRowId s = None → editor_offers translator printed AddRow s.
Proof.
  intros Hd Hl He. unfold editor_offers, editor_view. cbn [any_of]. right. right. left. unfold list_view.
  rewrite Hd, Hl, He. cbn [offers any_of]. right. split; [done|]. left. left. split; [done|]. left.
  split; [done|]. right. left. unfold add_button. view_simpl. tauto.
Qed.

(** The editor of [rows] while [editing] is edited, and nothing is under way. *)
Definition idle_editor a l f cols rows le se editing next : Editor :=
  MkEditor a l f cols rows false false le se editing None next.

Lemma editor_save_starts s :
  is_Some (editingRow s) → canSaveEditing s = true → saving s = false →
  ∃ s' t, advance (saveEditingRow translator) s = (s', Some t) ∧
    th_request t = Fetch (save_request s ((fun item => item <| draft := false |>) <$> data s)).
Proof.
  intros [row Hr] Hc Hs. do 2 eexists. split.
  - unfold saveEditingRow, saveData. cbn [mbind prog_bind settle get advance]. rewrite Hr, Hc.
    cbn [negb mbind prog_bind settle get advance]. rewrite Hs. reflexivity.
  - reflexivity.
Qed.

Lemma editor_add_and_save a l f cols le se v :
  includes cols (js "content") = true → includes cols (js "actions") = true → truthy (trim v) = true →
  ∃ s t, rtc (step (editor_offers translator printed) (on_event translator))
      (idle_editor a l f cols [] le se None 1, []) (s, [t]) ∧
    th_request t = Fetch (save_request (idle_editor a l f cols [] le se None 1) [MkRow 1 v (Some 0%Q) false]).
Proof.
  intros Hc Ha Hv. set (row := MkRow 1 v (Some 0%Q) true).
  set (s2 := idle_editor a l f cols [MkRow 1 [] (Some 0%Q) true] le se (Some 1) 2).
  set (s3 := idle_editor a l f cols [row] le se (Some 1) 2).
  assert (canSaveEditing s3 = true) as Hs by (unfold canSaveEditing; simpl; by rewrite Hv, orb_true_r).
  destruct (editor_save_starts s3) as (s4 & t & Hadv & Hq); [by eexists|done..|].
  exists s4, t. split; [eapply rtc_l; [|eapply rtc_l; [|eapply rtc_once]]|exact Hq].
  - apply (step_event _ _ AddRow _ s2 [] None); [by apply editor_add_offered|done].
  - apply (step_event _ _ (ContentChange 1 v) _ s3 [] None); [|done].
    apply (editor_cell_offered s2 (MkRow 1 [] (Some 0%Q) true) (js "content")).
    + left.
    + apply editor_headers_keys; [left|done].
    + unfold cell, input_cell, is_editing. view_simpl. left. right. split; [done|]. left. left. split; [done|].
      left. right. split; [done|]. left. split; [done|]. left. left. split; [done|]. by exists v.
  - apply (step_event _ _ Save s3 s4 [] (Some t)); [|exact Hadv].
    apply (editor_cell_offered s3 row (js "actions")); [left|apply editor_headers_keys; [do 2 right; left|done]|].
    unfold cell, actions_cell, is_editing. view_simpl. left. left. split; [done|]. left. left. split; [done|].
    left. split; [done|]. right. left. split; [done|]. left. left. split; [|done]. by rewrite Hs.
Qed.

End Unread.

(** A server that refuses to give the list. *)
Definition refusing_list (log : list (request FilterPayload)) (q : io_req FilterPayload) : io_res FilterBody q :=
  serve (fun _ => inr (Response 500 (inr []) None (inr None))) q.


Lemma editor_at_rest_witness :
  Forall (fun flag => flag (run (history refusing_list) (loadAPIData Datatypes.id)
    (initialEditor (apistore [] ∅) (js "1") []) []).1.2 = false) [saving; loading].
Proof.
  edestruct (editor_at_rest Datatypes.id (fun _ => []) (apistore [] ∅) (js "1") []) as (_ & _ & H);
    [apply (loop_from_run _ _ (history refusing_list) _ _ [])|]. apply H. reflexivity.
Defined.
