(* ===== verification/DnsRecords.v ===== *)
(** * Custom DNS records

    [components/dnsArecords.svelte].  [isIPv4] is the function of the package
    is-ip; [updates] counts the [updatednsinfo] events sent to the DNS page. *)

From S2P Require Import Prelude JsString JsAsync Http Api Notifications.
Open Scope js_scope.

Record DnsRecord := MkRecord { id : nat; domain : jstr; ip : jstr }.

(** [b_data] is the [data] member where it is an array. *)
Record RecordsBody := MkRecordsBody {
  b_data : option (list (jstr * jstr));
  b_ok : bool;
  b_error : jstr
}.

(** The [domain] and [ip] of every record. *)
Inductive RecordsPayload := SendRecords (records : list (jstr * jstr)).

Record Records := MkRecords {
  sess : Session;
  shown_notifications : list Notification;
  updates : nat;
  data : list DnsRecord;
  loading : bool;
  saving : bool;
  loadError : jstr;
  domainText : jstr;
  ipText : jstr;
  editingRowId : option nat;
  pendingDelete : option DnsRecord;
  showForm : bool
}.
#[export] Instance Records_eta : Settable Records := fun s =>
  MkRecords (sess s) (shown_notifications s) (updates s) (data s) (loading s) (saving s) (loadError s)
    (domainText s) (ipText s) (editingRowId s) (pendingDelete s) (showForm s).
#[export] Instance Records_session : HasSession Records :=
  {| session := sess; on_session f s := s <| sess ::= f |>; session_on_session f s := eq_refl;
     on_session_twice f g s := eq_refl; on_session_const f s := eq_refl |}.
#[export] Instance Records_notifications : HasNotifications Records :=
  {| shown := shown_notifications; on_shown f s := s <| shown_notifications ::= f |>;
     shown_on_shown f s := eq_refl |}.

#[local] Abbreviation handler := (prog Records (io_res (P := RecordsPayload) RecordsBody)).

Definition url : jstr := js "/dns/custom_entries".

(** ** The form *)

Definition closeForm (s : Records) : Records :=
  s <| showForm := false |> <| editingRowId := None |> <| domainText := [] |> <| ipText := [] |>.

Definition openCreate (s : Records) : Records := (closeForm s) <| showForm := true |>.

Definition editRow (rowId : nat) (s : Records) : Records :=
  match find (fun item => (id item =? rowId)%nat) (data s) with
  | None => s
  | Some row =>
      s <| editingRowId := Some rowId |> <| domainText := domain row |> <| ipText := ip row |>
        <| showForm := true |>
  end.

Definition askDelete (rowId : nat) (s : Records) : Records :=
  s <| pendingDelete := find (fun item => (id item =? rowId)%nat) (data s) |>.

Definition without (rowId : nat) (l : list DnsRecord) : list DnsRecord :=
  List.filter (fun row => negb (id row =? rowId)%nat) l.

Section Save.
Context (translator : jstr → jstr) (isIPv4 : jstr → bool).

Definition records_of (entries : list (jstr * jstr)) : list DnsRecord :=
  imap (fun index item => MkRecord (index + 1) item.1 item.2) entries.

Definition loadAPIData : handler unit :=
  loading <~ true ;; loadError <~ [] ;;
  finally
    (try_catch
       (json ← doCall url (js "get") None ∅;
        data <~ records_of (default [] (json ≫= b_data)))
       (fun caught => loadError <~ nonempty_message_or caught
          (translator (js "Custom DNS records could not be loaded."))))
    (loading <~ false).

Definition payload_of (records : list DnsRecord) : RecordsPayload :=
  SendRecords ((fun r => (domain r, ip r)) <$> records).

Definition persist (records : list DnsRecord) : handler bool :=
  s ← get;
  if saving s then Ret false else
  saving <~ true ;;
  finally
    (try_catch
       (json ← doCall url (js "post") (Some (payload_of records))
                 {[ js "Content-Type" := js "application/json" ]};
        if negb (default false (b_ok <$> json)) then
          Throw (Error (str_or (default [] (b_error <$> json))
            (translator (js "The DNS records were not accepted."))))
        else
          notify (createNotificationSuccess translator
            ((subtitle_only (translator (js "Custom A records were saved.")))
               <| m_title := Some (translator (js "DNS records updated")) |>)) ;;
          modify (fun s => s <| updates ::= S |>) ;;
          loadAPIData ;;
          Ret true)
       (fun caught =>
          notify (createNotificationError translator
            ((subtitle_only (nonempty_message_or caught (translator (js "Custom DNS records could not be saved."))))
               <| m_title := Some (translator (js "DNS records not saved")) |>)) ;;
          Ret false))
    (saving <~ false).

(** The list [saveRow] saves, with its [domain] and [ip] trimmed. *)
Definition next_records (s : Records) : list DnsRecord :=
  let domain := trim (domainText s) in
  let ip := trim (ipText s) in
  match editingRowId s with
  | None => data s ++ [MkRecord (length (data s) + 1) domain ip]
  | Some i => (fun row => if (id row =? i)%nat then MkRecord (id row) domain ip else row) <$> data s
  end.

Definition saveRow : handler unit :=
  s ← get;
  if negb (truthy (trim (domainText s))) || negb (isIPv4 (trim (ipText s))) || saving s then Ret () else
  saved ← persist (next_records s);
  when saved (modify closeForm).

Definition confirmDelete : handler unit :=
  s ← get;
  match pendingDelete s with
  | None => Ret ()
  | Some target =>
      if saving s then Ret () else
      saved ← persist (without (id target) (data s));
      when saved (pendingDelete <~ None)
  end.
End Save.

(** ** What the handlers do *)

Ltac records_norm st :=
  eval cbv beta iota zeta delta [update_field sess shown_notifications updates data loading saving
    loadError domainText ipText editingRowId pendingDelete showForm
    session on_session Records_session shown on_shown Records_notifications after_headers] in st.
Ltac records_simpl := match goal with |- ?G => let G' := records_norm G in change G' end.
Ltac records_run := unfold notify; repeat (progress run_with records_norm || rewrite run_call); records_simpl.

Section Handlers.
Context (translator : jstr → jstr).
Context (reply : list (request RecordsPayload) → ∀ q : io_req RecordsPayload, io_res RecordsBody q).

Definition load_request (s : Records) : request RecordsPayload :=
  session_request (sess s) url (js "get") None ∅.
Definition save_request (s : Records) (records : list DnsRecord) : request RecordsPayload :=
  session_request (sess s) url (js "post") (Some (payload_of records))
    {[ js "Content-Type" := js "application/json" ]}.

Definition after_load (o : result (option RecordsBody)) (s : Records) : Records :=
  match o with
  | inl e => s <| loadError := nonempty_message_or e (translator (js "Custom DNS records could not be loaded.")) |>
  | inr json => s <| data := records_of (default [] (json ≫= b_data)) |> <| loadError := [] |>
  end <| loading := false |>.

Lemma records_load_run s log :
  run (history reply) (loadAPIData translator) s log =
    (inr (), let o := reply log (Fetch (load_request s)) in
             after_load (call_result o) (on_session (session_after o) s), log ++ [load_request s]).
Proof.
  destruct s. unfold loadAPIData, after_load, load_request. records_run.
  by destruct (call_result _); records_run.
Qed.

(** Why a save failed, when it did. *)
Definition refusal (o : result (option RecordsBody)) : option jserr :=
  match o with
  | inl e => Some e
  | inr json =>
      if default false (b_ok <$> json) then None
      else Some (Error (str_or (default [] (b_error <$> json))
             (translator (js "The DNS records were not accepted."))))
  end.

Definition form_of (s : Records) := (editingRowId s, domainText s, ipText s, showForm s, pendingDelete s).

(** A save sends the whole list.  Accepted, the page above is told once and
    the list is read again; refused, the table is as it was.  Either way one
    notification says so and the form is not touched. *)
Lemma persist_spec records s log :
  saving s = false →
  let '(r, s', log') := run (history reply) (persist translator records) s log in
  let q := save_request s records in
  saving s' = false ∧ form_of s' = form_of s ∧
  match refusal (call_result (reply log (Fetch q))) with
  | Some e =>
      r = inr false ∧ log' = log ++ [q] ∧ data s' = data s ∧ updates s' = updates s ∧
      ∃ n, shown_notifications s' = shown_notifications s ++ [n] ∧ n_kind n = js "error"
  | None =>
      r = inr true ∧ updates s' = S (updates s) ∧
      (∃ n, shown_notifications s' = shown_notifications s ++ [n] ∧ n_kind n = js "success") ∧
      ∃ q2, log' = log ++ [q; q2] ∧
        data s' = match call_result (reply (log ++ [q]) (Fetch q2)) with
                  | inr json => records_of (default [] (json ≫= b_data))
                  | inl _ => data s
                  end
  end.
Proof.
  intros Hs. destruct s. simpl in Hs. subst. unfold persist, save_request, load_request, refusal, form_of.
  records_run. records_run. destruct (call_result _) as [e|answer]; records_run;
    [split_and!; try done; by eexists|].
  destruct (default false _); cbn [negb run]; records_run; [|split_and!; try done; by eexists].
  rewrite records_load_run. unfold after_load.
  destruct (call_result _) as [e|json] eqn:E; records_run; (split_and!; [done..| |]);
    [by eexists| |by eexists|]; eexists; (split; [by rewrite <-app_assoc|by rewrite E]).
Qed.

(** Saving the form sends nothing unless the domain is not blank, the address
    is an IPv4 address and no save is running.  It sends the table with the
    record edited, or a new one at its end, both texts trimmed; it closes the
    form when the server accepts and keeps it, with what was typed, when the
    server refuses. *)
Theorem saveRow_spec isIPv4 s log :
  let '(r, s', log') := run (history reply) (saveRow translator isIPv4) s log in
  let q := save_request s (next_records s) in
  r = inr () ∧
  if truthy (trim (domainText s)) && isIPv4 (trim (ipText s)) && negb (saving s) then
    saving s' = false ∧
    match refusal (call_result (reply log (Fetch q))) with
    | Some _ => log' = log ++ [q] ∧ data s' = data s ∧ form_of s' = form_of s ∧ updates s' = updates s
    | None =>
        form_of s' = form_of (closeForm s) ∧ updates s' = S (updates s) ∧
        ∃ q2, log' = log ++ [q; q2] ∧
          data s' = match call_result (reply (log ++ [q]) (Fetch q2)) with
                    | inr json => records_of (default [] (json ≫= b_data))
                    | inl _ => data s
                    end
    end
  else s' = s ∧ log' = log.
Proof.
  unfold saveRow. rewrite run_bind, run_get.
  destruct (truthy _); cbn [negb orb andb]; [|done].
  destruct (isIPv4 _); cbn [negb orb andb]; [|done].
  destruct (saving s) eqn:Hs; cbn [negb orb andb]; [done|]. rewrite run_bind.
  pose proof (persist_spec (next_records s) s log Hs) as H.
  destruct (run _ (persist _ _) s log) as [[r s'] log']. destruct H as (H1 & H2 & H).
  destruct (refusal _).
  - destruct H as (-> & -> & Hd & Hu & _). by rewrite run_when.
  - destruct H as (-> & Hu & _ & q2 & -> & Hd). rewrite run_when, run_modify. split; [done|].
    split; [done|]. split; [|by eauto]. unfold form_of in *. simpl. by injection H2 as _ _ _ _ ->.
Qed.
End Handlers.

(** The record edited is the one saved, and it alone; a new record gets an
    identifier of its own, when the table was numbered as [loadAPIData] does. *)
Theorem next_records_spec entries i s row :
  data s = records_of entries → records_of entries !! i = Some row →
  let new := MkRecord (id row) (trim (domainText s)) (trim (ipText s)) in
  (editingRowId s = Some (id row) → next_records s = <[i := new]> (data s)) ∧
  (editingRowId s = None → NoDup (id <$> next_records s) ∧ take (length (data s)) (next_records s) = data s).
Proof.
  intros Hd Hrow new.
  assert (∀ k r, data s !! k = Some r → id r = k + 1) as Hid.
  { intros k r. rewrite Hd. unfold records_of. rewrite list_lookup_imap.
    destruct (entries !! k); simpl; [by intros [= <-]|done]. }
  assert (id row = i + 1) as Hi by (apply Hid; by rewrite Hd).
  unfold next_records. split; intros ->.
  - apply list_eq. intros k. rewrite list_lookup_fmap.
    destruct (decide (k = i)) as [->|Hne].
    + rewrite list_lookup_insert_eq by (rewrite Hd; by eapply lookup_lt_Some).
      rewrite Hd, Hrow. simpl. by rewrite Nat.eqb_refl.
    + rewrite list_lookup_insert_ne by done. destruct (data s !! k) as [r|] eqn:E; [|done]. simpl.
      rewrite (Hid k r E), Hi. by replace (k + 1 =? i + 1)%nat with false by lia.
  - split; [|by rewrite take_app_length].
    assert (id <$> data s = seq 1 (length (data s))) as Hseq.
    { apply list_eq. intros k. rewrite list_lookup_fmap. destruct (data s !! k) as [r|] eqn:E; simpl.
      - rewrite (Hid k r E), lookup_seq_lt by (by eapply lookup_lt_Some). f_equal. lia.
      - apply lookup_ge_None in E. by rewrite lookup_seq_ge. }
    rewrite fmap_app, Hseq. change (id <$> [_]) with [length (data s) + 1].
    rewrite Nat.add_comm, <-(seq_S (length (data s)) 1). apply NoDup_seq.
Qed.

Definition printer : Records :=
  MkRecords (apistore [] ∅) [] 0 (records_of [(js "printer.home", js "10.0.0.2"); (js "nas.home", js "10.0.0.3")])
    false false [] (js " printer.lan ") (js "10.0.0.9") (Some 1) None true.

Lemma next_records_spec_witness :
  next_records printer
    = [MkRecord 1 (js "printer.lan") (js "10.0.0.9"); MkRecord 2 (js "nas.home") (js "10.0.0.3")].
Proof.
  destruct (next_records_spec [(js "printer.home", js "10.0.0.2"); (js "nas.home", js "10.0.0.3")] 0 printer
    (MkRecord 1 (js "printer.home") (js "10.0.0.2")) eq_refl eq_refl) as [H _].
  rewrite (H eq_refl). by vm_compute.
Defined.
