(* ===== verification/DnsRecordsView.v ===== *)
(** * The template of the custom DNS records, and the records in the event loop

    The markup of [components/dnsArecords.svelte]. *)

From S2P Require Import Prelude JsString JsAsync Http Api Busy Notifications View Layout DnsRecords.
Open Scope js_scope.

Inductive records_event :=
| OpenCreate
| EditRow (rowId : nat)
| AskDelete (rowId : nat)
| CloseLoadError
| SetDomain (value : jstr)
| SetIp (value : jstr)
| SaveRow
| CloseForm
| ConfirmDelete
| CloseDelete.

Section View.
Context (translator : jstr → jstr) (isIPv4 : jstr → bool).
#[local] Abbreviation tr s := (translator (js s)).
#[local] Abbreviation handler := (prog Records (io_res (P := RecordsPayload) RecordsBody)).

Definition headers : list (jstr * jstr) := [
  (js "domain", tr "Domain"); (js "ip", tr "IP address"); (js "actions", tr "Actions")
].

Definition cell (row : DnsRecord) (key : jstr) : list (node records_event) := [
  alt (bool_decide (key = js "actions")) [
    El "OverflowMenu" [Attr "iconDescription" (tr "Record actions")] [
      El "OverflowMenuItem" [Attr "text" (tr "Edit"); On "click" (EditRow (id row))] [];
      El "OverflowMenuItem" [Attr "text" (tr "Delete"); On "click" (AskDelete (id row))] []
    ]
  ] [Text (if bool_decide (key = js "domain") then domain row else ip row)]
].

Definition table (s : Records) : node records_event :=
  alt (loading s && is_nil (data s)) [
    resource_state Loading [] (tr "Loading custom DNS records…") [] None []
  ] [
    alt (is_nil (data s)) [
      resource_state Empty (tr "No custom records")
        (tr "Add a record when a local domain should resolve to a specific IPv4 address.") [] None []
    ] [
      El "div" [] [
        data_table headers (data s) [El "Toolbar" [] [El "ToolbarContent" [] []]] cell
      ]
    ]
  ].

(** The primary button of the form. *)
Definition saveDisabled (s : Records) : bool :=
  negb (truthy (trim (domainText s))) || negb (isIPv4 (trim (ipText s))) || saving s.

Definition form (s : Records) : node records_event :=
  modal (showForm s)
    (match editingRowId s with None => tr "Add custom record" | Some _ => tr "Edit custom record" end)
    (tr "DNS") (if saving s then tr "Saving…" else tr "Save record") (tr "Cancel")
    (saveDisabled s) SaveRow CloseForm [
    El "div" [] [
      El "TextInput" [
        Attr "labelText" (tr "Domain"); lit "type" "text"; Attr "value" (domainText s);
        lit "placeholder" "printer.home"; Disabled (saving s); OnAny "bind:value" SetDomain
      ] [];
      El "TextInput" [
        Attr "labelText" (tr "IPv4 address");
        Attr "helperText"
          (if truthy (ipText s) && negb (isIPv4 (trim (ipText s))) then tr "Enter a valid IPv4 address." else []);
        Flag "invalid" (truthy (ipText s) && negb (isIPv4 (trim (ipText s))));
        Attr "invalidText" (tr "Enter a valid IPv4 address."); lit "type" "text"; Attr "value" (ipText s);
        lit "placeholder" "192.168.1.20"; Disabled (saving s); OnAny "bind:value" SetIp
      ] []
    ]
  ].

Definition delete_dialog (s : Records) : node records_event :=
  confirm_dialog (bool_decide (is_Some (pendingDelete s)))
    (tr "Delete custom DNS record?") (tr "DNS") (tr "Delete record") (tr "Cancel")
    (saving s) ConfirmDelete CloseDelete [
    El "p" [] [
      Text (tr "GateSentry will stop resolving");
      El "strong" [] [Text (default [] (domain <$> pendingDelete s))];
      Text (tr "to the configured local address.")
    ]
  ].

Definition records_view (s : Records) : list (node records_event) := [
  section_panel (tr "Custom A records")
    (tr "Resolve selected domains to local IPv4 addresses before using the upstream resolver.") []
    (Some [El "Button" [On "click" OpenCreate] [Text (tr "Add record")]]) [
    shown (truthy (loadError s)) [
      El "InlineNotification" [
        lit "kind" "error"; Attr "title" (tr "Custom records unavailable");
        Attr "subtitle" (loadError s); On "close" CloseLoadError
      ] []
    ];
    table s
  ];
  form s;
  delete_dialog s
].

Definition records_offers (e : records_event) (s : Records) : Prop := any_of (fun n => offers n e) (records_view s).

Definition on_event (e : records_event) : handler unit :=
  match e with
  | OpenCreate => modify openCreate
  | EditRow i => modify (editRow i)
  | AskDelete i => modify (askDelete i)
  | CloseLoadError => loadError <~ []
  | SetDomain v => domainText <~ v
  | SetIp v => ipText <~ v
  | SaveRow => saveRow translator isIPv4
  | CloseForm => modify closeForm
  | ConfirmDelete => confirmDelete translator
  | CloseDelete => pendingDelete <~ None
  end.

(** The component when it is created. *)
Definition initialRecords (a : Session) (l : list Notification) : Records :=
  MkRecords a l 0 [] true false [] [] [] None None false.

Definition records_loop (a : Session) (l : list Notification) :=
  loop_from records_offers on_event (loadAPIData translator) (initialRecords a l).
End View.

(** ** Saves *)

Definition replaces (q : io_req RecordsPayload) : bool :=
  match q with Fetch r => bool_decide (rq_method r = js "post") | _ => false end.

Section Saves.
Context (translator : jstr → jstr) (isIPv4 : jstr → bool).

Lemma records_load_harmless : harmless saving replaces (loadAPIData translator).
Proof. unfold loadAPIData. harmless_run. Qed.

Lemma records_persist_guarded records (K : result bool → bool → Records → Prop) s :
  (∀ o s', K o false s') → guarded saving replaces (persist translator records) false K s.
Proof.
  intros HK. unfold persist, notify. guard_run; try apply HK.
  apply harmless_guarded; [apply records_load_harmless|busy_known|].
  intros [e|[]] s2 Hs2; guard_run; apply HK.
Qed.

Lemma records_event_safe e s : flag_safe saving replaces (on_event translator isIPv4 e) s.
Proof.
  destruct e; cbn [on_event]; try (apply harmless_safe; unfold editRow; solve [harmless_run]).
  - unfold flag_safe, saveRow. guard_run. apply records_persist_guarded. intros [e|[]] s'; guard_run.
  - unfold flag_safe, confirmDelete. guard_run. apply records_persist_guarded. intros [e|[]] s'; guard_run.
Qed.

Lemma records_event_settles e s :
  settling saving (on_event translator isIPv4 e) s ∧ settling loading (on_event translator isIPv4 e) s.
Proof.
  unfold on_event, saveRow, confirmDelete, persist, loadAPIData, notify, editRow.
  destruct e; split; settling_run.
Qed.

(** Whatever is clicked and in whatever order the server answers, at most one
    request that replaces the records is under way, and none while the
    component is not saving.  Once nothing more is clicked it comes to rest,
    and then it neither says that it is loading nor that it is saving. *)
Theorem records_at_rest a l s ts :
  records_loop translator isIPv4 a l (s, ts) →
  length (List.filter (fun t => replaces (th_request t)) ts) ≤ (if saving s then 1 else 0) ∧
  Acc (flip answer_step) (s, ts) ∧
  ∀ s', rtc answer_step (s, ts) (s', []) → Forall (fun flag => flag s' = false) [saving; loading].
Proof.
  intros Hr. split.
  - eapply single_flight in Hr as [H _]; [exact H|intros; apply records_event_safe|done|].
    apply harmless_safe, records_load_harmless.
  - apply (page_rests _ _ _ _ _ [saving; loading] Hr).
    apply Forall_cons; split; [|apply Forall_cons; split; [|done]];
      (split; [intros e s0 _; apply records_event_settles|]); unfold loadAPIData.
    + right. split; [done|settling_run].
    + left. clearing_run.
Qed.
End Saves.

(** ** Records that have not been read *)

Section Unread.
Context (translator : jstr → jstr) (isIPv4 : jstr → bool).

Lemma records_form_offers s e :
  showForm s = true →
  match e with
  | SetDomain _ | SetIp _ => saving s = false
  | SaveRow => saveDisabled isIPv4 s = false
  | CloseForm => True
  | _ => False
  end → records_offers translator isIPv4 e s.
Proof.
  intros Hf He. unfold records_offers, records_view. cbn [any_of]. right. left. apply modal_offers.
  split; [done|]. destruct e; try done; [right; right|right; right|by left|by right; left]; view_simpl; rewrite He.
  - left. split; [done|]. right. left. split; [done|]. left. left. split; [done|]. by eexists.
  - left. split; [done|]. right. right. left. split; [done|]. left. left. split; [done|]. by eexists.
Qed.

Lemma records_create_offered s : records_offers translator isIPv4 OpenCreate s.
Proof.
  unfold records_offers, records_view. cbn [any_of]. left. apply section_panel_offers. left.
  cbn [slot_offers]. view_simpl. tauto.
Qed.

Lemma records_save_starts s :
  saveDisabled isIPv4 s = false →
  ∃ s' t, advance (saveRow translator isIPv4) s = (s', Some t) ∧
    th_request t = Fetch (save_request s (next_records s)).
Proof.
  intros Hd. unfold saveDisabled in Hd. assert (saving s = false) as Hs by (split_bools; done).
  do 2 eexists. split.
  - unfold saveRow, persist. cbn [mbind prog_bind settle get advance]. rewrite Hd.
    cbn [mbind prog_bind settle get advance]. rewrite Hs. reflexivity.
  - reflexivity.
Qed.

(** A record can be added before the records have been read: what is saved
    then is the list of that one record, which replaces whatever records the
    server holds. *)
Theorem unread_records_overwritten a l d i :
  truthy (trim d) = true → isIPv4 (trim i) = true →
  ∃ s read save r, records_loop translator isIPv4 a l (s, [read; save]) ∧
    th_request read = Fetch (load_request (initialRecords a l)) ∧ th_request save = Fetch r ∧
    rq_url r = baseURL (api a) ++ url ∧ rq_method r = js "post" ∧
    rq_body r = Some (SendRecords [(trim d, trim i)]).
Proof.
  intros Hd Hi. set (s1 := MkRecords (getHeaders a).2 l 0 [] true false [] d i None None true).
  assert (saveDisabled isIPv4 s1 = false) as Hs by (unfold saveDisabled; simpl; by rewrite Hd, Hi).
  destruct (records_save_starts s1 Hs) as (s2 & t & Ha & Hq).
  pose proof (loop_mounted (records_offers translator isIPv4) (on_event translator isIPv4)
    (loadAPIData translator) (initialRecords a l)) as H0.
  do 4 eexists. split; [|split_and!; [|exact Hq|reflexivity..]].
  - eapply (loop_event _ _ SaveRow _ _ s1 s2 [_]); [|by apply records_form_offers|exact Ha].
    eapply (loop_assign _ _ (SetIp i) _ _ (s1 <| ipText := [] |>)); [|by apply records_form_offers|reflexivity].
    eapply (loop_assign _ _ (SetDomain d) _ _ (s1 <| domainText := [] |> <| ipText := [] |>));
      [|by apply records_form_offers|reflexivity].
    eapply (loop_assign _ _ OpenCreate); [exact H0|apply records_create_offered|reflexivity].
  - reflexivity.
Qed.
End Unread.

Lemma unread_records_overwritten_witness :
  ∃ s read save, records_loop (fun t => t) (fun _ => true) (apistore [] ∅) [] (s, [read; save]) ∧
    replaces (th_request read) = false ∧ replaces (th_request save) = true.
Proof.
  destruct (unread_records_overwritten (fun t => t) (fun _ => true) (apistore [] ∅) []
    (js "printer.home") (js "192.168.1.20")) as (s & read & save & r & H & Hr & Hs & _ & Hm & _); [by vm_compute|done|].
  exists s, read, save. split; [exact H|]. rewrite Hr, Hs. simpl. rewrite Hm. by vm_compute.
Defined.
