(* ===== verification/Users.v ===== *)
(** * Proxy users

    [routes/users/users.svelte] and the form [routes/users/usermodal.svelte].
    [components/modal.svelte] creates the form when the dialog opens and drops
    it when it closes, so [openForm] gives it fresh variables.  A [submit] that is
    under way then goes on: the [error] it assigns is its own form's and is no
    longer on the page ([on_form]), while [saving] is bound to the page's
    [savingUser], which it still clears, whatever form is open by then.

    [dispatch("saved")] runs [userSaved] inside [submit] up to its request for
    the list, after which [submit] only clears [saving]; [saveUser] composes
    the two in that order. *)

From S2P Require Import Prelude JsString JsAsync Http Api.
Open Scope js_scope.

(** ** State *)

Record User := MkUser { username : jstr; allowaccess : bool; dataconsumed : option Z }.

Record UsersBody := MkUsersBody {
  b_users : option (list User);   (* [users] where it is an array *)
  b_ok : option bool;
  b_error : option jstr;
  b_Error : option jstr
}.

Inductive UserPayload := SendUser (username password : jstr) (allowaccess : bool).

Inductive UserEvent := UserCreated (username : jstr) | UserUpdated (username : jstr).

Record Users := MkUsers {
  sess : Session;
  users : list User;
  loading : bool;
  error : jstr;
  success : jstr;
  showForm : bool;
  editingUser : option User;
  pendingDelete : option User;
  deleting : bool;
  (* usermodal.svelte *)
  formName : jstr;
  password : jstr;
  allowAccess : bool;
  attempted : bool;
  saving : bool;
  formError : jstr;
  formId : nat;              (* the forms dropped so far *)
  dispatched : list UserEvent
}.
#[export] Instance Users_eta : Settable Users := fun s =>
  MkUsers (sess s) (users s) (loading s) (error s) (success s) (showForm s) (editingUser s)
    (pendingDelete s) (deleting s) (formName s) (password s) (allowAccess s) (attempted s)
    (saving s) (formError s) (formId s) (dispatched s).
#[export] Instance Users_session : HasSession Users :=
  {| session := sess; on_session f s := s <| sess ::= f |>; session_on_session f s := eq_refl;
     on_session_twice f g s := eq_refl; on_session_const f s := eq_refl |}.

#[local] Abbreviation handler := (prog Users (io_res (P := UserPayload) UsersBody)).

(** ** The form *)

Definition openForm (user : option User) (s : Users) : Users :=
  s <| editingUser := user |> <| showForm := true |>
    <| formName := default [] (username <$> user) |> <| password := [] |>
    <| allowAccess := default false (allowaccess <$> user) |> <| attempted := false |>
    <| formError := [] |>.

Definition closeForm (s : Users) : Users :=
  s <| showForm := false |> <| editingUser := None |> <| saving := false |> <| formId ::= S |>.

Definition addUser (s : Users) : Users := openForm None s.

Definition find_user (name : jstr) (s : Users) : option User :=
  find (fun user => bool_decide (username user = name)) (users s).

Definition editUser (name : jstr) (s : Users) : Users := openForm (find_user name s) s.

Definition requestDelete (name : jstr) (s : Users) : Users := s <| pendingDelete := find_user name s |>.

(** The dialog's [close] event. *)
Definition closeDelete (s : Users) : Users := if deleting s then s else s <| pendingDelete := None |>.

Definition is_Some_b {A} (o : option A) : bool := match o with Some _ => true | None => false end.

Definition usernameInvalid (s : Users) : bool := attempted s && (length (trim (formName s)) <? 3)%nat.

Definition passwordInvalid (s : Users) : bool :=
  attempted s && (negb (is_Some_b (editingUser s)) || (0 <? length (password s))%nat)
  && (length (password s) <? 10)%nat.

Definition valid (s : Users) : bool :=
  (3 <=? length (trim (formName s)))%nat &&
  (if is_Some_b (editingUser s) then (length (password s) =? 0)%nat || (10 <=? length (password s))%nat
   else (10 <=? length (password s))%nat).

Section Page.
Context (translator : jstr → jstr).

(** [response?.error ?? response?.Error ?? fallback]. *)
Definition error_of (o : option UsersBody) (fallback : jstr) : jstr :=
  match o ≫= b_error with
  | Some e => e
  | None => default fallback (o ≫= b_Error)
  end.

(** [response?.ok] as a condition. *)
Definition accepted (o : option UsersBody) : bool := default false (o ≫= b_ok).

Definition loadUsers : handler unit :=
  loading <~ true ;; error <~ [] ;;
  finally
    (try_catch
       (response ← getUsers;
        users <~ default [] (response ≫= b_users))
       (fun caught => error <~ nonempty_message_or caught
          (translator (js "Proxy users could not be loaded."))))
    (loading <~ false).

(** An assignment to a variable of the form [id] that is not bound outside it. *)
Definition on_form (id : nat) (f : Users → Users) (s : Users) : Users :=
  if (formId s =? id)%nat then f s else s.

(** [submit], and whether it dispatched [saved] and for which kind of form. *)
Definition submit : handler (option bool) :=
  attempted <~ true ;; formError <~ [] ;;
  s ← get;
  if negb (valid s) || saving s then Ret None else
  saving <~ true ;;
  let editing := is_Some_b (editingUser s) in
  let name := from_option username (trim (formName s)) (editingUser s) in
  finally
    (try_catch
       (let payload := SendUser name (password s) (allowAccess s) in
        response ← (if editing then updateUser payload else createUser payload);
        if negb (accepted response) then
          modify (on_form (formId s) (fun s =>
            s <| formError := error_of response (translator (js "The user could not be saved.")) |>)) ;;
          Ret None
        else
          modify (fun s => s <| dispatched ::= fun l =>
            l ++ [if editing then UserUpdated name else UserCreated name] |>) ;;
          Ret (Some editing))
       (fun caught =>
          modify (on_form (formId s) (fun s =>
            s <| formError := nonempty_message_or caught (translator (js "The user could not be saved.")) |>)) ;;
          Ret None))
    (saving <~ false).

Definition userSaved (editing : bool) : handler unit :=
  modify closeForm ;;
  success <~ translator (if editing then js "Proxy user updated." else js "Proxy user created.") ;;
  loadUsers.

Definition saveUser : handler unit :=
  saved ← submit;
  match saved with Some editing => userSaved editing | None => Ret () end.

Definition setAccess (name : jstr) (allow : bool) : handler unit :=
  error <~ [] ;; success <~ [] ;;
  try_catch
    (response ← updateUser (SendUser name [] allow);
     if negb (accepted response) then
       Throw (Error (error_of response (translator (js "Access could not be updated."))))
     else
       success <~ translator (if allow then js "Internet access enabled." else js "Internet access paused.") ;;
       loadUsers)
    (fun caught => error <~ nonempty_message_or caught (translator (js "Access could not be updated."))).

Definition confirmDelete : handler unit :=
  s ← get;
  match pendingDelete s with
  | None => Ret ()
  | Some user =>
      if deleting s then Ret () else
      deleting <~ true ;; error <~ [] ;; success <~ [] ;;
      finally
        (try_catch
           (response ← deleteUser (username user);
            if bool_decide ((response ≫= b_ok) = Some false) then
              Throw (Error (error_of response (translator (js "The proxy user could not be deleted."))))
            else
              pendingDelete <~ None ;;
              success <~ translator (js "Proxy user deleted.") ;;
              loadUsers)
           (fun caught => error <~ nonempty_message_or caught
              (translator (js "The proxy user could not be deleted."))))
        (deleting <~ false)
  end.
End Page.

(** ** What the handlers do *)

Lemma on_form_same id f s : formId s = id → on_form id f s = f s.
Proof. intros <-. unfold on_form. by rewrite Nat.eqb_refl. Qed.

Ltac users_norm st :=
  eval cbv beta iota zeta delta [update_field sess users loading error success showForm editingUser
    pendingDelete deleting formName password allowAccess attempted saving formError formId dispatched
    session on_session Users_session getUsers createUser updateUser deleteUser] in st.
Ltac users_simpl := match goal with |- ?G => let G' := users_norm G in change G' end.
Ltac users_run :=
  unfold getUsers, createUser, updateUser, deleteUser;
  repeat first [progress run_with users_norm | rewrite run_call | rewrite on_form_same by reflexivity
    | progress cbn [run]]; users_simpl.

Section Handlers.
Context (translator : jstr → jstr).
Context (reply : list (request UserPayload) → ∀ q : io_req UserPayload, io_res UsersBody q).

Definition list_request (a : Session) : request UserPayload :=
  session_request a (js "/users") (js "get") None ∅.
Definition update_request (a : Session) (name pass : jstr) (allow : bool) : request UserPayload :=
  session_request a (js "/users") (js "put") (Some (SendUser name pass allow)) ∅.
Definition create_request (a : Session) (name pass : jstr) (allow : bool) : request UserPayload :=
  session_request a (js "/users") (js "post") (Some (SendUser name pass allow)) ∅.
Definition delete_request (a : Session) (name : jstr) : request UserPayload :=
  session_request a (js "/users/" ++ name) (js "delete") None ∅.

(** The page once the list has been asked for. *)
Definition after_list (o : result (response UsersBody)) (s : Users) : Users :=
  match call_result o with
  | inl e => s <| error := nonempty_message_or e (translator (js "Proxy users could not be loaded.")) |>
  | inr response => s <| users := default [] (response ≫= b_users) |> <| error := [] |>
  end <| loading := false |> <| sess ::= session_after o |>.

Lemma loadUsers_run s log :
  run (history reply) (loadUsers translator) s log =
    (inr (), after_list (reply log (Fetch (list_request (sess s)))) s, log ++ [list_request (sess s)]).
Proof.
  destruct s. unfold loadUsers, after_list, list_request. users_run.
  destruct (call_result _) as [e|response]; users_run; done.
Qed.

(** The form is sent when the name, trimmed, has three characters and the
    password ten; when a user is edited the password may also be left blank,
    and the name sent is the user's own whatever the form holds.  Accepted,
    one event is dispatched; refused, the form and what was typed stay, under
    the server's message where it has one. *)
Theorem user_submit_spec s log :
  let '(r, s', log') := run (history reply) (submit translator) s log in
  let name := from_option username (trim (formName s)) (editingUser s) in
  let editing := is_Some_b (editingUser s) in
  let q := if editing then update_request (sess s) name (password s) (allowAccess s)
           else create_request (sess s) name (password s) (allowAccess s) in
  formName s' = formName s ∧ password s' = password s ∧ users s' = users s ∧ attempted s' = true ∧
  if valid s && negb (saving s) then
    log' = log ++ [q] ∧ saving s' = false ∧
    match call_result (reply log (Fetch q)) with
    | inl e =>
        r = inr None ∧ dispatched s' = dispatched s ∧
        formError s' = nonempty_message_or e (translator (js "The user could not be saved."))
    | inr response =>
        if accepted response then
          r = inr (Some editing) ∧ formError s' = [] ∧
          dispatched s' = dispatched s ++ [if editing then UserUpdated name else UserCreated name]
        else
          r = inr None ∧ dispatched s' = dispatched s ∧
          formError s' = error_of response (translator (js "The user could not be saved."))
    end
  else r = inr None ∧ log' = log ∧ dispatched s' = dispatched s.
Proof.
  destruct s as [a us ld er su sf eu pd de fn pw aa at' sv fe fi di].
  unfold submit, update_request, create_request. users_run.
  change (valid _) with (valid (MkUsers a us ld er su sf eu pd de fn pw aa at' sv fe fi di)).
  destruct (valid _); cbn [negb orb andb]; users_run; [|by split_and!].
  destruct sv; cbn [negb orb andb]; users_run; [by split_and!|].
  destruct eu as [user|]; cbn [is_Some_b from_option]; users_run;
    (destruct (call_result _) as [e|response]; users_run; [by split_and!|];
     destruct (accepted response); cbn [negb]; users_run; by split_and!).
Qed.

(** Changing the access of a user sends that user's name with a blank
    password, which keeps the password.  The table is read again exactly when
    the change was accepted; it never throws. *)
Theorem setAccess_spec name allow s log :
  let '(r, s', log') := run (history reply) (setAccess translator name allow) s log in
  let q := update_request (sess s) name [] allow in
  let answer := reply log (Fetch q) in
  let a := session_after answer (sess s) in
  r = inr () ∧
  match call_result answer with
  | inr (Some body as response) =>
      if accepted response then
        log' = log ++ [q; list_request a] ∧
        success s' = translator (if allow then js "Internet access enabled." else js "Internet access paused.") ∧
        users s' = match call_result (reply (log ++ [q]) (Fetch (list_request a))) with
                   | inr list => default [] (list ≫= b_users)
                   | inl _ => users s
                   end
      else log' = log ++ [q] ∧ users s' = users s ∧ success s' = []
  | _ => log' = log ++ [q] ∧ users s' = users s ∧ success s' = []
  end.
Proof.
  destruct s as [a us ld er su sf eu pd de fn pw aa at' sv fe fi di].
  unfold setAccess, update_request. users_run.
  destruct (call_result _) as [e|[body|]]; users_run; [by split_and!| |by split_and!].
  destruct (accepted _); cbn [negb]; users_run; [|by split_and!].
  rewrite loadUsers_run. unfold after_list. users_simpl. rewrite <-app_assoc. cbn [app].
  destruct (call_result _) as [e|list]; users_simpl; by split_and!.
Qed.

(** A user is deleted once, and not while another deletion runs.  Unless the
    server says that it refused, the question is closed and the table is read
    again; otherwise the question and the table stay under the message. *)
Theorem user_delete_spec s log :
  let '(r, s', log') := run (history reply) (confirmDelete translator) s log in
  r = inr () ∧
  match pendingDelete s with
  | None => s' = s ∧ log' = log
  | Some user =>
      if deleting s then s' = s ∧ log' = log else
      let q := delete_request (sess s) (username user) in
      let answer := reply log (Fetch q) in
      let a := session_after answer (sess s) in
      let refused e := log' = log ++ [q] ∧ pendingDelete s' = Some user ∧ users s' = users s ∧
        success s' = [] ∧
        error s' = nonempty_message_or e (translator (js "The proxy user could not be deleted.")) in
      deleting s' = false ∧
      match call_result answer with
      | inl e => refused e
      | inr response =>
          if bool_decide ((response ≫= b_ok) = Some false) then
            refused (Error (error_of response (translator (js "The proxy user could not be deleted."))))
          else
            log' = log ++ [q; list_request a] ∧ pendingDelete s' = None ∧
            success s' = translator (js "Proxy user deleted.") ∧
            users s' = match call_result (reply (log ++ [q]) (Fetch (list_request a))) with
                       | inr list => default [] (list ≫= b_users)
                       | inl _ => users s
                       end
      end
  end.
Proof.
  destruct s as [a us ld er su sf eu pd de fn pw aa at' sv fe fi di].
  unfold confirmDelete, delete_request. users_run. destruct pd as [user|]; users_run; [|done].
  destruct de; users_run; [done|].
  destruct (call_result _) as [e|response]; users_run; [by split_and!|].
  case_bool_decide; users_run; [by split_and!|].
  rewrite loadUsers_run. unfold after_list. users_run. rewrite <-app_assoc. cbn [app].
  destruct (call_result _) as [e|list]; users_simpl; by split_and!.
Qed.
End Handlers.

(** The button's two error texts say exactly why a form that has been tried is
    not valid. *)
Theorem valid_spec s :
  attempted s = true → valid s = negb (usernameInvalid s) && negb (passwordInvalid s).
Proof.
  intros Ha. unfold valid, usernameInvalid, passwordInvalid. rewrite Ha.
  destruct (is_Some_b (editingUser s)); cbn [andb orb negb];
    destruct (Nat.leb_spec 3 (length (trim (formName s)))), (Nat.ltb_spec (length (trim (formName s))) 3),
      (Nat.eqb_spec (length (password s)) 0), (Nat.ltb_spec 0 (length (password s))),
      (Nat.leb_spec 10 (length (password s))), (Nat.ltb_spec (length (password s)) 10); done || lia.
Qed.

Lemma valid_spec_witness :
  valid ((addUser (MkUsers (apistore [] ∅) [] false [] [] false None None false [] [] false false false [] 0 []))
           <| attempted := true |>) = false.
Proof. rewrite valid_spec; reflexivity. Defined.
