(* ===== verification/UsersView.v ===== *)
(** * The template of the proxy users, and the page in the event loop

    The markup of [routes/users/users.svelte] and of the form
    [routes/users/usermodal.svelte].  The dialogs cover the page: while one is
    open its controls alone can be reached ([users_enabled]). *)

From S2P Require Import Prelude JsString JsAsync Http Api Busy Notifications View Layout Users.
Open Scope js_scope.

Inductive users_event :=
| AddUser
| CloseError
| CloseSuccess
| Refresh
| EditUser (name : jstr)
| SetAccess (name : jstr) (allow : bool)
| RequestDelete (name : jstr)
| CloseForm
| Submit
| CloseFormError
| SetName (value : jstr)
| SetPassword (value : jstr)
| SelectAccess (allow : bool)
| CloseDelete
| ConfirmDelete.

Section View.
Context (translator : jstr → jstr) (magnitude : Z → Z).
#[local] Abbreviation tr s := (translator (js s)).
#[local] Abbreviation handler := (prog Users (io_res (P := UserPayload) UsersBody)).

(** ** The table *)

Definition headers : list (jstr * jstr) := [
  (js "user", tr "Username"); (js "dataconsumed", tr "Data consumed");
  (js "allowaccess", tr "Access"); (js "actions", tr "Actions")
].

Definition actions_cell (row : User) : node users_event :=
  El "OverflowMenu" [Attr "iconDescription" (tr "User actions")] [
    El "OverflowMenuItem" [Attr "text" (tr "Edit"); On "click" (EditUser (username row))] [];
    El "OverflowMenuItem" [
      Attr "text" (if allowaccess row then tr "Pause internet access" else tr "Allow internet access");
      On "click" (SetAccess (username row) (negb (allowaccess row)))
    ] [];
    El "OverflowMenuItem" [Flag "danger" true; Attr "text" (tr "Delete"); On "click" (RequestDelete (username row))] []
  ].

Definition cell (row : User) (key : jstr) : list (node users_event) := [
  alt (bool_decide (key = js "actions")) [actions_cell row] [
    alt (bool_decide (key = js "dataconsumed")) [Text (bytesToSize magnitude (default 0%Z (dataconsumed row)))] [
      alt (bool_decide (key = js "allowaccess")) [
        El "Tag" [lit "type" (if allowaccess row then "green" else "warm-gray")] [
          Text (if allowaccess row then tr "Allowed" else tr "Paused")
        ]
      ] [Text (username row)]
    ]
  ]
].

Definition list_body (s : Users) : node users_event :=
  alt (loading s && is_nil (users s)) [
    El "div" [] [El "InlineLoading" [Attr "description" (tr "Loading proxy users…")] []]
  ] [
    alt (is_nil (users s)) [
      El "div" [] [
        El "h4" [] [Text (tr "No proxy users yet")];
        El "p" [] [
          Text (tr "Add a credential before requiring proxy sign-in so clients are not locked out.")
        ];
        El "Button" [On "click" AddUser] [Text (tr "Add proxy user")]
      ]
    ] [data_table headers (users s) [] cell]
  ].

Definition list_section (s : Users) : node users_event :=
  El "section" [] [
    El "div" [] [
      El "div" [] [
        El "h3" [] [Text (tr "Credentials")];
        El "p" [] [Text (tr "Manage proxy sign-in and each user's immediate internet access.")]
      ];
      El "Button" [lit "kind" "ghost"; Disabled (loading s); On "click" Refresh] [Text (tr "Refresh")]
    ];
    list_body s
  ].

(** The radio group is a [ConnectedSettingInput], a component of its own. *)
Definition enforcementOptions : list (jstr * jstr) :=
  [(js "true", tr "Require a proxy user"); (js "false", tr "Do not require a proxy user")].

Definition enforcement_section : node users_event :=
  El "section" [] [
    El "div" [] [
      El "h3" [] [Text (tr "Proxy authentication")];
      El "p" [] [
        Text (tr "When required, the proxy challenges every new connection for one of the credentials below. A user's access setting can then allow or pause internet use without deleting the credential.")
      ]
    ];
    El "ConnectedSettingInput" [
      lit "keyName" "EnableUsers"; lit "type" "radio"; Attr "title" (tr "Require proxy sign-in");
      Attr "labelText" (tr "Require proxy sign-in");
      Attr "helperText" (tr "This applies to proxy traffic only; DNS clients do not send proxy credentials.");
      lit "orientation" "vertical"; Items enforcementOptions
    ] []
  ].

Definition page (s : Users) : node users_event :=
  page_shell (tr "Proxy users")
    (tr "Proxy users are sign-in credentials for devices and browsers that connect through the GateSentry proxy. They are separate from administrator accounts used to manage this dashboard.")
    false [
    El "Breadcrumb" [] [
      El "BreadcrumbItem" [lit "href" "/"] [Text (tr "Dashboard")];
      El "BreadcrumbItem" [] [Text (tr "Proxy users")]
    ]
  ] (Some [El "Button" [On "click" AddUser] [Text (tr "Add proxy user")]]) [
    shown (truthy (error s)) [
      El "InlineNotification" [
        lit "kind" "error"; Attr "title" (tr "Proxy users unavailable"); Attr "subtitle" (error s);
        On "close" CloseError
      ] []
    ];
    shown (truthy (success s)) [
      El "InlineNotification" [
        lit "kind" "success"; Attr "title" (tr "Proxy users updated"); Attr "subtitle" (success s);
        On "close" CloseSuccess
      ] []
    ];
    enforcement_section;
    list_section s
  ].

(** ** The dialogs *)

Definition form_fields (s : Users) : node users_event :=
  let editing := is_Some_b (editingUser s) in
  El "div" [] [
    shown (truthy (formError s)) [
      El "InlineNotification" [
        lit "kind" "error"; Attr "title" (tr "User not saved"); Attr "subtitle" (formError s);
        On "close" CloseFormError
      ] []
    ];
    El "TextInput" [
      Attr "value" (formName s); Attr "labelText" (tr "Username");
      Attr "helperText" (if editing then tr "Usernames cannot be changed." else tr "At least 3 characters.");
      Disabled (editing || saving s); Flag "invalid" (usernameInvalid s);
      Attr "invalidText" (tr "Enter a username with at least 3 characters."); OnAny "bind:value" SetName
    ] [];
    El "TextInput" [
      Attr "value" (password s); Attr "labelText" (if editing then tr "New password" else tr "Password");
      Attr "helperText"
        (if editing then tr "Leave blank to keep the current password. New passwords need at least 10 characters."
         else tr "At least 10 characters.");
      lit "type" "password"; Disabled (saving s); Flag "invalid" (passwordInvalid s);
      Attr "invalidText" (tr "Enter a password with at least 10 characters."); OnAny "bind:value" SetPassword
    ] [];
    El "RadioButtonGroup" [
      Attr "legendText" (tr "Internet access"); Disabled (saving s);
      Attr "selected" (if allowAccess s then js "true" else js "false"); OnAny "bind:selected" SelectAccess
    ] [
      El "RadioButton" [lit "value" "true"; Attr "labelText" (tr "Allow access")] [];
      El "RadioButton" [lit "value" "false"; Attr "labelText" (tr "Deny access")] []
    ]
  ].

Definition form_dialog (s : Users) : node users_event :=
  let editing := is_Some_b (editingUser s) in
  modal (showForm s) (if editing then tr "Edit proxy user" else tr "Add proxy user") (tr "Proxy access")
    (if saving s then tr "Saving…" else if editing then tr "Save changes" else tr "Create user") (tr "Cancel")
    (saving s) Submit CloseForm [form_fields s].

Definition delete_dialog (s : Users) : node users_event :=
  modal (is_Some_b (pendingDelete s)) (tr "Delete proxy user?") (tr "Confirm deletion")
    (if deleting s then tr "Deleting…" else tr "Delete user") (tr "Cancel") (deleting s) ConfirmDelete CloseDelete [
    El "p" [] [
      Text (tr "Delete proxy user");
      El "strong" [] [Text (default [] (username <$> pendingDelete s))]; txt "?";
      Text (tr "Their current proxy credentials will stop working.")
    ]
  ].

Definition users_view (s : Users) : list (node users_event) := [page s; form_dialog s; delete_dialog s].

(** ** The event loop *)

Definition on_event (e : users_event) : handler unit :=
  match e with
  | AddUser => modify addUser
  | CloseError => error <~ []
  | CloseSuccess => success <~ []
  | Refresh => loadUsers translator
  | EditUser name => modify (editUser name)
  | SetAccess name allow => setAccess translator name allow
  | RequestDelete name => modify (requestDelete name)
  | CloseForm => modify closeForm
  | Submit => saveUser translator
  | CloseFormError => formError <~ []
  | SetName v => formName <~ v
  | SetPassword v => password <~ v
  | SelectAccess b => allowAccess <~ b
  | CloseDelete => modify closeDelete
  | ConfirmDelete => confirmDelete translator
  end.

(** What is shown last covers what is shown before it. *)
Definition users_enabled (e : users_event) (s : Users) : Prop :=
  if is_Some_b (pendingDelete s) then offers (delete_dialog s) e
  else if showForm s then offers (form_dialog s) e
  else offers (page s) e.

Definition initialUsers (a : Session) : Users :=
  MkUsers a [] true [] [] false None None false [] [] false false false [] 0 [].

Definition users_loop (a : Session) := loop_from users_enabled on_event (loadUsers translator) (initialUsers a).
End View.

(** ** One deletion at a time *)

Section Rest.
Context (translator : jstr → jstr) (magnitude : Z → Z).

Definition deletes (q : io_req UserPayload) : bool :=
  match q with Fetch r => bool_decide (rq_method r = js "delete") | _ => false end.

Ltac users_unfold :=
  unfold on_event, saveUser, submit, on_form, closeDelete, userSaved, setAccess, confirmDelete, loadUsers, getUsers, createUser, updateUser,
    deleteUser.

Lemma users_event_safe e s : flag_safe deleting deletes (on_event translator e) s.
Proof.
  destruct e; try (apply harmless_safe; users_unfold; solve [harmless_run]).
  all: users_unfold; unfold flag_safe; guard_run.
Qed.

Lemma users_event_settles e s :
  settling deleting (on_event translator e) s ∧ settling loading (on_event translator e) s.
Proof. users_unfold. destruct e; split; settling_run. Qed.

(** However the page and its dialogs are used and the requests answered, at
    most one deletion is under way; when no more is done the page comes to rest
    and says neither that it is deleting nor that it is loading. *)
Theorem users_at_rest a s ts :
  users_loop translator magnitude a (s, ts) →
  length (List.filter (fun t => deletes (th_request t)) ts) ≤ (if deleting s then 1 else 0) ∧
  Acc (flip answer_step) (s, ts) ∧
  ∀ s', rtc answer_step (s, ts) (s', []) → Forall (fun flag => flag s' = false) [deleting; loading].
Proof.
  intros Hr. split.
  - eapply single_flight in Hr as [H _]; [exact H|intros; apply users_event_safe|done|].
    apply harmless_safe. users_unfold. harmless_run.
  - apply (page_rests _ _ _ _ _ [deleting; loading] Hr).
    apply Forall_cons; split; [|apply Forall_cons; split; [|done]];
      (split; [intros e s0 _; apply users_event_settles|]); users_unfold.
    + right. split; [done|settling_run].
    + left. clearing_run.
Qed.
End Rest.

(** ** A save that outlives its dialog *)

Section Late.
Context (translator : jstr → jstr) (magnitude : Z → Z).

(** Whether the server took the save. *)
Definition taken_up (o : result (response UsersBody)) : bool :=
  match call_result o with inr response => accepted response | inl _ => false end.

(** A save that has been sent, and what is left of it, given its answer. *)
Lemma create_starts s :
  editingUser s = None → valid s = true → saving s = false → allowAccess s = false →
  ∃ k, advance (saveUser translator) s =
      (s <| attempted := true |> <| formError := [] |> <| saving := true |>
         <| sess := (getHeaders (sess s)).2 |>,
       Some (Thread (Fetch (create_request (sess s) (trim (formName s)) (password s) false)) k)) ∧
    ∀ o s1, let '(s2, next) := advance (k o) s1 in
      saving s2 = false ∧ formName s2 = formName s1 ∧
      if taken_up o then
        showForm s2 = false ∧ success s2 = translator (js "Proxy user created.") ∧
        ∃ b, th_request <$> next = Some (Fetch (list_request b))
      else showForm s2 = showForm s1 ∧ success s2 = success s1 ∧ next = None.
Proof.
  intros He Hv Hs Hw. destruct s as [a us ld er su sf eu pd de fn pw aa at' sv fe fi di].
  simpl in He, Hs, Hw. subst. eexists. split.
  - unfold saveUser, submit. cbn [mbind prog_bind settle get modify advance].
    change (valid _) with (valid (MkUsers a us ld er su sf None pd de fn pw false at' false fe fi di)).
    rewrite Hv. reflexivity.
  - intros o s1. destruct s1 as [a1 us1 ld1 er1 su1 sf1 eu1 pd1 de1 fn1 pw1 aa1 at1 sv1 fe1 fi1 di1].
    unfold taken_up, on_form. destruct o as [e|r]; cbn -[Nat.eqb]; [by destruct (fi1 =? fi)%nat|].
    unfold check_response, read_json. destruct (status r =? 401)%Z; cbn -[Nat.eqb]; [by destruct (fi1 =? fi)%nat|].
    destruct (negb (ok r)); cbn -[Nat.eqb]; [by destruct (fi1 =? fi)%nat|].
    destruct (json r) as [e|response]; cbn -[Nat.eqb]; [by destruct (fi1 =? fi)%nat|].
    destruct (accepted response); cbn -[Nat.eqb]; [|by destruct (fi1 =? fi)%nat].
    split_and!; try done. by eexists.
Qed.

Lemma add_offered s : offers (page translator magnitude s) AddUser.
Proof. unfold page. apply page_shell_offers. right. left. cbn [slot_offers]. view_simpl. view_find. Qed.

Lemma form_offers s e :
  showForm s = true →
  match e with
  | SetName _ => saving s = false ∧ editingUser s = None
  | SetPassword _ | Submit => saving s = false
  | CloseForm => True
  | _ => False
  end → offers (form_dialog translator s) e.
Proof.
  intros Hf He. unfold form_dialog. apply modal_offers. split; [done|].
  destruct e; try done; [by right; left|by left| |]; right; right; left; unfold form_fields; view_simpl;
    (split; [done|]); right.
  - destruct He as [-> ->]. right. left. view_find.
  - rewrite He. do 2 right. left. view_find.
Qed.

End Late.

