(* ===== verification/SettingInput.v ===== *)
(** * A setting bound to an input

    [components/connectedSettingInput.svelte].  [onSaved] is the page's
    callback: how the promise it returns settles for each value.  [saved_calls]
    are the calls made to it.

    A radio group is bound to [data].  A text input only takes [data] as its
    value when [data] changes ([value={data}] is passed one way), and otherwise
    keeps the text that was typed; [inputText] is the text it shows. *)

From S2P Require Import Prelude JsString JsAsync Http Api Notifications.
Open Scope js_scope.

(** [b_value] is [json?.Value ?? json?.value] as a string, where there is one. *)
Record SettingBody := MkSettingBody { b_value : option jstr }.

Inductive SettingPayload := SendValue (value : jstr).

Record SettingInput := MkSettingInput {
  sess : Session;
  shown_notifications : list Notification;
  keyName : jstr;
  disableOnblur : bool;
  data : jstr;
  inputText : jstr;
  persistedValue : jstr;
  internalFormValue : jstr;
  loaded : bool;
  saving : bool;
  saveError : jstr;
  saved_calls : list jstr
}.
#[export] Instance SettingInput_eta : Settable SettingInput := fun s =>
  MkSettingInput (sess s) (shown_notifications s) (keyName s) (disableOnblur s) (data s) (inputText s)
    (persistedValue s) (internalFormValue s) (loaded s) (saving s) (saveError s) (saved_calls s).
#[export] Instance SettingInput_session : HasSession SettingInput :=
  {| session := sess; on_session f s := s <| sess ::= f |>; session_on_session f s := eq_refl;
     on_session_twice f g s := eq_refl; on_session_const f s := eq_refl |}.
#[export] Instance SettingInput_notifications : HasNotifications SettingInput :=
  {| shown := shown_notifications; on_shown f s := s <| shown_notifications ::= f |>;
     shown_on_shown f s := eq_refl |}.

#[local] Abbreviation handler := (prog SettingInput (io_res (P := SettingPayload) SettingBody)).

(** An assignment to [data], and what it does to the text input. *)
Definition assignData (value : jstr) (s : SettingInput) : SettingInput :=
  s <| data := value |> <| inputText := if bool_decide (value = data s) then inputText s else value |>.

Section Input.
Context (translator : jstr → jstr) (onSaved : jstr → result unit).

Definition loadAPIData : handler unit :=
  try_catch
    (s ← get;
     json ← getSetting (keyName s);
     let value := default [] (json ≫= b_value) in
     modify (assignData value) ;;
     modify (fun s => s <| persistedValue := data s |>) ;;
     modify (fun s => s <| internalFormValue := data s |>))
    (fun _ => saveError <~ translator (js "Unable to load setting")).

Definition updateNetwork (keyValue : jstr) : handler bool :=
  s ← get;
  if saving s || bool_decide (keyValue = persistedValue s) then Ret true else
  saving <~ true ;; saveError <~ [] ;;
  finally
    (try_catch
       (s ← get;
        response ← setSetting (keyName s) (SendValue keyValue);
        if negb response then Throw (Error (translator (js "Unable to save setting"))) else
        persistedValue <~ keyValue ;;
        modify (assignData keyValue) ;;
        notify (createNotificationSuccess translator (subtitle_only (translator (js "Setting updated")))) ;;
        modify (fun s => s <| saved_calls ::= fun l => l ++ [keyValue] |>) ;;
        of_result (onSaved keyValue) ;;
        Ret true)
       (fun error =>
          modify (fun s => assignData (persistedValue s) s) ;;
          modify (fun s => s <| internalFormValue := persistedValue s |>) ;;
          saveError <~ nonempty_message_or error (translator (js "Unable to save setting")) ;;
          s ← get;
          notify (createNotificationError translator (subtitle_only (saveError s))) ;;
          Ret false))
    (saving <~ false).

Definition updateDataOnBackend : handler bool := s ← get; updateNetwork (internalFormValue s).

(** [value] is the text of the input that raised the event, as in
    [updateField]. *)
Definition updateInternalValue (value : jstr) (s : SettingInput) : SettingInput :=
  s <| internalFormValue := value |>.

(** [on:blur] of the text input and [on:change] of the radio group; the group
    has already assigned [data]. *)
Definition updateField (value : jstr) : handler unit :=
  internalFormValue <~ value ;;
  s ← get;
  if bool_decide (value = persistedValue s) || disableOnblur s then Ret ()
  else updateNetwork value ;; Ret ().

Definition updateFieldRadio (value : option jstr) : handler unit :=
  s ← get;
  let value := default (data s) value in
  internalFormValue <~ value ;;
  s ← get;
  if bool_decide (value = persistedValue s) || disableOnblur s then Ret ()
  else updateNetwork value ;; Ret ().

Definition onMount : handler unit := loadAPIData ;; loaded <~ true.

Definition onDestroy (s : SettingInput) : SettingInput :=
  assignData [] s <| persistedValue := [] |> <| internalFormValue := [] |> <| loaded := false |>.
End Input.

(** ** What the handlers do *)

Ltac setting_norm st :=
  eval cbv beta iota zeta delta [update_field sess shown_notifications keyName disableOnblur data inputText
    persistedValue internalFormValue loaded saving saveError saved_calls
    session on_session SettingInput_session shown on_shown SettingInput_notifications] in st.
Ltac setting_simpl := match goal with |- ?G => let G' := setting_norm G in change G' end.
Ltac setting_run :=
  unfold getSetting, setSetting, notify;
  repeat (progress run_with setting_norm || rewrite run_call); setting_simpl.

Section Handlers.
Context (translator : jstr → jstr) (onSaved : jstr → result unit).
Context (reply : list (request SettingPayload) → ∀ q : io_req SettingPayload, io_res SettingBody q).

Definition setting_url (s : SettingInput) : jstr := js "/settings/" ++ keyName s.
Definition save_request (s : SettingInput) (value : jstr) : request SettingPayload :=
  session_request (sess s) (setting_url s) (js "post") (Some (SendValue value)) ∅.

(** C35: A value is sent once, and only when it differs from the value the page
    last knew to be saved and no other save is running.  When the call is
    answered, that value becomes the one the page knows, which it compares with
    from then on, and the page's callback runs once; when the call fails, the
    page keeps the value it knew.  A radio group then shows the known value in
    every case.  A text input does where that value is a new one for it: when
    the call fails and [data] was the known value already, it keeps the text
    that was typed, which is not saved, under the message.  A callback that
    fails is reported as a save that failed although the call was answered.
    While a save is running the call claims success without sending the
    value. *)
Theorem updateNetwork_spec v s log :
  let '(r, s', log') := run (history reply) (updateNetwork translator onSaved v) s log in
  let q := save_request s v in
  if saving s || bool_decide (v = persistedValue s) then r = inr true ∧ s' = s ∧ log' = log
  else
    log' = log ++ [q] ∧ saving s' = false ∧ data s' = persistedValue s' ∧
    inputText s' = (if bool_decide (persistedValue s' = data s) then inputText s else persistedValue s') ∧
    let settled outcome :=
      match outcome with
      | inr _ => r = inr true ∧ saveError s' = [] ∧ internalFormValue s' = internalFormValue s
      | inl e => r = inr false ∧ internalFormValue s' = persistedValue s' ∧
          saveError s' = nonempty_message_or e (translator (js "Unable to save setting"))
      end in
    match call_result (reply log (Fetch q)) with
    | inr _ => persistedValue s' = v ∧ saved_calls s' = saved_calls s ++ [v] ∧ settled (onSaved v)
    | inl e => persistedValue s' = persistedValue s ∧ saved_calls s' = saved_calls s ∧ settled (inl e)
    end.
Proof.
  destruct s as [a ns kn db d it pv iv ld sv se sc]. unfold updateNetwork, assignData, save_request, setting_url.
  setting_run. destruct sv; cbn [orb]; [done|]. case_bool_decide; setting_run; [done|].
  destruct (call_result _) as [e|json]; setting_run; [by split_and!|].
  cbn [run negb]. setting_run.
  destruct (onSaved v) as [e|[]]; cbn [of_result run]; setting_run; split_and!; try done.
  by rewrite bool_decide_true.
Qed.

(** Leaving a text input, with a page callback that works.  The input keeps the
    text that was typed whatever the server answers; it is the value the page
    knows to be saved when the call was answered, and is not when the call
    failed.  With [disableOnblur] nothing is sent. *)
Theorem updateField_settles s log :
  data s = persistedValue s → saving s = false → onSaved (inputText s) = inr () →
  let v := inputText s in
  let q := save_request s v in
  let '(r, s', log') := run (history reply) (updateField translator onSaved v) s log in
  r = inr () ∧ data s' = persistedValue s' ∧ saving s' = false ∧ inputText s' = v ∧
  if disableOnblur s || bool_decide (v = persistedValue s)
  then log' = log ∧ internalFormValue s' = v ∧ persistedValue s' = persistedValue s
  else log' = log ++ [q] ∧
    (persistedValue s' = v ↔ ∃ json, call_result (reply log (Fetch q)) = inr json).
Proof.
  intros Hs Hv Hc. destruct s as [a ns kn db d it pv iv ld sv se sc]. simpl in Hs, Hv, Hc. subst sv d.
  unfold updateField, save_request, setting_url.
  setting_run. case_bool_decide as Hvp; cbn [orb]; rewrite ?orb_true_r; [by split_and!|].
  destruct db; setting_run; cbn [orb]; [by split_and!|].
  unfold updateNetwork, assignData. setting_run. cbn [orb]. rewrite bool_decide_false by done. setting_run.
  destruct (call_result _) as [e|json]; setting_run.
  { rewrite bool_decide_true by done. split_and!; try done. by split; [intros ->|intros [? ?]]. }
  cbn [run negb]. setting_run. rewrite Hc. cbn [of_result run]; setting_run. rewrite bool_decide_false by done.
  split_and!; try done. split; [by eauto|done].
Qed.
End Handlers.

Definition refusing (l : list (request SettingPayload)) (q : io_req SettingPayload) : io_res SettingBody q :=
  serve (fun _ => inr (Response 500 (inr []) None (inr None))) q.

(** The resolver's address, and another typed over it. *)
Definition resolver : SettingInput :=
  MkSettingInput (apistore [] ∅) [] (js "dns_resolver") false (js "8.8.8.8:53") (js "1.1.1.1:53")
    (js "8.8.8.8:53") (js "1.1.1.1:53") true false [] [].

Lemma updateField_settles_witness :
  let '(_, s', log') := run (history refusing) (updateField id (fun _ => inr ()) (inputText resolver)) resolver [] in
  inputText s' = js "1.1.1.1:53" ∧ persistedValue s' ≠ js "1.1.1.1:53" ∧ length log' = 1.
Proof.
  pose proof (updateField_settles id (fun _ => inr ()) refusing resolver [] eq_refl eq_refl eq_refl) as H.
  cbv zeta in H. destruct (run (history refusing) (updateField id _ _) resolver [])
    as [[r s'] log']. destruct H as (_ & _ & _ & H1 & H2 & H3).
  split_and!; [exact H1| |by rewrite H2]. intros [json Hj]%H3. discriminate Hj.
Defined.
