(* ===== verification/SettingInputView.v ===== *)
(** * The template of a setting, and the setting in the event loop

    The markup of [components/connectedSettingInput.svelte].  [Props] are the
    properties that only the template reads. *)

From S2P Require Import Prelude JsString JsAsync Http Api Busy Notifications View SettingInput.
Open Scope js_scope.

Record RadioOption := MkOption { option_value : jstr; option_label : jstr; option_disabled : bool }.

Record Props := MkProps {
  title : jstr;
  labelText : jstr;
  helperText : jstr;
  type : jstr;
  disabled : bool;
  radioOptions : list RadioOption;
  vertical : bool
}.

Inductive setting_event :=
| Choose (value : jstr)
| Type_ (value : jstr)
| Blur
| CloseError.

Section View.
Context (translator : jstr → jstr) (p : Props).
#[local] Abbreviation tr s := (translator (js s)).
#[local] Abbreviation handler := (prog SettingInput (io_res (P := SettingPayload) SettingBody)).

Definition radio (value label : jstr) (disabled : bool) : node setting_event :=
  El "RadioButton" [Attr "value" value; Attr "labelText" label; Disabled disabled] [].

(** The values that can be chosen: options that are not disabled, or the two
    of a setting without options. *)
Definition choices : list jstr :=
  if is_nil (radioOptions p) then [js "true"; js "false"]
  else option_value <$> List.filter (fun o => negb (option_disabled o)) (radioOptions p).

Definition radio_group (s : SettingInput) : list (node setting_event) := [
  El "RadioButtonGroup" [
    Attr "legendText" (labelText p); Flag "vertical" (vertical p); Disabled (disabled p || saving s);
    Attr "selected" (data s); OnValue "change" (includes choices) Choose
  ] [
    alt (negb (is_nil (radioOptions p))) [
      each (radioOptions p) (fun o => [radio (option_value o) (option_label o) (option_disabled o)])
    ] [radio (js "true") (tr "True") false; radio (js "false") (tr "False") false]
  ];
  shown (truthy (helperText p)) [El "p" [] [Text (helperText p)]]
].

Definition text_input (s : SettingInput) : list (node setting_event) := [
  El "TextInput" [
    Attr "title" (title p); Attr "labelText" (labelText p); Attr "helperText" (helperText p);
    Attr "type" (type p); Disabled (disabled p); Attr "value" (data s);
    OnAny "input" Type_; On "blur" Blur
  ] []
].

Definition setting_view (s : SettingInput) : node setting_event :=
  El "div" [] [
    shown (loaded s) [alt (bool_decide (type p = js "radio")) (radio_group s) (text_input s)];
    shown (saving s) [El "InlineLoading" [Attr "description" (tr "Saving…")] []];
    shown (truthy (saveError s)) [
      El "InlineNotification" [
        lit "kind" "error"; Attr "title" (tr "Setting not saved"); Attr "subtitle" (saveError s);
        On "close" CloseError
      ] []
    ]
  ].

(** The inputs of a setting and when each can be used: a choice not while
    another is being saved, a text also then. *)
Theorem setting_offers s e :
  offers (setting_view s) e ↔
  match e with
  | Choose v => loaded s = true ∧ type p = js "radio" ∧ disabled p = false ∧ saving s = false ∧ v ∈ choices
  | Type_ _ | Blur => loaded s = true ∧ type p ≠ js "radio" ∧ disabled p = false
  | CloseError => truthy (saveError s) = true
  end.
Proof.
  unfold setting_view, radio_group, text_input, radio. cbn [offers any_of].
  generalize (js "radio"). intros kind. view_simpl. setoid_rewrite includes_spec.
  rewrite !andb_true_r, !negb_true_iff, bool_decide_eq_true, bool_decide_eq_false. setoid_rewrite orb_false_iff. destruct e; naive_solver.
Qed.

(** ** The event loop *)

Context (onSaved : jstr → result unit).

(** The radio group assigns [data] before it raises [change]; a text input shows
    what is typed, and what it shows is the value of the event when it is left. *)
Definition on_event (e : setting_event) : handler unit :=
  match e with
  | Choose v => modify (assignData v) ;; updateFieldRadio translator onSaved (Some v)
  | Type_ v => inputText <~ v ;; modify (updateInternalValue v)
  | Blur => s ← get; updateField translator onSaved (inputText s)
  | CloseError => saveError <~ []
  end.

Definition initialSetting (a : Session) (l : list Notification) (key : jstr) (manual : bool) : SettingInput :=
  MkSettingInput a l key manual [] [] [] [] false false [] [].

Definition setting_loop (a : Session) (l : list Notification) (key : jstr) (manual : bool) :=
  loop_from (fun e s => offers (setting_view s) e) on_event (onMount translator) (initialSetting a l key manual).

Definition saves (q : io_req SettingPayload) : bool :=
  match q with Fetch r => bool_decide (rq_method r = js "post") | _ => false end.

Lemma setting_event_safe e s : flag_safe saving saves (on_event e) s.
Proof.
  destruct e; try (apply harmless_safe; unfold on_event; solve [harmless_run]).
  all: unfold flag_safe, on_event, updateFieldRadio, updateField, updateNetwork, notify, setSetting; guard_run; split_bools; guard_run.
Qed.

Lemma setting_event_settles e s : settling saving (on_event e) s.
Proof.
  unfold on_event, updateFieldRadio, updateField, updateNetwork, notify, setSetting. destruct e; settling_run.
Qed.

(** However the input is used and its requests answered, at most one save is
    under way, and none while the input does not say so; when no more is done
    it comes to rest and does not say that it is saving. *)
Theorem setting_at_rest a l key manual s ts :
  setting_loop a l key manual (s, ts) →
  length (List.filter (fun t => saves (th_request t)) ts) ≤ (if saving s then 1 else 0) ∧
  Acc (flip answer_step) (s, ts) ∧
  ∀ s', rtc answer_step (s, ts) (s', []) → Forall (fun flag => flag s' = false) [saving].
Proof.
  intros Hr. split.
  - eapply single_flight in Hr as [H _]; [exact H|intros; apply setting_event_safe|done|].
    apply harmless_safe. unfold onMount, loadAPIData, getSetting. harmless_run.
  - apply (page_rests _ _ _ _ _ [saving] Hr). apply Forall_cons. split; [|done]. split.
    + intros e s0 _. apply setting_event_settles.
    + right. split; [done|]. unfold onMount, loadAPIData, getSetting. settling_run.
Qed.
End View.
