(* ===== verification/Json.v ===== *)
(** * JSON text

    [JSON.stringify] and [JSON.parse] at the types the components store as
    text.  [parse] gives [None] for a text that is JSON of another shape, and
    throws on a text that is not JSON. *)

From S2P Require Import Prelude JsString JsAsync.

Class Json (T : Type) := {
  stringify : T → jstr;
  parse : jstr → result (option T);
  parse_stringify x : parse (stringify x) = inr (Some x)
}.

Lemma stringify_inj `{Json T} (x y : T) : stringify x = stringify y → x = y.
Proof. intros Hxy. assert (Some x = Some y) as [=]; [|done]. enough (inr (A := jserr) (Some x) = inr (Some y)) by congruence. by rewrite <-!parse_stringify, Hxy. Qed.

Definition SyntaxError : jserr := JsErr true (js "SyntaxError") (js "SyntaxError").

(** Every countable type has a text form. *)
Definition countable_json `{Countable T} : Json T.
Proof.
  refine {| stringify x := [Npos (encode x)];
            parse t := match t with [Npos p] => inr (decode p) | _ => inl SyntaxError end |}.
  intros x. by rewrite decode_encode.
Defined.
