(* ===== verification/GeneralSettings.v ===== *)
(** * The general settings

    [components/connectedGeneralSettingInputs.svelte]: one input edits one
    member of the object that the server stores as text under
    [general_settings]. *)

From S2P Require Import Prelude JsString JsAsync Http Api Json Navigation Notifications.
Open Scope js_scope.

(** The object, and [json.Value] of an answer. *)
Abbreviation settings := (gmap jstr jstr).
Record GeneralBody := MkGeneralBody { b_Value : jstr }.

Inductive GeneralPayload := SendText (text : jstr).

Record General := MkGeneral {
  injected : option jstr;
  location : jstr;
  sess : Session;
  shown_notifications : list Notification;
  keyName : jstr;
  disableOnblur : bool;
  data : option settings;
  internalFormValue : option settings;
  loading : bool;
  saving : bool
}.
#[export] Instance General_eta : Settable General := fun s =>
  MkGeneral (injected s) (location s) (sess s) (shown_notifications s) (keyName s) (disableOnblur s)
    (data s) (internalFormValue s) (loading s) (saving s).
#[export] Instance General_session : HasSession General :=
  {| session := sess; on_session f s := s <| sess ::= f |>; session_on_session f s := eq_refl;
     on_session_twice f g s := eq_refl; on_session_const f s := eq_refl |}.
#[export] Instance General_notifications : HasNotifications General :=
  {| shown := shown_notifications; on_shown f s := s <| shown_notifications ::= f |>;
     shown_on_shown f s := eq_refl |}.

#[local] Abbreviation handler := (prog General (io_res (P := GeneralPayload) GeneralBody)).

Definition SETTING_GENERAL_SETTINGS : jstr := js "general_settings".

Section Input.
(** The translator, and svelte-routing's [navigate]. *)
Context (translator : jstr → jstr) (rawNavigate : jstr → bool → jstr → jstr) `{!Json settings}.

Definition notifyLoadError : handler unit :=
  notify (createNotificationError translator (subtitle_only (translator (js "Unable to load settings")))).

Definition notifySaveError : handler unit :=
  notify (createNotificationError translator (subtitle_only (translator (js "Unable to save setting")))).

Definition loadAPIData : handler unit :=
  loading <~ true ;;
  finally
    (try_catch
       (json ← getSetting SETTING_GENERAL_SETTINGS;
        body ← deref json;
        object ← of_result (parse (b_Value body));
        data <~ object)
       (fun _ => notifyLoadError))
    (loading <~ false).

Definition updateNetwork (updateData : settings) : handler unit :=
  saving <~ true ;;
  finally
    (try_catch
       (response ← setSetting SETTING_GENERAL_SETTINGS (SendText (stringify updateData));
        if negb response then notifySaveError else
        notify (createNotificationSuccess translator (subtitle_only (translator (js "Setting updated")))) ;;
        internalFormValue <~ None ;;
        s ← get;
        if bool_decide (keyName s = js "admin_password") || bool_decide (keyName s = js "admin_username") then
          modify (on_session logout) ;;
          modify (fun s => s <| location ::= rawNavigate (gsNavigate (injected s) (js "/login")) false |>)
        else loadAPIData)
       (fun _ => notifySaveError))
    (saving <~ false).

Definition updateDataOnBackend : handler unit :=
  s ← get;
  match internalFormValue s with Some value => updateNetwork value | None => Ret () end.

Definition updateField (value : jstr) : handler unit :=
  s ← get;
  match data s with
  | None => Ret ()
  | Some object =>
      if bool_decide (object !! keyName s = Some value) then Ret () else
      let next := <[keyName s := value]> object in
      internalFormValue <~ Some next ;;
      if disableOnblur s then Ret () else updateNetwork next
  end.

(** The text in the input. *)
Definition shown_value (s : General) : jstr := default [] (data s ≫= fun object => object !! keyName s).
End Input.

(** ** What the handlers do *)

Ltac general_norm st :=
  eval cbv beta iota zeta delta [update_field injected location sess shown_notifications keyName
    disableOnblur data internalFormValue loading saving
    session on_session General_session shown on_shown General_notifications] in st.
Ltac general_simpl := match goal with |- ?G => let G' := general_norm G in change G' end.
Ltac general_run :=
  unfold getSetting, setSetting, notifySaveError, notifyLoadError, notify;
  repeat (progress run_with general_norm || rewrite run_call); general_simpl.

Section Handlers.
Context (translator : jstr → jstr) (rawNavigate : jstr → bool → jstr → jstr) `{!Json settings}.
Context (reply : list (request GeneralPayload) → ∀ q : io_req GeneralPayload, io_res GeneralBody q).

Definition load_request (a : Session) : request GeneralPayload :=
  session_request a (js "/settings/" ++ SETTING_GENERAL_SETTINGS) (js "get") None ∅.
Definition save_request (a : Session) (object : settings) : request GeneralPayload :=
  session_request a (js "/settings/" ++ SETTING_GENERAL_SETTINGS) (js "post")
    (Some (SendText (stringify object))) ∅.

(** The object in an answer. *)
Definition object_of (o : result (option GeneralBody)) : result (option settings) :=
  match o with
  | inl e => inl e
  | inr None => inl TypeError
  | inr (Some body) => parse (b_Value body)
  end.

Lemma loadAPIData_run s log :
  run (history reply) (loadAPIData translator) s log =
    let o := reply log (Fetch (load_request (sess s))) in
    (inr (), match object_of (call_result o) with
             | inr object => s <| data := object |>
             | inl _ => s <| shown_notifications ::= add (createNotificationError translator
                          (subtitle_only (translator (js "Unable to load settings")))) |>
             end <| loading := false |> <| sess ::= session_after o |>, log ++ [load_request (sess s)]).
Proof.
  destruct s. unfold loadAPIData, load_request, object_of. general_run.
  destruct (call_result _) as [e|[body|]]; general_run; [done| |done].
  rewrite run_of_result. destruct (parse _) as [e|object]; general_run; done.
Qed.

Definition is_admin_key (name : jstr) : bool :=
  bool_decide (name = js "admin_password") || bool_decide (name = js "admin_username").

(** Leaving the input sends the object that was loaded with the one member
    changed: every other member as this input last read it, and nothing when
    the value is the one loaded, when nothing is loaded or when the input
    waits for a button.  Saving an administrator credential ends the session
    and goes to the sign-in page; any other key is read again, so the input
    shows what the server then holds. *)
Theorem updateField_spec value s log :
  let '(r, s', log') := run (history reply) (updateField translator rawNavigate value) s log in
  r = inr () ∧
  match data s with
  | None => s' = s ∧ log' = log
  | Some object =>
      let next := <[keyName s := value]> object in
      let q := save_request (sess s) next in
      if bool_decide (object !! keyName s = Some value) then s' = s ∧ log' = log
      else if disableOnblur s then log' = log ∧ data s' = data s ∧ internalFormValue s' = Some next
      else
        saving s' = false ∧
        rq_body q = Some (SendText (stringify next)) ∧
        (∀ k, k ≠ keyName s → next !! k = object !! k) ∧
        match call_result (reply log (Fetch q)) with
        | inl _ => log' = log ++ [q] ∧ data s' = data s ∧ internalFormValue s' = Some next
        | inr _ =>
            internalFormValue s' = None ∧
            if is_admin_key (keyName s) then
              log' = log ++ [q] ∧ loggedIn (api (sess s')) = Some false ∧ jwt_of (sess s') = None ∧
              location s' = rawNavigate (gsNavigate (injected s) (js "/login")) false (location s)
            else
              let q2 := load_request (session_after (reply log (Fetch q)) (sess s)) in
              log' = log ++ [q; q2] ∧
              data s' = match object_of (call_result (reply (log ++ [q]) (Fetch q2))) with
                        | inr stored => stored
                        | inl _ => data s
                        end
        end
  end.
Proof.
  destruct s as [i l a ns kn db d iv ld sv]. unfold updateField, save_request. general_run.
  destruct d as [object|]; [|done]. general_run.
  case_bool_decide; general_run; [done|]. destruct db; general_run; [done|].
  assert (∀ k, k ≠ kn → <[kn:=value]> object !! k = object !! k) as Hk
    by (intros k Hk; by apply lookup_insert_ne).
  unfold updateNetwork. general_run. destruct (call_result _) as [e|json]; general_run; [by split_and!|].
  cbn [run negb]. general_run. fold (is_admin_key kn).
  destruct (is_admin_key kn); general_run.
  - split_and!; try done. apply jwt_logout.
  - rewrite loadAPIData_run. general_run. rewrite <-app_assoc. cbn [app].
    destruct (object_of _); general_run; by split_and!.
Qed.
End Handlers.

(** A server that keeps the last text it was sent. *)
Definition storing (l : list (request GeneralPayload)) (q : io_req GeneralPayload) : io_res GeneralBody q :=
  let text := from_option (fun q => match rq_body q with Some (SendText t) => t | None => [] end) []
                (List.find (fun q => bool_decide (rq_method q = js "post")) (rev l)) in
  serve (fun _ => inr (Response 200 (inr []) None (inr (Some (MkGeneralBody text))))) q.

(** Against a server that keeps what it is sent, a save is read back: the input
    then shows the value typed, and the rest of the object is as it was. *)
Theorem general_settings_roundtrip `{!Json settings} translator rawNavigate value s object :
  data s = Some object → is_admin_key (keyName s) = false → disableOnblur s = false →
  object !! keyName s ≠ Some value →
  let '(_, s', _) := run (history storing) (updateField translator rawNavigate value) s [] in
  data s' = Some (<[keyName s := value]> object) ∧ shown_value s' = value.
Proof.
  destruct s as [i l a ns kn db d iv ld sv]. intros Hd Hk Hdb Hv. simpl in Hd, Hk, Hdb, Hv. subst d db.
  unfold updateField. general_run.
  rewrite bool_decide_false by done. unfold updateNetwork. general_run.
  set (next := <[kn:=value]> object). change (session_request _ _ _ _ _) with (save_request a next). set (q := save_request a next).
  change (call_result (storing [] (Fetch q))) with (inr (A := jserr) (Some (MkGeneralBody []))).
  general_run. cbn [run negb]. general_run. fold (is_admin_key kn). rewrite Hk. general_run.
  rewrite loadAPIData_run. general_run.
  match goal with |- context [storing ([] ++ [q]) ?r] =>
    change (object_of (call_result (storing ([] ++ [q]) r))) with (parse (stringify next)) end.
  rewrite parse_stringify. general_run. split; [done|]. unfold shown_value, next. simpl.
  by rewrite lookup_insert_eq.
Qed.

Lemma general_settings_roundtrip_witness :
  let s := MkGeneral None (js "/settings") (apistore [] ∅) [] (js "log_location") false
             (Some {[ js "log_location" := js "./log.db" ]}) None false false in
  let '(_, s', _) := run (history storing)
    (updateField (Json0 := countable_json) id (fun to _ _ => to) (js "/var/log.db")) s [] in
  shown_value s' = js "/var/log.db".
Proof.
  intros s.
  pose proof (general_settings_roundtrip (Json0 := countable_json) id (fun to _ _ => to) (js "/var/log.db") s
    {[ js "log_location" := js "./log.db" ]} eq_refl eq_refl eq_refl) as H.
  destruct (run _ _ _ _) as [[r s'] log']. by apply H.
Defined.
