(* ===== verification/GeneralView.v ===== *)
(** * The template of a general setting, and the setting in the event loop

    The markup of [components/connectedGeneralSettingInputs.svelte].
    [UpdateData] is the call of its exported [updateDataOnBackend]. *)

From S2P Require Import Prelude JsString JsAsync Http Api Json Busy Navigation Notifications View GeneralSettings.
Open Scope js_scope.

Inductive general_event := Blur (value : jstr) | UpdateData.

Section View.
Context (translator : jstr → jstr) (rawNavigate : jstr → bool → jstr → jstr) `{!Json settings}.
Context (title labelText helperText type : jstr) (disabled : bool).
#[local] Abbreviation tr s := (translator (js s)).
#[local] Abbreviation handler := (prog General (io_res (P := GeneralPayload) GeneralBody)).

Definition general_view (s : General) : node general_event :=
  El "div" [Flag "aria-busy" (loading s || saving s)] [
    El "TextInput" [
      Attr "title" title; Attr "labelText" labelText; Attr "helperText" helperText; Attr "type" type;
      Disabled (disabled || loading s || saving s); Attr "value" (shown_value s); OnAny "blur" Blur
    ] [];
    alt (loading s) [El "InlineLoading" [Attr "description" (tr "Loading setting…")] []] [
      shown (saving s) [El "InlineLoading" [Attr "description" (tr "Saving setting…")] []]
    ]
  ].

Definition on_event (e : general_event) : handler unit :=
  match e with
  | Blur value => updateField translator rawNavigate value
  | UpdateData => updateDataOnBackend translator rawNavigate
  end.

(** The parent may call the exported function at any time. *)
Definition general_enabled (e : general_event) (s : General) : Prop :=
  match e with UpdateData => True | _ => offers (general_view s) e end.

Definition initialGeneral (base : option jstr) (at_ : jstr) (a : Session) (l : list Notification)
    (key : jstr) (manual : bool) : General :=
  MkGeneral base at_ a l key manual None None true false.

Definition general_loop base at_ a l key manual :=
  loop_from general_enabled on_event (loadAPIData translator) (initialGeneral base at_ a l key manual).

Lemma blur_offers v s :
  offers (general_view s) (Blur v) ↔ disabled = false ∧ loading s = false ∧ saving s = false.
Proof.
  unfold general_view. view_simpl. rewrite !andb_true_r, negb_true_iff, !orb_false_iff. naive_solver.
Qed.

(** However the input is used and its requests answered, when no more is done
    it comes to rest and says neither that it is loading nor that it is
    saving, and can be used unless its parent disabled it. *)
Theorem general_at_rest base at_ a l key manual s ts v :
  disabled = false → general_loop base at_ a l key manual (s, ts) →
  Acc (flip answer_step) (s, ts) ∧
  ∀ s', rtc answer_step (s, ts) (s', []) → offers (general_view s') (Blur v).
Proof.
  intros Hd Hr. destruct (page_rests _ _ _ _ _ [saving; loading] Hr) as [Hacc Hrest].
  - apply Forall_cons; split; [|apply Forall_cons; split; [|done]]; split.
    1,3: intros e s0 _; unfold on_event, updateField, updateDataOnBackend, updateNetwork, loadAPIData, notifySaveError,
      notifyLoadError, notify, getSetting, setSetting; destruct e; settling_run.
    + right. split; [done|]. unfold loadAPIData, notifyLoadError, notify, getSetting. settling_run.
    + left. unfold loadAPIData, notifyLoadError, notify, getSetting. clearing_run.
  - split; [exact Hacc|]. intros s' Hs. apply Hrest in Hs. inversion Hs as [|? ? H1 H2]; subst.
    inversion H2 as [|? ? H3 _]; subst. by apply blur_offers.
Qed.
End View.
