(* ===== verification/DnsLists.v ===== *)
(** * DNS block lists

    [components/dnslists.svelte]: the list of block-list addresses, which the
    server stores as text under the setting [dns_custom_entries].  [updates]
    counts the [updatednsinfo] events sent to the DNS page. *)

From S2P Require Import Prelude JsString JsAsync Http Api Json Notifications.
Open Scope js_scope.

Record BlockListRow := MkRow { id : nat; content : jstr }.

Record ListsBody := MkListsBody { b_Value : option jstr }.

Inductive ListsPayload := SendText (text : jstr).

Record Lists := MkLists {
  sess : Session;
  shown_notifications : list Notification;
  updates : nat;
  data : list jstr;
  loading : bool;
  saving : bool;
  loadError : jstr;
  editingRowId : option nat;
  editingItemValue : jstr;
  pendingDelete : option BlockListRow;
  showForm : bool
}.
#[export] Instance Lists_eta : Settable Lists := fun s =>
  MkLists (sess s) (shown_notifications s) (updates s) (data s) (loading s) (saving s) (loadError s)
    (editingRowId s) (editingItemValue s) (pendingDelete s) (showForm s).
#[export] Instance Lists_session : HasSession Lists :=
  {| session := sess; on_session f s := s <| sess ::= f |>; session_on_session f s := eq_refl;
     on_session_twice f g s := eq_refl; on_session_const f s := eq_refl |}.
#[export] Instance Lists_notifications : HasNotifications Lists :=
  {| shown := shown_notifications; on_shown f s := s <| shown_notifications ::= f |>;
     shown_on_shown f s := eq_refl |}.

#[local] Abbreviation handler := (prog Lists (io_res (P := ListsPayload) ListsBody)).

(** ** The form *)

Definition rows (s : Lists) : list BlockListRow := imap MkRow (data s).

(** [/^https?:\/\/\S+$/i]: a scheme in either case, then at least one
    character, none of them white space. *)
Definition matches_url (v : jstr) : bool :=
  let rest_ok rest := truthy rest && forallb (fun c => negb (is_space c)) rest in
  let scheme_is p := bool_decide (toLowerCase (take (length p) v) = p) in
  (scheme_is (js "http://") && rest_ok (drop 7 v)) || (scheme_is (js "https://") && rest_ok (drop 8 v)).

Definition valueIsValid (s : Lists) : bool := matches_url (trim (editingItemValue s)).

Definition closeForm (s : Lists) : Lists :=
  s <| showForm := false |> <| editingRowId := None |> <| editingItemValue := [] |>.

Definition openCreate (s : Lists) : Lists := (closeForm s) <| showForm := true |>.

Definition editRow (i : nat) (s : Lists) : Lists :=
  match data s !! i with
  | None => s
  | Some value => s <| editingRowId := Some i |> <| editingItemValue := value |> <| showForm := true |>
  end.

Definition askDelete (i : nat) (s : Lists) : Lists :=
  s <| pendingDelete := find (fun item => (id item =? i)%nat) (rows s) |>.

Section Save.
Context (translator : jstr → jstr) `{!Json (list jstr)}.

Definition loadAPIData : handler unit :=
  loading <~ true ;; loadError <~ [] ;;
  finally
    (try_catch
       (json ← getSetting (js "dns_custom_entries");
        parsed ← of_result (parse (opt_or (json ≫= b_Value) (js "[]")));
        data <~ default [] parsed)
       (fun caught =>
          data <~ [] ;;
          loadError <~ nonempty_message_or caught (translator (js "DNS block lists could not be loaded."))))
    (loading <~ false).

Definition persist (next : list jstr) : handler bool :=
  s ← get;
  if saving s then Ret false else
  saving <~ true ;;
  finally
    (try_catch
       (response ← setSetting (js "dns_custom_entries") (SendText (stringify next));
        if negb response then Throw (Error (translator (js "The block-list setting was rejected."))) else
        data <~ next ;;
        modify (fun s => s <| updates ::= S |>) ;;
        notify (createNotificationSuccess translator
          ((subtitle_only (translator (js "DNS block-list sources were saved.")))
             <| m_title := Some (translator (js "Block lists updated")) |>)) ;;
        Ret true)
       (fun caught =>
          notify (createNotificationError translator
            ((subtitle_only (nonempty_message_or caught (translator (js "Unable to save block lists."))))
               <| m_title := Some (translator (js "Block lists not saved")) |>)) ;;
          Ret false))
    (saving <~ false).

Definition next_lists (s : Lists) : list jstr :=
  let value := trim (editingItemValue s) in
  match editingRowId s with
  | None => data s ++ [value]
  | Some i => imap (fun index item => if (index =? i)%nat then value else item) (data s)
  end.

Definition saveRow : handler unit :=
  s ← get;
  if negb (valueIsValid s) || saving s then Ret () else
  saved ← persist (next_lists s);
  when saved (modify closeForm).

Definition without_index (i : nat) (l : list jstr) : list jstr := removeAt i l.

Definition confirmDelete : handler unit :=
  s ← get;
  match pendingDelete s with
  | None => Ret ()
  | Some target =>
      if saving s then Ret () else
      saved ← persist (without_index (id target) (data s));
      when saved (pendingDelete <~ None)
  end.
End Save.

(** ** What the handlers do *)

Ltac lists_norm st :=
  eval cbv beta iota zeta delta [update_field sess shown_notifications updates data loading saving
    loadError editingRowId editingItemValue pendingDelete showForm
    session on_session Lists_session shown on_shown Lists_notifications] in st.
Ltac lists_simpl := match goal with |- ?G => let G' := lists_norm G in change G' end.
Ltac lists_run :=
  unfold getSetting, setSetting, notify;
  repeat (progress run_with lists_norm || rewrite run_call); lists_simpl.

Section Handlers.
Context (translator : jstr → jstr) `{!Json (list jstr)}.

Definition setting_request (a : Session) : request ListsPayload :=
  session_request a (js "/settings/" ++ js "dns_custom_entries") (js "get") None ∅.
Definition store_request (a : Session) (l : list jstr) : request ListsPayload :=
  session_request a (js "/settings/" ++ js "dns_custom_entries") (js "post") (Some (SendText (stringify l))) ∅.

Section Server.
Context (reply : list (request ListsPayload) → ∀ q : io_req ListsPayload, io_res ListsBody q).

(** A save sends the whole list; the table becomes the list that was saved,
    or stays.  The page above is told, and a notification says which. *)
Lemma persist_run next s log :
  saving s = false →
  let answer := reply log (Fetch (store_request (sess s) next)) in
  run (history reply) (persist translator next) s log =
    match call_result answer with
    | inr _ => (inr true, s <| data := next |> <| updates ::= S |> <| sess ::= session_after answer |>
        <| shown_notifications ::= add (createNotificationSuccess translator
             ((subtitle_only (translator (js "DNS block-list sources were saved.")))
                <| m_title := Some (translator (js "Block lists updated")) |>)) |> <| saving := false |>,
        log ++ [store_request (sess s) next])
    | inl e => (inr false, s <| sess ::= session_after answer |>
        <| shown_notifications ::= add (createNotificationError translator
             ((subtitle_only (nonempty_message_or e (translator (js "Unable to save block lists."))))
                <| m_title := Some (translator (js "Block lists not saved")) |>)) |> <| saving := false |>,
        log ++ [store_request (sess s) next])
    end.
Proof.
  destruct s. intros Hs. simpl in Hs. subst. unfold persist, store_request. lists_run. lists_run.
  destruct (call_result _); lists_run; [done|]. cbn [run negb]. lists_run. done.
Qed.

(** Removing a list saves the table without that row, once; the question
    stays open when the save fails, and nothing else of the table moves. *)
Theorem list_delete_spec s log :
  let '(r, s', log') := run (history reply) (confirmDelete translator) s log in
  r = inr () ∧
  match pendingDelete s with
  | None => s' = s ∧ log' = log
  | Some target =>
      if saving s then s' = s ∧ log' = log else
      let next := removeAt (id target) (data s) in
      log' = log ++ [store_request (sess s) next] ∧ saving s' = false ∧
      match call_result (reply log (Fetch (store_request (sess s) next))) with
      | inr _ => data s' = next ∧ pendingDelete s' = None ∧ updates s' = S (updates s)
      | inl _ => data s' = data s ∧ pendingDelete s' = Some target ∧ updates s' = updates s
      end
  end.
Proof.
  unfold confirmDelete. rewrite run_bind, run_get. destruct (pendingDelete s) as [target|] eqn:Hp; [|done].
  destruct (saving s) eqn:Hs; [done|]. rewrite run_bind, persist_run by done. unfold without_index.
  destruct (call_result _); rewrite run_when; by split_and!.
Qed.
End Server.

(** A server that keeps the text it is sent. *)
Definition storing (l : list (request ListsPayload)) (q : io_req ListsPayload) : io_res ListsBody q :=
  let text := from_option (fun q => match rq_body q with Some (SendText t) => t | None => [] end) []
                (List.find (fun q => bool_decide (rq_method q = js "post")) (rev l)) in
  serve (fun _ => inr (Response 200 (inr []) None (inr (Some (MkListsBody (Some text)))))) q.

(** C36: Saving the form and loading the page again gives the list that was saved:
    the one before with the row edited, or with the new address at its end.
    JSON never writes a list as the empty text. *)
Theorem block_lists_roundtrip s :
  (∀ l : list jstr, stringify l ≠ []) →
  valueIsValid s = true → saving s = false →
  let '(_, s1, log1) := run (history storing) (saveRow translator) s [] in
  let '(r, s2, _) := run (history storing) (loadAPIData translator) s1 log1 in
  r = inr () ∧ showForm s1 = false ∧ data s2 = data s1 ∧ loadError s2 = [] ∧
  data s2 = match editingRowId s with
            | None => data s ++ [trim (editingItemValue s)]
            | Some i => <[i := trim (editingItemValue s)]> (data s)
            end.
Proof.
  intros Hne Hv Hs. unfold saveRow. rewrite run_bind, run_get, Hv, Hs. cbn [negb orb].
  rewrite run_bind, persist_run by done.
  set (q := store_request _ _).
  change (call_result (storing [] (Fetch q))) with (inr (A := jserr) (Some (MkListsBody (Some [])))).
  cbv beta iota zeta. rewrite run_when, run_modify.
  assert (next_lists s = match editingRowId s with
            | None => data s ++ [trim (editingItemValue s)]
            | Some i => <[i := trim (editingItemValue s)]> (data s)
            end) as Hnext.
  { unfold next_lists. destruct (editingRowId s) as [i|]; [|done]. apply list_eq. intros k.
    rewrite list_lookup_imap. destruct (Nat.eqb_spec k i) as [->|Hne'].
    - destruct (data s !! i) as [x|] eqn:E; simpl.
      + rewrite list_lookup_insert_eq; [done|]. by eapply lookup_lt_Some.
      + symmetry. apply lookup_ge_None. rewrite length_insert. by apply lookup_ge_None.
    - rewrite list_lookup_insert_ne by done. destruct (data s !! k) as [x|]; [|done]. simpl.
      done. }
  rewrite <-Hnext. destruct s as [a ns up d ld sv le er ev pd sf]. unfold closeForm, loadAPIData.
  lists_run. set (q2 := session_request _ _ _ _ _).
  change (call_result (storing ([] ++ [q]) (Fetch q2)))
    with (inr (A := jserr) (Some (MkListsBody (Some (stringify (next_lists
            (MkLists a ns up d ld sv le er ev pd sf))))))).
  cbn [mbind option_bind b_Value opt_or from_option]. unfold str_or.
  rewrite (proj2 (truthy_true _) (Hne _)), parse_stringify. lists_run. by split_and!.
Qed.
End Handlers.

Definition blocklists : Lists :=
  MkLists (apistore [] ∅) [] 0 [js "https://example.org/a.txt"] false false [] None
    (js " HTTPS://example.org/b.txt ") None true.

Lemma block_lists_roundtrip_witness :
  let '(_, s1, log1) := run (history storing) (saveRow (Json0 := countable_json) (fun t => t)) blocklists [] in
  let '(_, s2, _) := run (history storing) (loadAPIData (Json0 := countable_json) (fun t => t)) s1 log1 in
  data s2 = [js "https://example.org/a.txt"; js "HTTPS://example.org/b.txt"].
Proof.
  pose proof (block_lists_roundtrip (Json0 := countable_json) (fun t => t) blocklists (fun _ => ltac:(discriminate))
    ltac:(vm_compute; reflexivity) eq_refl) as H.
  destruct (run _ _ _ _) as [[r1 s1] log1]. destruct (run _ _ _ _) as [[r2 s2] log2].
  destruct H as (_ & _ & _ & _ & ->). by vm_compute.
Defined.

(** The addresses a form accepts begin with one of the two schemes, whatever
    their case, and hold no white space. *)
Theorem matches_url_spec v :
  matches_url v = true ↔
    ∃ scheme rest, v = scheme ++ rest ∧ rest ≠ [] ∧ (∀ c, c ∈ rest → is_space c = false) ∧
      (toLowerCase scheme = js "http://" ∨ toLowerCase scheme = js "https://").
Proof.
  assert (∀ rest, truthy rest = true ∧ forallb (fun c => negb (is_space c)) rest = true ↔
            rest ≠ [] ∧ ∀ c, c ∈ rest → is_space c = false) as Hrest.
  { intros rest. rewrite truthy_true, forallb_forall. setoid_rewrite negb_true_iff.
    by setoid_rewrite list_elem_of_In. }
  assert (∀ s w : jstr, toLowerCase s = w → length s = length w) as Hlen
    by (intros s w <-; unfold toLowerCase; by rewrite length_fmap).
  unfold matches_url. rewrite orb_true_iff, !andb_true_iff, !Hrest, !bool_decide_eq_true.
  change (length (js "http://")) with 7. change (length (js "https://")) with 8. split.
  - intros [(Hs & Hr)|(Hs & Hr)];
      (eexists (take _ v), (drop _ v); split; [by rewrite take_drop|]; destruct Hr; eauto).
  - intros (scheme & rest & -> & Hne & Hsp & [Hs|Hs]); [left|right]; pose proof (Hlen _ _ Hs) as Hl;
      simpl in Hl; rewrite take_app_length', drop_app_length' by done; done.
Qed.
