(* ===== verification/DnsListsView.v ===== *)
(** * The template of the DNS block lists, and the lists in the event loop

    The markup of [components/dnslists.svelte]. *)

From S2P Require Import Prelude JsString JsAsync Http Api Busy Json Notifications View Layout DnsLists.
Open Scope js_scope.

Inductive lists_event :=
| OpenCreate
| EditRow (i : nat)
| AskDelete (i : nat)
| CloseLoadError
| SetValue (value : jstr)
| SaveRow
| CloseForm
| ConfirmDelete
| CloseDelete.

Section View.
Context (translator : jstr → jstr) `{!Json (list jstr)}.
#[local] Abbreviation tr s := (translator (js s)).
#[local] Abbreviation handler := (prog Lists (io_res (P := ListsPayload) ListsBody)).

Definition headers : list (jstr * jstr) := [
  (js "content", tr "Block-list URL"); (js "actions", tr "Actions")
].

Definition cell (row : BlockListRow) (key : jstr) : list (node lists_event) := [
  alt (bool_decide (key = js "actions")) [
    El "OverflowMenu" [Attr "iconDescription" (tr "Block-list actions")] [
      El "OverflowMenuItem" [Attr "text" (tr "Edit"); On "click" (EditRow (id row))] [];
      El "OverflowMenuItem" [Attr "text" (tr "Delete"); On "click" (AskDelete (id row))] []
    ]
  ] [El "span" [] [Text (content row)]]
].

Definition guidance : node lists_event :=
  El "div" [] [
    El "p" [] [
      Text (tr "Each source may contain either hosts-file entries or one domain per line.");
      El "Link" [lit "href" "https://github.com/hagezi/dns-blocklists#fake"; lit "target" "_blank"]
        [Text (tr "Browse compatible lists")]
    ];
    El "div" [Attr "aria-label" (tr "Supported block-list formats")] [
      El "CodeSnippet" [lit "type" "single"] [txt "0.0.0.0 domain.com"];
      El "CodeSnippet" [lit "type" "single"] [txt "domain.com"]
    ]
  ].

Definition add_button : node lists_event := El "Button" [On "click" OpenCreate] [Text (tr "Add block list")].

Definition table (s : Lists) : node lists_event :=
  alt (loading s && is_nil (data s)) [
    resource_state Loading [] (tr "Loading DNS block lists…") [] None []
  ] [
    alt (is_nil (data s)) [
      resource_state Empty (tr "No block-list sources")
        (tr "Add a compatible HTTP or HTTPS list to begin blocking its domains.") [] None [add_button]
    ] [
      El "div" [] [data_table headers (rows s) [] cell]
    ]
  ].

Definition saveDisabled (s : Lists) : bool := negb (valueIsValid s) || saving s.

Definition form (s : Lists) : node lists_event :=
  modal (showForm s)
    (match editingRowId s with None => tr "Add DNS block list" | Some _ => tr "Edit DNS block list" end)
    (tr "DNS") (if saving s then tr "Saving…" else tr "Save block list") (tr "Cancel")
    (saveDisabled s) SaveRow CloseForm [
    El "TextInput" [
      Attr "labelText" (tr "Block-list URL");
      Attr "helperText" (tr "Use a complete HTTP or HTTPS URL to a plain-text domain list.");
      Flag "invalid" (truthy (editingItemValue s) && negb (valueIsValid s));
      Attr "invalidText" (tr "Enter a complete HTTP or HTTPS URL."); lit "type" "url";
      Attr "value" (editingItemValue s); lit "placeholder" "https://example.org/blocklist.txt";
      Disabled (saving s); OnAny "bind:value" SetValue
    ] []
  ].

Definition delete_dialog (s : Lists) : node lists_event :=
  confirm_dialog (bool_decide (is_Some (pendingDelete s)))
    (tr "Remove DNS block list?") (tr "DNS") (tr "Remove block list") (tr "Cancel")
    (saving s) ConfirmDelete CloseDelete [
    El "p" [] [
      Text (tr "GateSentry will stop downloading and applying");
      El "strong" [] [Text (default [] (content <$> pendingDelete s))]; txt "."
    ]
  ].

Definition lists_view (s : Lists) : list (node lists_event) := [
  section_panel (tr "DNS block lists")
    (tr "GateSentry downloads these domain lists and applies them to DNS requests from every protected client.") []
    (Some [add_button]) [
    guidance;
    shown (truthy (loadError s)) [
      El "InlineNotification" [
        lit "kind" "error"; Attr "title" (tr "Block lists unavailable");
        Attr "subtitle" (loadError s); On "close" CloseLoadError
      ] []
    ];
    table s
  ];
  form s;
  delete_dialog s
].

Definition lists_offers (e : lists_event) (s : Lists) : Prop := any_of (fun n => offers n e) (lists_view s).

Definition on_event (e : lists_event) : handler unit :=
  match e with
  | OpenCreate => modify openCreate
  | EditRow i => modify (editRow i)
  | AskDelete i => modify (askDelete i)
  | CloseLoadError => loadError <~ []
  | SetValue v => editingItemValue <~ v
  | SaveRow => saveRow translator
  | CloseForm => modify closeForm
  | ConfirmDelete => confirmDelete translator
  | CloseDelete => pendingDelete <~ None
  end.

(** The component when it is created. *)
Definition initialLists (a : Session) (l : list Notification) : Lists :=
  MkLists a l 0 [] true false [] None [] None false.

Definition lists_loop (a : Session) (l : list Notification) :=
  loop_from lists_offers on_event (loadAPIData translator) (initialLists a l).
End View.

(** ** Saves *)

Definition replaces (q : io_req ListsPayload) : bool :=
  match q with Fetch r => bool_decide (rq_method r = js "post") | _ => false end.

Section Saves.
Context (translator : jstr → jstr) `{!Json (list jstr)}.

Lemma lists_load_harmless : harmless saving replaces (loadAPIData translator).
Proof. unfold loadAPIData, getSetting. harmless_run. Qed.

Lemma lists_persist_guarded next (K : result bool → bool → Lists → Prop) s :
  (∀ o s', K o false s') → guarded saving replaces (persist translator next) false K s.
Proof. intros HK. unfold persist, setSetting, notify. guard_run; apply HK. Qed.

Lemma lists_event_safe e s : flag_safe saving replaces (on_event translator e) s.
Proof.
  destruct e; cbn [on_event]; try (apply harmless_safe; unfold editRow; solve [harmless_run]).
  - unfold flag_safe, saveRow. guard_run. apply lists_persist_guarded. intros [e|[]] s'; guard_run.
  - unfold flag_safe, confirmDelete. guard_run. apply lists_persist_guarded. intros [e|[]] s'; guard_run.
Qed.

Lemma lists_event_settles e s :
  settling saving (on_event translator e) s ∧ settling loading (on_event translator e) s.
Proof.
  unfold on_event, saveRow, confirmDelete, persist, setSetting, notify, editRow.
  destruct e; split; settling_run.
Qed.

(** Whatever is clicked and in whatever order the server answers, at most one
    request that replaces the lists is under way, and none while the component
    is not saving.  Once nothing more is clicked it comes to rest, and then it
    neither says that it is loading nor that it is saving. *)
Theorem lists_at_rest a l s ts :
  lists_loop translator a l (s, ts) →
  length (List.filter (fun t => replaces (th_request t)) ts) ≤ (if saving s then 1 else 0) ∧
  Acc (flip answer_step) (s, ts) ∧
  ∀ s', rtc answer_step (s, ts) (s', []) → Forall (fun flag => flag s' = false) [saving; loading].
Proof.
  intros Hr. split.
  - eapply single_flight in Hr as [H _]; [exact H|intros; apply lists_event_safe|done|].
    apply harmless_safe, lists_load_harmless.
  - apply (page_rests _ _ _ _ _ [saving; loading] Hr).
    apply Forall_cons; split; [|apply Forall_cons; split; [|done]];
      (split; [intros e s0 _; apply lists_event_settles|]); unfold loadAPIData, getSetting.
    + right. split; [done|settling_run].
    + left. clearing_run.
Qed.
End Saves.

(** ** Lists that have not been read *)

Section Unread.
Context (translator : jstr → jstr) `{!Json (list jstr)}.

Lemma lists_form_offers s e :
  showForm s = true →
  match e with
  | SetValue _ => saving s = false
  | SaveRow => saveDisabled s = false
  | CloseForm => True
  | _ => False
  end → lists_offers translator e s.
Proof.
  intros Hf He. unfold lists_offers, lists_view. cbn [any_of]. right. left. apply modal_offers.
  split; [done|]. destruct e; try done; [right; right|by left|by right; left]; view_simpl; rewrite He.
  left. split; [done|]. left. left. split; [done|]. by eexists.
Qed.

Lemma lists_create_offered s : lists_offers translator OpenCreate s.
Proof.
  unfold lists_offers, lists_view. cbn [any_of]. left. apply section_panel_offers. left.
  unfold add_button. cbn [slot_offers]. view_simpl. tauto.
Qed.

Lemma lists_save_starts s :
  saveDisabled s = false →
  ∃ s' t, advance (saveRow translator) s = (s', Some t) ∧
    th_request t = Fetch (store_request (sess s) (next_lists s)).
Proof.
  intros Hd. unfold saveDisabled in Hd. assert (saving s = false) as Hs by (split_bools; done).
  do 2 eexists. split.
  - unfold saveRow, persist. cbn [mbind prog_bind settle get advance]. rewrite Hd.
    cbn [mbind prog_bind settle get advance]. rewrite Hs. reflexivity.
  - reflexivity.
Qed.

(** A list can be added before the lists have been read: what is saved then is
    that one address, which replaces whatever lists the server holds. *)
Theorem unread_lists_overwritten a l v :
  matches_url (trim v) = true →
  ∃ s read save, lists_loop translator a l (s, [read; save]) ∧
    th_request read = Fetch (setting_request a) ∧
    th_request save = Fetch (store_request (getHeaders a).2 [trim v]).
Proof.
  intros Hv. set (s1 := MkLists (getHeaders a).2 l 0 [] true false [] None v None true).
  assert (saveDisabled s1 = false) as Hs by (unfold saveDisabled, valueIsValid; simpl; by rewrite Hv).
  destruct (lists_save_starts s1 Hs) as (s2 & t & Ha & Hq).
  pose proof (loop_mounted (lists_offers translator) (on_event translator)
    (loadAPIData translator) (initialLists a l)) as H0.
  do 3 eexists. split; [|split; [|exact Hq]].
  - eapply (loop_event _ _ SaveRow _ _ s1 s2 [_]); [|by apply lists_form_offers|exact Ha].
    eapply (loop_assign _ _ (SetValue v) _ _ (s1 <| editingItemValue := [] |>));
      [|by apply lists_form_offers|reflexivity].
    eapply (loop_assign _ _ OpenCreate); [exact H0|apply lists_create_offered|reflexivity].
  - reflexivity.
Qed.
End Unread.

Lemma unread_lists_overwritten_witness :
  ∃ s read save,
    lists_loop (Json0 := countable_json) (fun t => t) (apistore [] ∅) [] (s, [read; save]) ∧
    replaces (th_request read) = false ∧ replaces (th_request save) = true.
Proof.
  destruct (unread_lists_overwritten (Json0 := countable_json) (fun t => t) (apistore [] ∅) []
    (js "https://example.org/a.txt")) as (s & read & save & H & Hr & Hs); [by vm_compute|].
  exists s, read, save. split; [exact H|]. rewrite Hr, Hs. by vm_compute.
Defined.
