(* ===== verification/DnsStatus.v ===== *)
(** * The DNS page

    [routes/dns/dns.svelte]: the status of the DNS service, which is read when
    the page opens, on request, and three seconds after one of the editors on
    the page has saved ([updatednsinfo]).  [Info] is the body of the answer;
    [toLocaleString] prints a time in seconds, with [None] for a date that is
    not valid. *)

From S2P Require Import Prelude JsString JsAsync Timers.
Open Scope js_scope.

Section Status.
Context {Info : Type} (translator : jstr → jstr).

Record DnsPage := MkDnsPage {
  dnsInfo : option Info;
  loading : bool;
  refreshing : bool;
  statusError : jstr;
  refreshTimer : option nat;
  destroyed : bool;
  clock : timers unit;
  (** the calls of [loadDnsInfo] that are at their [await] *)
  flights : nat
}.
#[local] Instance DnsPage_eta : Settable DnsPage := fun s =>
  MkDnsPage (dnsInfo s) (loading s) (refreshing s) (statusError s) (refreshTimer s) (destroyed s) (clock s) (flights s).

Definition initialPage : DnsPage := {|
  dnsInfo := None; loading := true; refreshing := false; statusError := []; refreshTimer := None;
  destroyed := false; clock := no_timers; flights := 0
|}.

(** [loadDnsInfo] up to its [await], where its request is in flight. *)
Definition loadDnsInfo (s : DnsPage) : DnsPage :=
  if refreshing s || destroyed s then s
  else s <| refreshing := true |> <| statusError := [] |> <| flights ::= S |>.

(** Its [try], [catch] and [finally], for one of the calls in flight, given how
    that call settled; [inr None] is [null].  Every call runs its own. *)
Definition info_settled (o : result (option Info)) (s : DnsPage) : option DnsPage :=
  match flights s with
  | 0 => None
  | S others =>
      let s := s <| flights := others |> in
      Some (match o with
            | inr info => s <| dnsInfo := info |>
            | inl caught => s <| statusError := nonempty_message_or caught (translator (js "DNS status could not be loaded.")) |>
            end <| loading := false |> <| refreshing := false |>)
  end.

Definition onUpdateDnsInfo (s : DnsPage) : DnsPage :=
  let s := s <| dnsInfo := None |> <| loading := true |> <| clock ::= clearTimeout (refreshTimer s) |> in
  let '(id, c) := setTimeout () (clock s) in
  s <| refreshTimer := Some id |> <| clock := c |>.

(** The callback of [setTimeout]. *)
Definition refreshFired (id : nat) (s : DnsPage) : option DnsPage :=
  match callback_of id (clock s) with
  | None => None
  | Some _ => Some (loadDnsInfo (s <| clock ::= clearTimeout (Some id) |> <| refreshTimer := None |>))
  end.

Definition onMount (s : DnsPage) : DnsPage := loadDnsInfo s.

Definition onDestroy (s : DnsPage) : DnsPage :=
  s <| destroyed := true |> <| clock ::= clearTimeout (refreshTimer s) |>.

Definition getHumanTime (toLocaleString : Z → option jstr) (time : option Z) : jstr :=
  match time with
  | None | Some 0%Z => translator (js "Not scheduled")
  | Some t => match toLocaleString t with None => translator (js "Unknown") | Some text => text end
  end.

(** What the status panel shows. *)
Inductive status_view := StatusLoading | StatusError | StatusInfo (info : Info).

Definition view_of (s : DnsPage) : status_view :=
  match dnsInfo s with
  | Some info => StatusInfo info
  | None => if loading s then StatusLoading else StatusError
  end.

(** ** The event loop *)

Inductive dns_event :=
| Refresh
| CloseError
| Answer (o : result (option Info))
| EditorSaved
| TimerFired (id : nat)
| Destroy.

(** The button is disabled while refreshing; the panel's retry, shown in place of
    the figures when there are none to show, is not.  An editor's save may end
    after the page is gone. *)
Definition refresh_offered (s : DnsPage) : bool :=
  negb (refreshing s) || match view_of s with StatusError => true | _ => false end.

Definition dns_step (e : dns_event) (s : DnsPage) : option DnsPage :=
  match e with
  | Refresh => if negb (refresh_offered s) || destroyed s then None else Some (loadDnsInfo s)
  | CloseError => if negb (truthy (statusError s)) || destroyed s then None else Some (s <| statusError := [] |>)
  | Answer o => info_settled o s
  | EditorSaved => Some (onUpdateDnsInfo s)
  | TimerFired id => refreshFired id s
  | Destroy => if destroyed s then None else Some (onDestroy s)
  end.

Inductive dns_reachable : DnsPage → Prop :=
| dns_mounted : dns_reachable (onMount initialPage)
| dns_next s e s' : dns_reachable s → dns_step e s = Some s' → dns_reachable s'.

(** A panel that says "loading" is waiting for something that is under way, and
    [refreshing] counts the calls in flight. *)
Record dns_ok (s : DnsPage) : Prop := {
  ok_clock : timers_wf (clock s);
  ok_timer : ∀ x, x ∈ armed (clock s) → refreshTimer s = Some x.1;
  ok_named : destroyed s = false → is_Some (refreshTimer s) → armed (clock s) ≠ [];
  ok_loading : destroyed s = false → loading s = true → refreshing s = true ∨ is_Some (refreshTimer s);
  ok_flights : flights s = if refreshing s then 1 else 0
}.

Lemma cleared s : dns_ok s → armed (clearTimeout (refreshTimer s) (clock s)) = [].
Proof.
  intros [Hc Ht Hn Hl _]. destruct (armed (clearTimeout _ _)) as [|x l] eqn:E; [done|].
  assert (x ∈ armed (clearTimeout (refreshTimer s) (clock s))) as Hx by (rewrite E; left).
  destruct (refreshTimer s) as [id|].
  - apply elem_of_clear in Hx as [Hx Hne]. apply Ht in Hx. congruence.
  - by apply Ht in Hx.
Qed.

Lemma loadDnsInfo_ok s : dns_ok s → dns_ok (loadDnsInfo s).
Proof.
  intros Hs. unfold loadDnsInfo. destruct (refreshing s) eqn:E1, (destroyed s) eqn:E2; try done.
  destruct Hs as [Hc Ht Hn Hl Hf]. rewrite E1 in Hf. split; simpl; auto.
Qed.

Lemma fire_ok s id : dns_ok s → callback_of id (clock s) = Some () →
  dns_ok (loadDnsInfo (s <| clock ::= clearTimeout (Some id) |> <| refreshTimer := None |>)).
Proof.
  intros Hs Hid. pose proof (cleared s Hs) as Hnil. destruct Hs as [Hc Ht Hn Hl Hf].
  apply callback_of_Some, Ht in Hid. simpl in Hid. rewrite Hid in Hnil.
  unfold loadDnsInfo. simpl. destruct (refreshing s) eqn:Hr, (destroyed s) eqn:Hd; simpl;
    (split; simpl; [by apply (clearTimeout_wf (Some id))|simpl in Hnil; rewrite Hnil; intros x Hx; by apply elem_of_nil in Hx| | |];
     rewrite ?Hr, ?Hf); try done; try (by intros ? [? ?]); auto.
Qed.

(** An answer is one of a call in flight, of which there is at most one. *)
Lemma settled_one o s s' : dns_ok s → info_settled o s = Some s' →
  refreshing s = true ∧ flights s' = 0.
Proof.
  intros Hs. unfold info_settled. rewrite (ok_flights s Hs).
  destruct (refreshing s); intros [= <-]. by destruct o.
Qed.

Lemma dns_step_ok e s s' : dns_ok s → dns_step e s = Some s' → dns_ok s'.
Proof.
  intros Hs. destruct e as [| |o| |id|]; simpl.
  - destruct (negb (refresh_offered s) || destroyed s); intros [= <-]. by apply loadDnsInfo_ok.
  - destruct (negb _ || destroyed s); intros [= <-]. by destruct Hs.
  - intros H. destruct (settled_one o s s' Hs H) as [_ H0]. unfold info_settled in H.
    destruct (flights s); [done|]. apply Some_inj in H as <-.
    destruct Hs as [Hc Ht Hn Hl Hf]. destruct o; split; simpl; done || auto.
  - intros [= <-]. pose proof (cleared s Hs) as Hnil. destruct Hs as [Hc Ht Hn Hl Hf].
    unfold onUpdateDnsInfo. simpl. split; simpl; [| | | |done].
    + exact (setTimeout_wf () _ (clearTimeout_wf (refreshTimer s) _ Hc)).
    + rewrite Hnil. intros x Hx. by apply list_elem_of_singleton in Hx as ->.
    + by rewrite Hnil.
    + eauto.
  - unfold refreshFired. destruct (callback_of id (clock s)) as [[]|] eqn:E; intros [= <-]. by apply fire_ok.
  - destruct (destroyed s); intros [= <-]. pose proof (cleared s Hs) as Hnil. destruct Hs as [Hc Ht Hn Hl Hf].
    split; simpl; try done.
    + by apply clearTimeout_wf.
    + rewrite Hnil. intros x Hx. by apply elem_of_nil in Hx.
Qed.

Lemma dns_reachable_ok s : dns_reachable s → dns_ok s.
Proof.
  induction 1 as [|s e s' _ IH H]; [|by eapply dns_step_ok].
  split; simpl; try done.
  - apply no_timers_wf.
  - intros x Hx. by apply elem_of_nil in Hx.
  - by left.
Qed.

(** C37: At any moment, whatever the order of the user's refreshes, the
    editors' saves, the timer and the answers, at most one call is in flight,
    and one is exactly while the page says it is refreshing: a refresh or a
    timer that comes meanwhile starts no other.  The page never says "loading"
    without a call in flight or a timer that will start one, and after an
    answer no call is left and the page does not say "loading".  The only timer
    is the one that the page would clear. *)
Theorem dns_page_live s :
  dns_reachable s →
  flights s = (if refreshing s then 1 else 0) ∧
  (destroyed s = false → view_of s = StatusLoading → flights s = 1 ∨ ∃ id s',
     callback_of id (clock s) = Some () ∧ refreshFired id s = Some s' ∧ flights s' = 1) ∧
  (∀ o, is_Some (info_settled o s) ↔ flights s = 1) ∧
  (∀ o s', info_settled o s = Some s' →
     flights s' = 0 ∧ refreshing s' = false ∧ view_of s' ≠ StatusLoading) ∧
  (∀ x, x ∈ armed (clock s) → refreshTimer s = Some x.1).
Proof.
  intros Hr%dns_reachable_ok. pose proof Hr as [Hc Ht Hn Hl Hf]. split_and!; [done| | | |done].
  - intros Hd Hv. unfold view_of in Hv. destruct (dnsInfo s); [done|].
    destruct (loading s) eqn:El; [|done]. destruct (Hl Hd eq_refl) as [Hre|Hsome]; [left; by rewrite Hf, Hre|right].
    specialize (Hn Hd Hsome). destruct (armed (clock s)) as [|[id []] l] eqn:E; [done|].
    destruct (callback_of id (clock s)) as [[]|] eqn:Ecb.
    + eexists id, _. split; [done|]. unfold refreshFired. rewrite Ecb. split; [done|].
      pose proof (fire_ok s id Hr Ecb) as H. rewrite (ok_flights _ H).
      unfold loadDnsInfo. simpl. rewrite Hd, orb_false_r. by destruct (refreshing s) eqn:Er; simpl; rewrite ?Er.
    + exfalso. eapply (callback_of_None _ _ ()); [exact Ecb|]. rewrite E. left.
  - intros o. unfold info_settled. rewrite Hf. destruct (refreshing s); simpl; [by split; eauto|].
    split; [by intros [? ?]|done].
  - intros o s' H. destruct (settled_one o s s' Hr H) as [_ H0]. split; [done|].
    unfold info_settled in H. destruct (flights s); [done|]. apply Some_inj in H as <-.
    split; [by destruct o|]. unfold view_of. by destruct o as [caught|[info|]]; simpl; [destruct (dnsInfo s)| |].
Qed.

(** A save made while the status is being read can be missed: when the read
    takes longer than the three seconds, the timer finds it running and does
    nothing, so the panel ends up showing what was read before the save. *)
Theorem update_during_read_is_lost s before :
  dns_reachable s → refreshing s = true → destroyed s = false →
  ∃ s1 id s2 s3,
    dns_step EditorSaved s = Some s1 ∧ dns_step (TimerFired id) s1 = Some s2 ∧
    dns_step (Answer (inr (Some before))) s2 = Some s3 ∧
    view_of s3 = StatusInfo before ∧ refreshing s3 = false ∧ armed (clock s3) = [].
Proof.
  intros Hs Hr Hd. pose proof (cleared s (dns_reachable_ok s Hs)) as Hnil.
  exists (onUpdateDnsInfo s), (next_id (clearTimeout (refreshTimer s) (clock s))).
  unfold dns_step, refreshFired, onUpdateDnsInfo. simpl. rewrite Hnil. unfold callback_of. simpl.
  rewrite Nat.eqb_refl. simpl. unfold loadDnsInfo. simpl. rewrite Hr. simpl.
  pose proof (ok_flights s (dns_reachable_ok s Hs)) as Hf. rewrite Hr in Hf.
  eexists _, _. split; [reflexivity|]. split; [reflexivity|]. unfold info_settled. simpl.
  rewrite Hf. split; [reflexivity|]. by split_and!.
Qed.
End Status.

Definition opened : DnsPage := onMount (initialPage (Info := nat)).

Lemma dns_page_live_witness : view_of opened = StatusLoading ∧ flights opened = 1.
Proof.
  split; [done|]. exact (proj1 (dns_page_live (fun t => t) opened (dns_mounted _))).
Defined.

Lemma update_during_read_is_lost_witness : ∃ s : DnsPage, view_of s = StatusInfo 7.
Proof.
  destruct (update_during_read_is_lost (fun t => t) opened 7 (dns_mounted _) eq_refl eq_refl)
    as (s1 & id & s2 & s3 & _ & _ & _ & H & _). by exists s3.
Defined.
