(* ===== verification/DnsView.v ===== *)
(** * The template of the DNS page

    The markup of [routes/dns/dns.svelte]; the editors of records and block
    lists are leaves that raise [updatednsinfo] after a save. *)

From S2P Require Import Prelude JsString JsAsync Timers View Layout DnsStatus.
Open Scope js_scope.

Record DnsInfo := MkDnsInfo {
  number_domains_blocked : option Z;
  last_updated : option Z;
  next_update : option Z
}.

(** What a user can do, and the event it is. *)
Inductive dns_control := PressRefresh | PressCloseError | SaveInEditor.

Definition raises (c : dns_control) : dns_event (Info := DnsInfo) :=
  match c with PressRefresh => Refresh | PressCloseError => CloseError | SaveInEditor => EditorSaved end.

Section View.
Context (translator : jstr → jstr) (toLocaleString : Z → option jstr).
#[local] Abbreviation tr s := (translator (js s)).

Definition entry (term : jstr) (value : jstr) : node dns_control :=
  El "div" [] [El "dt" [] [Text term]; El "dd" [] [Text value]].

Definition status_panel (s : DnsPage (Info := DnsInfo)) : node dns_control :=
  match view_of s with
  | StatusLoading => resource_state Loading [] (tr "Loading DNS status…") (js "Retry") None []
  | StatusError =>
      resource_state Failed (tr "DNS status is unavailable")
        (str_or (statusError s) (tr "Try refreshing after the DNS service is ready.")) (tr "Retry")
        (Some PressRefresh) []
  | StatusInfo info =>
      El "dl" [] [
        entry (tr "Blocked domains") (of_Z (default 0%Z (number_domains_blocked info)));
        entry (tr "Last updated") (getHumanTime translator toLocaleString (last_updated info));
        entry (tr "Next update") (getHumanTime translator toLocaleString (next_update info))
      ]
  end.

Definition resolver_panel : node dns_control :=
  section_panel (tr "Upstream resolver")
    (tr "Choose the DNS server GateSentry asks after applying local records and block lists.") [] None [
    El "ConnectedSettingInput" [
      lit "keyName" "dns_resolver"; Attr "title" (tr "DNS resolver"); Attr "labelText" (tr "DNS resolver");
      lit "type" "text";
      Attr "helperText" (tr "Enter an IP address or resolver address reachable from this gateway.")
    ] []
  ].

Definition dns_view (s : DnsPage (Info := DnsInfo)) : node dns_control :=
  page_shell (tr "DNS server")
    (tr "Review DNS block-list health, choose an upstream resolver, and manage local names and list sources.")
    false [
    El "Breadcrumb" [] [
      El "BreadcrumbItem" [lit "href" "/"] [Text (tr "Dashboard")];
      El "BreadcrumbItem" [] [Text (tr "DNS server")]
    ]
  ] (Some [
    El "Button" [lit "kind" "ghost"; Disabled (refreshing s); On "click" PressRefresh] [
      Text (if refreshing s then tr "Refreshing…" else tr "Refresh status")
    ]
  ]) [
    shown (truthy (statusError s)) [
      El "InlineNotification" [
        lit "kind" "error"; Attr "title" (tr "DNS status unavailable"); Attr "subtitle" (statusError s);
        On "close" PressCloseError
      ] []
    ];
    section_panel (tr "DNS status")
      (tr "Block-list totals and update schedule reported by the running DNS service.") [] None [status_panel s];
    resolver_panel;
    El "DnsArecords" [On "updatednsinfo" SaveInEditor] [];
    El "Dnslists" [On "updatednsinfo" SaveInEditor] []
  ].

Lemma status_panel_offers s c :
  offers (status_panel s) c ↔ view_of s = StatusError ∧ c = PressRefresh.
Proof.
  unfold status_panel. destruct (view_of s); rewrite ?resource_state_offers; unfold entry; view_simpl; naive_solver.
Qed.

(** On a page that is shown, what the template offers is exactly what the event
    loop lets a user do. *)
Theorem dns_view_offers s c :
  destroyed s = false → offers (dns_view s) c ↔ is_Some (dns_step translator (raises c) s).
Proof.
  intros Hd. unfold dns_view. rewrite page_shell_offers. cbn [slot_offers any_of].
  unfold resolver_panel. rewrite !section_panel_offers. cbn [slot_offers any_of]. rewrite status_panel_offers.
  view_simpl. unfold dns_step, refresh_offered. rewrite Hd, !orb_false_r.
  destruct c; cbn [raises].
  - destruct (refreshing s) eqn:Er, (view_of s) eqn:Ev; cbn [negb orb]; split; try (intros _; by eexists); try tauto;
      intros H; first [by destruct H|naive_solver].
  - destruct (truthy (statusError s)); cbn [negb]; split; try (intros _; by eexists); try tauto; naive_solver.
  - split; [by eexists|]. intros _. do 5 right. left. tauto.
Qed.
End View.

Lemma dns_view_offers_witness :
  offers (dns_view (fun t => t) (fun _ => None) initialPage) PressRefresh.
Proof. apply dns_view_offers; [done|]. by eexists. Defined.
