(* ===== verification/Settings.v ===== *)
(** * The settings page

    [routes/settings/settings.svelte]: gateway diagnostics with the support
    bundle, and the Tailscale integration.  [downloads] are the contents of the
    files handed to the browser. *)

From S2P Require Import Prelude JsString JsAsync Http Api DeviceDetail.
Open Scope js_scope.

(** ** State *)

Record TailscaleStatus := MkTailscaleStatus {
  enabled : bool;
  detected : bool;
  state : jstr;
  backend_state : jstr;
  self_name : jstr;
  last_refresh : jstr;
  message : jstr
}.

Record DiagnosticCheck := MkDiagnosticCheck {
  name : jstr;
  check_status : jstr;
  check_message : jstr;
  recovery : option jstr
}.

Record Diagnostics := MkDiagnostics { overall : jstr; checks : option (list DiagnosticCheck) }.

(** One answer as each caller reads it; [b_json] is
    [JSON.stringify(answer, null, 2)]. *)
Record SettingsBody := MkSettingsBody {
  b_diagnostics : Diagnostics;
  b_tailscale : TailscaleStatus;
  b_json : jstr
}.

Inductive SettingsPayload := SendEnabled (enabled : bool).

Record Settings := MkSettings {
  sess : Session;
  diagnostics : option Diagnostics;
  bundlePreview : jstr;
  loadingDiagnostics : bool;
  loadingBundle : bool;
  diagnosticsError : jstr;
  tailscaleStatus : option TailscaleStatus;
  tailscaleLoading : bool;
  tailscaleSaving : bool;
  tailscaleError : jstr;
  tailscaleNotice : jstr;
  downloads : list jstr
}.
#[export] Instance Settings_eta : Settable Settings := fun s =>
  MkSettings (sess s) (diagnostics s) (bundlePreview s) (loadingDiagnostics s) (loadingBundle s)
    (diagnosticsError s) (tailscaleStatus s) (tailscaleLoading s) (tailscaleSaving s)
    (tailscaleError s) (tailscaleNotice s) (downloads s).
#[export] Instance Settings_session : HasSession Settings :=
  {| session := sess; on_session f s := s <| sess ::= f |>; session_on_session f s := eq_refl;
     on_session_twice f g s := eq_refl; on_session_const f s := eq_refl |}.

#[local] Abbreviation handler := (prog Settings (io_res (P := SettingsPayload) SettingsBody)).

(** ** Diagnostics *)

Definition loadDiagnostics : handler unit :=
  loadingDiagnostics <~ true ;; diagnosticsError <~ [] ;;
  finally
    (try_catch
       (answer ← doCall (js "/diagnostics") (js "get") None ∅;
        diagnostics <~ (b_diagnostics <$> answer))
       (fun error => diagnosticsError <~ message_or error (js "Diagnostics failed")))
    (loadingDiagnostics <~ false).

Definition previewBundle : handler unit :=
  loadingBundle <~ true ;; diagnosticsError <~ [] ;;
  finally
    (try_catch
       (bundle ← doCall (js "/diagnostics/bundle") (js "get") None ∅;
        bundlePreview <~ from_option b_json (js "null") bundle)
       (fun error => diagnosticsError <~ message_or error (js "Bundle preview failed")))
    (loadingBundle <~ false).

Definition downloadBundle (s : Settings) : Settings :=
  if negb (truthy (bundlePreview s)) then s
  else s <| downloads ::= fun l => l ++ [bundlePreview s ++ [10%N]] |>.

(** ** Tailscale *)

Definition loadTailscaleStatus : handler unit :=
  tailscaleLoading <~ true ;; tailscaleError <~ [] ;;
  finally
    (try_catch
       (answer ← doCall (js "/tailscale/status") (js "get") None ∅;
        tailscaleStatus <~ (b_tailscale <$> answer))
       (fun error => tailscaleError <~ message_or error (js "Tailscale status failed")))
    (tailscaleLoading <~ false).

Definition setTailscaleEnabled (on : bool) : handler unit :=
  tailscaleSaving <~ true ;; tailscaleError <~ [] ;; tailscaleNotice <~ [] ;;
  finally
    (try_catch
       (_ ← doCall (js "/tailscale/config") (js "put") (Some (SendEnabled on)) ∅;
        tailscaleNotice <~ (if on then js "Tailscale integration enabled."
                            else js "Tailscale integration disabled.") ;;
        loadTailscaleStatus)
       (fun error => tailscaleError <~ message_or error (js "Tailscale update failed")))
    (tailscaleSaving <~ false).

(** The button that switches the integration, and when it can be pressed. *)
Definition toggleTailscale : handler unit :=
  s ← get; setTailscaleEnabled (negb (from_option enabled false (tailscaleStatus s))).

Definition toggleDisabled (s : Settings) : bool :=
  tailscaleLoading s || tailscaleSaving s
  || match tailscaleStatus s with None => true | Some _ => false end.

(** [onMount]: the second load starts before the first is answered. *)
Definition onMount : list (handler unit) := [loadDiagnostics; loadTailscaleStatus].

(** ** Labels *)

Inductive tag := Green | Red | WarmGray | GrayTag.
#[export] Instance tag_eq_dec : EqDecision tag.
Proof. solve_decision. Defined.

Definition tagType (status : jstr) : tag :=
  if bool_decide (status = js "ok") || bool_decide (status = js "running")
     || bool_decide (status = js "connected") then Green
  else if bool_decide (status = js "failed") || bool_decide (status = js "stopped")
          || bool_decide (status = js "unavailable") then Red
  else if bool_decide (status = js "degraded") || bool_decide (status = js "connecting") then WarmGray
  else GrayTag.

Definition tailscaleStatusKind (state : jstr) : kind :=
  if bool_decide (state = js "connected") then Success
  else if bool_decide (state = js "degraded") || bool_decide (state = js "connecting") then Warning
  else if bool_decide (state = js "unavailable") || bool_decide (state = js "stopped") then Failure
  else Info.

Definition tailscaleStatusTitle (state : jstr) : jstr :=
  if bool_decide (state = js "connected") then js "Tailscale connected"
  else if bool_decide (state = js "degraded") then js "Tailscale data degraded"
  else if bool_decide (state = js "unavailable") then js "Tailscale unavailable"
  else if bool_decide (state = js "connecting") then js "Tailscale connecting"
  else if bool_decide (state = js "disabled") then js "Tailscale disabled"
  else js "Tailscale status".

Section Dates.
(** [new Date(value).toLocaleString()], with [None] for a date that is not
    valid. *)
Context (toLocaleString : jstr → option jstr).

Definition formatDate (value : jstr) : jstr :=
  if negb (truthy value) then js "Never"
  else match toLocaleString value with None => value | Some text => text end.
End Dates.

(** ** What the handlers do *)

Ltac settings_norm st :=
  eval cbv beta iota zeta delta [update_field sess diagnostics bundlePreview loadingDiagnostics
    loadingBundle diagnosticsError tailscaleStatus tailscaleLoading tailscaleSaving tailscaleError
    tailscaleNotice downloads session on_session Settings_session] in st.
Ltac settings_simpl := match goal with |- ?G => let G' := settings_norm G in change G' end.
Ltac settings_run := repeat (progress run_with settings_norm || rewrite run_call); settings_simpl.

(** The note beside the status and the tag above it never disagree, and the two
    pages that describe a Tailscale state describe it alike. *)
Theorem tailscale_labels_agree st :
  tailscaleStatusKind st = tailscaleStateKind st ∧
  tailscaleStatusTitle st = tailscaleStateTitle st ∧
  (tailscaleStatusKind st = Success → tagType st = Green) ∧
  (tailscaleStatusKind st = Warning ↔ tagType st = WarmGray) ∧
  (tailscaleStatusKind st = Failure → tagType st = Red).
Proof.
  split_and!; [reflexivity|reflexivity|..]; unfold tailscaleStatusKind, tagType.
  all: repeat (case_bool_decide; [subst; vm_compute; done|]); simpl; done.
Qed.

Section Handlers.
Context (reply : list (request SettingsPayload) → ∀ q : io_req SettingsPayload, io_res SettingsBody q).

Definition config_request (a : Session) (on : bool) : request SettingsPayload :=
  session_request a (js "/tailscale/config") (js "put") (Some (SendEnabled on)) ∅.
Definition tailscale_request (a : Session) : request SettingsPayload :=
  session_request a (js "/tailscale/status") (js "get") None ∅.

(** Switching Tailscale sends the new value once.  When the server takes it the
    page says so and reads the status again, and keeps the old status under an
    error when that fails; when the server refuses, the status stays, nothing
    is claimed, and the error is shown. *)
Theorem setTailscaleEnabled_spec on s log :
  let '(r, s', log') := run (history reply) (setTailscaleEnabled on) s log in
  let q := config_request (sess s) on in
  let q2 := tailscale_request (session_after (reply log (Fetch q)) (sess s)) in
  r = inr () ∧ tailscaleSaving s' = false ∧
  match call_result (reply log (Fetch q)) with
  | inl e =>
      log' = log ++ [q] ∧ tailscaleStatus s' = tailscaleStatus s ∧ tailscaleNotice s' = [] ∧
      tailscaleError s' = message_or e (js "Tailscale update failed")
  | inr _ =>
      log' = log ++ [q; q2] ∧ tailscaleLoading s' = false ∧
      tailscaleNotice s' = (if on then js "Tailscale integration enabled."
                            else js "Tailscale integration disabled.") ∧
      match call_result (reply (log ++ [q]) (Fetch q2)) with
      | inr answer => tailscaleStatus s' = b_tailscale <$> answer ∧ tailscaleError s' = []
      | inl e => tailscaleStatus s' = tailscaleStatus s ∧
                 tailscaleError s' = message_or e (js "Tailscale status failed")
      end
  end.
Proof.
  destruct s. unfold setTailscaleEnabled, loadTailscaleStatus, config_request, tailscale_request.
  settings_run. destruct (call_result _) as [e|b]; settings_run; [by split_and!|].
  rewrite <-app_assoc. cbn [app]. destruct (call_result _) as [e|b2]; settings_run; by split_and!.
Qed.

(** Either load leaves the other's data alone and always ends; a failed one
    keeps what was shown under an error. *)
Theorem diagnostics_spec s log :
  let '(r, s', _) := run (history reply) loadDiagnostics s log in
  let '(r2, s2, _) := run (history reply) previewBundle s log in
  r = inr () ∧ r2 = inr () ∧ loadingDiagnostics s' = false ∧ loadingBundle s2 = false ∧
  bundlePreview s' = bundlePreview s ∧ diagnostics s2 = diagnostics s ∧
  (diagnosticsError s' ≠ [] → diagnostics s' = diagnostics s) ∧
  (diagnosticsError s2 ≠ [] → bundlePreview s2 = bundlePreview s) ∧
  ∀ text, downloads (downloadBundle s2) = downloads s ++ [text] → text = bundlePreview s2 ++ [10%N].
Proof.
  destruct s. unfold loadDiagnostics, previewBundle. settings_run.
  destruct (call_result _) as [e|b]; settings_run; destruct (call_result _) as [e2|b2]; settings_run;
    split_and!; try done; intros text; unfold downloadBundle; simpl; destruct (truthy _); simpl;
    intros H; (by apply app_inv_head in H; injection H) || (by apply (f_equal length) in H; rewrite length_app in H; simpl in H; lia).
Qed.
End Handlers.

(** ** A server that stores what it is sent *)

Definition stored (initial : bool) (l : list (request SettingsPayload)) : bool :=
  foldl (fun v q => match rq_body q with Some (SendEnabled on) => on | None => v end) initial l.

Definition storing (initial : bool) (l : list (request SettingsPayload)) (q : io_req SettingsPayload)
    : io_res SettingsBody q :=
  let st := MkTailscaleStatus (stored initial l) true (js "connected") (js "Running") [] [] [] in
  let r := Response 200 (inr []) None (inr (Some (MkSettingsBody (MkDiagnostics (js "ok") None) st []))) in
  serve (fun _ => inr r) q.

(** Pressing the button flips what the server holds and what the page shows;
    pressing it again restores both. *)
Theorem toggle_roundtrip initial log s st :
  tailscaleStatus s = Some st → enabled st = stored initial log →
  let '(_, s1, log1) := run (history (storing initial)) toggleTailscale s log in
  let '(_, s2, log2) := run (history (storing initial)) toggleTailscale s1 log1 in
  stored initial log1 = negb (stored initial log) ∧ enabled <$> tailscaleStatus s1 = Some (stored initial log1) ∧
  stored initial log2 = stored initial log ∧ enabled <$> tailscaleStatus s2 = Some (enabled st).
Proof.
  assert (∀ s st log, tailscaleStatus s = Some st → enabled st = stored initial log →
    let '(_, s1, log1) := run (history (storing initial)) toggleTailscale s log in
    stored initial log1 = negb (stored initial log) ∧
    ∃ st1, tailscaleStatus s1 = Some st1 ∧ enabled st1 = stored initial log1) as Hone.
  { clear s st log. intros s st log Hs Hst. unfold toggleTailscale.
    rewrite run_bind, run_get, Hs. cbn [from_option]. rewrite Hst.
    pose proof (setTailscaleEnabled_spec (storing initial) (negb (stored initial log)) s log) as H.
    destruct (run _ (setTailscaleEnabled _) s log) as [[r s1] log1].
    destruct H as (_ & _ & -> & _ & _ & -> & _).
    unfold stored. rewrite !foldl_app. simpl. split; [done|]. by eexists. }
  intros Hs Hst. pose proof (Hone s st log Hs Hst) as H1.
  destruct (run _ _ s log) as [[r1 s1] log1]. destruct H1 as (E1 & st1 & Hs1 & Hst1).
  pose proof (Hone s1 st1 log1 Hs1 Hst1) as H2.
  destruct (run _ _ s1 log1) as [[r2 s2] log2]. destruct H2 as (E2 & st2 & Hs2 & Hst2).
  rewrite Hs1, Hs2. simpl. rewrite Hst1, Hst2, E2, E1, Hst, negb_involutive. by split_and!.
Qed.

Definition settings_page : Settings :=
  MkSettings (apistore [] ∅) None [] false false []
    (Some (MkTailscaleStatus false true (js "disabled") [] [] [] [])) false false [] [] [].

Lemma toggle_roundtrip_witness :
  let '(_, s1, _) := run (history (storing false)) toggleTailscale settings_page [] in
  enabled <$> tailscaleStatus s1 = Some true.
Proof.
  pose proof (toggle_roundtrip false [] settings_page _ eq_refl eq_refl) as H.
  destruct (run _ _ settings_page []) as [[r1 s1] log1], (run _ _ s1 log1) as [[r2 s2] log2].
  destruct H as (H1 & H2 & _). by rewrite H2, H1.
Defined.
