(* ===== verification/SettingsView.v ===== *)
(** * The template of the settings page, and the page in the event loop

    The markup of [routes/settings/settings.svelte].  The components inside it
    that keep their own state (the log location, the HTTPS switch and the
    certificate) are leaves of the tree. *)

From S2P Require Import Prelude JsString JsAsync Http Api Busy View Layout DeviceDetail Settings.
Open Scope js_scope.

Inductive settings_event :=
| CloseTailscaleError
| CloseTailscaleNotice
| CloseDiagnosticsError
| ToggleTailscale
| RefreshStatus
| RunDiagnostics
| PreviewBundle
| DownloadBundle.

Section View.
Context (translator : jstr → jstr) (toLocaleString : jstr → option jstr).
#[local] Abbreviation tr s := (translator (js s)).
#[local] Abbreviation handler := (prog Settings (io_res (P := SettingsPayload) SettingsBody)).

Definition setting_row (title about : jstr) (control : node settings_event) : node settings_event :=
  El "div" [] [
    El "div" [] [El "h4" [] [Text title]; El "p" [] [Text about]];
    El "div" [] [control]
  ].

Definition section_heading (title about : jstr) : node settings_event :=
  El "div" [] [El "h3" [] [Text title]; El "p" [] [Text about]].

(** A text in double quotes. *)
Definition quoted (text : string) : jstr := [34%N] ++ js text ++ [34%N].

Definition general_tab (s : Settings) : node settings_event :=
  El "TabContent" [] [
    section_heading (tr "Gateway")
      (tr "Choose where GateSentry stores its local decision log and review the signed-in administrator.");
    setting_row (tr "Decision log storage")
      (tr "GateSentry writes filtering decisions to this SQLite database path.")
      (El "ConnectedGeneralSettingInput" [
        lit "keyName" "log_location"; Attr "title" (tr "Log location"); Attr "labelText" (tr "Log location");
        lit "type" "text"; Attr "helperText" (tr "Restart GateSentry after changing this path.")
      ] []);
    El "InlineNotification" [
      Flag "hideCloseButton" true; lit "kind" "info"; Attr "title" (tr "Raspberry Pi storage guidance");
      Attr "subtitle" (translator (js "To reduce SD card writes, set the log location to " ++ quoted "/tmp/log.db"
        ++ js ". This keeps the log in RAM, so history is cleared whenever the device restarts."))
    ] [];
    setting_row (tr "Administrator")
      (tr "This identity comes from the authenticated session and cannot be edited here.")
      (El "TextInput" [
        Attr "value" (username (api (sess s))); lit "type" "text"; Attr "title" (tr "Admin username");
        Attr "labelText" (tr "Admin username");
        Attr "helperText" (tr "Change the password from the account menu."); Disabled true
      ] [])
  ].

Definition https_tab : node settings_event :=
  El "TabContent" [] [
    section_heading (tr "HTTPS inspection")
      (tr "Advanced, opt-in inspection for encrypted web traffic. Devices must trust the GateSentry certificate.");
    setting_row (tr "Inspection status")
      (tr "Changing this setting affects proxy traffic; DNS filtering remains separate.") (El "HttpsToggle" [] []);
    El "section" [] [El "ConnectedCertificateComposed" [] []]
  ].

Definition tag_name (t : tag) : string :=
  match t with Green => "green" | Red => "red" | WarmGray => "warm-gray" | GrayTag => "gray" end.

Definition kind_name (k : kind) : string :=
  match k with Success => "success" | Warning => "warning" | Failure => "error" | Info => "info" end.

Definition entry (term : jstr) (content : list (node settings_event)) : node settings_event :=
  El "div" [] [El "dt" [] [Text term]; El "dd" [] content].

Definition status_view (status : TailscaleStatus) : list (node settings_event) := [
  El "dl" [] [
    entry (tr "Client detected") [
      El "Tag" [lit "type" (if detected status then "green" else "warm-gray")] [
        Text (if detected status then tr "Detected" else tr "Not detected")
      ]
    ];
    entry (tr "State") [
      El "Tag" [lit "type" (tag_name (tagType (state status)))] [Text (str_or (state status) (tr "Unknown"))]
    ];
    entry (tr "Backend state") [Text (str_or (backend_state status) (tr "Unknown"))];
    entry (tr "This node") [Text (str_or (self_name status) (js "—"))];
    entry (tr "Last refreshed") [Text (formatDate toLocaleString (last_refresh status))]
  ];
  shown (truthy (message status)) [
    El "InlineNotification" [
      Flag "hideCloseButton" true; lit "kind" (kind_name (tailscaleStatusKind (state status)));
      Attr "title" (tailscaleStatusTitle (state status)); Attr "subtitle" (message status)
    ] []
  ]
].

(** The button that switches the integration. *)
Definition toggle_button (s : Settings) : node settings_event :=
  El "Button" [Disabled (toggleDisabled s); On "click" ToggleTailscale] [
    Text (if tailscaleSaving s then tr "Saving…"
          else if from_option enabled false (tailscaleStatus s) then tr "Disable Tailscale"
          else tr "Enable Tailscale")
  ].

Definition connectivity_tab (s : Settings) : node settings_event :=
  El "TabContent" [] [
    El "div" [] [
      section_heading (tr "Tailscale")
        (tr "Discover Tailscale peers and explicitly link them to devices in the device inventory.");
      given (tailscaleStatus s) (fun status => [
        El "Tag" [lit "type" (if enabled status then "green" else "gray")] [
          Text (if enabled status then tr "Enabled" else tr "Disabled")
        ]
      ])
    ];
    shown (truthy (tailscaleError s)) [
      El "InlineNotification" [
        lit "kind" "error"; Attr "title" (tr "Tailscale error"); Attr "subtitle" (tailscaleError s);
        On "close" CloseTailscaleError
      ] []
    ];
    shown (truthy (tailscaleNotice s)) [
      El "InlineNotification" [
        lit "kind" "success"; Attr "title" (tr "Tailscale updated"); Attr "subtitle" (tailscaleNotice s);
        On "close" CloseTailscaleNotice
      ] []
    ];
    alt (tailscaleLoading s && bool_decide (tailscaleStatus s = None)) [
      El "InlineLoading" [Attr "description" (tr "Checking Tailscale…")] []
    ] [given (tailscaleStatus s) status_view];
    El "div" [] [
      El "p" [] [
        Text (tr "Peer suggestions are hints only. A peer is linked only after you choose it and confirm the link on a device.")
      ];
      El "p" [] [
        Text (tr "Tailscale normally does not supply a hardware MAC address. Wake-on-LAN MAC addresses, when available, are informational and are not used to match or link devices.")
      ]
    ];
    El "div" [] [
      toggle_button s;
      El "Button" [
        lit "kind" "tertiary"; Disabled (tailscaleLoading s || tailscaleSaving s); On "click" RefreshStatus
      ] [Text (if tailscaleLoading s then tr "Refreshing…" else tr "Refresh status")]
    ]
  ].

Definition check_view (check : DiagnosticCheck) : node settings_event :=
  El "li" [] [
    El "div" [] [
      El "strong" [] [Text (name check)];
      El "Tag" [lit "type" (tag_name (tagType (check_status check)))] [Text (check_status check)]
    ];
    El "p" [] [Text (check_message check)];
    shown (truthy (default [] (recovery check))) [
      El "p" [] [
        El "strong" [] [Text (tr "Recovery"); txt ":"]; Text (default [] (recovery check))
      ]
    ]
  ].

Definition diagnostics_view (d : Diagnostics) : list (node settings_event) := [
  El "div" [] [
    El "span" [] [Text (tr "Overall status")];
    El "Tag" [lit "type" (tag_name (tagType (overall d)))] [Text (overall d)]
  ];
  El "ul" [] [each (default [] (checks d)) (fun check => [check_view check])]
].

Definition bundle_view (s : Settings) : node settings_event :=
  shown (truthy (bundlePreview s)) [
    El "div" [] [
      El "div" [] [
        El "h4" [] [Text (tr "Redacted support bundle")];
        El "p" [] [Text (tr "Read-only JSON. Review it before downloading or sharing it with support.")]
      ];
      El "pre" [] [El "code" [] [Text (bundlePreview s)]]
    ]
  ].

Definition diagnostics_tab (s : Settings) : node settings_event :=
  El "TabContent" [] [
    section_heading (tr "Gateway diagnostics")
      (tr "Check gateway health and create a support bundle that excludes credentials, private keys, image data, device identities, and browsing history.");
    shown (truthy (diagnosticsError s)) [
      El "InlineNotification" [
        lit "kind" "error"; Attr "title" (tr "Diagnostics error"); Attr "subtitle" (diagnosticsError s);
        On "close" CloseDiagnosticsError
      ] []
    ];
    El "div" [] [
      El "Button" [Disabled (loadingDiagnostics s); On "click" RunDiagnostics] [
        Text (if loadingDiagnostics s then tr "Checking…" else tr "Run diagnostics")
      ];
      El "Button" [lit "kind" "secondary"; Disabled (loadingBundle s); On "click" PreviewBundle] [
        Text (if loadingBundle s then tr "Preparing…" else tr "Preview support bundle")
      ];
      El "Button" [
        lit "kind" "tertiary"; Disabled (negb (truthy (bundlePreview s)) || loadingBundle s);
        On "click" DownloadBundle
      ] [Text (tr "Download preview")]
    ];
    alt (loadingDiagnostics s && bool_decide (diagnostics s = None)) [
      El "InlineLoading" [Attr "description" (tr "Running gateway checks…")] []
    ] [given (diagnostics s) diagnostics_view];
    bundle_view s
  ].

Definition settings_view (s : Settings) : node settings_event :=
  page_shell (tr "Settings")
    (tr "Configure this gateway, HTTPS inspection, network integrations, and support diagnostics.") false [
    El "Breadcrumb" [] [
      El "BreadcrumbItem" [lit "href" "/"] [Text (tr "Dashboard")];
      El "BreadcrumbItem" [] [Text (tr "Settings")]
    ]
  ] None [
    El "Tabs" [Attr "iconDescription" (tr "Show settings sections")] [
      El "Tab" [Attr "label" (tr "General")] [];
      El "Tab" [Attr "label" (tr "HTTPS inspection")] [];
      El "Tab" [Attr "label" (tr "Connectivity")] [];
      El "Tab" [Attr "label" (tr "Diagnostics")] [];
      general_tab s; https_tab; connectivity_tab s; diagnostics_tab s
    ]
  ].

(** ** The event loop *)

Definition on_event (e : settings_event) : handler unit :=
  match e with
  | CloseTailscaleError => tailscaleError <~ []
  | CloseTailscaleNotice => tailscaleNotice <~ []
  | CloseDiagnosticsError => diagnosticsError <~ []
  | ToggleTailscale => toggleTailscale
  | RefreshStatus => loadTailscaleStatus
  | RunDiagnostics => loadDiagnostics
  | PreviewBundle => previewBundle
  | DownloadBundle => modify downloadBundle
  end.

(** [onMount] starts two reads: the first is [loadDiagnostics], the second the
    event [StartStatus]. *)
Inductive page_event := StartStatus | Raised (e : settings_event).

Definition page_handler (e : page_event) : handler unit :=
  match e with StartStatus => loadTailscaleStatus | Raised e => on_event e end.

Definition page_enabled (e : page_event) (s : Settings) : Prop :=
  match e with StartStatus => True | Raised e => offers (settings_view s) e end.

Definition initialSettings (a : Session) : Settings :=
  MkSettings a None [] false false [] None false false [] [] [].

Definition settings_loop (a : Session) := loop_from page_enabled page_handler loadDiagnostics (initialSettings a).
End View.

(** ** What the page offers *)

Section Offers.
Context (translator : jstr → jstr) (toLocaleString : jstr → option jstr).

Lemma status_view_offers status e :
  ¬ any_of (fun n => offers n e) (status_view translator toLocaleString status).
Proof. unfold status_view, entry. view_simpl. tauto. Qed.

(** The controls of the page and when each can be used. *)
Theorem settings_offers s e :
  offers (settings_view translator toLocaleString s) e ↔
  match e with
  | CloseTailscaleError => truthy (tailscaleError s) = true
  | CloseTailscaleNotice => truthy (tailscaleNotice s) = true
  | CloseDiagnosticsError => truthy (diagnosticsError s) = true
  | ToggleTailscale => toggleDisabled s = false
  | RefreshStatus => tailscaleLoading s = false ∧ tailscaleSaving s = false
  | RunDiagnostics => loadingDiagnostics s = false
  | PreviewBundle => loadingBundle s = false
  | DownloadBundle => truthy (bundlePreview s) = true ∧ loadingBundle s = false
  end.
Proof.
  unfold settings_view. rewrite page_shell_offers. cbn [slot_offers].
  unfold general_tab, https_tab, connectivity_tab, diagnostics_tab, setting_row, section_heading, toggle_button,
    diagnostics_view, check_view, bundle_view. view_simpl.
  split.
  - intros H. view_destruct; try (exfalso; by eapply status_view_offers); subst; try done.
    all: split_bools. all: auto.
  - destruct e; intros H; do 2 right; left; (split; [done|]); right; do 4 right.
    + do 2 right. left. split; [done|]. right. right. left. view_find.
    + do 2 right. left. split; [done|]. right. do 2 right. left. view_find.
    + do 3 right. left. split; [done|]. right. right. left. view_find.
    + do 2 right. left. split; [done|]. right. do 5 right. left. split; [done|]. right. left. rewrite H. view_find.
    + do 2 right. left. split; [done|]. right. do 5 right. left. split; [done|]. right. right. left.
      destruct H as [-> ->]. view_find.
    + do 3 right. left. split; [done|]. right. do 2 right. left. split; [done|]. right. left. rewrite H. view_find.
    + do 3 right. left. split; [done|]. right. do 2 right. left. split; [done|]. right. right. left.
      rewrite H. view_find.
    + do 3 right. left. split; [done|]. right. do 2 right. left. split; [done|]. right. do 2 right. left.
      destruct H as [-> ->]. view_find.
Qed.

(** ** One change at a time *)

Definition switches (q : io_req SettingsPayload) : bool :=
  match q with Fetch r => bool_decide (rq_method r = js "put") | _ => false end.

Definition busy_flags : list (Settings → bool) :=
  [loadingDiagnostics; loadingBundle; tailscaleLoading; tailscaleSaving].

Lemma settings_event_safe e s :
  page_enabled translator toLocaleString e s → flag_safe tailscaleSaving switches (page_handler e) s.
Proof.
  intros He. destruct e as [|e]; cbn [page_handler].
  { apply harmless_safe. unfold loadTailscaleStatus. harmless_run. }
  cbn [page_enabled] in He. apply settings_offers in He.
  destruct e; cbn [on_event];
    try (apply harmless_safe; unfold loadTailscaleStatus, loadDiagnostics, previewBundle, downloadBundle; solve [harmless_run]).
  unfold toggleDisabled in He. split_bools.
  unfold flag_safe, toggleTailscale, setTailscaleEnabled, loadTailscaleStatus. guard_run.
Qed.

Lemma settings_event_settles e s : Forall (fun flag => settling flag (page_handler e) s) busy_flags.
Proof.
  unfold page_handler, on_event, toggleTailscale, setTailscaleEnabled, loadTailscaleStatus, loadDiagnostics,
    previewBundle, downloadBundle.
  destruct e as [|[]]; repeat apply Forall_cons_2; try apply Forall_nil_2; settling_run.
Qed.

(** However the page is used and its requests answered, at most one change of
    the Tailscale integration is under way, and none while its button can be
    pressed; when no more is done, the answers that are due leave nothing that
    says "checking", "preparing", "refreshing" or "saving". *)
Theorem settings_at_rest a s ts :
  settings_loop translator toLocaleString a (s, ts) →
  length (List.filter (fun t => switches (th_request t)) ts) ≤ (if tailscaleSaving s then 1 else 0) ∧
  Acc (flip answer_step) (s, ts) ∧
  ∀ s', rtc answer_step (s, ts) (s', []) → Forall (fun flag => flag s' = false) busy_flags.
Proof.
  intros Hr. split.
  - eapply single_flight in Hr as [H _]; [exact H|intros; by apply settings_event_safe|done|].
    apply harmless_safe. unfold loadDiagnostics. harmless_run.
  - apply (page_rests _ _ _ _ _ busy_flags Hr). apply Forall_forall. intros flag Hf. split.
    + intros e s0 _. exact (proj1 (Forall_forall _ _) (settings_event_settles e s0) flag Hf).
    + unfold loadDiagnostics. repeat (apply elem_of_cons in Hf as [->|Hf]); [..|by apply elem_of_nil in Hf].
      all: first [left; solve [clearing_run]|right; split; [done|settling_run]].
Qed.
End Offers.
