(* ===== verification/Ai.v ===== *)
(** * The AI image filtering page

    [routes/ai/ai.svelte]: which provider classifies images, whether its
    credentials are stored, and what the server's probes of the providers say. *)

From S2P Require Import Prelude JsString JsAsync Http Api.
Open Scope js_scope.

(** ** Data *)

Record Probe := MkProbe { probe_state : jstr; probe_detail : option jstr }.
#[export] Instance Probe_eq_dec : EqDecision Probe.
Proof. solve_decision. Defined.

(** A member is there when the server sent an object with a [state]. *)
Record StatusSnapshot := MkSnapshot {
  snap_mode : option jstr;
  snap_grok : option Probe;
  snap_chatgpt : option Probe;
  snap_local : option Probe;
  snap_legacy : option Probe
}.

(** [b_value] is [json.Value], or [json.value] when that is missing, as a
    string; [b_configured] is [json.Configured]; [b_snapshot] is the same
    object read as a snapshot. *)
Record AiBody := MkAiBody {
  b_value : option jstr;
  b_configured : option bool;
  b_snapshot : StatusSnapshot
}.

Record Ai := MkAi {
  sess : Session;
  status : option StatusSnapshot;
  probing : bool;
  statusError : jstr;
  filterMode : jstr;
  hasGrokKey : bool;
  hasOpenAIKey : bool;
  hasLocalURL : bool;
  hasLegacyURL : bool
}.
#[export] Instance Ai_eta : Settable Ai := fun s =>
  MkAi (sess s) (status s) (probing s) (statusError s) (filterMode s) (hasGrokKey s) (hasOpenAIKey s)
    (hasLocalURL s) (hasLegacyURL s).
#[export] Instance Ai_session : HasSession Ai :=
  {| session := sess; on_session f s := s <| sess ::= f |>; session_on_session f s := eq_refl;
     on_session_twice f g s := eq_refl; on_session_const f s := eq_refl |}.

#[local] Abbreviation handler := (prog Ai (io_res (P := unit) AiBody)).

Definition settingValue (json : option AiBody) : jstr := trim (opt_or (json ≫= b_value) []).

Definition nonempty (json : option AiBody) : bool :=
  match json ≫= b_configured with
  | Some configured => configured
  | None => bool_decide (settingValue json ≠ [])
  end.

Section Page.
Context (translator : jstr → jstr).

Definition checking : Probe := MkProbe (js "checking") (Some []).
Definition notConfigured : Probe := MkProbe (js "not_configured") (Some []).

(** ** Reading the configuration *)

Definition settings_read : list jstr :=
  js <$> ["ai_image_filtering_mode"; "ai_grok_api_key"; "ai_openai_api_key"; "ai_local_llm_url";
          "ai_scanner_url"]%string.

Definition is_401 (o : result (response AiBody)) : bool :=
  match o with inr r => (Http.status r =? 401)%Z | inl _ => false end.

(** [Promise.all] of five [getSetting]: they are all sent before the first is
    answered, and an answer 401 to any of them ends the session, also when
    another has failed before. *)
Definition get_settings : handler (list (option AiBody)) :=
  h ← take_headers;
  s ← get;
  let requests := (fun name => Request (baseURL (api (sess s)) ++ js "/settings/" ++ name)
                                 (js "get") h None ∅) <$> settings_read in
  st ← await (FetchAll requests);
  when (existsb (fun i => is_401 (st_results st i)) (seq 0 5)) (modify (on_session run_unauthorized)) ;;
  of_result (promise_all (fun i => call_result (st_results st i)) 5 (st_order st)).

Definition loadConfigured : handler unit :=
  answers ← get_settings;
  match answers with
  | [mode; grok; openai; local; legacy] =>
      filterMode <~ str_or (settingValue mode) (js "disabled") ;;
      hasGrokKey <~ nonempty grok ;;
      hasOpenAIKey <~ nonempty openai ;;
      hasLocalURL <~ nonempty local ;;
      hasLegacyURL <~ nonempty legacy
  | _ => Throw TypeError
  end.

(** ** Probing *)

(** [Promise.race] of a call and a timer: how the race settles and, when the
    timer was first, the request that is still under way. *)
Definition withTimeout (endpoint : jstr) : handler (result (option AiBody) * option (request unit)) :=
  h ← take_headers;
  url ← url_of endpoint;
  let rq := Request url (js "get") h None ∅ in
  o ← await (Within rq);
  match o with
  | None => Ret (inl (Error (translator (js "Status check timed out."))), Some rq)
  | Some o => settle (r ← of_result o; check_response r) (fun o => Ret (o, None))
  end.

(** The call that lost the race is answered all the same; nobody waits for what
    it brings, but a 401 still ends the session. *)
Definition lost_call (late : option (request unit)) : handler unit :=
  match late with
  | None => Ret ()
  | Some rq => a ← await (NextOf [] [rq]); settle (r ← of_result a.2; check_response r) (fun _ => Ret ())
  end.

(** The [catch]. *)
Definition probe_failed (error : jserr) : handler unit :=
  status <~ None ;;
  statusError <~ nonempty_message_or error
    (translator (js "AI provider status could not be checked.")).

(** The rest of the [try] once the race has settled. *)
Definition take_snapshot (o : result (option AiBody)) : handler unit :=
  snapshot ← of_result o;
  match snapshot with
  | Some body =>
      status <~ Some (b_snapshot body) ;;
      modify (fun s => s <| filterMode := opt_or (snap_mode (b_snapshot body)) (filterMode s) |>)
  | None => Throw (Error (translator (js "The status response was not valid.")))
  end.

Definition refreshStatus : handler unit :=
  probing <~ true ;;
  statusError <~ [] ;;
  late ← finally
    (try_catch
       (loadConfigured ;;
        race ← withTimeout (js "/ai/status");
        try_catch (take_snapshot race.1) probe_failed ;;
        Ret race.2)
       (fun error => probe_failed error ;; Ret None))
    (probing <~ false);
  lost_call late.

(** [onSaved] of the provider choice. *)
Definition modeSaved (value : jstr) : handler unit :=
  filterMode <~ value ;;
  refreshStatus.

(** ** What is shown *)

Definition probeFor (key : StatusSnapshot → option Probe) (snapshot : option StatusSnapshot)
    (inFlight configured : bool) : Probe :=
  match snapshot ≫= key with
  | Some probe => probe
  | None =>
      if negb configured then notConfigured
      else if inFlight then checking
      else MkProbe (js "unreachable") (Some (translator (js "Status check did not complete")))
  end.

Definition selectedProviderProbe (snapshot : option StatusSnapshot) (mode : jstr)
    (grok chatgpt local : Probe) : Probe :=
  let selectedMode := opt_or (snapshot ≫= snap_mode) (str_or mode (js "disabled")) in
  if bool_decide (selectedMode = js "disabled")
  then MkProbe (js "disabled") (Some (translator (js "Image filtering is off")))
  else if bool_decide (selectedMode = js "grok") then grok
  else if bool_decide (selectedMode = js "chatgpt") then chatgpt
  else if bool_decide (selectedMode = js "local") then local
  else notConfigured.

Definition providerLabel (mode : jstr) : jstr :=
  if bool_decide (mode = js "grok") then translator (js "Grok")
  else if bool_decide (mode = js "chatgpt") then translator (js "ChatGPT")
  else if bool_decide (mode = js "local") then translator (js "Local LLM")
  else translator (js "Disabled").

Inductive tag := Green | Magenta | Red | CoolGray | GrayTag.

Definition tagType (state : jstr) : tag :=
  if bool_decide (state = js "ok") then Green
  else if bool_decide (state = js "unauthorized") then Magenta
  else if bool_decide (state = js "unreachable") then Red
  else if bool_decide (state = js "checking") then CoolGray
  else GrayTag.

Definition tagLabel (state : jstr) : jstr :=
  if bool_decide (state = js "ok") then translator (js "Reachable")
  else if bool_decide (state = js "unauthorized") then translator (js "Invalid key")
  else if bool_decide (state = js "unreachable") then translator (js "Unreachable")
  else if bool_decide (state = js "not_configured") then translator (js "Not configured")
  else if bool_decide (state = js "disabled") then translator (js "Disabled")
  else if bool_decide (state = js "checking") then translator (js "Checking…")
  else state.

Definition grokProbe (s : Ai) : Probe := probeFor snap_grok (status s) (probing s) (hasGrokKey s).
Definition chatgptProbe (s : Ai) : Probe := probeFor snap_chatgpt (status s) (probing s) (hasOpenAIKey s).
Definition localProbe (s : Ai) : Probe := probeFor snap_local (status s) (probing s) (hasLocalURL s).
Definition legacyProbe (s : Ai) : Probe := probeFor snap_legacy (status s) (probing s) (hasLegacyURL s).

Definition providerProbe (s : Ai) : Probe :=
  selectedProviderProbe (status s) (filterMode s) (grokProbe s) (chatgptProbe s) (localProbe s).

(** The panel of the selected provider: its name with its probe, or [None]
    while the first check runs. *)
Definition status_line (s : Ai) : option (jstr * Probe) :=
  match status s with
  | None => if probing s then None else Some (providerLabel (filterMode s), providerProbe s)
  | Some _ => Some (providerLabel (filterMode s), providerProbe s)
  end.
End Page.

(** ** What the handlers do *)

Ltac ai_norm st :=
  eval cbv beta iota zeta delta [update_field sess status probing statusError filterMode hasGrokKey
    hasOpenAIKey hasLocalURL hasLegacyURL session on_session Ai_session] in st.
Ltac ai_simpl := match goal with |- ?G => let G' := ai_norm G in change G' end.
Ltac ai_run := repeat (progress run_with ai_norm || rewrite run_call); ai_simpl.

Section Handlers.
Context (translator : jstr → jstr).
Context (reply : list (request unit) → ∀ q : io_req unit, io_res AiBody q).

Definition setting_requests (a : Session) : list (request unit) :=
  (fun name => Request (baseURL a.(api) ++ js "/settings/" ++ name) (js "get") (getHeaders a).1 None ∅)
  <$> settings_read.

Definition status_request (a : Session) : request unit := session_request a (js "/ai/status") (js "get") None ∅.

(** The five answers, or the failure that came first. *)
Definition settings_result (st : settled AiBody) : result (list (option AiBody)) :=
  promise_all (fun i => call_result (st_results st i)) 5 (st_order st).

Definition settings_state (st : settled AiBody) (a : Session) : Session :=
  if existsb (fun i => is_401 (st_results st i)) (seq 0 5) then run_unauthorized (getHeaders a).2
  else (getHeaders a).2.

Lemma get_settings_run s log :
  run (history reply) get_settings s log =
    let st := reply log (FetchAll (setting_requests (sess s))) in
    (settings_result st, s <| sess := settings_state st (sess s) |>, log ++ setting_requests (sess s)).
Proof.
  destruct s as [a ? ? ? ? ? ? ? ?]. unfold get_settings, settings_state. rewrite run_bind, take_headers_run.
  unfold after_headers. ai_simpl. rewrite run_bind, run_get, run_bind, run_await_all.
  change (baseURL (api (sess _))) with (baseURL (api a)). fold (setting_requests a).
  rewrite run_bind, run_when. by destruct (existsb _ _); [rewrite run_modify|]; rewrite run_of_result.
Qed.

Lemma loadConfigured_run s log :
  run (history reply) loadConfigured s log =
    let st := reply log (FetchAll (setting_requests (sess s))) in
    let s1 := s <| sess := settings_state st (sess s) |> in
    (match settings_result st with inl e => inl e | inr _ => inr () end,
     match settings_result st with
     | inr [mode; grok; openai; local; legacy] =>
         s1 <| filterMode := str_or (settingValue mode) (js "disabled") |>
            <| hasGrokKey := nonempty grok |> <| hasOpenAIKey := nonempty openai |>
            <| hasLocalURL := nonempty local |> <| hasLegacyURL := nonempty legacy |>
     | _ => s1
     end, log ++ setting_requests (sess s)).
Proof.
  unfold loadConfigured. rewrite run_bind, get_settings_run. cbv zeta.
  destruct (settings_result _) as [e|l] eqn:E; [done|]. apply promise_all_length in E.
  destruct l as [|mode [|grok [|openai [|local [|legacy [|]]]]]]; try done.
Qed.

(** What the race over the probe comes to. *)
Definition raced (o : option (result (response AiBody))) : result StatusSnapshot :=
  match o with
  | None => inl (Error (translator (js "Status check timed out.")))
  | Some o =>
      match call_result o with
      | inl e => inl e
      | inr None => inl (Error (translator (js "The status response was not valid.")))
      | inr (Some body) => inr (b_snapshot body)
      end
  end.

Lemma settled_call_run o (s : Ai) log :
  run (history reply) (settle (r ← of_result o; check_response r) (fun o => Ret (o, None))) s log =
    (inr (call_result o, None : option (request unit)), call_state o s, log).
Proof.
  rewrite run_settle, run_bind, run_of_result. destruct o as [e|r]; [done|]. by rewrite check_response_run.
Qed.

Lemma call_state_sess (o : result (response AiBody)) (s : Ai) : call_state o s = s <| sess := sess (call_state o s) |>.
Proof. unfold call_state. destruct o as [e|r]; [by destruct s|]. by destruct (_ =? 401)%Z; destruct s. Qed.

Lemma withTimeout_run s log :
  run (history reply) (withTimeout translator (js "/ai/status")) s log =
    let q := status_request (sess s) in
    let s1 := s <| sess := (getHeaders (sess s)).2 |> in
    match reply log (Within q) with
    | None => (inr (inl (Error (translator (js "Status check timed out."))), Some q), s1, log ++ [q])
    | Some o => (inr (call_result o, None), s <| sess := sess (call_state o s1) |>, log ++ [q])
    end.
Proof.
  unfold withTimeout, status_request. rewrite run_bind, take_headers_run. unfold after_headers. ai_simpl.
  rewrite run_bind, url_of_run, run_bind. cbn [await run history requests_of].
  ai_simpl. change (Request _ _ _ _ _) with (session_request (P := unit) (sess s) (js "/ai/status") (js "get") None ∅).
  destruct (reply log _) as [o|]; [|done]. rewrite settled_call_run, call_state_sess. by destruct s.
Qed.

(** The session is all that a lost call can touch. *)
Lemma lost_call_run late s log :
  ∃ a, run (history reply) (lost_call late) s log = (inr (), s <| sess := a |>, log).
Proof.
  destruct late as [rq|]; [|exists (sess s); by destruct s]. unfold lost_call. rewrite run_bind.
  cbn [await run history requests_of]. rewrite app_nil_r. destruct (reply log _) as [i o]. cbn [snd].
  rewrite run_settle, run_bind, run_of_result. destruct o as [e|r]; [exists (sess s); by destruct s|].
  rewrite check_response_run, call_state_sess. eexists. reflexivity.
Qed.

(** A refresh reads the five settings at once, then asks for a probe under the
    session they left.  It always ends.  A failed read leaves what was known
    about the configuration; a failed, late or empty probe keeps the
    configuration just read; both drop the old probe and show why.  A probe in
    time replaces the old one, and its mode, where it has one, wins. *)
Theorem refreshStatus_spec s log :
  let '(r, s', log') := run (history reply) (refreshStatus translator) s log in
  let st := reply log (FetchAll (setting_requests (sess s))) in
  let log1 := log ++ setting_requests (sess s) in
  let q := status_request (settings_state st (sess s)) in
  let fallback := translator (js "AI provider status could not be checked.") in
  r = inr () ∧ probing s' = false ∧
  match settings_result st with
  | inl e =>
      log' = log1 ∧ status s' = None ∧ statusError s' = nonempty_message_or e fallback ∧
      filterMode s' = filterMode s ∧ hasGrokKey s' = hasGrokKey s
  | inr [mode; grok; openai; local; legacy] =>
      let read := str_or (settingValue mode) (js "disabled") in
      log' = log1 ++ [q] ∧
      (hasGrokKey s', hasOpenAIKey s', hasLocalURL s', hasLegacyURL s')
        = (nonempty grok, nonempty openai, nonempty local, nonempty legacy) ∧
      match raced (reply log1 (Within q)) with
      | inl e => status s' = None ∧ statusError s' = nonempty_message_or e fallback ∧ filterMode s' = read
      | inr snap => status s' = Some snap ∧ statusError s' = [] ∧ filterMode s' = opt_or (snap_mode snap) read
      end
  | inr _ => False
  end.
Proof.
  destruct s as [a ? ? ? ? ? ? ? ?]. unfold refreshStatus.
  rewrite run_bind, run_modify, run_bind, run_modify, run_bind, run_finally_modify, run_try_catch, run_bind, loadConfigured_run.
  ai_simpl. destruct (settings_result _) as [e|l] eqn:E.
  { unfold probe_failed. ai_run. cbn [run]. ai_run. by split_and!. }
  apply promise_all_length in E. destruct l as [|mode [|grok [|openai [|local [|legacy [|]]]]]]; try done.
  rewrite run_bind, withTimeout_run. ai_simpl. unfold raced.
  destruct (reply _ (Within _)) as [o|].
  - unfold take_snapshot, probe_failed. destruct (call_result o) as [e|[body|]]; ai_run; cbn [run fst snd of_result]; ai_run; cbn [run]; by split_and!.
  - unfold take_snapshot, probe_failed. ai_run. cbn [run fst snd of_result]. ai_run. 
    match goal with |- context [run _ (lost_call ?l) ?st ?w] => destruct (lost_call_run l st w) as [a1 ->] end.
    ai_simpl. by split_and!.
Qed.
End Handlers.

(** The probe that belongs to a provider's name. *)
Definition probe_of (translator : jstr → jstr) (mode : jstr) (s : Ai) : Probe :=
  if bool_decide (mode = js "disabled")
  then MkProbe (js "disabled") (Some (translator (js "Image filtering is off")))
  else if bool_decide (mode = js "grok") then grokProbe translator s
  else if bool_decide (mode = js "chatgpt") then chatgptProbe translator s
  else if bool_decide (mode = js "local") then localProbe translator s
  else notConfigured.

Lemma providerProbe_mode translator s :
  providerProbe translator s =
    probe_of translator (opt_or (status s ≫= snap_mode) (str_or (filterMode s) (js "disabled"))) s.
Proof. done. Qed.

Lemma str_or_nonempty a b : b ≠ [] → str_or a b ≠ [].
Proof. unfold str_or. by destruct a. Qed.

Lemma opt_or_nonempty o b : b ≠ [] → opt_or o b ≠ [].
Proof. destruct o as [a|]; [apply str_or_nonempty|done]. Qed.

Lemma opt_or_again o b : b ≠ [] → opt_or o (str_or (opt_or o b) (js "disabled")) = opt_or o b.
Proof.
  intros Hb. destruct o as [[|c a]|]; simpl; [|done|].
  - unfold str_or at 2. by destruct b.
  - by destruct b.
Qed.

Section Agreement.
Context (translator : jstr → jstr).

(** C38: After a refresh, however it went, the panel names a provider and shows that
    provider's probe. *)
Theorem refresh_agrees reply s log :
  filterMode s ≠ [] →
  let '(_, s', _) := run (history reply) (refreshStatus translator) s log in
  filterMode s' ≠ [] ∧
  status_line translator s' = Some (providerLabel translator (filterMode s'), probe_of translator (filterMode s') s').
Proof.
  intros Hm. pose proof (refreshStatus_spec translator reply s log) as H.
  destruct (run _ _ s log) as [[r s'] log']. destruct H as (_ & Hp & H).
  assert (filterMode s' ≠ [] ∧
    opt_or (status s' ≫= snap_mode) (str_or (filterMode s') (js "disabled")) = filterMode s') as [H1 H2].
  { assert (∀ b, b ≠ [] → str_or b (js "disabled") = b) as Hstr by (by intros []).
    destruct (settings_result _) as [e|[|mode [|grok [|openai [|local [|legacy [|]]]]]]]; try done.
    - destruct H as (_ & -> & _ & -> & _). split; [done|by apply Hstr].
    - destruct H as (_ & _ & H). set (read := str_or _ _) in H.
      assert (read ≠ []) as Hread by by apply str_or_nonempty.
      destruct (raced _ _) as [e|snap]; [destruct H as (-> & _ & ->)|destruct H as (-> & _ & ->)].
      + split; [done|by apply Hstr].
      + split; [by apply opt_or_nonempty|]. by apply opt_or_again. }
  split; [done|]. unfold status_line. rewrite providerProbe_mode, H2, Hp. by destruct (status s').
Qed.

(** While a newly chosen provider is being checked the panel already carries
    its name, but with the probe of the provider before, since the snapshot's
    mode still decides. *)
Theorem provider_status_lags s snap probe :
  status s = Some snap → snap_mode snap = Some (js "grok") → snap_grok snap = Some probe →
  ∃ s' t, advance (modeSaved translator (js "chatgpt")) s = (s', Some t) ∧ probing s' = true ∧
    status_line translator s' = Some (translator (js "ChatGPT"), probe).
Proof.
  intros Hs Hmode Hprobe.
  assert (∀ s', status s' = Some snap → filterMode s' = js "chatgpt" →
    status_line translator s' = Some (translator (js "ChatGPT"), probe)) as Hline.
  { intros s' Hs' Hf. unfold status_line. rewrite providerProbe_mode, Hs', Hf. cbn [mbind option_bind]. rewrite Hmode.
    unfold probe_of, grokProbe, probeFor. rewrite Hs'. cbn [mbind option_bind]. rewrite Hprobe.
    f_equal. }
  destruct s as [a ? ? ? ? ? ? ? ?]. eexists _, _. split; [reflexivity|]. split; [done|]. by apply Hline.
Qed.
End Agreement.

Definition grok_page : Ai :=
  MkAi (apistore [] ∅) (Some (MkSnapshot (Some (js "grok")) (Some (MkProbe (js "ok") None)) None None None))
    false [] (js "grok") true true false false.

(** A server that has no credentials and whose probe fails. *)
Definition unconfigured (l : list (request unit)) (q : io_req unit) : io_res AiBody q :=
  let r := Response 200 (inr []) None
             (inr (Some (MkAiBody None (Some false) (MkSnapshot None None None None None)))) in
  match q return io_res AiBody q with
  | FetchAll _ => Settled (fun _ => inr r) []
  | q => serve (fun _ => inl (Error (js "Failed to fetch"))) q
  end.

Lemma refresh_agrees_witness :
  let '(_, s', _) := run (history unconfigured) (refreshStatus id) grok_page [] in
  status_line id s' ≠ None.
Proof.
  pose proof (refresh_agrees id unconfigured grok_page []) as H.
  destruct (run _ _ _ _) as [[r s'] log']. destruct H as [_ ->]; [done|done].
Defined.

Lemma provider_status_lags_witness :
  ∃ s' : Ai, status_line id s' = Some (js "ChatGPT", MkProbe (js "ok") None).
Proof.
  destruct (provider_status_lags id grok_page _ _ eq_refl eq_refl eq_refl) as (s' & t & _ & _ & H).
  by exists s'.
Defined.
