(* ===== verification/AiView.v ===== *)
(** * The template of the AI page, and the page in the event loop

    The markup of [routes/ai/ai.svelte].  Its settings are
    [ConnectedSettingInput]s, components of their own that call [onSaved] after
    a save. *)

From S2P Require Import Prelude JsString JsAsync Http Api Busy View Layout Ai.
Open Scope js_scope.

Inductive ai_event :=
| Refresh
| CloseStatusError
| ModeSaved (value : jstr)
| FieldSaved (keyName : jstr).

Section View.
Context (translator : jstr → jstr).
#[local] Abbreviation tr s := (translator (js s)).
#[local] Abbreviation handler := (prog Ai (io_res (P := unit) AiBody)).

Definition providerOptions : list (jstr * jstr) := [
  (js "disabled", tr "Disable"); (js "grok", tr "Enable Grok"); (js "chatgpt", tr "Enable ChatGPT");
  (js "local", tr "Enable Local LLM")
].

Definition tag_name (t : tag) : string :=
  match t with
  | Green => "green" | Magenta => "magenta" | Red => "red" | CoolGray => "cool-gray" | GrayTag => "gray"
  end.

Definition probe_tag (probe : Probe) : node ai_event :=
  El "Tag" [lit "type" (tag_name (tagType (probe_state probe)))] [Text (tagLabel translator (probe_state probe))].

(** A setting with [onSaved={refreshStatus}]. *)
Definition setting_input (keyName : string) (title : jstr) (type : string) (helperText : jstr) : node ai_event :=
  El "ConnectedSettingInput" [
    lit "keyName" keyName; Attr "title" title; Attr "labelText" title; lit "type" type;
    Attr "helperText" helperText; On "onSaved" (FieldSaved (js keyName))
  ] [].

Definition provider_panel (s : Ai) : node ai_event :=
  El "section" [] [
    El "div" [] [
      El "h3" [] [Text (tr "Provider")];
      El "p" [] [
        Text (tr "Choose one provider. Selecting a hosted provider sends image content to that service for classification.")
      ];
      El "ConnectedSettingInput" [
        lit "keyName" "ai_image_filtering_mode"; Attr "title" (tr "AI image filtering provider");
        Attr "labelText" (tr "AI image filtering provider"); lit "type" "radio";
        Attr "helperText" (tr "HTTPS inspection must be enabled before GateSentry can inspect image bytes.");
        lit "orientation" "vertical"; Items providerOptions; OnAny "onSaved" ModeSaved
      ] []
    ];
    El "aside" [] [
      El "span" [] [Text (tr "Selected provider status")];
      alt (probing s && bool_decide (status s = None)) [
        El "InlineLoading" [Attr "description" (tr "Checking provider…")] []
      ] [
        El "div" [] [
          El "strong" [] [Text (providerLabel translator (filterMode s))];
          probe_tag (providerProbe translator s)
        ];
        El "p" [] [
          Text (opt_or (probe_detail (providerProbe translator s)) (tr "No additional status detail."))
        ]
      ]
    ]
  ].

Definition configuration (title about : jstr) (probe : Probe) (fields : list (node ai_event)) : list (node ai_event) := [
  El "section" [] [
    El "div" [] [El "div" [] [El "h3" [] [Text title]; El "p" [] [Text about]]; probe_tag probe];
    El "div" [] fields
  ]
].

Definition stored_about : jstr :=
  tr "Credentials stay stored on this GateSentry server and are not returned to the browser.".

Definition grok_view (s : Ai) : list (node ai_event) :=
  configuration (tr "Grok configuration") stored_about (grokProbe translator s) [
    setting_input "ai_grok_api_key" (tr "Grok API key") "password"
      (if hasGrokKey s then tr "A key is saved. Enter a new value only to replace it."
       else tr "Enter an xAI / Grok API key.");
    setting_input "ai_grok_model" (tr "Grok model") "text"
      (tr "Leave empty to use the server default, grok-4.5.")
  ].

Definition chatgpt_view (s : Ai) : list (node ai_event) :=
  configuration (tr "ChatGPT configuration") stored_about (chatgptProbe translator s) [
    setting_input "ai_openai_api_key" (tr "OpenAI API key") "password"
      (if hasOpenAIKey s then tr "A key is saved. Enter a new value only to replace it."
       else tr "Enter an OpenAI API key.");
    setting_input "ai_openai_model" (tr "ChatGPT model") "text"
      (tr "Leave empty to use the server default, gpt-4o-mini.")
  ].

Definition local_view (s : Ai) : list (node ai_event) :=
  configuration (tr "Local LLM configuration")
    (tr "Point GateSentry at an Ollama-compatible HTTP API on a network you trust.") (localProbe translator s) [
    setting_input "ai_local_llm_url" (tr "Local LLM URL") "text" (tr "For example, http://127.0.0.1:11434");
    setting_input "ai_local_llm_model" (tr "Ollama model") "text"
      (tr "Leave empty to use the server default, llava.")
  ].

Definition disabled_view : list (node ai_event) := [
  El "section" [] [
    El "h3" [] [Text (tr "AI image filtering is disabled")];
    El "p" [] [Text (tr "No image content is sent to Grok, ChatGPT, or a local LLM.")]
  ]
].

Definition configuration_view (s : Ai) : node ai_event :=
  alt (bool_decide (filterMode s = js "grok")) (grok_view s) [
    alt (bool_decide (filterMode s = js "chatgpt")) (chatgpt_view s) [
      alt (bool_decide (filterMode s = js "local")) (local_view s) disabled_view
    ]
  ].

Definition advanced_view (s : Ai) : node ai_event :=
  El "section" [] [
    El "h3" [] [Text (tr "Advanced")];
    El "Accordion" [] [
      El "AccordionItem" [Attr "title" (tr "Legacy local scanner")] [
        El "div" [] [
          El "p" [] [
            Text (tr "Optional compatibility path for the original local classifier endpoint. It is separate from the selected provider above.")
          ];
          probe_tag (legacyProbe translator s)
        ];
        shown (truthy (opt_or (probe_detail (legacyProbe translator s)) [])) [
          El "p" [] [Text (opt_or (probe_detail (legacyProbe translator s)) [])]
        ];
        setting_input "ai_scanner_url" (tr "AI service URL") "text"
          (tr "HTTP endpoint that accepts a multipart image upload. Leave empty unless you run the legacy scanner.")
      ]
    ]
  ].

Definition ai_view (s : Ai) : node ai_event :=
  page_shell (tr "AI image filtering")
    (tr "Optionally classify image content seen through HTTPS inspection. External AI processing is disabled by default; images are sent only to the provider you select.")
    false [
    El "div" [] [
      El "Breadcrumb" [] [
        El "BreadcrumbItem" [lit "href" "/"] [Text (tr "Dashboard")];
        El "BreadcrumbItem" [] [Text (tr "AI image filtering")]
      ];
      El "Tag" [lit "type" "red"] [txt "Alpha"]
    ]
  ] (Some [
    El "Button" [lit "kind" "ghost"; Disabled (probing s); On "click" Refresh] [
      Text (if probing s then tr "Checking…" else tr "Refresh status")
    ]
  ]) [
    shown (truthy (statusError s)) [
      El "InlineNotification" [
        lit "kind" "error"; Attr "title" (tr "AI status unavailable"); Attr "subtitle" (statusError s);
        On "close" CloseStatusError
      ] []
    ];
    provider_panel s;
    configuration_view s;
    advanced_view s
  ].

(** ** The event loop *)

Definition on_event (e : ai_event) : handler unit :=
  match e with
  | Refresh | FieldSaved _ => refreshStatus translator
  | CloseStatusError => statusError <~ []
  | ModeSaved value => modeSaved translator value
  end.

Definition initialAi (a : Session) : Ai := MkAi a None false [] (js "disabled") false false false false.

Definition ai_loop (a : Session) :=
  loop_from (fun e s => offers (ai_view s) e) on_event (refreshStatus translator) (initialAi a).
End View.

(** ** What the page offers *)

(** The settings that belong to a provider. *)
Definition fields_of (mode : jstr) : list jstr :=
  if bool_decide (mode = js "grok") then [js "ai_grok_api_key"; js "ai_grok_model"]
  else if bool_decide (mode = js "chatgpt") then [js "ai_openai_api_key"; js "ai_openai_model"]
  else if bool_decide (mode = js "local") then [js "ai_local_llm_url"; js "ai_local_llm_model"]
  else [].

Section Offers.
Context (translator : jstr → jstr).

Lemma setting_input_offers keyName title type helperText e :
  offers (setting_input keyName title type helperText) e ↔ e = FieldSaved (js keyName).
Proof. unfold setting_input. view_simpl. tauto. Qed.

Lemma configuration_offers title about probe fields e :
  any_of (fun n => offers n e) (configuration translator title about probe fields) ↔
  any_of (fun n => offers n e) fields.
Proof. unfold configuration, probe_tag. view_simpl. tauto. Qed.

Lemma configuration_view_offers s e :
  offers (configuration_view translator s) e ↔ ∃ key, e = FieldSaved key ∧ key ∈ fields_of (filterMode s).
Proof.
  assert (∀ k1 k2, e = FieldSaved (js k1) ∨ e = FieldSaved (js k2) ∨ False ↔
    ∃ key, e = FieldSaved key ∧ key ∈ [js k1; js k2]) as Hk.
  { intros k1 k2. setoid_rewrite elem_of_cons. setoid_rewrite list_elem_of_singleton. naive_solver. }
  unfold configuration_view, fields_of. rewrite offers_alt_dec, any_of_single.
  rewrite offers_alt_dec, any_of_single. rewrite offers_alt_dec.
  unfold grok_view, chatgpt_view, local_view. rewrite !configuration_offers. cbn [any_of].
  rewrite !setting_input_offers.
  destruct (decide (filterMode s = js "grok")) as [H|H]; [rewrite (bool_decide_true _ H)|rewrite (bool_decide_false _ H)].
  { rewrite <-Hk. tauto. }
  destruct (decide (filterMode s = js "chatgpt")) as [H1|H1];
    [rewrite (bool_decide_true _ H1)|rewrite (bool_decide_false _ H1)].
  { rewrite <-Hk. tauto. }
  destruct (decide (filterMode s = js "local")) as [H2|H2];
    [rewrite (bool_decide_true _ H2)|rewrite (bool_decide_false _ H2)].
  { rewrite <-Hk. tauto. }
  unfold disabled_view. view_simpl. setoid_rewrite elem_of_nil. naive_solver.
Qed.

(** The fields that can be saved are those of the selected provider and the
    legacy scanner's; the page can be refreshed while it is not probing. *)
Theorem ai_offers s e :
  offers (ai_view translator s) e ↔
  match e with
  | Refresh => probing s = false
  | CloseStatusError => truthy (statusError s) = true
  | ModeSaved _ => True
  | FieldSaved key => key = js "ai_scanner_url" ∨ key ∈ fields_of (filterMode s)
  end.
Proof.
  unfold ai_view. rewrite page_shell_offers. cbn [slot_offers any_of]. rewrite configuration_view_offers.
  unfold provider_panel, advanced_view, probe_tag. view_simpl. rewrite setting_input_offers.
  generalize (js "ai_scanner_url"). intros url. split.
  - intros H. view_destruct; subst; try done; split_bools; auto.
  - destruct e as [| |v|key]; intros H.
    + right. left. rewrite H. view_find.
    + right. right. left. view_find.
    + right. right. right. left. split; [done|]. right. left. split; [done|]. right. do 2 right. left. view_find.
    + destruct H as [->|H].
      * do 5 right. left. split; [done|]. right. right. left. split; [done|]. right. left. split; [done|].
        right. do 2 right. left. done.
      * do 4 right. left. by exists key.
Qed.
End Offers.

(** ** At rest *)

Section Rest.
Context (translator : jstr → jstr).

Lemma refreshStatus_clears s : clears probing (refreshStatus translator) s.
Proof.
  unfold refreshStatus. do 2 (apply clears_settle; apply wp_modify_intro). apply clears_settle, wp_finally_modify.
  eapply wp_mono; [|apply wp_true]. intros o s' _. apply clears_here; [by destruct s'|].
  unfold lost_call. destruct o as [e|late]; [by right|]. settling_run.
  apply eventually_settle, eventually_bystander; [|by right].
  apply (harmless_bystander _ (fun _ => false)). unfold check_response. harmless_run.
Qed.

Lemma ai_event_tame e s : tame probing (on_event translator e) s.
Proof.
  destruct e; [right; apply refreshStatus_clears|left; unfold on_event; settling_run| |right; apply refreshStatus_clears].
  right. unfold on_event, modeSaved. apply clears_settle, wp_modify_intro, refreshStatus_clears.
Qed.

(** However the page is used, with refreshes that overlap, when no more is done
    it receives finitely many answers, and then it does not say that it is
    checking and can be refreshed. *)
Theorem ai_at_rest a s ts :
  ai_loop translator a (s, ts) →
  Acc (flip answer_step) (s, ts) ∧
  ∀ s', rtc answer_step (s, ts) (s', []) → offers (ai_view translator s') Refresh.
Proof.
  intros Hr.
  destruct (page_rests_tame _ _ _ _ _ [probing] Hr) as [Hacc Hrest].
  - apply Forall_cons. split; [|done]. split; [intros e s0 _; apply ai_event_tame|].
    left. apply refreshStatus_clears.
  - split; [exact Hacc|]. intros s' Hs. apply ai_offers. apply Hrest in Hs. by inversion Hs.
Qed.
End Rest.
