(* ===== verification/Toggle.v ===== *)
(** * Switches

    [components/toggle.svelte], a setting that is ["true"] or ["false"], and
    [components/httpsToggle.svelte], the switch of HTTPS inspection, which opens
    the privacy notice before it is switched on. *)

From S2P Require Import Prelude JsString JsAsync Http Api Notifications.
Open Scope js_scope.

Record ToggleBody := MkToggleBody { b_Value : option jstr }.

Inductive TogglePayload := SendSetting (key value : jstr).

(** [settingValue] is [None] when the server's answer has no [Value];
    [modalOpen] is the notice of [httpsToggle.svelte]. *)
Record Toggle := MkToggle {
  sess : Session;
  shown_notifications : list Notification;
  settingName : jstr;
  settingValue : option jstr;
  noNotification : bool;
  modalOpen : bool
}.
#[export] Instance Toggle_eta : Settable Toggle := fun s =>
  MkToggle (sess s) (shown_notifications s) (settingName s) (settingValue s) (noNotification s) (modalOpen s).
#[export] Instance Toggle_session : HasSession Toggle :=
  {| session := sess; on_session f s := s <| sess ::= f |>; session_on_session f s := eq_refl;
     on_session_twice f g s := eq_refl; on_session_const f s := eq_refl |}.
#[export] Instance Toggle_notifications : HasNotifications Toggle :=
  {| shown := shown_notifications; on_shown f s := s <| shown_notifications ::= f |>;
     shown_on_shown f s := eq_refl |}.

#[local] Abbreviation handler := (prog Toggle (io_res (P := TogglePayload) ToggleBody)).

Section Switch.
Context (translator : jstr → jstr).

Definition loadAPIData : handler unit :=
  s ← get;
  json ← doCall (js "/settings/" ++ settingName s) (js "get") None ∅;
  body ← deref json;
  settingValue <~ b_Value body.

(** [loadAPIData()] is not awaited: the notice is added while its request is
    under way, so it comes first here. *)
Definition toggleSettingStatus (preClickEvent : option (handler unit)) : handler unit :=
  match preClickEvent with Some event => event | None => Ret () end ;;
  s ← get;
  _ ← doCall (js "/settings/" ++ settingName s) (js "post")
        (Some (SendSetting (settingName s)
                 (if bool_decide (settingValue s = Some (js "true")) then js "false" else js "true"))) ∅;
  s ← get;
  when (negb (noNotification s))
    (notify (createNotificationSuccess translator
       ((subtitle_only (translator (js "Setting updated"))) <| m_title := Some (translator (js "Success")) |>))) ;;
  loadAPIData.

(** ** httpsToggle.svelte *)

Definition reviewPrivacyBeforeEnable (s : Toggle) : Toggle :=
  if bool_decide (settingValue s = Some (js "false")) then s <| modalOpen := true |> else s.

Definition closeNotice (s : Toggle) : Toggle := s <| modalOpen := false |>.

Definition httpsToggle (a : Session) (l : list Notification) : Toggle :=
  MkToggle a l (js "enable_https_filtering") (Some []) true false.

Definition switchHttps : handler unit := toggleSettingStatus (Some (modify reviewPrivacyBeforeEnable)).
End Switch.

(** The switch is shown once the value is known, and on when it is ["true"]. *)
Definition toggle_view (s : Toggle) : option bool :=
  if bool_decide (settingValue s = Some []) then None
  else Some (bool_decide (settingValue s = Some (js "true"))).

(** ** What the handlers do *)

Ltac toggle_norm st :=
  eval cbv beta iota zeta delta [update_field sess shown_notifications settingName settingValue
    noNotification modalOpen session on_session Toggle_session shown on_shown Toggle_notifications] in st.
Ltac toggle_simpl := match goal with |- ?G => let G' := toggle_norm G in change G' end.
Ltac toggle_run := unfold notify; repeat (progress run_with toggle_norm || rewrite run_call); toggle_simpl.

Section Handlers.
Context (translator : jstr → jstr).
Context (reply : list (request TogglePayload) → ∀ q : io_req TogglePayload, io_res ToggleBody q).

Definition save_request (a : Session) (name value : jstr) : request TogglePayload :=
  session_request a (js "/settings/" ++ name) (js "post") (Some (SendSetting name value)) ∅.
Definition load_request (a : Session) (name : jstr) : request TogglePayload :=
  session_request a (js "/settings/" ++ name) (js "get") None ∅.

(** C39: Switching sends the opposite of the value shown, at once; the notice that
    it opens when inspection is off does not hold the request back.  Accepted,
    the value is read again; refused, the switch keeps the value and the error
    leaves the handler unseen. *)
Theorem switchHttps_spec s log :
  noNotification s = true →
  let '(r, s', log') := run (history reply) (switchHttps translator) s log in
  let value := if bool_decide (settingValue s = Some (js "true")) then js "false" else js "true" in
  let q := save_request (sess s) (settingName s) value in
  let q2 := load_request (session_after (reply log (Fetch q)) (sess s)) (settingName s) in
  modalOpen s' = modalOpen s || bool_decide (settingValue s = Some (js "false")) ∧
  shown_notifications s' = shown_notifications s ∧
  match call_result (reply log (Fetch q)) with
  | inl e => r = inl e ∧ log' = log ++ [q] ∧ settingValue s' = settingValue s
  | inr _ =>
      log' = log ++ [q; q2] ∧
      match call_result (reply (log ++ [q]) (Fetch q2)) with
      | inr (Some body) => r = inr () ∧ settingValue s' = b_Value body
      | inr None => r = inl TypeError ∧ settingValue s' = settingValue s
      | inl e => r = inl e ∧ settingValue s' = settingValue s
      end
  end.
Proof.
  intros Hn. destruct s as [a l name v n m]. simpl in Hn. subst n.
  unfold switchHttps, toggleSettingStatus, reviewPrivacyBeforeEnable, loadAPIData, save_request, load_request.
  toggle_run. case_bool_decide; rewrite ?orb_true_r, ?orb_false_r; toggle_run.
  all: destruct (call_result _) as [e|b]; toggle_run; [by split_and!|]; cbn [negb]; toggle_run.
  all: rewrite <-app_assoc; cbn [app]; destruct (call_result _) as [e|[b2|]]; toggle_run; by split_and!.
Qed.
End Handlers.

(** A server that stores the last value it is sent. *)
Definition stored (initial : jstr) (l : list (request TogglePayload)) : jstr :=
  foldl (fun v q => match rq_body q with Some (SendSetting _ v') => v' | None => v end) initial l.

Definition storing (initial : jstr) (l : list (request TogglePayload)) (q : io_req TogglePayload)
    : io_res ToggleBody q :=
  let r := Response 200 (inr []) None (inr (Some (MkToggleBody (Some (stored initial l))))) in
  serve (fun _ => inr r) q.

Definition https_off : Toggle :=
  (httpsToggle (apistore [] ∅) []) <| settingValue := Some (js "false") |>.

(** Inspection is on at the server while its privacy notice is still open. *)
Lemma switchHttps_spec_witness :
  let '(_, s', log') := run (history (storing (js "false"))) (switchHttps id) https_off [] in
  modalOpen s' = true ∧ stored (js "false") log' = js "true" ∧ toggle_view s' = Some true.
Proof.
  pose proof (switchHttps_spec id (storing (js "false")) https_off [] eq_refl) as H.
  destruct (run _ _ https_off []) as [[r s'] log']. destruct H as (H1 & _ & H2 & _ & H3).
  split; [exact H1|]. split; [by rewrite H2; vm_compute|]. unfold toggle_view. rewrite H3. by vm_compute.
Defined.
