(* ===== verification/ToggleView.v ===== *)
(** * The templates of the switches

    The markup of [components/toggle.svelte], [components/httpsToggle.svelte]
    and the notice [components/privacynotice.svelte] it shows, and the HTTPS
    switch in the event loop. *)

From S2P Require Import Prelude JsString JsAsync Http Api Busy Notifications View Layout Toggle.
Open Scope js_scope.

Inductive toggle_event := Change | CloseNotice.

Section View.
Context (translator : jstr → jstr).
#[local] Abbreviation tr s := (translator (js s)).

Definition privacynotice_view : node toggle_event :=
  El "div" [] [
    El "div" [] [
      El "h3" [] [Text (tr "Privacy Notice for Enabling MITM Filtering")];
      El "h4" [] [txt "Attention System Administrators:"];
      El "p" [] [
        txt "Before enabling the Man-In-The-Middle (MITM) filtering on this proxy server, it is crucial to understand the significant privacy implications this feature holds. Proceed with utmost caution and awareness of the responsibilities involved."
      ];
      El "h4" [] [txt "Privacy Implications:"];
      El "ol" [] [
        El "li" [] [
          El "b" [] [txt "Inspection of Encrypted Traffic:"];
          El "p" [] [
            txt "Enabling MITM filtering allows the inspection and potential modification of encrypted traffic passing through the proxy server. This action inherently accesses the content of communications, possibly revealing sensitive and personal data of users on the network."
          ]
        ];
        El "li" [] [
          El "b" [] [txt "Potential Infringement on Privacy Rights:"];
          El "p" [] [
            txt "Utilizing MITM filtering could inadvertently infringe upon the privacy rights of individuals using the network. It is imperative to have a clear, legitimate purpose and legal grounds for employing this feature, ensuring compliance with applicable laws and regulations regarding data protection and privacy."
          ]
        ]
      ];
      El "h4" [] [txt "Responsibilities:"];
      El "ol" [] [
        El "li" [] [
          El "b" [] [txt "Informed Consent:"];
          El "p" [] [
            txt "Where applicable, obtain informed consent from network users regarding the use of MITM filtering and the associated privacy implications. Transparent communication about the use of this feature is essential to uphold the rights and trust of the individuals involved."
          ]
        ];
        El "li" [] [
          El "b" [] [txt "Secure Data Handling:"];
          El "p" [] [
            txt "Ensure the secure and ethical handling of any accessed data. Implement robust security measures to protect the data from unauthorized access, use, or disclosure."
          ]
        ];
        El "li" [] [
          El "b" [] [txt "Limited Data Access and Use:"];
          El "p" [] [
            txt "Limit the access and use of data obtained through MITM filtering to the specific, intended purpose, avoiding any unnecessary data processing or retention."
          ]
        ]
      ];
      El "h4" [] [txt "Caution:"];
      El "ol" [] [
        El "li" [] [
          El "b" [] [txt "Use with Discretion:"];
          El "p" [] [
            txt "Enable MITM filtering only when absolutely necessary and for a legitimate purpose. Continuously assess the need for this feature, keeping the potential privacy risks at the forefront of consideration."
          ]
        ];
        El "li" [] [
          El "b" [] [txt "Legal Consultation:"];
          El "p" [] [
            txt "It is highly recommended to consult legal counsel to ensure the lawful and compliant use of MITM filtering, safeguarding against potential legal repercussions related to privacy infringement."
          ]
        ]
      ];
      El "p" [] [
        txt "By toggling to enable MITM filtering, you acknowledge the serious privacy considerations involved and affirm your commitment to upholding the highest standards of privacy and data protection in the use of this feature."
      ];
      El "p" [] [
        El "b" [] [txt "Note:"];
        txt "Adjust the notice to align with your organization's policies and ensure it adheres to the relevant legal standards in your jurisdiction."
      ]
    ]
  ].

(** [components/toggle.svelte]. *)
Definition toggle_node (label labelA labelB : jstr) (hide : bool) (s : Toggle) : node toggle_event :=
  shown (negb hide) [
    El "span" [] [
      match toggle_view s with
      | None => El "Loading" [] []
      | Some toggled =>
          El "Toggle" [
            Attr "labelText" label; Attr "labelA" labelA; Attr "labelB" labelB;
            Flag "toggled" toggled; On "change" Change
          ] []
      end
    ]
  ].

(** [components/httpsToggle.svelte]. *)
Definition httpsToggle_view (s : Toggle) : node toggle_event :=
  El "div" [] [
    toggle_node (tr "HTTPS inspection (decrypts traffic; needs the GateSentry certificate on each device)")
      (tr "Disabled") (tr "Enabled") false s;
    El "p" [] [
      Text (tr "Only enable inspection after reviewing the privacy notice and installing the GateSentry certificate on protected devices.")
    ];
    El "ComposedModal" [Open (modalOpen s); On "close" CloseNotice] [
      El "ModalHeader" [Attr "label" (tr "HTTPS inspection"); Attr "title" (tr "Privacy notice")] [];
      El "ModalBody" [] [privacynotice_view];
      El "ModalFooter" [Attr "secondaryButtonText" (tr "Close"); On "click:button--secondary" CloseNotice] []
    ]
  ].

Definition on_event (e : toggle_event) : prog Toggle (io_res (P := TogglePayload) ToggleBody) unit :=
  match e with
  | Change => switchHttps translator
  | CloseNotice => modify closeNotice
  end.

Definition https_loop (a : Session) (l : list Notification) :=
  loop_from (fun e s => offers (httpsToggle_view s) e) on_event loadAPIData (httpsToggle a l).
End View.

(** ** What the switch offers *)

Section Offers.
Context (translator : jstr → jstr).

Lemma privacynotice_offers e : offers (privacynotice_view translator) e ↔ False.
Proof. unfold privacynotice_view. view_simpl. tauto. Qed.

Theorem httpsToggle_offers s e :
  offers (httpsToggle_view translator s) e ↔
  match e with Change => settingValue s ≠ Some [] | CloseNotice => modalOpen s = true end.
Proof.
  unfold httpsToggle_view, toggle_node, toggle_view. case_bool_decide; view_simpl; rewrite privacynotice_offers;
    destruct e, (modalOpen s); simpl; naive_solver.
Qed.

Lemma switch_starts s :
  ∃ s' t, advance (on_event translator Change) s = (s', Some t) ∧ settingValue s' = settingValue s ∧
    settingName s' = settingName s ∧ th_request t = Fetch (save_request (sess s) (settingName s)
      (if bool_decide (settingValue s = Some (js "true")) then js "false" else js "true")).
Proof.
  destruct s as [a l n v noN m]. unfold on_event, switchHttps, toggleSettingStatus, reviewPrivacyBeforeEnable.
  do 2 eexists. split; [reflexivity|].
  cbn [settingValue]. split_and!; case_bool_decide; reflexivity.
Qed.

(** Pressing the switch twice before the first change is answered sends the
    same value twice: the second press does not undo the first. *)
Theorem double_press_sends_twice a l s ts :
  https_loop translator a l (s, ts) → settingValue s ≠ Some [] →
  ∃ s' t1 t2 q1 q2, https_loop translator a l (s', ts ++ [t1; t2]) ∧
    th_request t1 = Fetch q1 ∧ th_request t2 = Fetch q2 ∧ rq_body q1 = rq_body q2 ∧ rq_method q1 = js "post".
Proof.
  intros Hr Hv. destruct (switch_starts s) as (s1 & t1 & Ha1 & Hv1 & Hn1 & Hq1).
  destruct (switch_starts s1) as (s2 & t2 & Ha2 & Hv2 & Hn2 & Hq2).
  do 5 eexists. split; [|split; [exact Hq1|split; [exact Hq2|split; [|reflexivity]]]].
  - change [t1; t2] with ([t1] ++ [t2]). rewrite app_assoc.
    eapply (loop_event _ _ Change); [|by apply httpsToggle_offers; rewrite Hv1|exact Ha2].
    eapply (loop_event _ _ Change); [exact Hr|by apply httpsToggle_offers|exact Ha1].
  - unfold save_request, session_request. cbn. by rewrite Hv1, Hn1.
Qed.
End Offers.

Lemma double_press_sends_twice_witness :
  ∃ s ts, https_loop (fun t => t) (apistore [] ∅) [] (s, ts) ∧ length ts = 2.
Proof.
  destruct (double_press_sends_twice (fun t => t) (apistore [] ∅) []
    (run (history (storing (js "false"))) loadAPIData (httpsToggle (apistore [] ∅) []) []).1.2 [])
    as (s & t1 & t2 & q1 & q2 & H & _); [apply loop_from_run|by vm_compute|].
  by exists s, ([] ++ [t1; t2]).
Defined.
