(* ===== verification/FilterPage.v ===== *)
(** * The inspection list pages

    [routes/filter/filter.svelte]: the four lists of the HTTPS inspection, each
    with its own address and its own filter of the server, and the state of the
    inspection that decides which note is shown above them. *)

From S2P Require Import Prelude JsString JsAsync Http Api Navigation App.
Open Scope js_scope.

Inductive InspectionType := BlockedFileTypes | BlockedKeywords | ExcludeUrls | ExcludeHosts.
#[export] Instance InspectionType_eq_dec : EqDecision InspectionType.
Proof. solve_decision. Defined.

Definition inspection_types : list InspectionType :=
  [BlockedKeywords; BlockedFileTypes; ExcludeHosts; ExcludeUrls].

(** Without the texts of a page. *)
Record RouteConfiguration := MkConfiguration {
  path : jstr;
  filterId : jstr;
  showColumns : option (list jstr);
  warnsWhenDisabled : bool
}.

Definition routes (type : InspectionType) : RouteConfiguration :=
  let content_only := Some [js "content"; js "actions"] in
  match type with
  | BlockedKeywords => MkConfiguration (js "/blockedkeywords") (js "bVxTPTOXiqGRbhF") None true
  | BlockedFileTypes => MkConfiguration (js "/blockedfiletypes") (js "JHGJiwjkGOeglsk") content_only true
  | ExcludeHosts => MkConfiguration (js "/excludehosts") (js "CeBqssmRbqXzbHR") content_only false
  | ExcludeUrls => MkConfiguration (js "/excludeurls") (js "JHGJiwjkGOeglsd") content_only true
  end.

(** The columns given to the editor. *)
Definition columns (type : InspectionType) : list jstr :=
  default [js "content"; js "score"; js "actions"] (showColumns (routes type)).

(** The value of the [type] property, as [App.svelte] writes it. *)
Definition type_name (type : InspectionType) : jstr :=
  match type with
  | BlockedKeywords => js "blockedkeywords"
  | BlockedFileTypes => js "blockedfiletypes"
  | ExcludeHosts => js "excludehosts"
  | ExcludeUrls => js "excludeurls"
  end.

Record InspectionBody := MkInspectionBody { b_Value : option jstr }.

Record FilterPage := MkFilterPage {
  sess : Session;
  type : InspectionType;
  inspectionOn : option bool;
  inspectionError : jstr
}.
#[export] Instance FilterPage_eta : Settable FilterPage := fun s =>
  MkFilterPage (sess s) (type s) (inspectionOn s) (inspectionError s).
#[export] Instance FilterPage_session : HasSession FilterPage :=
  {| session := sess; on_session f s := s <| sess ::= f |>; session_on_session f s := eq_refl;
     on_session_twice f g s := eq_refl; on_session_const f s := eq_refl |}.

#[local] Abbreviation handler := (prog FilterPage (io_res (P := unit) InspectionBody)).

Section Page.
Context (translator : jstr → jstr).

Definition loadInspectionState : handler unit :=
  inspectionError <~ [] ;;
  try_catch
    (json ← doCall (js "/settings/enable_https_filtering") (js "get") None ∅;
     inspectionOn <~ Some (bool_decide ((json ≫= b_Value) = Some (js "true"))))
    (fun caught =>
       inspectionOn <~ None ;;
       inspectionError <~ nonempty_message_or caught
         (translator (js "HTTPS inspection status could not be checked."))).
End Page.

Inductive note := CheckingNote | OffNote | UnavailableNote | NoNote.

Definition note_of (s : FilterPage) : note :=
  let warns := warnsWhenDisabled (routes (type s)) in
  if warns && bool_decide (inspectionOn s = None) && negb (truthy (inspectionError s)) then CheckingNote
  else if warns && bool_decide (inspectionOn s = Some false) then OffNote
  else if truthy (inspectionError s) then UnavailableNote
  else NoNote.

(** ** Properties *)

(** Every list has its own filter at the server, its address is served by the
    page of its own type, and only the scored list has a score column. *)
Theorem inspection_pages ty :
  page_of (path (routes ty)) = Some (js "Filter " ++ type_name ty) ∧
  (js "score" ∈ columns ty ↔ ty = BlockedKeywords) ∧
  ∀ ty', filterId (routes ty') = filterId (routes ty) ∨ path (routes ty') = path (routes ty) → ty' = ty.
Proof.
  split_and!.
  - by destruct ty; vm_compute.
  - rewrite <-includes_spec. by destruct ty; vm_compute; split.
  - intros ty' [H|H]; revert H; by destruct ty, ty'; vm_compute.
Qed.

Section Handlers.
Context (translator : jstr → jstr).
Context (reply : list (request unit) → ∀ q : io_req unit, io_res InspectionBody q).

(** When the state has been asked for, the page warns that a list has no effect
    on encrypted traffic exactly when inspection is off and the list is one
    that depends on it; a failed call is reported on every list. *)
Theorem inspection_note s log :
  (∀ t, translator t = [] → t = []) →
  let '(r, s', log') := run (history reply) (loadInspectionState translator) s log in
  let q := session_request (sess s) (js "/settings/enable_https_filtering") (js "get") None ∅ in
  r = inr () ∧ log' = log ++ [q] ∧ type s' = type s ∧
  match call_result (reply log (Fetch q)) with
  | inl _ => note_of s' = UnavailableNote ∧ inspectionOn s' = None
  | inr json =>
      note_of s' = (if warnsWhenDisabled (routes (type s))
                       && bool_decide ((json ≫= b_Value) ≠ Some (js "true")) then OffNote else NoNote)
  end.
Proof.
  intros Ht. destruct s as [a ty on err]. unfold loadInspectionState.
  rewrite run_bind, run_modify, run_try_catch, run_bind, run_call. cbv zeta. cbn [session FilterPage_session sess update_field].
  destruct (call_result _) as [e|json].
  - rewrite run_bind, !run_modify. split_and!; try done. unfold note_of. simpl.
    assert (truthy (nonempty_message_or e (translator (js "HTTPS inspection status could not be checked."))) = true) as Hm.
    { unfold nonempty_message_or. destruct (is_Error e && truthy (message e)) eqn:E.
      - by apply andb_true_iff in E as [_ ->].
      - apply truthy_true. intros [=]%Ht. }
    rewrite Hm. by destruct (warnsWhenDisabled _).
  - rewrite run_modify. split_and!; try done. unfold note_of. simpl.
    destruct (warnsWhenDisabled _); simpl; [|done].
    destruct (decide ((json ≫= b_Value) = Some (js "true"))) as [E|E].
    + rewrite (bool_decide_true _ E). by rewrite (bool_decide_false (_ ≠ _)) by tauto.
    + rewrite (bool_decide_false _ E). by rewrite (bool_decide_true (_ ≠ _)).
Qed.
End Handlers.

Lemma inspection_note_witness :
  let reply := fun _ => serve (fun _ => inr (Response 200 (inr []) None
    (inr (Some (MkInspectionBody (Some (js "false"))))))) in
  let '(_, s', _) := run (history reply) (loadInspectionState id)
                       (MkFilterPage (apistore [] ∅) BlockedKeywords None []) [] in
  note_of s' = OffNote.
Proof.
  intros reply.
  pose proof (inspection_note id reply (MkFilterPage (apistore [] ∅) BlockedKeywords None []) [] (fun _ H => H)) as H.
  destruct (run _ _ _ _) as [[r s'] log']. by destruct H as (_ & _ & _ & ->).
Defined.
