(* ===== verification/FilterPageView.v ===== *)
(** * The template of the inspection list pages

    The markup and the texts of [routes/filter/filter.svelte]; the editor of
    the list and the strictness setting are leaves. *)

From S2P Require Import Prelude JsString JsAsync Http Api View Layout FilterPage.
Open Scope js_scope.

Inductive page_event := Go (path : jstr) | CloseError.

(** The texts of a [RouteConfiguration]. *)
Record RouteTexts := MkTexts {
  label : string;
  title : string;
  description : string;
  sectionTitle : string;
  sectionDescription : string
}.

Definition route_texts (ty : InspectionType) : RouteTexts :=
  match ty with
  | BlockedKeywords =>
      MkTexts "Blocked keywords" "Blocked keywords"
        "Score words found in inspected HTTP and HTTPS response content." "Keyword scores"
        "GateSentry totals matching scores and blocks the response when the filtering strictness threshold is reached."
  | BlockedFileTypes =>
      MkTexts "Blocked content types" "Blocked content types"
        "Block inspected proxy responses by their MIME content type." "Content types"
        "Entries apply to every device using the proxy. Use a policy rule when a content type should apply only to selected devices."
  | ExcludeHosts =>
      MkTexts "Sites not inspected" "Sites not inspected"
        "Pass selected HTTPS hosts through without decrypting their traffic." "Host exclusions"
        "Add apps or sites that fail under inspection, such as certificate-pinning services. Policies can still block these hosts by domain."
  | ExcludeUrls =>
      MkTexts "URLs not inspected" "URLs not inspected"
        "Exclude selected request URLs from content filtering after the connection is inspected." "URL exclusions"
        "Use narrowly scoped URLs for content that should bypass response filtering. Use Sites not inspected when the TLS connection itself must not be decrypted."
  end.

(** [Object.values(routes)]. *)
Definition all_routes : list InspectionType := [BlockedKeywords; BlockedFileTypes; ExcludeHosts; ExcludeUrls].

Section View.
Context (translator : jstr → jstr).
#[local] Abbreviation tr s := (translator (js s)).

Definition navigation_view (s : FilterPage) : node page_event :=
  El "nav" [Attr "aria-label" (tr "HTTPS inspection sections")] [
    each all_routes (fun ty => [
      El "Button" [
        lit "kind" (if bool_decide (path (routes ty) = path (routes (type s))) then "primary" else "ghost");
        On "click" (Go (path (routes ty)))
      ] [Text (tr (label (route_texts ty)))]
    ])
  ].

Definition note_view (s : FilterPage) : node page_event :=
  match note_of s with
  | CheckingNote => El "InlineLoading" [Attr "description" (tr "Checking HTTPS inspection…")] []
  | OffNote =>
      El "InlineNotification" [
        lit "kind" "warning"; Flag "hideCloseButton" true; Attr "title" (tr "HTTPS inspection is off");
        Attr "subtitle" (tr "This list applies to plain HTTP traffic only until HTTPS inspection is enabled in Settings and the GateSentry certificate is installed on each device. Use Policies to block whole domains.")
      ] []
  | UnavailableNote =>
      El "InlineNotification" [
        lit "kind" "info"; Attr "title" (tr "Inspection status unavailable"); Attr "subtitle" (inspectionError s);
        On "close" CloseError
      ] []
  | NoNote => Frag []
  end.

Definition strictness_view (s : FilterPage) : node page_event :=
  shown (bool_decide (type s = BlockedKeywords)) [
    section_panel (tr "Filtering strictness")
      (tr "Set the total keyword score at which GateSentry blocks an inspected page. For example, two matches scored 1,000 reach a threshold of 2,000.")
      [] None [
      El "ConnectedSettingInput" [
        lit "keyName" "strictness"; Attr "title" (tr "Filtering strictness"); Attr "labelText" (tr "Filtering strictness");
        lit "type" "number"; Attr "helperText" (tr "Lower thresholds block pages after fewer or lower-scored matches.")
      ] []
    ]
  ].

Definition filter_view (s : FilterPage) : node page_event :=
  let configuration := route_texts (type s) in
  page_shell (tr (title configuration)) (tr (description configuration)) false [
    El "Breadcrumb" [] [
      El "BreadcrumbItem" [lit "href" "/"] [Text (tr "Dashboard")];
      El "BreadcrumbItem" [] [Text (tr "HTTPS inspection")];
      El "BreadcrumbItem" [] [Text (tr (label configuration))]
    ]
  ] None [
    navigation_view s;
    note_view s;
    strictness_view s;
    section_panel (tr (sectionTitle configuration)) (tr (sectionDescription configuration)) [] None [
      El "Filtereditor" [Attr "filterId" (filterId (routes (type s))); Ids "showColumns" (columns (type s))] []
    ]
  ].

(** Every list is one click away from every other, and the report of a failed
    read can be closed. *)
Theorem filter_offers s e :
  offers (filter_view s) e ↔
  match e with
  | Go h => ∃ ty, h = path (routes ty)
  | CloseError => note_of s = UnavailableNote
  end.
Proof.
  unfold filter_view. rewrite page_shell_offers. cbn [slot_offers any_of].
  unfold strictness_view, navigation_view, note_view. cbn [offers any_of]. rewrite !section_panel_offers.
  cbn [slot_offers]. view_simpl. split.
  - intros H. view_destruct; subst; eauto; destruct (note_of s); revert H; view_simpl; intros H; view_destruct;
      by subst.
  - destruct e as [h|]; intros H; right; right.
    + left. split; [done|]. right. left. destruct H as [ty ->]. exists ty. split; [destruct ty; set_solver|].
      left. split; [done|]. left. left. by split.
    + right. left. rewrite H. view_simpl. view_find.
Qed.
End View.
